(** * Orbit timeline tracks: timer index, neighbour queries and projection

    A shallow embedding of [OrbitGl/GpuTrack.{h,cpp}] and
    [OrbitGl/ThreadTrack.cpp]: the depth-indexed timer store filled by
    [OnTimer], the linear-scan queries [GetFirstAfterTime] and
    [GetFirstBeforeTime], the colour policy [GetTimerColor], the vertical
    placement [GetYFromDepth] and the per-frame projection
    [UpdatePrimitives].

    Machine integers are [Z] with the wrap-around written out; C++ [float]
    and [double] are IEEE-754 binary32 and binary64 values computed with the
    reference operations of [SpecFloat] (round to nearest, ties to even). *)

From Stdlib Require Import ZArith List String Bool Lia.
From Stdlib Require Import Floats.SpecFloat.
From Stdlib Require Import DecimalString.
From Stdlib Require Import Sorting.Sorted.
From Stdlib Require Import Sorting.Permutation.
Import ListNotations.

Open Scope list_scope.
Open Scope Z_scope.

(* ================================================================= *)
(** ** Machine integers *)

Definition u8  (x : Z) : Z := x mod 2 ^ 8.
Definition u32 (x : Z) : Z := x mod 2 ^ 32.
Definition u64 (x : Z) : Z := x mod 2 ^ 64.

(** Conversion to the 32-bit [int] that keys [std::map<int, ...>]. *)
Definition to_int (x : Z) : Z :=
  let y := u32 x in if y <? 2 ^ 31 then y else y - 2 ^ 32.

(** [std::numeric_limits<uint64_t>::max()] and [::min()]. *)
Definition UINT64_MAX : Z := 2 ^ 64 - 1.
Definition UINT64_MIN : Z := 0.

(* ================================================================= *)
(** ** IEEE-754 arithmetic

    [float] is binary32 (24-bit significand), [double] is binary64. *)

(** Truncation toward zero of a finite value, as a float-to-integer
    [static_cast] does; non-finite values have no defined result in C++ and
    are mapped to [0]. *)
Definition SFtrunc (x : spec_float) : Z :=
  match x with
  | S754_finite s m e =>
      let a := match e with
               | Z0 => Zpos m
               | Zpos _ => Zpos m * 2 ^ e
               | Zneg _ => Zpos m / 2 ^ (- e)
               end in
      if s then - a else a
  | _ => 0
  end.

Module F32.
Definition prec : Z := 24.
Definition emax : Z := 128.
Definition t : Type := spec_float.
Definition add : t -> t -> t := SFadd prec emax.
Definition sub : t -> t -> t := SFsub prec emax.
Definition mul : t -> t -> t := SFmul prec emax.
Definition div : t -> t -> t := SFdiv prec emax.
Definition ltb : t -> t -> bool := SFltb.
(** Integer-to-float conversion (rounds above 2^24). *)
Definition of_Z (z : Z) : t := binary_normalize prec emax z 0 false.
(** [m * 2^e] rounded to binary32. *)
Definition make (m e : Z) : t := binary_normalize prec emax m e false.
(** [std::max(a, b)] is [(a < b) ? b : a]. *)
Definition max (a b : t) : t := if ltb a b then b else a.
(** [static_cast<uint8_t>(x)]. *)
Definition to_u8 (x : t) : Z := u8 (SFtrunc x).
Definition zero : t := S754_zero false.
End F32.

Module F64.
Definition prec : Z := 53.
Definition emax : Z := 1024.
Definition t : Type := spec_float.
Definition add : t -> t -> t := SFadd prec emax.
Definition sub : t -> t -> t := SFsub prec emax.
Definition mul : t -> t -> t := SFmul prec emax.
Definition div : t -> t -> t := SFdiv prec emax.
Definition ltb : t -> t -> bool := SFltb.
(** [a > b] *)
Definition gtb (a b : t) : bool := SFltb b a.
Definition of_Z (z : Z) : t := binary_normalize prec emax z 0 false.
Definition make (m e : Z) : t := binary_normalize prec emax m e false.
Definition one : t := of_Z 1.
Definition zero : t := S754_zero false.
(** Widening [float] to [double] is exact. *)
Definition of_f32 (x : F32.t) : t :=
  match x with
  | S754_finite s m e => binary_round prec emax s m e
  | _ => x
  end.
(** [static_cast<float>(double)] rounds to the nearest binary32 value. *)
Definition to_f32 (x : t) : F32.t :=
  match x with
  | S754_finite s m e => binary_round F32.prec F32.emax s m e
  | _ => x
  end.
End F64.

(* ================================================================= *)
(** ** Data model *)

(** [orbit_client_protos::TimerInfo::Type] *)
Inductive TimerType : Type :=
| kNone
| kCoreActivity
| kIntrospection
| kGpuActivity.

Definition TimerType_eqb (a b : TimerType) : bool :=
  match a, b with
  | kNone, kNone | kCoreActivity, kCoreActivity
  | kIntrospection, kIntrospection | kGpuActivity, kGpuActivity => true
  | _, _ => false
  end.

(** The fields of [TimerInfo] read by the two tracks. [start], [end] and
    [user_data_key], [function_address] are [uint64]; [depth] is [uint32];
    [thread_id] is [int32]. *)
Record TimerInfo : Type := mkTimerInfo {
  start : Z;
  end_ : Z;
  depth : Z;
  thread_id : Z;
  user_data_key : Z;
  function_address : Z;
  type : TimerType
}.

Definition wf_timer (ti : TimerInfo) : Prop :=
  0 <= start ti < 2 ^ 64 /\ 0 <= end_ ti < 2 ^ 64 /\ 0 <= depth ti < 2 ^ 32.

(** [Color] is four [unsigned char] channels. *)
Record Color : Type := mkColor { cr : Z; cg : Z; cb : Z; ca : Z }.

Definition wf_color (c : Color) : Prop :=
  0 <= cr c < 256 /\ 0 <= cg c < 256 /\ 0 <= cb c < 256 /\ 0 <= ca c < 256.

Definition Vec2 : Type := (F32.t * F32.t)%type.

Record TextBox : Type := mkTextBox {
  tb_pos : Vec2;
  tb_size : Vec2;
  tb_text : string;
  tb_color : Color;
  tb_timer_info : TimerInfo;
  tb_elapsed_time_text_length : Z
}.

Definition GetTimerInfo (b : TextBox) : TimerInfo := tb_timer_info b.
Definition GetPos (b : TextBox) : Vec2 := tb_pos b.
Definition GetSize (b : TextBox) : Vec2 := tb_size b.
Definition GetPosY (b : TextBox) : F32.t := snd (tb_pos b).
Definition GetText (b : TextBox) : string := tb_text b.
Definition GetElapsedTimeTextLength (b : TextBox) : Z :=
  tb_elapsed_time_text_length b.

Definition SetTimerInfo (ti : TimerInfo) (b : TextBox) : TextBox :=
  mkTextBox (tb_pos b) (tb_size b) (tb_text b) (tb_color b) ti
            (tb_elapsed_time_text_length b).

Definition SetPos (p : Vec2) (b : TextBox) : TextBox :=
  mkTextBox p (tb_size b) (tb_text b) (tb_color b) (tb_timer_info b)
            (tb_elapsed_time_text_length b).

Definition SetSize (s : Vec2) (b : TextBox) : TextBox :=
  mkTextBox (tb_pos b) s (tb_text b) (tb_color b) (tb_timer_info b)
            (tb_elapsed_time_text_length b).

Definition SetText (s : string) (b : TextBox) : TextBox :=
  mkTextBox (tb_pos b) (tb_size b) s (tb_color b) (tb_timer_info b)
            (tb_elapsed_time_text_length b).

Definition SetElapsedTimeTextLength (n : Z) (b : TextBox) : TextBox :=
  mkTextBox (tb_pos b) (tb_size b) (tb_text b) (tb_color b) (tb_timer_info b)
            n.

(** The [TextBox] built at the head of [OnTimer]:
    [TextBox text_box(Vec2(0, 0), Vec2(0, 0), "", Color(255, 0, 0, 255))]
    followed by [SetTimerInfo]. *)
Definition fresh_text_box (ti : TimerInfo) : TextBox :=
  SetTimerInfo ti
    (mkTextBox (F32.zero, F32.zero) (F32.zero, F32.zero) EmptyString
               (mkColor 255 0 0 255) ti 0).

(* ----------------------------------------------------------------- *)
(** *** Timer chains *)

(** Modelled from the spec: [TimerBlock], [TimerChain] and
    [TimerChainIterator] are declared in a header that is not part of the
    sources at hand.  The spec describes a depth bucket as an ordered,
    append-only sequence of records segmented into fixed-capacity blocks,
    each block knowing the [min, max] time range of its own records, and a
    block as skipped when that range does not intersect the query window. *)
Definition TimerBlock : Type := list TextBox.
Definition TimerChain : Type := list TimerBlock.

Definition block_min_timestamp (b : TimerBlock) : Z :=
  fold_left (fun m x => Z.min (start (GetTimerInfo x)) m) b UINT64_MAX.

Definition block_max_timestamp (b : TimerBlock) : Z :=
  fold_left (fun m x => Z.max (end_ (GetTimerInfo x)) m) b UINT64_MIN.

Definition Intersects (b : TimerBlock) (min max : Z) : bool :=
  (min <=? block_max_timestamp b) && (max >=? block_min_timestamp b).

(** Appending fills the last block up to [kBlockSize] records and then
    opens a new block. *)
Fixpoint push_back (kBlockSize : nat) (c : TimerChain) (x : TextBox)
  : TimerChain :=
  match c with
  | [] => [[x]]
  | [b] => if Nat.ltb (List.length b) kBlockSize then [b ++ [x]] else [b; [x]]
  | b :: rest => b :: push_back kBlockSize rest x
  end.

(** All records of a chain in iteration order: blocks in order, index [k]
    ascending inside each block. *)
Definition chain_boxes (c : TimerChain) : list TextBox := List.concat c.

(* ----------------------------------------------------------------- *)
(** *** [std::map<int, std::shared_ptr<TimerChain>>]

    An association list kept in ascending key order, which is the order in
    which [for (auto& pair : timers_)] visits it.  A stored [None] is a null
    [shared_ptr]. *)
Definition TimerMap : Type := list (Z * option TimerChain).

Fixpoint map_find (k : Z) (m : TimerMap) : option (option TimerChain) :=
  match m with
  | [] => None
  | (k', v) :: rest => if k =? k' then Some v else map_find k rest
  end.

Fixpoint map_set (k : Z) (v : option TimerChain) (m : TimerMap) : TimerMap :=
  match m with
  | [] => [(k, v)]
  | (k', v') :: rest =>
      if k <? k' then (k, v) :: m
      else if k =? k' then (k, v) :: rest
      else (k', v') :: map_set k v rest
  end.

(** [timers_[key]] as an rvalue: the stored pointer, or null for a key that
    was absent (which [operator[]] then inserts as null). *)
Definition map_index (k : Z) (m : TimerMap) : option TimerChain :=
  match map_find k m with
  | Some v => v
  | None => None
  end.

(* ----------------------------------------------------------------- *)
(** *** The linear scans shared, line for line, by both tracks *)

(** [for (it ...) for (k ...) if (start > time) return &text_box;]
    then [return nullptr]. *)
Fixpoint first_after_in_block (time : Z) (b : TimerBlock) : option TextBox :=
  match b with
  | [] => None
  | text_box :: rest =>
      if start (GetTimerInfo text_box) >? time then Some text_box
      else first_after_in_block time rest
  end.

Fixpoint first_after_in_chain (time : Z) (c : TimerChain) : option TextBox :=
  match c with
  | [] => None
  | b :: rest =>
      match first_after_in_block time b with
      | Some x => Some x
      | None => first_after_in_chain time rest
      end
  end.

(** The inner loop of [GetFirstBeforeTime] either executes
    [return text_box;] or falls out of the block with an updated
    [text_box]. *)
Inductive scan_exit : Type :=
| Returned (r : option TextBox)
| FellThrough (text_box : option TextBox).

Fixpoint first_before_in_block (time : Z) (text_box : option TextBox)
  (b : TimerBlock) : scan_exit :=
  match b with
  | [] => FellThrough text_box
  | box :: rest =>
      if start (GetTimerInfo box) >? time then Returned text_box
      else first_before_in_block time (Some box) rest
  end.

(** After the last block the function executes [return nullptr;]. *)
Fixpoint first_before_in_chain (time : Z) (text_box : option TextBox)
  (c : TimerChain) : option TextBox :=
  match c with
  | [] => None
  | b :: rest =>
      match first_before_in_block time text_box b with
      | Returned r => r
      | FellThrough text_box' => first_before_in_chain time text_box' rest
      end
  end.

(* ================================================================= *)
(** ** Abnormal termination *)

(** A call either returns, or stops on an integer division by zero, or on a
    failed [CHECK]. *)
Inductive result (A : Type) : Type :=
| Ok (a : A)
| DivisionByZero
| CheckFailed.

Arguments Ok {A} a.
Arguments DivisionByZero {A}.
Arguments CheckFailed {A}.

Definition bind {A B : Type} (c : result A) (k : A -> result B) : result B :=
  match c with
  | Ok a => k a
  | DivisionByZero => DivisionByZero
  | CheckFailed => CheckFailed
  end.

Declare Scope result_scope.
Delimit Scope result_scope with result.
Notation "x <- c ;; k" := (bind c (fun x => k))
  (at level 61, c at next level, right associativity) : result_scope.
Notation "' p <- c ;; k" := (bind c (fun x => let p := x in k))
  (at level 61, p pattern, c at next level, right associativity)
  : result_scope.

Definition returns {A : Type} (c : result A) : Prop := exists a, c = Ok a.

(* ================================================================= *)
(** ** Collaborators

    Everything the tracks read from [TimeGraph], [GlCanvas],
    [TimeGraphLayout], [StringManager], [Capture] and the profiling helpers.
    These are read-only for one call of [UpdatePrimitives]. *)

(** A [TextBox*] into the storage of the current track: map key, block
    number, index in the block.  Blocks are append-only, so the position of a
    record never changes. *)
Definition BoxRef : Type := (Z * nat * nat)%type.

Definition BoxRef_eqb (a b : BoxRef) : bool :=
  let '(ka, ba, ia) := a in
  let '(kb, bb, ib) := b in
  (ka =? kb) && Nat.eqb ba bb && Nat.eqb ia ib.

Record FunctionInfo : Type := mkFunctionInfo {
  display_name : string;
  loaded_module_name : string
}.

(** A call that the [EventTrack] embedded in a thread track makes on the
    batcher while it updates its own primitives.  [EventTrack] is outside
    these sources: nothing is known of such a call, not even whether it is a
    box or a line, so it is an opaque token. *)
Inductive EventTrackCall : Type :=
| mkEventTrackCall (token : Z).

Record Env : Type := mkEnv {
  (* TimeGraphLayout *)
  GetTextBoxHeight : F32.t;
  GetEventTrackHeight : F32.t;
  GetSpaceBetweenTracksAndThread : F32.t;
  GetTextOffset : F32.t;
  GetTrackBottomMargin : F32.t;
  (* GlCanvas *)
  GetWorldTopLeftX : F32.t;
  GetWorldWidth : F32.t;
  getWidth : Z;                          (* int *)
  GetSceneBoxPosX : F32.t;
  Z_VALUE_BOX_ACTIVE : F32.t;
  Z_VALUE_TEXT : F32.t;
  (* TimeGraph *)
  GetTimeWindowUs : F64.t;
  GetMinTimeUs : F64.t;
  GetUsFromTick : Z -> F64.t;
  GetTickFromUs : F64.t -> Z;
  GetThreadColor : Z -> Color;
  (* time_graph_->GetStringManager()->Get and string_manager_->Get *)
  GetStringManager_Get : Z -> option string;
  string_manager_Get : Z -> option string;
  (* Profiling *)
  MicrosecondsToTicks : F64.t -> Z;
  GetPrettyTime : F64.t -> string;
  (* Capture; a selected box outside this track is [None] here.  Reading an
     absent key with [operator[]] stores a null entry, which is read back as
     null, so the lookups below are the observable behaviour. *)
  GSelectedTextBox : option BoxRef;
  GSelectedFunctionsMap : Z -> option FunctionInfo;
  GVisibleFunctionsMap_empty : bool;
  GVisibleFunctionsMap : Z -> option FunctionInfo;
  FLAGS_show_return_values : bool;
  (* EventTrack: [event_track_->SetPos(x, y)] followed by
     [event_track_->UpdatePrimitives(min_tick, max_tick, picking_mode)],
     for the picking mode of the frame (the thread track only hands it on):
     the calls the event track makes, in order, when it returns *)
  event_track_UpdatePrimitives :
    Vec2 -> Z -> Z -> result (list EventTrackCall)
}.

(** [optional<std::string>::value_or] *)
Definition value_or (o : option string) (d : string) : string :=
  match o with Some s => s | None => d end.

Definition is_empty (s : string) : bool :=
  match s with EmptyString => true | _ => false end.

(** What one frame hands to the batcher and to the text renderer, in call
    order.  [user_data] is the [TextBox*] stored in [PickingUserData]; the
    picking type is [BOX] for a shaded box and [LINE] for a line.  The
    first three are the calls the two tracks make for their timers;
    [FromEventTrack] is a call made by the event track of a thread
    track. *)
Inductive DrawCall : Type :=
| AddShadedBox (pos size : Vec2) (z : F32.t) (color : Color)
               (user_data : BoxRef)
| AddVerticalLine (pos : Vec2) (height : F32.t) (z : F32.t) (color : Color)
                  (user_data : BoxRef)
| AddTextTrailingCharsPrioritized (text : string) (x y z : F32.t)
                                  (color : Color) (trailing_chars : Z)
                                  (max_size : F32.t)
| FromEventTrack (call : EventTrackCall).

(** A box or a line drawn for a timer. *)
Definition is_primitive (c : DrawCall) : bool :=
  match c with
  | AddShadedBox _ _ _ _ _ | AddVerticalLine _ _ _ _ _ => true
  | AddTextTrailingCharsPrioritized _ _ _ _ _ _ _ => false
  | FromEventTrack _ => false
  end.

Definition primitives (out : list DrawCall) : list DrawCall :=
  filter is_primitive out.

Definition call_user_data (c : DrawCall) : option BoxRef :=
  match c with
  | AddShadedBox _ _ _ _ r | AddVerticalLine _ _ _ _ r => Some r
  | AddTextTrailingCharsPrioritized _ _ _ _ _ _ _ => None
  | FromEventTrack _ => None
  end.

Definition call_pos (c : DrawCall) : option Vec2 :=
  match c with
  | AddShadedBox p _ _ _ _ | AddVerticalLine p _ _ _ _ => Some p
  | AddTextTrailingCharsPrioritized _ _ _ _ _ _ _ => None
  | FromEventTrack _ => None
  end.

(* ----------------------------------------------------------------- *)
(** *** The loop nest of [UpdatePrimitives]

    Both tracks run the same three nested loops (chains, blocks, records)
    around a track-specific loop body.  The variables live across iterations
    are the ignore window and the member [depth_]. *)

Record LoopState : Type := mkLoopState {
  min_ignore : Z;
  max_ignore : Z;
  loop_depth_ : Z
}.

(** [if (depth > depth_) depth_ = depth;] *)
Definition UpdateDepth (d : Z) (depth_ : Z) : Z :=
  if d >? depth_ then d else depth_.

Definition reset_ignore (st : LoopState) : LoopState :=
  mkLoopState UINT64_MAX UINT64_MIN (loop_depth_ st).

Section Loops.
Variables min_tick max_tick : Z.
Variable body :
  LoopState -> BoxRef -> TextBox ->
  result (LoopState * TextBox * list DrawCall).

Open Scope result_scope.

(** [for (k = 0; k < block.size(); ++k)] from index [k] on. *)
Fixpoint scan_block (key : Z) (bi k : nat) (st : LoopState)
  (boxes : list TextBox)
  : result (LoopState * list TextBox * list DrawCall) :=
  match boxes with
  | [] => Ok (st, [], [])
  | text_box :: rest =>
      '(st1, text_box', out1) <- body st (key, bi, k) text_box ;;
      '(st2, rest', out2) <- scan_block key bi (S k) st1 rest ;;
      Ok (st2, text_box' :: rest', out1 ++ out2)
  end.

(** [for (it = chain->begin(); it != chain->end(); ++it)] from block
    number [bi] on. *)
Fixpoint scan_chain (key : Z) (bi : nat) (st : LoopState)
  (blocks : TimerChain)
  : result (LoopState * TimerChain * list DrawCall) :=
  match blocks with
  | [] => Ok (st, [], [])
  | block :: rest =>
      if negb (Intersects block min_tick max_tick) then
        '(st2, rest', out2) <- scan_chain key (S bi) st rest ;;
        Ok (st2, block :: rest', out2)
      else
        '(st1, block', out1) <-
           scan_block key bi 0%nat (reset_ignore st) block ;;
        '(st2, rest', out2) <- scan_chain key (S bi) st1 rest ;;
        Ok (st2, block' :: rest', out1 ++ out2)
  end.

(** [for (auto& chain : chains_by_depth)], the chains being the values of
    [timers_] in key order ([GetTimers()]); the boxes they point to are
    updated in place. *)
Fixpoint scan_chains (st : LoopState) (m : TimerMap)
  : result (LoopState * TimerMap * list DrawCall) :=
  match m with
  | [] => Ok (st, [], [])
  | (key, None) :: rest =>
      '(st2, rest', out2) <- scan_chains st rest ;;
      Ok (st2, (key, None) :: rest', out2)
  | (key, Some chain) :: rest =>
      '(st1, chain', out1) <- scan_chain key 0%nat st chain ;;
      '(st2, rest', out2) <- scan_chains st1 rest ;;
      Ok (st2, (key, Some chain') :: rest', out1 ++ out2)
  end.
End Loops.

(** All records stored under any depth, in iteration order. *)
Definition map_boxes (m : TimerMap) : list TextBox :=
  flat_map (fun kv => match snd kv with
                      | Some chain => chain_boxes chain
                      | None => []
                      end) m.

Definition kSwQueueString : string := "sw queue".
Definition kHwQueueString : string := "hw queue".
Definition kHwExecutionString : string := "hw execution".

Definition kInactiveColor : Color := mkColor 100 100 100 255.
Definition kSelectionColor : Color := mkColor 0 128 255 255.
Definition kTextWhite : Color := mkColor 255 255 255 255.
Definition kOddAlpha : Z := 210.

(** [&text_box == Capture::GSelectedTextBox] *)
Definition is_selected_box (env : Env) (r : BoxRef) : bool :=
  match GSelectedTextBox env with
  | Some s => BoxRef_eqb r s
  | None => false
  end.

(** The last statements of both [SetTimesliceText]: clip the label to the
    scene and hand it to the text renderer. *)
Definition draw_timeslice_text (env : Env) (min_x : F32.t)
  (text_box : TextBox) : DrawCall :=
  let box_pos := GetPos text_box in
  let box_size := GetSize text_box in
  let pos_x := F32.max (fst box_pos) min_x in
  let max_size := F32.sub (F32.add (fst box_pos) (fst box_size)) pos_x in
  AddTextTrailingCharsPrioritized
    (GetText text_box) pos_x
    (F32.add (GetPosY text_box) (GetTextOffset env)) (Z_VALUE_TEXT env)
    kTextWhite (GetElapsedTimeTextLength text_box) max_size.

(* ----------------------------------------------------------------- *)
(** *** Collaborators of navigation and tooltips *)

(** What the tooltips read besides the string manager:
    [Capture::GThreadNames[tid]] (an absent thread id reads as the empty
    name) and [GetPrettyTime(TicksToDuration(start, end))]. *)
Record Capture : Type := mkCapture {
  GThreadNames : Z -> string;
  GetPrettyTimeOfTicks : Z -> Z -> string
}.

(** [TimerChain::GetElementBefore] and [GetElementAfter] are declared in the
    absent header; the tracks only forward to them, so they are taken as
    they come. *)
Record ChainNav : Type := mkChainNav {
  GetElementBefore : TimerChain -> BoxRef -> option TextBox;
  GetElementAfter : TimerChain -> BoxRef -> option TextBox
}.

(** The double-quote character, for the literals that contain it. *)
Definition dquote : string :=
  String (Ascii.Ascii false true false false false true false false)
         EmptyString.

(** [%d] of an [int32] value. *)
Definition format_d (z : Z) : string := NilZero.string_of_int (Z.to_int z).

(* ================================================================= *)
(** ** OrbitGl::MapGpuTimelineToTrackLabel *)

Module OrbitGl.

(** [timeline.rfind(p, 0) == 0] holds exactly when [timeline] starts with
    [p]. *)
Definition MapGpuTimelineToTrackLabel (timeline : string) : string :=
  if prefix "gfx" timeline then
    ("Graphics queue (" ++ timeline ++ ")")%string
  else if prefix "sdma" timeline then
    ("Transfer queue (" ++ timeline ++ ")")%string
  else if prefix "comp" timeline then
    ("Compute queue (" ++ timeline ++ ")")%string
  else timeline.

End OrbitGl.

(* ================================================================= *)
(** ** GpuTrack *)

Module GpuTrack.

Record t : Type := mk {
  m_Pos : Vec2;
  collapse_toggle_IsCollapsed : bool;
  depth_ : Z;                        (* uint32_t, = 0 at construction *)
  timeline_hash_ : Z;
  timers_ : TimerMap;
  num_timers_ : Z;                   (* uint32_t *)
  min_time_ : Z;                     (* TickType = uint64_t *)
  max_time_ : Z
}.

(** The constructor; GPU tracks are collapsed by default. *)
Definition GpuTrack (pos : Vec2) (timeline_hash : Z) : t :=
  mk pos true 0 timeline_hash [] 0 UINT64_MAX UINT64_MIN.

(** The user toggling [collapse_toggle_]; nothing else changes. *)
Definition set_collapsed (b : bool) (tr : t) : t :=
  mk (m_Pos tr) b (depth_ tr) (timeline_hash_ tr) (timers_ tr)
     (num_timers_ tr) (min_time_ tr) (max_time_ tr).

Definition GetDepth (tr : t) : Z := depth_ tr.
Definition GetNumTimers (tr : t) : Z := num_timers_ tr.
Definition GetMinTime (tr : t) : Z := min_time_ tr.
Definition GetMaxTime (tr : t) : Z := max_time_ tr.
Definition IsCollapsable (tr : t) : bool := depth_ tr >? 1.

Definition GetTimerColor (env : Env) (timer_info : TimerInfo)
  (is_selected inactive : bool) : Color :=
  if is_selected then kSelectionColor
  else if inactive then kInactiveColor
  else
    let color := GetThreadColor env (thread_id timer_info) in
    let gpu_stage :=
      value_or (string_manager_Get env (user_data_key timer_info)) "" in
    let coeff :=
      if String.eqb gpu_stage kSwQueueString then F32.make 1 (-1)
      else if String.eqb gpu_stage kHwQueueString then F32.make 3 (-2)
      else if String.eqb gpu_stage kHwExecutionString then F32.of_Z 1
      else F32.of_Z 1 in
    let c0 := F32.to_u8 (F32.mul coeff (F32.of_Z (cr color))) in
    let c1 := F32.to_u8 (F32.mul coeff (F32.of_Z (cg color))) in
    let c2 := F32.to_u8 (F32.mul coeff (F32.of_Z (cb color))) in
    let c3 := if Z.land (depth timer_info) 1 =? 0 then kOddAlpha
              else ca color in
    mkColor c0 c1 c2 c3.

(** [track_y - layout.GetTextBoxHeight() * (depth + 1)], [depth] being a
    [uint32_t]. *)
Definition GetYFromDepth (env : Env) (track_y : F32.t) (depth : Z) : F32.t :=
  F32.sub track_y (F32.mul (GetTextBoxHeight env) (F32.of_Z (u32 (depth + 1)))).

Definition SetTimesliceText (env : Env) (timer_info : TimerInfo)
  (elapsed_us : F64.t) (min_x : F32.t) (text_box : TextBox)
  : result (TextBox * list DrawCall) :=
  bind
    (if is_empty (GetText text_box) then
       let time := GetPrettyTime env elapsed_us in
       let text_box := SetElapsedTimeTextLength
                         (Z.of_nat (String.length time)) text_box in
       if TimerType_eqb (type timer_info) kGpuActivity then
         let text :=
           (value_or (GetStringManager_Get env (user_data_key timer_info)) ""
            ++ "  " ++ time)%string in
         Ok (SetText text text_box)
       else CheckFailed
     else Ok text_box)
    (fun text_box => Ok (text_box, [draw_timeslice_text env min_x text_box])).

(** The loop-invariant values computed at the head of
    [UpdatePrimitives]. *)
Record Frame : Type := mkFrame {
  min_x : F32.t;
  world_start_x : F32.t;
  world_width : F32.t;
  inv_time_window : F64.t;
  is_collapsed : bool;
  pixel_delta_in_ticks : Z;
  min_timegraph_tick : Z
}.

(** One iteration of the innermost loop. *)
Definition process_box (env : Env) (tr : t) (fr : Frame)
  (min_tick max_tick : Z) (st : LoopState) (ref : BoxRef)
  (text_box : TextBox) : result (LoopState * TextBox * list DrawCall) :=
  let timer_info := GetTimerInfo text_box in
  if (min_tick >? end_ timer_info) || (max_tick <? start timer_info) then
    Ok (st, text_box, [])
  else if (start timer_info >=? min_ignore st)
          && (end_ timer_info <=? max_ignore st) then
    Ok (st, text_box, [])
  else
    let depth' := UpdateDepth (u32 (depth timer_info + 1)) (loop_depth_ st) in
    let st := mkLoopState (min_ignore st) (max_ignore st) depth' in
    let start_us := GetUsFromTick env (start timer_info) in
    let end_us := GetUsFromTick env (end_ timer_info) in
    let elapsed_us := F64.sub end_us start_us in
    let normalized_start := F64.mul start_us (inv_time_window fr) in
    let normalized_length := F64.mul elapsed_us (inv_time_window fr) in
    let world_timer_width :=
      F64.to_f32 (F64.mul normalized_length (F64.of_f32 (world_width fr))) in
    let world_timer_x :=
      F64.to_f32
        (F64.add (F64.of_f32 (world_start_x fr))
                 (F64.mul normalized_start (F64.of_f32 (world_width fr)))) in
    let timer_depth :=
      if is_collapsed fr then 0 else u8 (depth timer_info) in
    let world_timer_y := GetYFromDepth env (snd (m_Pos tr)) timer_depth in
    let is_visible_width :=
      F64.gtb (F64.mul normalized_length (F64.of_Z (getWidth env)))
              (F64.of_Z 1) in
    let is_selected := is_selected_box env ref in
    let pos := (world_timer_x, world_timer_y) in
    let size := (world_timer_width, GetTextBoxHeight env) in
    let z := Z_VALUE_BOX_ACTIVE env in
    let color := GetTimerColor env timer_info is_selected false in
    let text_box := SetSize size (SetPos pos text_box) in
    if is_collapsed fr
       && negb (String.eqb
                  (value_or
                     (string_manager_Get env (user_data_key timer_info)) "")
                  kHwExecutionString)
    then Ok (st, text_box, [])
    else if is_visible_width then
      bind
        (if negb (is_collapsed fr) then
           SetTimesliceText env timer_info elapsed_us (min_x fr) text_box
         else Ok (text_box, []))
        (fun '(text_box, text_out) =>
           Ok (st, text_box,
               text_out ++ [AddShadedBox pos size z color ref]))
    else
      let line := AddVerticalLine pos (snd size) z color ref in
      if negb (pixel_delta_in_ticks fr =? 0) then
        let min_ignore' :=
          u64 (min_timegraph_tick fr
               + u64 (u64 (start timer_info - min_timegraph_tick fr)
                      / pixel_delta_in_ticks fr
                      * pixel_delta_in_ticks fr)) in
        let max_ignore' := u64 (min_ignore' + pixel_delta_in_ticks fr) in
        Ok (mkLoopState min_ignore' max_ignore' (loop_depth_ st),
            text_box, [line])
      else Ok (st, text_box, [line]).

(** The locals set before the loops (lines 158-177).  The quotient
    [pixel_delta_in_ticks] is only formed when the divisor is not zero. *)
Definition head_frame (env : Env) (tr : t) : Frame :=
  mkFrame
    (GetSceneBoxPosX env)
    (GetWorldTopLeftX env)
    (GetWorldWidth env)
    (F64.div (F64.of_Z 1) (GetTimeWindowUs env))
    (collapse_toggle_IsCollapsed tr)
    (u64 (MicrosecondsToTicks env (GetTimeWindowUs env))
     / u64 (getWidth env))
    (u64 (GetTickFromUs env (GetMinTimeUs env))).

Definition UpdatePrimitives (env : Env) (tr : t) (min_tick max_tick : Z)
  : result (t * list DrawCall) :=
  (* [uint64_t / int]: the [int] width is converted to [uint64_t] *)
  if u64 (getWidth env) =? 0 then DivisionByZero
  else
    let fr := head_frame env tr in
    bind
      (scan_chains min_tick max_tick
         (process_box env tr fr min_tick max_tick)
         (mkLoopState UINT64_MAX UINT64_MIN (depth_ tr)) (timers_ tr))
      (fun '(st, timers', out) =>
         Ok (mk (m_Pos tr) (collapse_toggle_IsCollapsed tr) (loop_depth_ st)
                (timeline_hash_ tr) timers' (num_timers_ tr) (min_time_ tr)
                (max_time_ tr),
             out)).

Definition OnTimer (kBlockSize : nat) (tr : t) (timer_info : TimerInfo) : t :=
  let text_box := fresh_text_box timer_info in
  let key := to_int (depth timer_info) in
  let timer_chain :=
    match map_index key (timers_ tr) with
    | Some chain => chain
    | None => []                    (* std::make_shared<TimerChain>() *)
    end in
  let timers' :=
    map_set key (Some (push_back kBlockSize timer_chain text_box))
            (timers_ tr) in
  mk (m_Pos tr) (collapse_toggle_IsCollapsed tr) (depth_ tr)
     (timeline_hash_ tr) timers'
     (u32 (num_timers_ tr + 1))
     (if start timer_info <? min_time_ tr then start timer_info
      else min_time_ tr)
     (if end_ timer_info >? max_time_ tr then end_ timer_info
      else max_time_ tr).

(** [GetTimers(uint32_t depth)] *)
Definition GetTimers_at (tr : t) (depth : Z) : option TimerChain :=
  map_index (to_int depth) (timers_ tr).

Definition GetFirstAfterTime (tr : t) (time depth : Z) : option TextBox :=
  match GetTimers_at tr depth with
  | None => None
  | Some chain => first_after_in_chain time chain
  end.

Definition GetFirstBeforeTime (tr : t) (time depth : Z) : option TextBox :=
  match GetTimers_at tr depth with
  | None => None
  | Some chain => first_before_in_chain time None chain
  end.

(** [GetTimers()] (and [GetAllChains()], which has the same body without
    the lock): the chains of all depths, in key order. *)
Definition GetTimers (tr : t) : list (option TimerChain) :=
  map snd (timers_ tr).

Definition GetHeight (env : Env) (tr : t) : F32.t :=
  let collapsed := collapse_toggle_IsCollapsed tr in
  let depth := if collapsed then 1 else GetDepth tr in
  F32.add (F32.mul (GetTextBoxHeight env) (F32.of_Z depth))
          (GetTrackBottomMargin env).

(** [GetLeft(TextBox* text_box)]; [ref] is the pointer, [text_box] the box
    it points to. *)
Definition GetLeft (nav : ChainNav) (tr : t) (ref : BoxRef)
  (text_box : TextBox) : option TextBox :=
  let timer_info := GetTimerInfo text_box in
  let timeline_hash := user_data_key timer_info in
  if timeline_hash =? timeline_hash_ tr then
    match GetTimers_at tr (depth timer_info) with
    | Some timers => GetElementBefore nav timers ref
    | None => None
    end
  else None.

Definition GetRight (nav : ChainNav) (tr : t) (ref : BoxRef)
  (text_box : TextBox) : option TextBox :=
  let timer_info := GetTimerInfo text_box in
  let timeline_hash := user_data_key timer_info in
  if timeline_hash =? timeline_hash_ tr then
    match GetTimers_at tr (depth timer_info) with
    | Some timers => GetElementAfter nav timers ref
    | None => None
    end
  else None.

(** [timer_info.depth() - 1] and [+ 1] are [uint32_t] expressions. *)
Definition GetUp (tr : t) (text_box : TextBox) : option TextBox :=
  let timer_info := GetTimerInfo text_box in
  GetFirstBeforeTime tr (start timer_info) (u32 (depth timer_info - 1)).

Definition GetDown (tr : t) (text_box : TextBox) : option TextBox :=
  let timer_info := GetTimerInfo text_box in
  GetFirstAfterTime tr (start timer_info) (u32 (depth timer_info + 1)).

Definition tooltip_tail (cap : Capture) (timer_info : TimerInfo) : string :=
  ("<br/><br/><b>Submitted from thread:</b> "
   ++ GThreadNames cap (thread_id timer_info)
   ++ " [" ++ format_d (thread_id timer_info) ++ "]<br/><b>Time:</b> "
   ++ GetPrettyTimeOfTicks cap (start timer_info) (end_ timer_info))%string.

Definition GetSwQueueTooltip (cap : Capture) (timer_info : TimerInfo)
  : string :=
  ("<b>Software Queue</b><br/><i>Time between amdgpu_cs_ioctl (job submitted) and amdgpu_sched_run_job (job scheduled)</i>"
   ++ tooltip_tail cap timer_info)%string.

Definition GetHwQueueTooltip (cap : Capture) (timer_info : TimerInfo)
  : string :=
  ("<b>Hardware Queue</b><br/><i>Time between amdgpu_sched_run_job (job scheduled) and start of GPU execution</i>"
   ++ tooltip_tail cap timer_info)%string.

Definition GetHwExecutionTooltip (cap : Capture) (timer_info : TimerInfo)
  : string :=
  ("<b>Harware Execution</b><br/><i>End is marked by " ++ dquote
   ++ "dma_fence_signaled" ++ dquote
   ++ " event for this command buffer submission</i>"
   ++ tooltip_tail cap timer_info)%string.

(** [text_box] is what [GetBatcher().GetTextBox(id)] returned, [None] for a
    null pointer. *)
Definition GetBoxTooltip (env : Env) (cap : Capture)
  (text_box : option TextBox) : string :=
  match text_box with
  | None => EmptyString
  | Some text_box =>
      if TimerType_eqb (type (GetTimerInfo text_box)) kCoreActivity then
        EmptyString
      else
        let gpu_stage :=
          value_or (string_manager_Get env
                      (user_data_key (GetTimerInfo text_box))) "" in
        if String.eqb gpu_stage kSwQueueString then
          GetSwQueueTooltip cap (GetTimerInfo text_box)
        else if String.eqb gpu_stage kHwQueueString then
          GetHwQueueTooltip cap (GetTimerInfo text_box)
        else if String.eqb gpu_stage kHwExecutionString then
          GetHwExecutionTooltip cap (GetTimerInfo text_box)
        else EmptyString
  end.

End GpuTrack.

(* ================================================================= *)
(** ** ThreadTrack

    The embedded [EventTrack] draws through its own [UpdatePrimitives],
    which is outside these sources: it is a collaborator,
    [event_track_UpdatePrimitives], whose calls are opaque. *)

Module ThreadTrack.

Record t : Type := mk {
  m_Pos : Vec2;
  collapse_toggle_IsCollapsed : bool;
  depth_ : Z;                        (* uint32_t *)
  thread_id_ : Z;
  timers_ : TimerMap;
  num_timers_ : Z;                   (* uint32_t *)
  min_time_ : Z;                     (* TickType = uint64_t *)
  max_time_ : Z
}.

(** The constructor; the toggle keeps the expanded state of the base
    class. *)
Definition ThreadTrack (pos : Vec2) (thread_id : Z) : t :=
  mk pos false 0 thread_id [] 0 UINT64_MAX UINT64_MIN.

(** The user toggling [collapse_toggle_]; nothing else changes. *)
Definition set_collapsed (b : bool) (tr : t) : t :=
  mk (m_Pos tr) b (depth_ tr) (thread_id_ tr) (timers_ tr)
     (num_timers_ tr) (min_time_ tr) (max_time_ tr).

Definition GetDepth (tr : t) : Z := depth_ tr.
Definition GetNumTimers (tr : t) : Z := num_timers_ tr.
Definition IsCollapsable (tr : t) : bool := depth_ tr >? 1.

(** [absl::StrFormat("[%lu]", timer_info.user_data_key())] when the flag is
    set and the timer has type [kNone]. *)
Definition GetExtraInfo (env : Env) (timer_info : TimerInfo) : string :=
  if FLAGS_show_return_values env
     && TimerType_eqb (type timer_info) kNone then
    ("[" ++ NilZero.string_of_uint
              (N.to_uint (Z.to_N (user_data_key timer_info))) ++ "]")%string
  else EmptyString.

Definition GetTimerColor (env : Env) (timer_info : TimerInfo)
  (is_selected inactive : bool) : Color :=
  if is_selected then kSelectionColor
  else if inactive then kInactiveColor
  else
    let color := GetThreadColor env (thread_id timer_info) in
    let c3 := if Z.land (depth timer_info) 1 =? 0 then kOddAlpha
              else ca color in
    mkColor (cr color) (cg color) (cb color) c3.

(** [GetYFromDepth(float track_y, uint32_t depth, bool collapsed)];
    [depth_] is the member as it stands when the call is made. *)
Definition GetYFromDepth (env : Env) (depth_ : Z) (track_y : F32.t)
  (depth : Z) (collapsed : bool) : F32.t :=
  let box_height := GetTextBoxHeight env in
  let box_height :=
    if collapsed && (depth_ >? 0) then F32.div box_height (F32.of_Z depth_)
    else box_height in
  F32.sub
    (F32.sub (F32.sub track_y (GetEventTrackHeight env))
             (GetSpaceBetweenTracksAndThread env))
    (F32.mul box_height (F32.of_Z (u32 (depth + 1)))).

Definition SetTimesliceText (env : Env) (timer_info : TimerInfo)
  (elapsed_us : F64.t) (min_x : F32.t) (text_box : TextBox)
  : TextBox * list DrawCall :=
  let text_box :=
    if is_empty (GetText text_box) then
      let time := GetPrettyTime env elapsed_us in
      let func := GSelectedFunctionsMap env (function_address timer_info) in
      let text_box := SetElapsedTimeTextLength
                        (Z.of_nat (String.length time)) text_box in
      match func with
      | Some f =>
          let extra_info := GetExtraInfo env timer_info in
          SetText (display_name f ++ " " ++ extra_info ++ " " ++ time)%string
                  text_box
      | None =>
          if TimerType_eqb (type timer_info) kIntrospection then
            SetText
              (value_or
                 (GetStringManager_Get env (user_data_key timer_info)) ""
               ++ " " ++ time)%string
              text_box
          else text_box            (* ERROR(...) is logged, no text set *)
      end
    else text_box in
  (text_box, [draw_timeslice_text env min_x text_box]).

Record Frame : Type := mkFrame {
  min_x : F32.t;
  world_start_x : F32.t;
  world_width : F32.t;
  inv_time_window : F64.t;
  is_collapsed : bool;
  box_height : F32.t;
  pixel_delta_in_ticks : Z;
  min_timegraph_tick : Z
}.

(** One iteration of the innermost loop. *)
Definition process_box (env : Env) (tr : t) (fr : Frame)
  (min_tick max_tick : Z) (st : LoopState) (ref : BoxRef)
  (text_box : TextBox) : result (LoopState * TextBox * list DrawCall) :=
  let timer_info := GetTimerInfo text_box in
  if (min_tick >? end_ timer_info) || (max_tick <? start timer_info) then
    Ok (st, text_box, [])
  else if (start timer_info >=? min_ignore st)
          && (end_ timer_info <=? max_ignore st) then
    Ok (st, text_box, [])
  else
    let depth' := UpdateDepth (u32 (depth timer_info + 1)) (loop_depth_ st) in
    let st := mkLoopState (min_ignore st) (max_ignore st) depth' in
    let start_us := GetUsFromTick env (start timer_info) in
    let end_us := GetUsFromTick env (end_ timer_info) in
    let elapsed_us := F64.sub end_us start_us in
    let normalized_start := F64.mul start_us (inv_time_window fr) in
    let normalized_length := F64.mul elapsed_us (inv_time_window fr) in
    let world_timer_width :=
      F64.to_f32 (F64.mul normalized_length (F64.of_f32 (world_width fr))) in
    let world_timer_x :=
      F64.to_f32
        (F64.add (F64.of_f32 (world_start_x fr))
                 (F64.mul normalized_start (F64.of_f32 (world_width fr)))) in
    let world_timer_y :=
      GetYFromDepth env depth' (snd (m_Pos tr)) (depth timer_info)
                    (collapse_toggle_IsCollapsed tr) in
    let is_visible_width :=
      F64.gtb (F64.mul normalized_length (F64.of_Z (getWidth env)))
              (F64.of_Z 1) in
    let is_selected := is_selected_box env ref in
    let is_inactive :=
      negb (GVisibleFunctionsMap_empty env)
      && match GVisibleFunctionsMap env (function_address timer_info) with
         | None => true
         | Some _ => false
         end in
    let pos := (world_timer_x, world_timer_y) in
    let size := (world_timer_width, box_height fr) in
    let z := Z_VALUE_BOX_ACTIVE env in
    let color := GetTimerColor env timer_info is_selected is_inactive in
    let text_box := SetSize size (SetPos pos text_box) in
    if is_visible_width then
      let '(text_box, text_out) :=
        if negb (is_collapsed fr) then
          SetTimesliceText env timer_info elapsed_us (min_x fr) text_box
        else (text_box, []) in
      Ok (st, text_box, text_out ++ [AddShadedBox pos size z color ref])
    else
      let line := AddVerticalLine pos (snd size) z color ref in
      if negb (pixel_delta_in_ticks fr =? 0) then
        let min_ignore' :=
          u64 (min_timegraph_tick fr
               + u64 (u64 (start timer_info - min_timegraph_tick fr)
                      / pixel_delta_in_ticks fr
                      * pixel_delta_in_ticks fr)) in
        let max_ignore' := u64 (min_ignore' + pixel_delta_in_ticks fr) in
        Ok (mkLoopState min_ignore' max_ignore' (loop_depth_ st),
            text_box, [line])
      else Ok (st, text_box, [line]).

(** The locals set before the loops (lines 161-184); [box_height] is
    computed here, once, from [depth_] as it is on entry.  The quotient
    [pixel_delta_in_ticks] is only formed when the divisor is not zero. *)
Definition head_frame (env : Env) (tr : t) : Frame :=
  let is_collapsed := collapse_toggle_IsCollapsed tr in
  let box_height := GetTextBoxHeight env in
  let box_height :=
    if is_collapsed && (depth_ tr >? 0) then
      F32.div box_height (F32.of_Z (depth_ tr))
    else box_height in
  mkFrame
    (GetSceneBoxPosX env)
    (GetWorldTopLeftX env)
    (GetWorldWidth env)
    (F64.div (F64.of_Z 1) (GetTimeWindowUs env))
    is_collapsed
    box_height
    (u64 (MicrosecondsToTicks env (GetTimeWindowUs env))
     / u64 (getWidth env))
    (u64 (GetTickFromUs env (GetMinTimeUs env))).

(** [UpdatePrimitives] from its third statement on (lines 156-259): the
    boxes, lines and labels of the track's own timers. *)
Definition draw_timers (env : Env) (tr : t) (min_tick max_tick : Z)
  : result (t * list DrawCall) :=
  (* [uint64_t / int]: the [int] width is converted to [uint64_t] *)
  if u64 (getWidth env) =? 0 then DivisionByZero
  else
    let fr := head_frame env tr in
    bind
      (scan_chains min_tick max_tick
         (process_box env tr fr min_tick max_tick)
         (mkLoopState UINT64_MAX UINT64_MIN (depth_ tr)) (timers_ tr))
      (fun '(st, timers', out) =>
         Ok (mk (m_Pos tr) (collapse_toggle_IsCollapsed tr) (loop_depth_ st)
                (thread_id_ tr) timers' (num_timers_ tr) (min_time_ tr)
                (max_time_ tr),
             out)).

(** [event_track_->SetPos(m_Pos[0], m_Pos[1]);
     event_track_->UpdatePrimitives(min_tick, max_tick, picking_mode);]
    and then the track's own timers.  The event track draws first; when it
    does not return, neither does the frame. *)
Definition UpdatePrimitives (env : Env) (tr : t) (min_tick max_tick : Z)
  : result (t * list DrawCall) :=
  bind (event_track_UpdatePrimitives env (m_Pos tr) min_tick max_tick)
       (fun event_calls =>
          bind (draw_timers env tr min_tick max_tick)
               (fun '(tr', out) =>
                  Ok (tr', map FromEventTrack event_calls ++ out))).

Definition OnTimer (kBlockSize : nat) (tr : t) (timer_info : TimerInfo) : t :=
  let depth' :=
    if negb (TimerType_eqb (type timer_info) kCoreActivity) then
      UpdateDepth (u32 (depth timer_info + 1)) (depth_ tr)
    else depth_ tr in
  let text_box := fresh_text_box timer_info in
  let key := to_int (depth timer_info) in
  let timer_chain :=
    match map_index key (timers_ tr) with
    | Some chain => chain
    | None => []                    (* std::make_shared<TimerChain>() *)
    end in
  let timers' :=
    map_set key (Some (push_back kBlockSize timer_chain text_box))
            (timers_ tr) in
  mk (m_Pos tr) (collapse_toggle_IsCollapsed tr) depth'
     (thread_id_ tr) timers'
     (u32 (num_timers_ tr + 1))
     (if start timer_info <? min_time_ tr then start timer_info
      else min_time_ tr)
     (if end_ timer_info >? max_time_ tr then end_ timer_info
      else max_time_ tr).

(** [GetTimers(uint32_t depth)] *)
Definition GetTimers_at (tr : t) (depth : Z) : option TimerChain :=
  map_index (to_int depth) (timers_ tr).

Definition GetFirstAfterTime (tr : t) (time depth : Z) : option TextBox :=
  match GetTimers_at tr depth with
  | None => None
  | Some chain => first_after_in_chain time chain
  end.

Definition GetFirstBeforeTime (tr : t) (time depth : Z) : option TextBox :=
  match GetTimers_at tr depth with
  | None => None
  | Some chain => first_before_in_chain time None chain
  end.

(** [GetTimers()] (and [GetAllChains()], which has the same body without
    the lock): the chains of all depths, in key order. *)
Definition GetTimers (tr : t) : list (option TimerChain) :=
  map snd (timers_ tr).

(** [textBoxHeight * depth + (depth > 0 ? space : 0) + eventTrackHeight
    + bottomMargin], with [depth] 0 or 1 when collapsed. *)
Definition GetHeight (env : Env) (tr : t) : F32.t :=
  let is_collapsed := collapse_toggle_IsCollapsed tr in
  let collapsed_depth := if GetNumTimers tr =? 0 then 0 else 1 in
  let depth := if is_collapsed then collapsed_depth else GetDepth tr in
  F32.add
    (F32.add
       (F32.add (F32.mul (GetTextBoxHeight env) (F32.of_Z depth))
                (if depth >? 0 then GetSpaceBetweenTracksAndThread env
                 else F32.of_Z 0))
       (GetEventTrackHeight env))
    (GetTrackBottomMargin env).

(** [event_track_->IsEmpty()] belongs to the event track. *)
Definition IsEmpty (event_track_IsEmpty : bool) (tr : t) : bool :=
  (GetNumTimers tr =? 0) && event_track_IsEmpty.

Definition GetLeft (nav : ChainNav) (tr : t) (ref : BoxRef)
  (text_box : TextBox) : option TextBox :=
  let timer_info := GetTimerInfo text_box in
  if thread_id timer_info =? thread_id_ tr then
    match GetTimers_at tr (depth timer_info) with
    | Some timers => GetElementBefore nav timers ref
    | None => None
    end
  else None.

Definition GetRight (nav : ChainNav) (tr : t) (ref : BoxRef)
  (text_box : TextBox) : option TextBox :=
  let timer_info := GetTimerInfo text_box in
  if thread_id timer_info =? thread_id_ tr then
    match GetTimers_at tr (depth timer_info) with
    | Some timers => GetElementAfter nav timers ref
    | None => None
    end
  else None.

Definition GetUp (tr : t) (text_box : TextBox) : option TextBox :=
  let timer_info := GetTimerInfo text_box in
  GetFirstBeforeTime tr (start timer_info) (u32 (depth timer_info - 1)).

Definition GetDown (tr : t) (text_box : TextBox) : option TextBox :=
  let timer_info := GetTimerInfo text_box in
  GetFirstAfterTime tr (start timer_info) (u32 (depth timer_info + 1)).

(** [text_box] is what [GetBatcher().GetTextBox(id)] returned, [None] for a
    null pointer. *)
Definition GetBoxTooltip (env : Env) (cap : Capture)
  (text_box : option TextBox) : string :=
  match text_box with
  | None => EmptyString
  | Some text_box =>
      if TimerType_eqb (type (GetTimerInfo text_box)) kCoreActivity then
        EmptyString
      else
        match GSelectedFunctionsMap env
                (function_address (GetTimerInfo text_box)) with
        | None => GetText text_box
        | Some func =>
            ("<b>" ++ display_name func
             ++ "</b><br/><i>Timing measured through dynamic instrumentation</i><br/><br/><b>Module:</b> "
             ++ loaded_module_name func ++ "<br/><b>Time:</b> "
             ++ GetPrettyTimeOfTicks cap (start (GetTimerInfo text_box))
                                     (end_ (GetTimerInfo text_box)))%string
        end
  end.

End ThreadTrack.

(* ================================================================= *)
(** ** A concrete set of collaborators and sample inputs

    Used to run the definitions: ticks are nanoseconds, the canvas is 1000
    pixels wide and shows a window of 100 microseconds starting at tick 0;
    string keys 1, 2, 3 are interned as the three GPU stages. *)

Definition sample_GetUsFromTick (tick : Z) : F64.t :=
  F64.div (F64.of_Z tick) (F64.of_Z 1000).

Definition sample_TicksFromUs (us : F64.t) : Z :=
  SFtrunc (F64.mul us (F64.of_Z 1000)).

Definition sample_strings (key : Z) : option string :=
  if key =? 1 then Some kSwQueueString
  else if key =? 2 then Some kHwQueueString
  else if key =? 3 then Some kHwExecutionString
  else None.

Definition sample_env_full (width : Z) (time_window_us min_time_us : F64.t)
  : Env :=
  mkEnv
    (F32.of_Z 20) (F32.of_Z 10) (F32.of_Z 5) (F32.of_Z 5) (F32.of_Z 5)
    (F32.of_Z 0) (F32.of_Z 1000) width (F32.of_Z 0)
    (F32.of_Z 0) (F32.of_Z 0)
    time_window_us min_time_us
    sample_GetUsFromTick sample_TicksFromUs
    (fun _ => mkColor 200 101 51 255)
    sample_strings sample_strings
    sample_TicksFromUs (fun _ => "t"%string)
    None (fun _ => None) true (fun _ => None) false
    (fun _ _ _ => Ok []).

Definition sample_env_with (width : Z) (time_window_us : F64.t) : Env :=
  sample_env_full width time_window_us (F64.of_Z 0).

Definition sample_env : Env := sample_env_with 1000 (F64.of_Z 100).

Definition sample_timer (start end_ depth key : Z) (ty : TimerType)
  : TimerInfo :=
  mkTimerInfo start end_ depth 7 key 0 ty.

(* ================================================================= *)
(** ** Vocabulary of the properties *)

(** Records of one depth bucket are in non-decreasing [start] order. *)
Definition start_le (a b : TextBox) : Prop :=
  start (GetTimerInfo a) <= start (GetTimerInfo b).

Definition bucket_sorted (bucket : option TimerChain) : Prop :=
  match bucket with
  | Some chain => Sorted start_le (chain_boxes chain)
  | None => True
  end.

(** [r] is the right answer of the after-query on [bucket]: a record of the
    bucket with the least [start] above [time], or nothing when the bucket
    is absent or holds no record with [start > time]. *)
Definition after_answer (time : Z) (bucket : option TimerChain)
  (r : option TextBox) : Prop :=
  match bucket, r with
  | None, None => True
  | None, Some _ => False
  | Some chain, None =>
      forall b, In b (chain_boxes chain) -> start (GetTimerInfo b) <= time
  | Some chain, Some x =>
      In x (chain_boxes chain)
      /\ time < start (GetTimerInfo x)
      /\ forall b, In b (chain_boxes chain) ->
                   time < start (GetTimerInfo b) ->
                   start (GetTimerInfo x) <= start (GetTimerInfo b)
  end.

(** Every record of the bucket starts at or before [time]. *)
Definition all_start_le (time : Z) (chain : TimerChain) : Prop :=
  forall b, In b (chain_boxes chain) -> start (GetTimerInfo b) <= time.

(** A bucket holding the single record [0, 100] at depth 0, as left by one
    [OnTimer] on a fresh track. *)
Definition one_timer : TimerInfo := sample_timer 0 100 0 3 kGpuActivity.

Definition gpu_one : GpuTrack.t :=
  GpuTrack.OnTimer 1024 (GpuTrack.GpuTrack (F32.of_Z 0, F32.of_Z 500) 99)
                   one_timer.

Definition thread_one : ThreadTrack.t :=
  ThreadTrack.OnTimer 1024
    (ThreadTrack.ThreadTrack (F32.of_Z 0, F32.of_Z 500) 7) one_timer.

(** The channel computation [static_cast<uint8_t>(coeff * color[i])] of
    [GpuTrack::GetTimerColor], and the 256 values a channel can take. *)
Definition scale_channel (coeff : F32.t) (c : Z) : Z :=
  F32.to_u8 (F32.mul coeff (F32.of_Z c)).

Definition channels : list Z := map Z.of_nat (seq 0 256).

(** [ref] points to [box] in the storage [m]. *)
Definition stored_at (m : TimerMap) (ref : BoxRef) (box : TextBox) : Prop :=
  let '(key, bi, k) := ref in
  exists chain block,
    In (key, Some chain) m
    /\ nth_error chain bi = Some block
    /\ nth_error block k = Some box.

(** An emitted call [c] was produced by one run of the loop body [body], on
    a record at a position accepted by [origin], from a loop state whose
    [depth_] is at least [lo] and to one whose [depth_] is at most [hi]. *)
Definition produced_in
  (body : LoopState -> BoxRef -> TextBox ->
          result (LoopState * TextBox * list DrawCall))
  (origin : BoxRef -> TextBox -> Prop)
  (lo hi : Z) (c : DrawCall) : Prop :=
  exists st0 ref box st1 box' outs,
    origin ref box
    /\ body st0 ref box = Ok (st1, box', outs)
    /\ In c outs
    /\ lo <= loop_depth_ st0
    /\ loop_depth_ st1 <= hi.

(* ----------------------------------------------------------------- *)
(** *** The tests made on one record *)

(** [min_tick > end || max_tick < start] *)
Definition skipped_by_visibility (min_tick max_tick : Z) (ti : TimerInfo)
  : bool :=
  (min_tick >? end_ ti) || (max_tick <? start ti).

(** [start >= min_ignore && end <= max_ignore] *)
Definition skipped_by_ignore (st : LoopState) (ti : TimerInfo) : bool :=
  (start ti >=? min_ignore st) && (end_ ti <=? max_ignore st).

(** [normalized_length * canvas->getWidth() > 1] *)
Definition normalized_length (env : Env) (inv_time_window : F64.t)
  (ti : TimerInfo) : F64.t :=
  F64.mul (F64.sub (GetUsFromTick env (end_ ti)) (GetUsFromTick env (start ti)))
          inv_time_window.

Definition is_visible_width (env : Env) (inv_time_window : F64.t)
  (ti : TimerInfo) : bool :=
  F64.gtb (F64.mul (normalized_length env inv_time_window ti)
                   (F64.of_Z (getWidth env)))
          (F64.of_Z 1).

(** The stage string a GPU timer's key resolves to. *)
Definition resolves_to (env : Env) (ti : TimerInfo) (s : string) : Prop :=
  string_manager_Get env (user_data_key ti) = Some s.

Definition is_box (c : DrawCall) : bool :=
  match c with AddShadedBox _ _ _ _ _ => true | _ => false end.

Definition is_line (c : DrawCall) : bool :=
  match c with AddVerticalLine _ _ _ _ _ => true | _ => false end.

(** [start] snapped down to a multiple of [pixel_delta] counted from
    [min_tick], in unbounded integers. *)
Definition snap_to_pixel (min_tick pixel_delta start : Z) : Z :=
  min_tick + (start - min_tick) / pixel_delta * pixel_delta.

Definition same_ignore (a b : LoopState) : Prop :=
  min_ignore a = min_ignore b /\ max_ignore a = max_ignore b.

(** The vertical position the spec gives a record:
    [base - textBoxHeight * (effective_depth + 1)]. *)
Definition row_y (env : Env) (base : F32.t) (effective_depth : Z) : F32.t :=
  F32.sub base
          (F32.mul (GetTextBoxHeight env) (F32.of_Z (effective_depth + 1))).

(** The base line of the timer rows of a thread track, below its event
    track. *)
Definition thread_base_y (env : Env) (track_y : F32.t) : F32.t :=
  F32.sub (F32.sub track_y (GetEventTrackHeight env))
          (GetSpaceBetweenTracksAndThread env).

(** The row height a thread track uses while its depth counter is
    [depth_]. *)
Definition thread_row_height (env : Env) (collapsed : bool) (depth_ : Z)
  : F32.t :=
  if collapsed && (depth_ >? 0) then
    F32.div (GetTextBoxHeight env) (F32.of_Z depth_)
  else GetTextBoxHeight env.

Definition call_y (c : DrawCall) : option F32.t :=
  match call_pos c with
  | Some p => Some (snd p)
  | None => None
  end.

(* ----------------------------------------------------------------- *)
(** *** Sample tracks *)

(** A GPU track (collapsed, as constructed) holding a hardware-execution
    record [0, 50000] at depth 0 and a one-tick software-queue record at
    depth 1. *)
Definition gpu_two : GpuTrack.t :=
  GpuTrack.OnTimer 1024
    (GpuTrack.OnTimer 1024
       (GpuTrack.GpuTrack (F32.of_Z 0, F32.of_Z 500) 99)
       (sample_timer 0 50000 0 3 kGpuActivity))
    (sample_timer 10000 10001 1 1 kGpuActivity).

Definition gpu_two_expanded : GpuTrack.t :=
  GpuTrack.set_collapsed false gpu_two.

(** A thread track holding two instrumented-function timers, at depths 0
    and 1, for which [OnTimer] has raised [depth_] to 2; and the same track
    collapsed by the user. *)
Definition thread_two : ThreadTrack.t :=
  ThreadTrack.OnTimer 1024
    (ThreadTrack.OnTimer 1024
       (ThreadTrack.ThreadTrack (F32.of_Z 0, F32.of_Z 500) 7)
       (sample_timer 0 50000 0 0 kNone))
    (sample_timer 10000 40000 1 0 kNone).

Definition thread_two_collapsed : ThreadTrack.t :=
  ThreadTrack.set_collapsed true thread_two.

(** How a drawn record appears and what it does to the ignore window:
    a box when [normalized_length * width > 1], leaving the window alone;
    otherwise a line, after which the window is the pixel-wide tick range
    around [start] when [pixel_delta] is not zero (stated for a record that
    starts at or after [min_tick] and whose pixel range fits in 64 bits),
    and is left alone when [pixel_delta] is zero. *)
Definition drawn_as (env : Env) (inv_time_window : F64.t)
  (pixel_delta min_tick : Z) (ti : TimerInfo) (st st' : LoopState)
  (c : DrawCall) : Prop :=
  if is_visible_width env inv_time_window ti then
    is_box c = true /\ same_ignore st' st
  else
    is_line c = true
    /\ if pixel_delta =? 0 then same_ignore st' st
       else
         min_tick <= start ti < 2 ^ 64 ->
         start ti + pixel_delta < 2 ^ 64 ->
         min_ignore st' = snap_to_pixel min_tick pixel_delta (start ti)
         /\ max_ignore st'
            = snap_to_pixel min_tick pixel_delta (start ti) + pixel_delta.

(** The ignore window right after the reset at the head of a block. *)
Definition fresh_loop_state (depth_ : Z) : LoopState :=
  mkLoopState UINT64_MAX UINT64_MIN depth_.

(** A window of 3 microseconds starting at 0.25 microseconds on a canvas of
    1000 pixels: 3 ticks per pixel, minimum tick 250. *)
Definition narrow_env : Env :=
  sample_env_full 1000 (F64.of_Z 3) (F64.make 1 (-2)).

(** A two-tick record that straddles the left edge of that window. *)
Definition edge_timer : TimerInfo := sample_timer 249 251 0 0 kNone.

Definition thread_edge : ThreadTrack.t :=
  ThreadTrack.OnTimer 1024
    (ThreadTrack.ThreadTrack (F32.of_Z 0, F32.of_Z 500) 7) edge_timer.

(** The text box of the one-tick software-queue record of [gpu_two], as
    [OnTimer] stores it. *)
Definition sub_pixel_box : TextBox :=
  fresh_text_box (sample_timer 10000 10001 1 1 kGpuActivity).

(** Every timer stored in a GPU track has type [kGpuActivity], which is what
    the [CHECK] in [GpuTrack::SetTimesliceText] asserts. *)
Definition gpu_timers_only (m : TimerMap) : Prop :=
  forall box, In box (map_boxes m) -> type (GetTimerInfo box) = kGpuActivity.

(** No stored record intersects the window [[min_tick, max_tick]]. *)
Definition nothing_visible (min_tick max_tick : Z) (m : TimerMap) : Prop :=
  forall box, In box (map_boxes m) ->
              skipped_by_visibility min_tick max_tick (GetTimerInfo box) = true.

(** A canvas of zero pixels, and a window of zero microseconds. *)
Definition zero_width_env : Env := sample_env_with 0 (F64.of_Z 100).
Definition zero_window_env : Env := sample_env_with 1000 F64.zero.

(* ----------------------------------------------------------------- *)
(** *** A scheduler-like thread track

    A thread track fed with core-activity timers only (for which [OnTimer]
    does not touch [depth_]): two timers on cores 0 and 1, one frame drawn,
    the track collapsed by the user, then a timer on core 3. *)

Definition draw_frame (env : Env) (tr : ThreadTrack.t) (min_tick max_tick : Z)
  : ThreadTrack.t :=
  match ThreadTrack.UpdatePrimitives env tr min_tick max_tick with
  | Ok (tr', _) => tr'
  | _ => tr
  end.

Definition frame_output (env : Env) (tr : ThreadTrack.t)
  (min_tick max_tick : Z) : list DrawCall :=
  match ThreadTrack.UpdatePrimitives env tr min_tick max_tick with
  | Ok (_, out) => out
  | _ => []
  end.

Definition core_track : ThreadTrack.t :=
  let t0 := ThreadTrack.ThreadTrack (F32.of_Z 0, F32.of_Z 500) 0 in
  let t1 := ThreadTrack.OnTimer 1024 t0
              (sample_timer 0 50000 0 0 kCoreActivity) in
  let t2 := ThreadTrack.OnTimer 1024 t1
              (sample_timer 10000 40000 1 0 kCoreActivity) in
  let t3 := draw_frame sample_env t2 0 100000 in
  let t4 := ThreadTrack.set_collapsed true t3 in
  ThreadTrack.OnTimer 1024 t4 (sample_timer 20000 30000 3 0 kCoreActivity).

(** Two loop states with the same ignore window and the same [depth_],
    equal to [d]. *)
Definition same_state_at (d : Z) (st2 st : LoopState) : Prop :=
  same_ignore st2 st /\ loop_depth_ st2 = loop_depth_ st /\ loop_depth_ st = d.

(** [depth_] already covers every stored record. *)
Definition depth_covers (depth_ : Z) (m : TimerMap) : Prop :=
  forall box, In box (map_boxes m) ->
              u32 (depth (GetTimerInfo box) + 1) <= depth_.

(** [r] is the right answer of the before-query on the records [l]: a
    record with the greatest [start] at or below [time], or nothing when no
    record starts at or before [time]. *)
Definition before_answer (time : Z) (l : list TextBox) (r : option TextBox)
  : Prop :=
  match r with
  | Some x =>
      In x l
      /\ start (GetTimerInfo x) <= time
      /\ forall b, In b l -> start (GetTimerInfo b) <= time ->
                   start (GetTimerInfo b) <= start (GetTimerInfo x)
  | None => forall b, In b l -> time < start (GetTimerInfo b)
  end.

(* ================================================================= *)
(** ** Vocabulary of the further properties *)

(** The invariant of [std::map]: keys strictly ascending; and no bucket is a
    null pointer. *)
Definition keys_increasing (m : TimerMap) : Prop :=
  StronglySorted Z.lt (map fst m).

Definition no_null_chain (m : TimerMap) : Prop :=
  forall k v, In (k, v) m -> v <> None.

(** The records of a bucket, [[]] for an absent (or null) bucket. *)
Definition bucket_boxes (bucket : option TimerChain) : list TextBox :=
  match bucket with
  | Some chain => chain_boxes chain
  | None => []
  end.

(** The records at depth [d]: the text boxes of the chain that the store
    holds under the key [int(d)]. *)
Definition stored_under_depth (m : TimerMap) (d : Z) (b : TextBox) : Prop :=
  exists chain, In (to_int d, Some chain) m /\ In b (chain_boxes chain).

(** The records at depth [d] are in non-decreasing [start] order. *)
Definition depth_bucket_sorted (m : TimerMap) (d : Z) : Prop :=
  forall chain,
    In (to_int d, Some chain) m -> Sorted start_le (chain_boxes chain).

(** [r] is the right answer of the after-query for depth [d] on the store
    [m]: a record at depth [d] that starts after [time] and no later than
    any other such record, or nothing when no record at depth [d] starts
    after [time]. *)
Definition least_start_after (m : TimerMap) (d time : Z)
  (r : option TextBox) : Prop :=
  match r with
  | Some x =>
      stored_under_depth m d x
      /\ time < start (GetTimerInfo x)
      /\ forall b, stored_under_depth m d b ->
                   time < start (GetTimerInfo b) ->
                   start (GetTimerInfo x) <= start (GetTimerInfo b)
  | None =>
      forall b, stored_under_depth m d b -> start (GetTimerInfo b) <= time
  end.

(** The tracks obtained from the constructor by a sequence of [OnTimer]. *)
Definition gpu_after (kBlockSize : nat) (pos : Vec2) (timeline_hash : Z)
  (l : list TimerInfo) : GpuTrack.t :=
  fold_left (GpuTrack.OnTimer kBlockSize) l
            (GpuTrack.GpuTrack pos timeline_hash).

Definition thread_after (kBlockSize : nat) (pos : Vec2) (thread_id : Z)
  (l : list TimerInfo) : ThreadTrack.t :=
  fold_left (ThreadTrack.OnTimer kBlockSize) l
            (ThreadTrack.ThreadTrack pos thread_id).

(** The structure of a store with the mutable parts of the boxes erased:
    keys, blocks and the [TimerInfo] of every record. *)
Definition store_shape (m : TimerMap)
  : list (Z * option (list (list TimerInfo))) :=
  map (fun kv => (fst kv, option_map (map (map GetTimerInfo)) (snd kv))) m.

Definition call_color (c : DrawCall) : option Color :=
  match c with
  | AddShadedBox _ _ _ col _ | AddVerticalLine _ _ _ col _ => Some col
  | AddTextTrailingCharsPrioritized _ _ _ _ _ _ _ => None
  | FromEventTrack _ => None
  end.

(** [s] ends with [t]. *)
Definition ends_with (s t : string) : Prop :=
  exists p, s = (p ++ t)%string.

(** The record lies inside the tick range [[lo, hi]]. *)
Definition within (lo hi : Z) (ti : TimerInfo) : Prop :=
  lo <= start ti /\ end_ ti <= hi.

(** All depths are below 2^31, so that they are their own [int] key. *)
Definition depths_small (l : list TimerInfo) : Prop :=
  forall r, In r l -> 0 <= depth r < 2 ^ 31.

(** How [depth_] can move over one frame on the records [boxes]: it stays at
    [d0], or it is raised to [depth + 1] (as a [uint32_t]) of a record that
    overlaps the tick range. *)
Definition depth_raised_by (min_tick max_tick : Z) (boxes : list TextBox)
  (d0 d1 : Z) : Prop :=
  d1 = d0
  \/ exists box,
      In box boxes
      /\ skipped_by_visibility min_tick max_tick (GetTimerInfo box) = false
      /\ d1 = u32 (depth (GetTimerInfo box) + 1)
      /\ d0 < d1.

(** The collaborators after [Capture::GSelectedTextBox] has been pointed at
    the record [r] of this track. *)
Definition select (r : BoxRef) (env : Env) : Env :=
  mkEnv
    (GetTextBoxHeight env) (GetEventTrackHeight env)
    (GetSpaceBetweenTracksAndThread env) (GetTextOffset env)
    (GetTrackBottomMargin env)
    (GetWorldTopLeftX env) (GetWorldWidth env) (getWidth env)
    (GetSceneBoxPosX env) (Z_VALUE_BOX_ACTIVE env) (Z_VALUE_TEXT env)
    (GetTimeWindowUs env) (GetMinTimeUs env)
    (GetUsFromTick env) (GetTickFromUs env) (GetThreadColor env)
    (GetStringManager_Get env) (string_manager_Get env)
    (MicrosecondsToTicks env) (GetPrettyTime env)
    (Some r) (GSelectedFunctionsMap env)
    (GVisibleFunctionsMap_empty env) (GVisibleFunctionsMap env)
    (FLAGS_show_return_values env)
    (event_track_UpdatePrimitives env).

(** The ignore window that a line drawn for a record starting at [s] leaves
    behind: the pixel-wide tick range around [s], in [uint64_t]
    arithmetic. *)
Definition pixel_window (min_timegraph_tick pixel_delta s : Z) : Z * Z :=
  let lo :=
    u64 (min_timegraph_tick
         + u64 (u64 (s - min_timegraph_tick) / pixel_delta * pixel_delta)) in
  (lo, u64 (lo + pixel_delta)).

(** Every record of [rest] lies inside the tick range [w]. *)
Definition all_within (w : Z * Z) (rest : list TextBox) : Prop :=
  forall x, In x rest -> within (fst w) (snd w) (GetTimerInfo x).

(** The timers of [l] that [OnTimer] files in the bucket read by
    [GetTimers(d)], in arrival order: both convert the depth to the [int]
    key of the map. *)
Definition filed_under (d : Z) (l : list TimerInfo) : list TimerInfo :=
  filter (fun r => to_int (depth r) =? to_int d) l.

(** The timers arrive in non-decreasing order of [start]. *)
Definition in_start_order (l : list TimerInfo) : Prop :=
  Sorted (fun a b => start a <= start b) l.

(** An emitted call [c] was produced by one run of the loop body on the
    record at [ref], which is [box] in the store [m] before the frame and
    [box'] in the store [m'] after it. *)
Definition produced_at
  (body : LoopState -> BoxRef -> TextBox ->
          result (LoopState * TextBox * list DrawCall))
  (m m' : TimerMap) (ref : BoxRef) (box box' : TextBox) (c : DrawCall)
  : Prop :=
  stored_at m ref box
  /\ stored_at m' ref box'
  /\ exists st0 st1 outs,
      body st0 ref box = Ok (st1, box', outs) /\ In c outs.

(** The call [c] shows the text box [box] stored at [ref]: a shaded box has
    its position and size, a line its position and height, and both carry
    [ref] as picking user data; a text call has its label and trailing
    length.  A call of the event track shows no text box. *)
Definition drawn_from (ref : BoxRef) (box : TextBox) (c : DrawCall) : Prop :=
  match c with
  | AddShadedBox pos size _ _ user_data =>
      user_data = ref /\ pos = GetPos box /\ size = GetSize box
  | AddVerticalLine pos height _ _ user_data =>
      user_data = ref /\ pos = GetPos box /\ height = snd (GetSize box)
  | AddTextTrailingCharsPrioritized text _ _ _ _ trailing_chars _ =>
      text = GetText box /\ trailing_chars = GetElapsedTimeTextLength box
  | FromEventTrack _ => False
  end.

(** The condition under which the [CHECK] of [GpuTrack::SetTimesliceText]
    is reached and fails for the record of [box]: the record is neither
    culled nor ignored, the track is expanded, the record is at least a
    pixel wide, it has no label yet, and it is not a GPU-activity timer. *)
Definition check_fails (env : Env) (fr : GpuTrack.Frame)
  (min_tick max_tick : Z) (st : LoopState) (box : TextBox) : Prop :=
  let ti := GetTimerInfo box in
  skipped_by_visibility min_tick max_tick ti = false
  /\ skipped_by_ignore st ti = false
  /\ GpuTrack.is_collapsed fr = false
  /\ is_visible_width env (GpuTrack.inv_time_window fr) ti = true
  /\ GetText box = EmptyString
  /\ type ti <> kGpuActivity.

(** The collaborators with the event track replaced by [event_track]. *)
Definition with_event_track
  (event_track : Vec2 -> Z -> Z -> result (list EventTrackCall))
  (env : Env) : Env :=
  mkEnv
    (GetTextBoxHeight env) (GetEventTrackHeight env)
    (GetSpaceBetweenTracksAndThread env) (GetTextOffset env)
    (GetTrackBottomMargin env)
    (GetWorldTopLeftX env) (GetWorldWidth env) (getWidth env)
    (GetSceneBoxPosX env) (Z_VALUE_BOX_ACTIVE env) (Z_VALUE_TEXT env)
    (GetTimeWindowUs env) (GetMinTimeUs env)
    (GetUsFromTick env) (GetTickFromUs env) (GetThreadColor env)
    (GetStringManager_Get env) (string_manager_Get env)
    (MicrosecondsToTicks env) (GetPrettyTime env)
    (GSelectedTextBox env) (GSelectedFunctionsMap env)
    (GVisibleFunctionsMap_empty env) (GVisibleFunctionsMap env)
    (FLAGS_show_return_values env)
    event_track.

(** An event track that makes two calls in every frame, and one that does
    not return. *)
Definition busy_event_track (pos : Vec2) (min_tick max_tick : Z)
  : result (list EventTrackCall) :=
  Ok [mkEventTrackCall 1; mkEventTrackCall 2].

(* ----------------------------------------------------------------- *)
(** *** The order of a frame *)

(** The stored records with their references, in the order in which the
    three loops of [UpdatePrimitives] visit them: chains by ascending key,
    blocks in chain order, records by index. *)
Fixpoint block_entries (key : Z) (bi k : nat) (boxes : TimerBlock)
  : list (BoxRef * TextBox) :=
  match boxes with
  | [] => []
  | box :: rest => ((key, bi, k), box) :: block_entries key bi (S k) rest
  end.

Fixpoint chain_entries (key : Z) (bi : nat) (blocks : TimerChain)
  : list (BoxRef * TextBox) :=
  match blocks with
  | [] => []
  | block :: rest =>
      block_entries key bi 0%nat block ++ chain_entries key (S bi) rest
  end.

Fixpoint map_entries (m : TimerMap) : list (BoxRef * TextBox) :=
  match m with
  | [] => []
  | (key, None) :: rest => map_entries rest
  | (key, Some chain) :: rest =>
      chain_entries key 0%nat chain ++ map_entries rest
  end.

(** [l] is [m] with some elements left out: the order is kept and no
    element of [m] is used twice. *)
Inductive in_order {A : Type} : list A -> list A -> Prop :=
| in_order_nil : in_order [] []
| in_order_skip (x : A) (l m : list A) : in_order l m -> in_order l (x :: m)
| in_order_take (x : A) (l m : list A) :
    in_order l m -> in_order (x :: l) (x :: m).

(** The depth counter after [UpdateDepth(depth + 1)] for each of the
    records [recs] in turn, starting from [depth_]. *)
Definition counter_after (depth_ : Z) (recs : list (BoxRef * TextBox)) : Z :=
  fold_left
    (fun counter entry =>
       UpdateDepth (u32 (depth (GetTimerInfo (snd entry)) + 1)) counter)
    recs depth_.

(** The boxes and lines [calls] of a frame, in call order, against the
    records [recs] they were drawn for, with the depth counter running
    along: [Q depth_now ref box c] holds of every call [c], [ref] and [box]
    being its record and [depth_now] the counter as it stands when this
    record is drawn, that is [depth_] on entry raised by
    [UpdateDepth(depth + 1)] for this record and for every record drawn
    before it. *)
Fixpoint drawn_in_turn (Q : Z -> BoxRef -> TextBox -> DrawCall -> Prop)
  (depth_ : Z) (calls : list DrawCall) (recs : list (BoxRef * TextBox))
  : Prop :=
  match calls, recs with
  | [], [] => True
  | c :: calls', (ref, box) :: recs' =>
      let depth_now :=
        UpdateDepth (u32 (depth (GetTimerInfo box) + 1)) depth_ in
      Q depth_now ref box c /\ drawn_in_turn Q depth_now calls' recs'
  | _, _ => False
  end.

(** The height at which a thread track draws a record of depth [d] while
    its depth counter is [depth_now]:
    [(track_y - eventTrackHeight - space) - rowHeight * (d + 1)], the sum
    [d + 1] being a [uint32_t]. *)
Definition thread_row_y (env : Env) (track_y : F32.t) (collapsed : bool)
  (depth_now d : Z) : F32.t :=
  F32.sub (thread_base_y env track_y)
          (F32.mul (thread_row_height env collapsed depth_now)
                   (F32.of_Z (u32 (d + 1)))).

(* ----------------------------------------------------------------- *)
(** *** Degenerate viewports *)

(** [pixel_delta_in_ticks] as both tracks compute it at the head of
    [UpdatePrimitives]. *)
Definition frame_pixel_delta (env : Env) : Z :=
  u64 (MicrosecondsToTicks env (GetTimeWindowUs env)) / u64 (getWidth env).

(** Every stored record that overlaps [[min_tick, max_tick]], starts before
    [UINT64_MAX] and is [eligible] has a box or a line of its own in
    [out]. *)
Definition every_visible_record_drawn (min_tick max_tick : Z)
  (eligible : TextBox -> Prop) (m : TimerMap) (out : list DrawCall) : Prop :=
  forall ref box,
    stored_at m ref box ->
    skipped_by_visibility min_tick max_tick (GetTimerInfo box) = false ->
    start (GetTimerInfo box) < UINT64_MAX ->
    eligible box ->
    exists c,
      In c out /\ is_primitive c = true /\ call_user_data c = Some ref.

(** What the collapse filter of the GPU track lets through: everything on
    an expanded track, the hardware-execution records on a collapsed one. *)
Definition passes_collapse_filter (env : Env) (tr : GpuTrack.t)
  (box : TextBox) : Prop :=
  GpuTrack.collapse_toggle_IsCollapsed tr = true ->
  resolves_to env (GetTimerInfo box) kHwExecutionString.

(** A window of zero microseconds whose event track makes two calls. *)
Definition zero_window_busy_env : Env :=
  with_event_track busy_event_track zero_window_env.

(* ================================================================= *)
(** * Properties *)

(* ----------------------------------------------------------------- *)
(** ** Insertion: bounds, count, frame *)

Lemma u32_succ (n : Z) : 0 <= n < 2 ^ 32 - 1 -> u32 (n + 1) = n + 1.
Proof. intros H. unfold u32. apply Z.mod_small. lia. Qed.

Lemma GpuTrack_OnTimer_bounds (kBlockSize : nat) (r : TimerInfo)
  (tr : GpuTrack.t) :
  let tr' := GpuTrack.OnTimer kBlockSize tr r in
  GpuTrack.min_time_ tr' <= start r
  /\ end_ r <= GpuTrack.max_time_ tr'
  /\ GpuTrack.min_time_ tr' <= GpuTrack.min_time_ tr
  /\ GpuTrack.max_time_ tr <= GpuTrack.max_time_ tr'.
Proof.
  cbn.
  destruct (Z.ltb_spec (start r) (GpuTrack.min_time_ tr));
    destruct (Z.gtb_spec (end_ r) (GpuTrack.max_time_ tr)); lia.
Qed.

Lemma ThreadTrack_OnTimer_bounds (kBlockSize : nat) (r : TimerInfo)
  (tr : ThreadTrack.t) :
  let tr' := ThreadTrack.OnTimer kBlockSize tr r in
  ThreadTrack.min_time_ tr' <= start r
  /\ end_ r <= ThreadTrack.max_time_ tr'
  /\ ThreadTrack.min_time_ tr' <= ThreadTrack.min_time_ tr
  /\ ThreadTrack.max_time_ tr <= ThreadTrack.max_time_ tr'.
Proof.
  cbn.
  destruct (Z.ltb_spec (start r) (ThreadTrack.min_time_ tr));
    destruct (Z.gtb_spec (end_ r) (ThreadTrack.max_time_ tr)); lia.
Qed.

(** C7. After [OnTimer] inserts a record [r], [min_time_ <= r.start] and
    [max_time_ >= r.end]; [min_time_] has not increased and [max_time_] has
    not decreased; [num_timers_] has been incremented (it is a 32-bit
    counter, so the increment is exactly one while it is below 2^32 - 1).
    Both tracks. *)
Theorem OnTimer_widens_bounds_and_counts (kBlockSize : nat) (r : TimerInfo) :
  (forall tr : GpuTrack.t,
      let tr' := GpuTrack.OnTimer kBlockSize tr r in
      GpuTrack.min_time_ tr' <= start r
      /\ end_ r <= GpuTrack.max_time_ tr'
      /\ GpuTrack.min_time_ tr' <= GpuTrack.min_time_ tr
      /\ GpuTrack.max_time_ tr <= GpuTrack.max_time_ tr'
      /\ GpuTrack.num_timers_ tr' = u32 (GpuTrack.num_timers_ tr + 1)
      /\ (0 <= GpuTrack.num_timers_ tr < 2 ^ 32 - 1 ->
          GpuTrack.num_timers_ tr' = GpuTrack.num_timers_ tr + 1))
  /\
  (forall tr : ThreadTrack.t,
      let tr' := ThreadTrack.OnTimer kBlockSize tr r in
      ThreadTrack.min_time_ tr' <= start r
      /\ end_ r <= ThreadTrack.max_time_ tr'
      /\ ThreadTrack.min_time_ tr' <= ThreadTrack.min_time_ tr
      /\ ThreadTrack.max_time_ tr <= ThreadTrack.max_time_ tr'
      /\ ThreadTrack.num_timers_ tr' = u32 (ThreadTrack.num_timers_ tr + 1)
      /\ (0 <= ThreadTrack.num_timers_ tr < 2 ^ 32 - 1 ->
          ThreadTrack.num_timers_ tr' = ThreadTrack.num_timers_ tr + 1)).
Proof.
  split; intros tr; cbv zeta.
  - destruct (GpuTrack_OnTimer_bounds kBlockSize r tr) as (A & B & C & D).
    repeat split; try assumption. apply u32_succ.
  - destruct (ThreadTrack_OnTimer_bounds kBlockSize r tr) as (A & B & C & D).
    repeat split; try assumption. apply u32_succ.
Qed.

Lemma OnTimer_widens_bounds_and_counts_witness :
  let tr := GpuTrack.GpuTrack (F32.of_Z 0, F32.of_Z 500) 99 in
  0 <= GpuTrack.num_timers_ tr < 2 ^ 32 - 1
  /\ GpuTrack.num_timers_ (GpuTrack.OnTimer 1024 tr one_timer) = 1
  /\ GpuTrack.min_time_ (GpuTrack.OnTimer 1024 tr one_timer) <= 0.
Proof.
  cbv zeta.
  pose proof (OnTimer_widens_bounds_and_counts 1024 one_timer) as [G _].
  specialize (G (GpuTrack.GpuTrack (F32.of_Z 0, F32.of_Z 500) 99)).
  cbv zeta in G.
  destruct G as (Hmin & _ & _ & _ & _ & Hcount).
  split; [ vm_compute; split; [ discriminate | reflexivity ] | ].
  split.
  - apply Hcount. vm_compute. split; [ discriminate | reflexivity ].
  - exact Hmin.
Defined.

(** Bounds hold for every record inserted so far, not only for the last
    one. *)
Lemma GpuTrack_OnTimer_fold_bounds (kBlockSize : nat) (l : list TimerInfo) :
  forall tr r,
    In r l ->
    let tr' := fold_left (GpuTrack.OnTimer kBlockSize) l tr in
    GpuTrack.min_time_ tr' <= start r /\ end_ r <= GpuTrack.max_time_ tr'.
Proof.
  assert (mono : forall l tr,
             GpuTrack.min_time_ (fold_left (GpuTrack.OnTimer kBlockSize) l tr)
               <= GpuTrack.min_time_ tr
             /\ GpuTrack.max_time_ tr
               <= GpuTrack.max_time_
                    (fold_left (GpuTrack.OnTimer kBlockSize) l tr)).
  { induction l0 as [|x xs IH]; intros tr; cbn [fold_left]; [ lia | ].
    destruct (IH (GpuTrack.OnTimer kBlockSize tr x)) as [A B].
    destruct (GpuTrack_OnTimer_bounds kBlockSize x tr) as (_ & _ & C & D).
    lia. }
  induction l as [|x xs IH]; intros tr r Hin; [ contradiction | ].
  cbn [fold_left]. destruct Hin as [-> | Hin].
  - destruct (mono xs (GpuTrack.OnTimer kBlockSize tr r)) as [A B].
    destruct (GpuTrack_OnTimer_bounds kBlockSize r tr) as (C & D & _).
    cbv zeta. lia.
  - apply IH. exact Hin.
Qed.

(** C10. [GpuTrack::OnTimer] leaves [depth_] (and the position, the toggle
    and the timeline hash) untouched, so a GPU track that has only received
    timers since construction reports depth 0 and is not collapsable,
    whatever the timers and their depths. *)
Theorem GpuTrack_OnTimer_keeps_depth :
  (forall kBlockSize tr r,
      let tr' := GpuTrack.OnTimer kBlockSize tr r in
      GpuTrack.depth_ tr' = GpuTrack.depth_ tr
      /\ GpuTrack.m_Pos tr' = GpuTrack.m_Pos tr
      /\ GpuTrack.collapse_toggle_IsCollapsed tr'
         = GpuTrack.collapse_toggle_IsCollapsed tr
      /\ GpuTrack.timeline_hash_ tr' = GpuTrack.timeline_hash_ tr)
  /\
  (forall kBlockSize pos timeline_hash (l : list TimerInfo),
      let tr := fold_left (GpuTrack.OnTimer kBlockSize) l
                          (GpuTrack.GpuTrack pos timeline_hash) in
      GpuTrack.GetDepth tr = 0 /\ GpuTrack.IsCollapsable tr = false).
Proof.
  split.
  - intros kBlockSize tr r. cbn. repeat split.
  - intros kBlockSize pos timeline_hash l.
    assert (keep : forall l tr,
               GpuTrack.depth_ (fold_left (GpuTrack.OnTimer kBlockSize) l tr)
               = GpuTrack.depth_ tr).
    { induction l0 as [|x xs IH]; intros tr; cbn [fold_left]; [ reflexivity | ].
      rewrite IH. reflexivity. }
    cbv zeta. unfold GpuTrack.GetDepth, GpuTrack.IsCollapsable.
    rewrite keep. cbn. split; reflexivity.
Qed.

(* ----------------------------------------------------------------- *)
(** ** The neighbour queries *)

Lemma first_after_in_chain_flat (time : Z) (c : TimerChain) :
  first_after_in_chain time c = first_after_in_block time (chain_boxes c).
Proof.
  unfold chain_boxes. induction c as [|b rest IH]; cbn [first_after_in_chain List.concat].
  - reflexivity.
  - rewrite IH. clear IH.
    induction b as [|x xs IHb]; cbn [first_after_in_block app].
    + reflexivity.
    + destruct (start (GetTimerInfo x) >? time); [ reflexivity | exact IHb ].
Qed.

Lemma first_after_in_block_none (time : Z) (l : list TextBox) :
  first_after_in_block time l = None ->
  forall b, In b l -> start (GetTimerInfo b) <= time.
Proof.
  induction l as [|x xs IH]; cbn [first_after_in_block]; intros H b Hin.
  - contradiction.
  - destruct (Z.gtb_spec (start (GetTimerInfo x)) time) as [Hgt | Hle];
      [ discriminate | ].
    destruct Hin as [<- | Hin]; [ exact Hle | exact (IH H b Hin) ].
Qed.

Lemma first_after_in_block_some (time : Z) (l : list TextBox) (x : TextBox) :
  StronglySorted start_le l ->
  first_after_in_block time l = Some x ->
  In x l
  /\ time < start (GetTimerInfo x)
  /\ forall b, In b l -> time < start (GetTimerInfo b) ->
               start (GetTimerInfo x) <= start (GetTimerInfo b).
Proof.
  induction l as [|y ys IH]; cbn [first_after_in_block]; intros Hs H.
  - discriminate.
  - apply StronglySorted_inv in Hs. destruct Hs as [Hs Hall].
    destruct (Z.gtb_spec (start (GetTimerInfo y)) time) as [Hgt | Hle].
    + injection H as <-. split; [ left; reflexivity | ]. split; [ lia | ].
      intros b [<- | Hin] _; [ lia | ].
      rewrite Forall_forall in Hall. exact (Hall b Hin).
    + destruct (IH Hs H) as (Hin & Hlt & Hmin).
      split; [ right; exact Hin | ]. split; [ exact Hlt | ].
      intros b [<- | Hb] Hb'; [ lia | exact (Hmin b Hb Hb') ].
Qed.

Lemma start_le_trans : Relations_1.Transitive start_le.
Proof. intros a b c. unfold start_le. lia. Qed.

Lemma first_after_answer (time : Z) (bucket : option TimerChain) :
  bucket_sorted bucket ->
  after_answer time bucket
    (match bucket with
     | None => None
     | Some chain => first_after_in_chain time chain
     end).
Proof.
  destruct bucket as [chain|]; cbn [bucket_sorted after_answer]; [ | trivial ].
  intros Hs. rewrite first_after_in_chain_flat.
  destruct (first_after_in_block time (chain_boxes chain)) as [x|] eqn:E.
  - apply first_after_in_block_some; [ | exact E ].
    apply Sorted_StronglySorted; [ exact start_le_trans | exact Hs ].
  - apply first_after_in_block_none. exact E.
Qed.

Lemma map_find_In (k : Z) (v : option TimerChain) (m : TimerMap) :
  map_find k m = Some v -> In (k, v) m.
Proof.
  induction m as [|[k' v'] rest IH]; cbn [map_find In]; intros H.
  - discriminate.
  - destruct (Z.eqb_spec k k') as [-> | Hne].
    + injection H as <-. left. reflexivity.
    + right. exact (IH H).
Qed.

Lemma map_find_stored (k : Z) (v : option TimerChain) (m : TimerMap) :
  keys_increasing m -> In (k, v) m -> map_find k m = Some v.
Proof.
  unfold keys_increasing.
  induction m as [|[k' v'] rest IH]; cbn [map_find In map fst];
    intros Hs Hin.
  - contradiction.
  - apply StronglySorted_inv in Hs. destruct Hs as [Hs Hall].
    destruct Hin as [E | Hin].
    + injection E as -> ->. rewrite Z.eqb_refl. reflexivity.
    + rewrite Forall_forall in Hall.
      assert (Hlt : k' < k)
        by (apply Hall; apply (in_map fst _ _ Hin)).
      destruct (Z.eqb_spec k k') as [-> | _]; [ lia | exact (IH Hs Hin) ].
Qed.

Lemma first_after_least (m : TimerMap) (d time : Z) :
  keys_increasing m ->
  depth_bucket_sorted m d ->
  least_start_after m d time
    (match map_index (to_int d) m with
     | None => None
     | Some chain => first_after_in_chain time chain
     end).
Proof.
  intros Hk Hs. unfold map_index.
  assert (Hone : forall chain b,
             In (to_int d, Some chain) m -> In b (chain_boxes chain) ->
             exists chain0,
               map_find (to_int d) m = Some (Some chain0)
               /\ In b (chain_boxes chain0)).
  { intros chain b Hin Hb. exists chain.
    split; [ exact (map_find_stored _ _ _ Hk Hin) | exact Hb ]. }
  destruct (map_find (to_int d) m) as [[chain|]|] eqn:E.
  - pose proof (map_find_In _ _ _ E) as Hin.
    assert (Hiff : forall b, stored_under_depth m d b
                             <-> In b (chain_boxes chain)).
    { intros b. split.
      - intros (chain' & Hc & Hb).
        destruct (Hone chain' b Hc Hb) as (chain0 & E0 & Hb0).
        injection E0 as <-. exact Hb0.
      - intros Hb. exists chain. split; assumption. }
    rewrite first_after_in_chain_flat.
    destruct (first_after_in_block time (chain_boxes chain)) as [x|] eqn:F;
      cbn [least_start_after].
    + destruct (first_after_in_block_some time (chain_boxes chain) x)
        as (A & B & C);
        [ apply Sorted_StronglySorted;
          [ exact start_le_trans | exact (Hs chain Hin) ]
        | exact F | ].
      split; [ apply Hiff; exact A | ]. split; [ exact B | ].
      intros b Hb. apply C. apply Hiff. exact Hb.
    + intros b Hb. apply (first_after_in_block_none time _ F).
      apply Hiff. exact Hb.
  - cbn [least_start_after]. intros b (chain' & Hc & Hb).
    destruct (Hone chain' b Hc Hb) as (chain0 & E0 & _). discriminate.
  - cbn [least_start_after]. intros b (chain' & Hc & Hb).
    destruct (Hone chain' b Hc Hb) as (chain0 & E0 & _). discriminate.
Qed.

(** C9. The after-query against the store.  The records at depth [d] are
    the text boxes of the chain that [timers_] holds under the key [d].
    Under the precondition that they are in non-decreasing [start] order
    (and with the keys of [timers_] distinct and ascending, as in every
    [std::map]), [GetFirstAfterTime(t, d)] returns one of them with
    [start > t] whose [start] is the least among those with [start > t];
    and it returns nothing only when no record at depth [d] has
    [start > t], which includes the case that [timers_] has no chain under
    [d].  Both tracks. *)
Theorem GetFirstAfterTime_least_start_after :
  (forall (tr : GpuTrack.t) (time d : Z),
      keys_increasing (GpuTrack.timers_ tr) ->
      depth_bucket_sorted (GpuTrack.timers_ tr) d ->
      least_start_after (GpuTrack.timers_ tr) d time
                        (GpuTrack.GetFirstAfterTime tr time d))
  /\
  (forall (tr : ThreadTrack.t) (time d : Z),
      keys_increasing (ThreadTrack.timers_ tr) ->
      depth_bucket_sorted (ThreadTrack.timers_ tr) d ->
      least_start_after (ThreadTrack.timers_ tr) d time
                        (ThreadTrack.GetFirstAfterTime tr time d)).
Proof.
  split; intros tr time d Hk Hs.
  - unfold GpuTrack.GetFirstAfterTime, GpuTrack.GetTimers_at.
    exact (first_after_least _ d time Hk Hs).
  - unfold ThreadTrack.GetFirstAfterTime, ThreadTrack.GetTimers_at.
    exact (first_after_least _ d time Hk Hs).
Qed.

Lemma GetFirstAfterTime_least_start_after_witness :
  let l := [sample_timer 0 100 0 3 kGpuActivity;
            sample_timer 50 60 1 1 kGpuActivity;
            sample_timer 200 300 0 3 kGpuActivity;
            sample_timer 400 500 0 3 kGpuActivity] in
  let gpu := gpu_after 2 (F32.of_Z 0, F32.of_Z 500) 99 l in
  let thread := thread_after 2 (F32.of_Z 0, F32.of_Z 500) 7 l in
  (keys_increasing (GpuTrack.timers_ gpu)
   /\ depth_bucket_sorted (GpuTrack.timers_ gpu) 0
   /\ GpuTrack.GetFirstAfterTime gpu 100 0
      = Some (fresh_text_box (sample_timer 200 300 0 3 kGpuActivity))
   /\ least_start_after (GpuTrack.timers_ gpu) 0 100
                        (GpuTrack.GetFirstAfterTime gpu 100 0))
  /\
  (keys_increasing (ThreadTrack.timers_ thread)
   /\ depth_bucket_sorted (ThreadTrack.timers_ thread) 0
   /\ ThreadTrack.GetFirstAfterTime thread 250 0
      = Some (fresh_text_box (sample_timer 400 500 0 3 kGpuActivity))
   /\ ThreadTrack.GetFirstAfterTime thread 400 0 = None
   /\ least_start_after (ThreadTrack.timers_ thread) 0 250
                        (ThreadTrack.GetFirstAfterTime thread 250 0)).
Proof.
  intros l gpu thread.
  assert (Hk1 : keys_increasing (GpuTrack.timers_ gpu))
    by (vm_compute; repeat constructor).
  assert (Hs1 : depth_bucket_sorted (GpuTrack.timers_ gpu) 0).
  { intros chain H. vm_compute in H.
    destruct H as [H | [H | []]]; [ | discriminate H ].
    injection H as <-. repeat constructor; vm_compute; discriminate. }
  assert (Hk2 : keys_increasing (ThreadTrack.timers_ thread))
    by (vm_compute; repeat constructor).
  assert (Hs2 : depth_bucket_sorted (ThreadTrack.timers_ thread) 0).
  { intros chain H. vm_compute in H.
    destruct H as [H | [H | []]]; [ | discriminate H ].
    injection H as <-. repeat constructor; vm_compute; discriminate. }
  split.
  - split; [ exact Hk1 | ]. split; [ exact Hs1 | ].
    split; [ reflexivity | ].
    exact (proj1 GetFirstAfterTime_least_start_after gpu 100 0 Hk1 Hs1).
  - split; [ exact Hk2 | ]. split; [ exact Hs2 | ].
    split; [ reflexivity | ]. split; [ reflexivity | ].
    exact (proj2 GetFirstAfterTime_least_start_after thread 250 0 Hk2 Hs2).
Defined.

Lemma first_before_in_block_all_le (time : Z) (l : list TextBox) :
  (forall b, In b l -> start (GetTimerInfo b) <= time) ->
  forall acc, exists acc', first_before_in_block time acc l = FellThrough acc'.
Proof.
  induction l as [|x xs IH]; cbn [first_before_in_block]; intros H acc.
  - exists acc. reflexivity.
  - destruct (Z.gtb_spec (start (GetTimerInfo x)) time) as [Hgt | Hle].
    + specialize (H x (or_introl eq_refl)). lia.
    + apply IH. intros b Hb. apply H. right. exact Hb.
Qed.

Lemma first_before_in_chain_all_le (time : Z) (c : TimerChain) :
  all_start_le time c ->
  forall acc, first_before_in_chain time acc c = None.
Proof.
  unfold all_start_le, chain_boxes.
  induction c as [|b rest IH]; cbn [first_before_in_chain List.concat];
    intros H acc.
  - reflexivity.
  - destruct (first_before_in_block_all_le time b) with (acc := acc)
      as [acc' E].
    + intros x Hx. apply H. apply in_or_app. left. exact Hx.
    + rewrite E. apply IH. intros x Hx. apply H. apply in_or_app. right.
      exact Hx.
Qed.

Lemma first_before_in_chain_flat (time : Z) (c : TimerChain) :
  forall acc,
    first_before_in_chain time acc c
    = match first_before_in_block time acc (chain_boxes c) with
      | Returned r => r
      | FellThrough _ => None
      end.
Proof.
  unfold chain_boxes.
  induction c as [|b rest IH]; cbn [first_before_in_chain List.concat];
    intros acc.
  - reflexivity.
  - revert acc. induction b as [|x xs IHb]; intros acc;
      cbn [first_before_in_block app].
    + apply IH.
    + destruct (start (GetTimerInfo x) >? time); [ reflexivity | apply IHb ].
Qed.

Lemma first_before_in_block_returned (time : Z) (l : list TextBox) :
  StronglySorted start_le l ->
  forall acc r,
    (forall a, acc = Some a ->
               start (GetTimerInfo a) <= time /\ Forall (start_le a) l) ->
    first_before_in_block time acc l = Returned r ->
    match r with
    | Some x =>
        (acc = Some x \/ In x l)
        /\ start (GetTimerInfo x) <= time
        /\ forall b, In b l -> start (GetTimerInfo b) <= time ->
                     start (GetTimerInfo b) <= start (GetTimerInfo x)
    | None => acc = None /\ forall b, In b l -> time < start (GetTimerInfo b)
    end.
Proof.
  induction l as [|y ys IH]; cbn [first_before_in_block]; intros Hs acc r Hacc H.
  - discriminate.
  - apply StronglySorted_inv in Hs. destruct Hs as [Hs Hall].
    rewrite Forall_forall in Hall. unfold start_le in *.
    destruct (Z.gtb_spec (start (GetTimerInfo y)) time) as [Hgt | Hle].
    + injection H as <-. destruct acc as [a|].
      * destruct (Hacc a eq_refl) as [Ha _].
        split; [ left; reflexivity | ]. split; [ exact Ha | ].
        intros b [<- | Hb] Hbt; [ lia | ]. specialize (Hall b Hb). lia.
      * split; [ reflexivity | ].
        intros b [<- | Hb]; [ lia | ]. specialize (Hall b Hb). lia.
    + specialize (IH Hs (Some y) r).
      assert (Hy : forall a, Some y = Some a ->
                     start (GetTimerInfo a) <= time /\ Forall (start_le a) ys).
      { intros a [= <-]. split; [ exact Hle | ].
        apply Forall_forall. exact Hall. }
      specialize (IH Hy H). destruct r as [x|].
      * destruct IH as (Hin & Hx & Hmax).
        split; [ right; destruct Hin as [[= <-] | Hin];
                 [ left; reflexivity | right; exact Hin ] | ].
        split; [ exact Hx | ].
        intros b [<- | Hb] Hbt; [ | exact (Hmax b Hb Hbt) ].
        destruct Hin as [[= <-] | Hin]; [ lia | ]. exact (Hall x Hin).
      * destruct IH as [IH _]. discriminate IH.
Qed.

(** Where the before-query is right: when the bucket, sorted by [start],
    holds a record with [start > time], [GetFirstBeforeTime] returns a
    record with the greatest [start <= time], or nothing if there is
    none. *)
Lemma first_before_in_chain_when_later (time : Z) (c : TimerChain) :
  Sorted start_le (chain_boxes c) ->
  (exists b, In b (chain_boxes c) /\ time < start (GetTimerInfo b)) ->
  before_answer time (chain_boxes c) (first_before_in_chain time None c).
Proof.
  intros Hs (b & Hb & Hbt).
  apply Sorted_StronglySorted in Hs; [ | exact start_le_trans ].
  rewrite first_before_in_chain_flat.
  destruct (first_before_in_block time None (chain_boxes c)) as [r | acc] eqn:E.
  - pose proof (first_before_in_block_returned time (chain_boxes c) Hs None r)
      as R.
    assert (Hnone : forall a, @None TextBox = Some a ->
                      start (GetTimerInfo a) <= time
                      /\ Forall (start_le a) (chain_boxes c))
      by (intros a Ha; discriminate Ha).
    specialize (R Hnone E).
    unfold before_answer. destruct r as [x|].
    + destruct R as ([Habs | Hin] & Hx & Hmax); [ discriminate | ].
      split; [ exact Hin | ]. split; assumption.
    + exact (proj2 R).
  - exfalso. clear Hs. revert E. generalize (@None TextBox).
    induction (chain_boxes c) as [|y ys IH]; [ contradiction | ].
    intros acc0. cbn [first_before_in_block].
    destruct (Z.gtb_spec (start (GetTimerInfo y)) time) as [Hgt | Hle];
      [ discriminate | ].
    destruct Hb as [<- | Hb]; [ lia | ]. apply IH. exact Hb.
Qed.

(** C1 (what the code does where the claim fails).  When every record of
    the bucket for depth [d] has [start <= t], the scan never meets a record
    with [start > t], leaves both loops and executes the final
    [return nullptr;]: [GetFirstBeforeTime(t, d)] returns nothing, however
    many records the bucket holds.  Both tracks. *)
Theorem GetFirstBeforeTime_none_when_all_before :
  (forall (tr : GpuTrack.t) (time d : Z) (chain : TimerChain),
      GpuTrack.GetTimers_at tr d = Some chain ->
      all_start_le time chain ->
      GpuTrack.GetFirstBeforeTime tr time d = None)
  /\
  (forall (tr : ThreadTrack.t) (time d : Z) (chain : TimerChain),
      ThreadTrack.GetTimers_at tr d = Some chain ->
      all_start_le time chain ->
      ThreadTrack.GetFirstBeforeTime tr time d = None).
Proof.
  split; intros tr time d chain Hb Hall.
  - unfold GpuTrack.GetFirstBeforeTime. rewrite Hb.
    apply first_before_in_chain_all_le. exact Hall.
  - unfold ThreadTrack.GetFirstBeforeTime. rewrite Hb.
    apply first_before_in_chain_all_le. exact Hall.
Qed.

Lemma GetFirstBeforeTime_none_when_all_before_witness :
  GpuTrack.GetTimers_at gpu_one 0 = Some [[fresh_text_box one_timer]]
  /\ all_start_le 50 [[fresh_text_box one_timer]]
  /\ GpuTrack.GetFirstBeforeTime gpu_one 50 0 = None
  /\ ThreadTrack.GetFirstBeforeTime thread_one 50 0 = None.
Proof.
  assert (Hall : all_start_le 50 [[fresh_text_box one_timer]]).
  { intros b [<- | []]. cbn. lia. }
  split; [ reflexivity | ]. split; [ exact Hall | ]. split.
  - exact (proj1 GetFirstBeforeTime_none_when_all_before gpu_one 50 0
                 [[fresh_text_box one_timer]] eq_refl Hall).
  - exact (proj2 GetFirstBeforeTime_none_when_all_before thread_one 50 0
                 [[fresh_text_box one_timer]] eq_refl Hall).
Defined.

(* ----------------------------------------------------------------- *)
(** ** Colour policy of the GPU track *)

Lemma channels_complete (c : Z) : 0 <= c < 256 -> In c channels.
Proof.
  intros H. unfold channels. apply in_map_iff. exists (Z.to_nat c).
  split; [ lia | ]. apply in_seq. lia.
Qed.

Lemma scale_channel_table :
  forallb (fun c => (scale_channel (F32.make 1 (-1)) c =? c / 2)
                    && (scale_channel (F32.make 3 (-2)) c =? 3 * c / 4)
                    && (scale_channel (F32.of_Z 1) c =? c))
          channels = true.
Proof. vm_compute. reflexivity. Qed.

Lemma scale_channel_exact (c : Z) :
  0 <= c < 256 ->
  scale_channel (F32.make 1 (-1)) c = c / 2
  /\ scale_channel (F32.make 3 (-2)) c = 3 * c / 4
  /\ scale_channel (F32.of_Z 1) c = c.
Proof.
  intros H. pose proof scale_channel_table as T.
  rewrite forallb_forall in T. specialize (T c (channels_complete c H)).
  apply andb_prop in T. destruct T as [T T3].
  apply andb_prop in T. destruct T as [T1 T2].
  repeat split; apply Z.eqb_eq; assumption.
Qed.

Lemma land_one_even (d : Z) : (Z.land d 1 =? 0) = Z.even d.
Proof.
  change 1 with (Z.ones 1). rewrite Z.land_ones by lia.
  rewrite Zeven_mod. reflexivity.
Qed.

(** C6. For a timer that is neither selected nor inactive,
    [GpuTrack::GetTimerColor] returns the submitting thread's colour with
    R, G, B multiplied, in 8-bit channel arithmetic, by 0.5 for the
    software-queue stage, by 0.75 for the hardware-queue stage and by 1.0
    for the hardware-execution stage and for any other or unresolved key;
    alpha is 210 exactly when the depth is even and the thread colour's
    alpha otherwise. *)
Theorem GpuTrack_GetTimerColor_stage_coefficient (env : Env)
  (timer_info : TimerInfo) :
  let color := GetThreadColor env (thread_id timer_info) in
  let stage := string_manager_Get env (user_data_key timer_info) in
  let alpha := if Z.even (depth timer_info) then 210 else ca color in
  wf_color color ->
  GpuTrack.GetTimerColor env timer_info false false
  = if String.eqb (value_or stage "") "sw queue" then
      mkColor (cr color / 2) (cg color / 2) (cb color / 2) alpha
    else if String.eqb (value_or stage "") "hw queue" then
      mkColor (3 * cr color / 4) (3 * cg color / 4) (3 * cb color / 4) alpha
    else
      mkColor (cr color) (cg color) (cb color) alpha.
Proof.
  intros color stage alpha (Hr & Hg & Hb & _).
  unfold GpuTrack.GetTimerColor. cbv zeta.
  fold color. fold stage. rewrite land_one_even. fold alpha.
  fold (scale_channel (F32.make 1 (-1)) (cr color)).
  destruct (scale_channel_exact (cr color) Hr) as (R1 & R2 & R3).
  destruct (scale_channel_exact (cg color) Hg) as (G1 & G2 & G3).
  destruct (scale_channel_exact (cb color) Hb) as (B1 & B2 & B3).
  unfold scale_channel in *. unfold kSwQueueString, kHwQueueString, kHwExecutionString, kOddAlpha.
  destruct (String.eqb (value_or stage "") "sw queue").
  - rewrite R1, G1, B1. reflexivity.
  - destruct (String.eqb (value_or stage "") "hw queue").
    + rewrite R2, G2, B2. reflexivity.
    + destruct (String.eqb (value_or stage "") "hw execution");
        rewrite R3, G3, B3; reflexivity.
Qed.

Lemma GpuTrack_GetTimerColor_stage_coefficient_witness :
  wf_color (GetThreadColor sample_env 7)
  /\ GpuTrack.GetTimerColor sample_env (sample_timer 0 100 0 2 kGpuActivity)
                            false false
     = mkColor 150 75 38 210
  /\ GpuTrack.GetTimerColor sample_env (sample_timer 0 100 1 1 kGpuActivity)
                            false false
     = mkColor 100 50 25 255.
Proof.
  assert (W : wf_color (GetThreadColor sample_env 7)).
  { vm_compute. repeat split; congruence. }
  split; [ exact W | ]. split.
  - exact (GpuTrack_GetTimerColor_stage_coefficient sample_env
             (sample_timer 0 100 0 2 kGpuActivity) W).
  - exact (GpuTrack_GetTimerColor_stage_coefficient sample_env
             (sample_timer 0 100 1 1 kGpuActivity) W).
Defined.

(* ----------------------------------------------------------------- *)
(** ** The loop nest: where an emitted call comes from *)

Ltac split_bind H :=
  match type of H with
  | bind ?c _ = Ok _ =>
      let E := fresh "E" in
      destruct c as [[[? ?] ?]| |] eqn:E; cbn [bind] in H;
      [ | discriminate H | discriminate H ]
  end.

Section LoopFacts.
Variables min_tick max_tick : Z.
Variable body :
  LoopState -> BoxRef -> TextBox ->
  result (LoopState * TextBox * list DrawCall).

Hypothesis body_depth_mono :
  forall st ref box st' box' out,
    body st ref box = Ok (st', box', out) ->
    loop_depth_ st <= loop_depth_ st'.

Lemma scan_block_depth_mono key bi :
  forall boxes k st st' boxes' out,
    scan_block body key bi k st boxes = Ok (st', boxes', out) ->
    loop_depth_ st <= loop_depth_ st'.
Proof.
  induction boxes as [|b rest IH]; cbn [scan_block]; intros k st st' boxes' out H.
  - injection H as <- _ _. lia.
  - split_bind H. split_bind H. injection H as <- _ _.
    apply body_depth_mono in E. apply IH in E0. lia.
Qed.

Lemma scan_block_origin key bi :
  forall boxes k st st' boxes' out c,
    scan_block body key bi k st boxes = Ok (st', boxes', out) ->
    In c out ->
    produced_in body
      (fun ref box => exists i, ref = (key, bi, (k + i)%nat)
                                /\ nth_error boxes i = Some box)
      (loop_depth_ st) (loop_depth_ st') c.
Proof.
  induction boxes as [|b rest IH]; cbn [scan_block];
    intros k st st' boxes' out c H Hin.
  - injection H as _ _ <-. contradiction.
  - split_bind H. split_bind H. injection H as <- _ <-.
    apply in_app_or in Hin. destruct Hin as [Hin | Hin].
    + exists st, (key, bi, k), b, l, t, l0.
      split; [ exists 0%nat; split; [ f_equal; lia | reflexivity ] | ].
      split; [ exact E | ]. split; [ exact Hin | ].
      split; [ lia | ]. eapply scan_block_depth_mono. exact E0.
    + destruct (IH _ _ _ _ _ _ E0 Hin)
        as (st0 & ref & box & st1 & box' & outs & (i & -> & Hi) & Hb & Hc & Hlo & Hhi).
      exists st0, (key, bi, (k + S i)%nat), box, st1, box', outs.
      split; [ exists (S i); split; [ reflexivity | exact Hi ] | ].
      split; [ replace (k + S i)%nat with (S k + i)%nat by lia; exact Hb | ].
      split; [ exact Hc | ]. apply body_depth_mono in E. split; lia.
Qed.

Lemma scan_chain_depth_mono key :
  forall blocks bi st st' blocks' out,
    scan_chain min_tick max_tick body key bi st blocks = Ok (st', blocks', out) ->
    loop_depth_ st <= loop_depth_ st'.
Proof.
  induction blocks as [|b rest IH]; cbn [scan_chain];
    intros bi st st' blocks' out H.
  - injection H as <- _ _. lia.
  - destruct (negb (Intersects b min_tick max_tick)).
    + split_bind H. injection H as <- _ _. eapply IH. exact E.
    + split_bind H. split_bind H. injection H as <- _ _.
      apply scan_block_depth_mono in E. apply IH in E0. cbn in E. lia.
Qed.

Lemma scan_chain_origin key :
  forall blocks bi st st' blocks' out c,
    scan_chain min_tick max_tick body key bi st blocks = Ok (st', blocks', out) ->
    In c out ->
    produced_in body
      (fun ref box => exists j k block,
           ref = (key, (bi + j)%nat, k)
           /\ nth_error blocks j = Some block
           /\ nth_error block k = Some box)
      (loop_depth_ st) (loop_depth_ st') c.
Proof.
  induction blocks as [|b rest IH]; cbn [scan_chain];
    intros bi st st' blocks' out c H Hin.
  - injection H as _ _ <-. contradiction.
  - assert (shift : forall st1 st2 blocks2 out2,
               scan_chain min_tick max_tick body key (S bi) st1 rest
               = Ok (st2, blocks2, out2) ->
               In c out2 -> loop_depth_ st <= loop_depth_ st1 ->
               loop_depth_ st2 <= loop_depth_ st' ->
               produced_in body
                 (fun ref box => exists j k block,
                      ref = (key, (bi + j)%nat, k)
                      /\ nth_error (b :: rest) j = Some block
                      /\ nth_error block k = Some box)
                 (loop_depth_ st) (loop_depth_ st') c).
    { intros st1 st2 blocks2 out2 Hs Hc Hlo Hhi.
      destruct (IH _ _ _ _ _ _ Hs Hc)
        as (st0 & ref & box & st3 & box' & outs
            & (j & k & block & -> & Hj & Hk) & Hb & Hc' & Hlo' & Hhi').
      exists st0, (key, (bi + S j)%nat, k), box, st3, box', outs.
      split; [ exists (S j), k, block; repeat split; assumption | ].
      split; [ replace (bi + S j)%nat with (S bi + j)%nat by lia; exact Hb | ].
      split; [ exact Hc' | ]. split; lia. }
    destruct (negb (Intersects b min_tick max_tick)).
    + split_bind H. injection H as <- _ <-.
      eapply shift; [ exact E | exact Hin | lia | lia ].
    + split_bind H. split_bind H. injection H as <- _ <-.
      pose proof (scan_block_depth_mono _ _ _ _ _ _ _ _ E) as M1.
      pose proof (scan_chain_depth_mono _ _ _ _ _ _ _ E0) as M2.
      cbn in M1.
      apply in_app_or in Hin. destruct Hin as [Hin | Hin].
      * destruct (scan_block_origin _ _ _ _ _ _ _ _ _ E Hin)
          as (st0 & ref & box & st3 & box' & outs
              & (i & -> & Hi) & Hb & Hc' & Hlo' & Hhi').
        exists st0, (key, bi, i), box, st3, box', outs.
        split; [ exists 0%nat, i, b; repeat split;
                 [ f_equal; f_equal; lia | exact Hi ] | ].
        split; [ exact Hb | ]. split; [ exact Hc' | ].
        cbn in Hlo'. split; lia.
      * eapply shift; [ exact E0 | exact Hin | lia | lia ].
Qed.

Lemma scan_chains_depth_mono :
  forall m st st' m' out,
    scan_chains min_tick max_tick body st m = Ok (st', m', out) ->
    loop_depth_ st <= loop_depth_ st'.
Proof.
  induction m as [|[key [chain|]] rest IH]; cbn [scan_chains];
    intros st st' m' out H.
  - injection H as <- _ _. lia.
  - split_bind H. split_bind H. injection H as <- _ _.
    apply scan_chain_depth_mono in E. apply IH in E0. lia.
  - split_bind H. injection H as <- _ _. eapply IH. exact E.
Qed.

Lemma scan_chains_origin :
  forall m st st' m' out c,
    scan_chains min_tick max_tick body st m = Ok (st', m', out) ->
    In c out ->
    produced_in body (stored_at m) (loop_depth_ st) (loop_depth_ st') c.
Proof.
  induction m as [|[key [chain|]] rest IH]; cbn [scan_chains];
    intros st st' m' out c H Hin.
  - injection H as _ _ <-. contradiction.
  - split_bind H. split_bind H. injection H as <- _ <-.
    pose proof (scan_chain_depth_mono _ _ _ _ _ _ _ E) as M1.
    pose proof (scan_chains_depth_mono _ _ _ _ _ E0) as M2.
    apply in_app_or in Hin. destruct Hin as [Hin | Hin].
    + destruct (scan_chain_origin _ _ _ _ _ _ _ _ E Hin)
        as (st0 & ref & box & st3 & box' & outs
            & (j & k & block & -> & Hj & Hk) & Hb & Hc' & Hlo' & Hhi').
      exists st0, (key, j, k), box, st3, box', outs.
      split; [ exists chain, block; split; [ left; reflexivity | ];
               split; assumption | ].
      split; [ exact Hb | ]. split; [ exact Hc' | ]. split; lia.
    + destruct (IH _ _ _ _ _ E0 Hin)
        as (st0 & [[key' bi] k] & box & st3 & box' & outs
            & (chain' & block & Hm & Hj & Hk) & Hb & Hc' & Hlo' & Hhi').
      exists st0, (key', bi, k), box, st3, box', outs.
      split; [ exists chain', block; split; [ right; exact Hm | ];
               split; assumption | ].
      split; [ exact Hb | ]. split; [ exact Hc' | ]. split; lia.
  - split_bind H. injection H as <- _ <-.
    destruct (IH _ _ _ _ _ E Hin)
      as (st0 & [[key' bi] k] & box & st3 & box' & outs
          & (chain' & block & Hm & Hj & Hk) & Hb & Hc' & Hlo' & Hhi').
    exists st0, (key', bi, k), box, st3, box', outs.
    split; [ exists chain', block; split; [ right; exact Hm | ];
             split; assumption | ].
    split; [ exact Hb | ]. split; [ exact Hc' | ]. split; assumption.
Qed.

(** The loops return whenever the body returns on every stored record. *)
Variable good : TextBox -> Prop.
Hypothesis body_returns :
  forall st ref box, good box -> returns (body st ref box).

Lemma scan_block_returns key bi :
  forall boxes k st,
    (forall box, In box boxes -> good box) ->
    returns (scan_block body key bi k st boxes).
Proof.
  induction boxes as [|b rest IH]; cbn [scan_block]; intros k st Hg.
  - eexists. reflexivity.
  - destruct (body_returns st (key, bi, k) b (Hg b (or_introl eq_refl)))
      as [[[st1 b'] o1] ->]. cbn [bind].
    destruct (IH (S k) st1 (fun x Hx => Hg x (or_intror Hx)))
      as [[[st2 r'] o2] ->]. cbn [bind].
    eexists. reflexivity.
Qed.

Lemma scan_chain_returns key :
  forall blocks bi st,
    (forall box, In box (chain_boxes blocks) -> good box) ->
    returns (scan_chain min_tick max_tick body key bi st blocks).
Proof.
  unfold chain_boxes.
  induction blocks as [|b rest IH]; cbn [scan_chain List.concat];
    intros bi st Hg.
  - eexists. reflexivity.
  - assert (Hrest : forall box, In box (List.concat rest) -> good box).
    { intros x Hx. apply Hg. apply in_or_app. right. exact Hx. }
    destruct (negb (Intersects b min_tick max_tick)).
    + destruct (IH (S bi) st Hrest) as [[[st2 r'] o2] ->]. cbn [bind].
      eexists. reflexivity.
    + destruct (scan_block_returns key bi b 0%nat (reset_ignore st))
        as [[[st1 b'] o1] ->].
      { intros x Hx. apply Hg. apply in_or_app. left. exact Hx. }
      cbn [bind].
      destruct (IH (S bi) st1 Hrest) as [[[st2 r'] o2] ->]. cbn [bind].
      eexists. reflexivity.
Qed.

Lemma scan_chains_returns :
  forall m st,
    (forall box, In box (map_boxes m) -> good box) ->
    returns (scan_chains min_tick max_tick body st m).
Proof.
  unfold map_boxes.
  induction m as [|[key [chain|]] rest IH]; cbn [scan_chains flat_map snd];
    intros st Hg.
  - eexists. reflexivity.
  - destruct (scan_chain_returns key chain 0%nat st) as [[[st1 c'] o1] ->].
    { intros x Hx. apply Hg. apply in_or_app. left. exact Hx. }
    cbn [bind].
    destruct (IH st1) as [[[st2 r'] o2] ->].
    { intros x Hx. apply Hg. apply in_or_app. right. exact Hx. }
    cbn [bind]. eexists. reflexivity.
  - destruct (IH st) as [[[st2 r'] o2] ->].
    { intros x Hx. apply Hg. exact Hx. }
    cbn [bind]. eexists. reflexivity.
Qed.

End LoopFacts.

(* ----------------------------------------------------------------- *)
(** ** One iteration of the loop body *)

Lemma UpdateDepth_ge (d cur : Z) : cur <= UpdateDepth d cur.
Proof. unfold UpdateDepth. destruct (Z.gtb_spec d cur); lia. Qed.

Ltac case_if :=
  match goal with
  | |- context [if ?b then _ else _] =>
      let E := fresh "E" in destruct b eqn:E
  end.

Ltac case_if_in H :=
  match type of H with
  | context [if ?b then _ else _] =>
      let E := fresh "E" in destruct b eqn:E
  end.

(** The body of the GPU track, by cases.  [drawn] is what the iteration
    hands to the batcher. *)
Lemma GpuTrack_process_box_inv env tr fr min_tick max_tick st ref box
      st' box' out :
  GpuTrack.process_box env tr fr min_tick max_tick st ref box
  = Ok (st', box', out) ->
  let ti := GetTimerInfo box in
  loop_depth_ st <= loop_depth_ st'
  /\ GetTimerInfo box' = ti
  /\ (out <> [] ->
      skipped_by_visibility min_tick max_tick ti = false
      /\ skipped_by_ignore st ti = false
      /\ (GpuTrack.is_collapsed fr = true ->
          resolves_to env ti kHwExecutionString)
      /\ exists x w h z color,
          let y := GpuTrack.GetYFromDepth env (snd (GpuTrack.m_Pos tr))
                     (if GpuTrack.is_collapsed fr then 0
                      else u8 (depth ti)) in
          primitives out
          = [if is_visible_width env (GpuTrack.inv_time_window fr) ti
             then AddShadedBox (x, y) (w, h) z color ref
             else AddVerticalLine (x, y) h z color ref]
          /\ (GpuTrack.is_collapsed fr = true -> primitives out = out)).
Proof.
  intros H ti. unfold GpuTrack.process_box in H. cbv zeta in H.
  fold ti in H.
  fold (skipped_by_visibility min_tick max_tick ti) in H.
  fold (skipped_by_ignore st ti) in H.
  destruct (skipped_by_visibility min_tick max_tick ti) eqn:Ev.
  { injection H as <- <- <-. split; [ lia | ]. split; [ reflexivity | ].
    intros C. contradiction. }
  destruct (skipped_by_ignore st ti) eqn:Ei.
  { injection H as <- <- <-. split; [ lia | ]. split; [ reflexivity | ].
    intros C. contradiction. }
  pose proof (UpdateDepth_ge (u32 (depth ti + 1)) (loop_depth_ st)) as Hd.
  fold (normalized_length env (GpuTrack.inv_time_window fr) ti) in H.
  fold (is_visible_width env (GpuTrack.inv_time_window fr) ti) in H.
  destruct (GpuTrack.is_collapsed fr) eqn:Ec; cbn [andb negb] in H.
  - (* collapsed *)
    destruct (String.eqb_spec
                (value_or (string_manager_Get env (user_data_key ti)) "")
                kHwExecutionString) as [Hs | Hs]; cbn [negb] in H.
    2:{ injection H as <- <- <-. cbn. split; [ lia | ].
        split; [ reflexivity | ]. intros C. contradiction. }
    assert (R : resolves_to env ti kHwExecutionString).
    { unfold resolves_to.
      destruct (string_manager_Get env (user_data_key ti)) as [s|];
        cbn in Hs; [ congruence | discriminate ]. }
    destruct (is_visible_width env (GpuTrack.inv_time_window fr) ti).
    + cbn [bind app] in H. injection H as <- <- <-. cbn [loop_depth_].
      split; [ lia | ]. split; [ reflexivity | ]. intros _.
      split; [ reflexivity | ]. split; [ reflexivity | ].
      split; [ intros _; exact R | ].
      do 5 eexists. cbn. split; reflexivity.
    + destruct (negb (GpuTrack.pixel_delta_in_ticks fr =? 0));
        injection H as <- <- <-; cbn [loop_depth_];
        (split; [ lia | ]; split; [ reflexivity | ]; intros _;
         split; [ reflexivity | ]; split; [ reflexivity | ];
         split; [ intros _; exact R | ];
         eexists; exists F32.zero; do 3 eexists; cbn; split; reflexivity).
  - (* expanded *)
    destruct (is_visible_width env (GpuTrack.inv_time_window fr) ti).
    + unfold GpuTrack.SetTimesliceText in H.
      destruct (is_empty _); [ destruct (TimerType_eqb _ _) | ];
        cbn [bind app] in H; try discriminate H;
        injection H as <- <- <-; cbn [loop_depth_];
        (split; [ lia | ]; split; [ reflexivity | ]; intros _;
         split; [ reflexivity | ]; split; [ reflexivity | ];
         split; [ discriminate | ];
         do 5 eexists; cbn; split; [ reflexivity | discriminate ]).
    + destruct (negb (GpuTrack.pixel_delta_in_ticks fr =? 0));
        injection H as <- <- <-; cbn [loop_depth_];
        (split; [ lia | ]; split; [ reflexivity | ]; intros _;
         split; [ reflexivity | ]; split; [ reflexivity | ];
         split; [ discriminate | ];
         eexists; exists F32.zero; do 3 eexists; cbn;
         split; [ reflexivity | discriminate ]).
Qed.

(** The body of the thread track, by cases. *)
Lemma ThreadTrack_process_box_inv env tr fr min_tick max_tick st ref box
      st' box' out :
  ThreadTrack.process_box env tr fr min_tick max_tick st ref box
  = Ok (st', box', out) ->
  let ti := GetTimerInfo box in
  loop_depth_ st <= loop_depth_ st'
  /\ GetTimerInfo box' = ti
  /\ (out <> [] ->
      skipped_by_visibility min_tick max_tick ti = false
      /\ skipped_by_ignore st ti = false
      /\ exists x w h z color,
          let y := ThreadTrack.GetYFromDepth env (loop_depth_ st')
                     (snd (ThreadTrack.m_Pos tr)) (depth ti)
                     (ThreadTrack.collapse_toggle_IsCollapsed tr) in
          primitives out
          = [if is_visible_width env (ThreadTrack.inv_time_window fr) ti
             then AddShadedBox (x, y) (w, h) z color ref
             else AddVerticalLine (x, y) h z color ref]).
Proof.
  intros H ti. unfold ThreadTrack.process_box in H. cbv zeta in H.
  fold ti in H.
  fold (skipped_by_visibility min_tick max_tick ti) in H.
  fold (skipped_by_ignore st ti) in H.
  destruct (skipped_by_visibility min_tick max_tick ti) eqn:Ev.
  { injection H as <- <- <-. split; [ lia | ]. split; [ reflexivity | ].
    intros C. contradiction. }
  destruct (skipped_by_ignore st ti) eqn:Ei.
  { injection H as <- <- <-. split; [ lia | ]. split; [ reflexivity | ].
    intros C. contradiction. }
  pose proof (UpdateDepth_ge (u32 (depth ti + 1)) (loop_depth_ st)) as Hd.
  fold (normalized_length env (ThreadTrack.inv_time_window fr) ti) in H.
  fold (is_visible_width env (ThreadTrack.inv_time_window fr) ti) in H.
  destruct (is_visible_width env (ThreadTrack.inv_time_window fr) ti).
  - unfold ThreadTrack.SetTimesliceText in H.
    destruct (negb (ThreadTrack.is_collapsed fr));
      injection H as <- <- <-; cbn [loop_depth_];
      (split; [ lia | ]; split;
       [ repeat first
           [ case_if
           | match goal with
             | |- context [match ?o with Some _ => _ | None => _ end] =>
                 destruct o
             end ];
         reflexivity | ]; intros _;
       split; [ reflexivity | ]; split; [ reflexivity | ];
       do 5 eexists; cbn; reflexivity).
  - destruct (negb (ThreadTrack.pixel_delta_in_ticks fr =? 0));
      injection H as <- <- <-; cbn [loop_depth_];
      (split; [ lia | ]; split; [ reflexivity | ]; intros _;
       split; [ reflexivity | ]; split; [ reflexivity | ];
       eexists; exists F32.zero; do 3 eexists; cbn; reflexivity).
Qed.

Lemma stored_at_In (m : TimerMap) (ref : BoxRef) (box : TextBox) :
  stored_at m ref box -> In box (map_boxes m).
Proof.
  destruct ref as [[key bi] k]. intros (chain & block & Hm & Hb & Hk).
  unfold map_boxes. apply in_flat_map. exists (key, Some chain).
  split; [ exact Hm | ]. cbn [snd]. unfold chain_boxes.
  apply in_concat. exists block. split.
  - eapply nth_error_In. exact Hb.
  - eapply nth_error_In. exact Hk.
Qed.

Lemma primitives_in (out : list DrawCall) (c : DrawCall) :
  In c out -> is_primitive c = true -> In c (primitives out).
Proof. intros H P. unfold primitives. apply filter_In. split; assumption. Qed.

Lemma GpuTrack_UpdatePrimitives_inv env tr min_tick max_tick tr' out :
  GpuTrack.UpdatePrimitives env tr min_tick max_tick = Ok (tr', out) ->
  exists st' timers',
    scan_chains min_tick max_tick
      (GpuTrack.process_box env tr (GpuTrack.head_frame env tr)
                            min_tick max_tick)
      (mkLoopState UINT64_MAX UINT64_MIN (GpuTrack.depth_ tr))
      (GpuTrack.timers_ tr)
    = Ok (st', timers', out)
    /\ GpuTrack.depth_ tr' = loop_depth_ st'
    /\ u64 (getWidth env) <> 0.
Proof.
  unfold GpuTrack.UpdatePrimitives.
  destruct (Z.eqb_spec (u64 (getWidth env)) 0) as [|Hw]; [ discriminate | ].
  cbv zeta. intros H. split_bind H. injection H as <- <-.
  eexists _, _. repeat split. exact Hw.
Qed.

Lemma ThreadTrack_draw_timers_inv env tr min_tick max_tick tr' out :
  ThreadTrack.draw_timers env tr min_tick max_tick = Ok (tr', out) ->
  exists st' timers',
    scan_chains min_tick max_tick
      (ThreadTrack.process_box env tr (ThreadTrack.head_frame env tr)
                               min_tick max_tick)
      (mkLoopState UINT64_MAX UINT64_MIN (ThreadTrack.depth_ tr))
      (ThreadTrack.timers_ tr)
    = Ok (st', timers', out)
    /\ ThreadTrack.depth_ tr' = loop_depth_ st'
    /\ u64 (getWidth env) <> 0.
Proof.
  unfold ThreadTrack.draw_timers.
  destruct (Z.eqb_spec (u64 (getWidth env)) 0) as [|Hw]; [ discriminate | ].
  cbv zeta. intros H. split_bind H. injection H as <- <-.
  eexists _, _. repeat split. exact Hw.
Qed.

(** A frame of a thread track is the event track's calls followed by the
    calls for the track's own timers. *)
Lemma ThreadTrack_UpdatePrimitives_split env tr min_tick max_tick tr' out :
  ThreadTrack.UpdatePrimitives env tr min_tick max_tick = Ok (tr', out)
  <-> exists ev outs,
        event_track_UpdatePrimitives env (ThreadTrack.m_Pos tr)
                                     min_tick max_tick = Ok ev
        /\ ThreadTrack.draw_timers env tr min_tick max_tick = Ok (tr', outs)
        /\ out = map FromEventTrack ev ++ outs.
Proof.
  unfold ThreadTrack.UpdatePrimitives. split.
  - intros H.
    destruct (event_track_UpdatePrimitives env _ _ _) as [ev| |];
      cbn [bind] in H; try discriminate H.
    destruct (ThreadTrack.draw_timers env tr min_tick max_tick)
      as [[tr1 outs]| |]; cbn [bind] in H; try discriminate H.
    injection H as <- <-.
    exists ev, outs. split; [ reflexivity | ]. split; reflexivity.
  - intros (ev & outs & -> & -> & ->). reflexivity.
Qed.

Lemma GpuTrack_body_depth_mono env tr fr min_tick max_tick :
  forall st ref box st' box' out,
    GpuTrack.process_box env tr fr min_tick max_tick st ref box
    = Ok (st', box', out) ->
    loop_depth_ st <= loop_depth_ st'.
Proof.
  intros st ref box st' box' out H.
  apply GpuTrack_process_box_inv in H. exact (proj1 H).
Qed.

Lemma ThreadTrack_body_depth_mono env tr fr min_tick max_tick :
  forall st ref box st' box' out,
    ThreadTrack.process_box env tr fr min_tick max_tick st ref box
    = Ok (st', box', out) ->
    loop_depth_ st <= loop_depth_ st'.
Proof.
  intros st ref box st' box' out H.
  apply ThreadTrack_process_box_inv in H. exact (proj1 H).
Qed.

(** [UpdatePrimitives] is where the depth counter of a GPU track grows: it
    never lowers it, and a frame over [gpu_two] raises it from 0 to 2. *)
Lemma GpuTrack_UpdatePrimitives_depth_grows env tr min_tick max_tick tr' out :
  GpuTrack.UpdatePrimitives env tr min_tick max_tick = Ok (tr', out) ->
  GpuTrack.depth_ tr <= GpuTrack.depth_ tr'.
Proof.
  intros H. apply GpuTrack_UpdatePrimitives_inv in H.
  destruct H as (st' & timers' & Hscan & -> & _).
  apply scan_chains_depth_mono in Hscan;
    [ exact Hscan | apply GpuTrack_body_depth_mono ].
Qed.

Example gpu_two_depth_after_frame :
  GpuTrack.GetDepth gpu_two = 0
  /\ exists tr' out,
      GpuTrack.UpdatePrimitives sample_env gpu_two 0 100000 = Ok (tr', out)
      /\ GpuTrack.GetDepth tr' = 2.
Proof.
  split; [ reflexivity | ].
  vm_compute. eexists _, _. split; reflexivity.
Qed.

(* ----------------------------------------------------------------- *)
(** ** Collapsed GPU tracks draw the hardware-execution stage only *)

Lemma GpuTrack_collapsed_other_stage_dropped env tr min_tick max_tick st ref
      box :
  GpuTrack.collapse_toggle_IsCollapsed tr = true ->
  string_manager_Get env (user_data_key (GetTimerInfo box))
  <> Some "hw execution"%string ->
  exists st' box',
    GpuTrack.process_box env tr (GpuTrack.head_frame env tr)
                         min_tick max_tick st ref box
    = Ok (st', box', []).
Proof.
  intros Hc Hne. unfold GpuTrack.process_box. cbv zeta.
  cbn [GpuTrack.head_frame GpuTrack.is_collapsed]. rewrite Hc.
  destruct (_ || _); [ eexists _, _; reflexivity | ].
  destruct ((_ >=? _) && _); [ eexists _, _; reflexivity | ].
  destruct (String.eqb_spec
              (value_or (string_manager_Get env
                           (user_data_key (GetTimerInfo box))) "")
              kHwExecutionString) as [Hs | Hs].
  - exfalso. apply Hne.
    destruct (string_manager_Get env (user_data_key (GetTimerInfo box)))
      as [s|]; cbn in Hs; [ rewrite Hs; reflexivity | discriminate ].
  - cbn [andb negb]. eexists _, _. reflexivity.
Qed.

(** C5. While a GPU track is collapsed, every call [UpdatePrimitives] makes
    is a box or a line for a stored record whose key the string manager
    resolves to ["hw execution"]; the iteration on a record whose key
    resolves to another string, or to nothing, emits no call. *)
Theorem GpuTrack_collapsed_draws_hw_execution_only env tr min_tick max_tick :
  GpuTrack.collapse_toggle_IsCollapsed tr = true ->
  (forall tr' out,
      GpuTrack.UpdatePrimitives env tr min_tick max_tick = Ok (tr', out) ->
      forall c, In c out ->
        is_primitive c = true
        /\ exists ref box,
            call_user_data c = Some ref
            /\ stored_at (GpuTrack.timers_ tr) ref box
            /\ string_manager_Get env (user_data_key (GetTimerInfo box))
               = Some "hw execution"%string)
  /\
  (forall st ref box,
      string_manager_Get env (user_data_key (GetTimerInfo box))
      <> Some "hw execution"%string ->
      exists st' box',
        GpuTrack.process_box env tr (GpuTrack.head_frame env tr)
                             min_tick max_tick st ref box
        = Ok (st', box', [])).
Proof.
  intros Hc. split.
  - intros tr' out H c Hin.
    apply GpuTrack_UpdatePrimitives_inv in H.
    destruct H as (st' & timers' & Hscan & _ & _).
    destruct (scan_chains_origin _ _ _ (GpuTrack_body_depth_mono _ _ _ _ _)
                _ _ _ _ _ c Hscan Hin)
      as (st0 & ref & box & st1 & box' & outs & Hst & Hb & Hc' & _ & _).
    apply GpuTrack_process_box_inv in Hb. cbv zeta in Hb.
    destruct Hb as (_ & _ & Hb).
    assert (Hne : outs <> []) by (intros ->; contradiction).
    destruct (Hb Hne) as (_ & _ & Hres & x & w & h & z & color & Hp & Hall).
    cbn [GpuTrack.head_frame GpuTrack.is_collapsed] in Hres, Hall.
    specialize (Hres Hc). specialize (Hall Hc).
    rewrite <- Hall, Hp in Hc'. destruct Hc' as [<- | []].
    split; [ destruct (is_visible_width _ _ _); reflexivity | ].
    exists ref, box. split; [ | split; [ exact Hst | exact Hres ] ].
    destruct (is_visible_width _ _ _); reflexivity.
  - intros st ref box Hne.
    exact (GpuTrack_collapsed_other_stage_dropped env tr min_tick max_tick
             st ref box Hc Hne).
Qed.

Lemma GpuTrack_collapsed_draws_hw_execution_only_witness :
  GpuTrack.collapse_toggle_IsCollapsed gpu_two = true
  /\ exists tr' out,
      GpuTrack.UpdatePrimitives sample_env gpu_two 0 100000 = Ok (tr', out)
      /\ List.length out = 1%nat
      /\ forall c, In c out ->
           is_primitive c = true
           /\ exists ref box,
               call_user_data c = Some ref
               /\ stored_at (GpuTrack.timers_ gpu_two) ref box
               /\ string_manager_Get sample_env
                    (user_data_key (GetTimerInfo box))
                  = Some "hw execution"%string.
Proof.
  split; [ reflexivity | ].
  assert (E : exists tr' out,
             GpuTrack.UpdatePrimitives sample_env gpu_two 0 100000
             = Ok (tr', out) /\ List.length out = 1%nat).
  { vm_compute. eexists _, _. split; reflexivity. }
  destruct E as (tr' & out & H & L). exists tr', out.
  split; [ exact H | ]. split; [ exact L | ].
  exact (proj1 (GpuTrack_collapsed_draws_hw_execution_only
                  sample_env gpu_two 0 100000 eq_refl) tr' out H).
Defined.

(* ----------------------------------------------------------------- *)
(** ** Vertical placement *)

Lemma GpuTrack_GetYFromDepth_row_y env base d :
  0 <= d < 256 ->
  GpuTrack.GetYFromDepth env base (u8 d) = row_y env base d.
Proof.
  intros H. unfold GpuTrack.GetYFromDepth, row_y, u8, u32.
  rewrite (Z.mod_small d) by lia.
  rewrite (Z.mod_small (d + 1)) by lia. reflexivity.
Qed.

(* ----------------------------------------------------------------- *)
(** ** The calls of a frame, in store order *)

Lemma in_order_nil_l {A : Type} (m : list A) : in_order [] m.
Proof. induction m; constructor; assumption. Qed.

Lemma in_order_app {A : Type} (l1 m1 l2 m2 : list A) :
  in_order l1 m1 -> in_order l2 m2 -> in_order (l1 ++ l2) (m1 ++ m2).
Proof.
  intros H1 H2. induction H1; cbn [app]; try constructor; assumption.
Qed.

Lemma in_order_In {A : Type} (l m : list A) (x : A) :
  in_order l m -> In x l -> In x m.
Proof.
  induction 1 as [|y l m H IH|y l m H IH]; intros Hin.
  - contradiction.
  - right. exact (IH Hin).
  - destruct Hin as [-> | Hin]; [ left; reflexivity | right; exact (IH Hin) ].
Qed.

Lemma in_order_length {A : Type} (l m : list A) :
  in_order l m -> (List.length l <= List.length m)%nat.
Proof. induction 1; cbn [List.length]; lia. Qed.

Lemma block_entries_stored key bi :
  forall boxes k ref box,
    In (ref, box) (block_entries key bi k boxes) ->
    exists i, ref = (key, bi, (k + i)%nat) /\ nth_error boxes i = Some box.
Proof.
  induction boxes as [|b rest IH]; cbn [block_entries]; intros k ref box Hin.
  - contradiction.
  - destruct Hin as [[= <- <-] | Hin].
    + exists 0%nat. split; [ f_equal; lia | reflexivity ].
    + destruct (IH _ _ _ Hin) as (i & -> & Hi).
      exists (S i). split; [ f_equal; lia | exact Hi ].
Qed.

Lemma chain_entries_stored key :
  forall blocks bi ref box,
    In (ref, box) (chain_entries key bi blocks) ->
    exists j k block,
      ref = (key, (bi + j)%nat, k)
      /\ nth_error blocks j = Some block
      /\ nth_error block k = Some box.
Proof.
  induction blocks as [|b rest IH]; cbn [chain_entries]; intros bi ref box Hin.
  - contradiction.
  - apply in_app_or in Hin. destruct Hin as [Hin | Hin].
    + destruct (block_entries_stored _ _ _ _ _ _ Hin) as (i & -> & Hi).
      exists 0%nat, i, b. split; [ f_equal; f_equal; lia | ].
      split; [ reflexivity | exact Hi ].
    + destruct (IH _ _ _ Hin) as (j & k & block & -> & Hj & Hk).
      exists (S j), k, block. split; [ f_equal; f_equal; lia | ].
      split; assumption.
Qed.

Lemma map_entries_stored (m : TimerMap) (ref : BoxRef) (box : TextBox) :
  In (ref, box) (map_entries m) -> stored_at m ref box.
Proof.
  induction m as [|[key [chain|]] rest IH]; cbn [map_entries]; intros Hin.
  - contradiction.
  - apply in_app_or in Hin. destruct Hin as [Hin | Hin].
    + destruct (chain_entries_stored _ _ _ _ _ Hin)
        as (j & k & block & -> & Hj & Hk).
      exists chain, block. split; [ left; reflexivity | ]. split; assumption.
    + specialize (IH Hin). destruct ref as [[key' j] k].
      destruct IH as (chain' & block & A & B & C).
      exists chain', block. split; [ right; exact A | ]. split; assumption.
  - specialize (IH Hin). destruct ref as [[key' j] k].
    destruct IH as (chain' & block & A & B & C).
    exists chain', block. split; [ right; exact A | ]. split; assumption.
Qed.

Lemma counter_after_app (d : Z) (r1 r2 : list (BoxRef * TextBox)) :
  counter_after d (r1 ++ r2) = counter_after (counter_after d r1) r2.
Proof. unfold counter_after. apply fold_left_app. Qed.

Lemma drawn_in_turn_app Q :
  forall l1 r1 d l2 r2,
    drawn_in_turn Q d l1 r1 ->
    drawn_in_turn Q (counter_after d r1) l2 r2 ->
    drawn_in_turn Q d (l1 ++ l2) (r1 ++ r2).
Proof.
  induction l1 as [|c l1 IH]; intros [|[ref box] r1] d l2 r2 H1 H2;
    cbn [drawn_in_turn app] in *; try contradiction.
  - exact H2.
  - destruct H1 as [Hq H1]. split; [ exact Hq | ].
    apply IH; [ exact H1 | exact H2 ].
Qed.

Lemma primitives_app (a b : list DrawCall) :
  primitives (a ++ b) = primitives a ++ primitives b.
Proof. unfold primitives. apply filter_app. Qed.

Section LoopTrace.
Variables min_tick max_tick : Z.
Variable body :
  LoopState -> BoxRef -> TextBox ->
  result (LoopState * TextBox * list DrawCall).
Variable Q : Z -> BoxRef -> TextBox -> DrawCall -> Prop.

Hypothesis body_trace :
  forall st ref box st' box' out,
    body st ref box = Ok (st', box', out) ->
    (primitives out = [] /\ loop_depth_ st' = loop_depth_ st)
    \/ (exists c,
           primitives out = [c]
           /\ loop_depth_ st'
              = UpdateDepth (u32 (depth (GetTimerInfo box) + 1))
                            (loop_depth_ st)
           /\ Q (loop_depth_ st') ref box c).

Let traced (st st' : LoopState) (out : list DrawCall)
    (entries : list (BoxRef * TextBox)) : Prop :=
  exists recs,
    in_order recs entries
    /\ drawn_in_turn Q (loop_depth_ st) (primitives out) recs
    /\ loop_depth_ st' = counter_after (loop_depth_ st) recs.

Lemma traced_nil st entries : traced st st [] entries.
Proof.
  exists []. split; [ apply in_order_nil_l | ]. split; reflexivity.
Qed.

Lemma traced_app st0 st1 st2 out1 out2 e1 e2 :
  traced st0 st1 out1 e1 -> traced st1 st2 out2 e2 ->
  traced st0 st2 (out1 ++ out2) (e1 ++ e2).
Proof.
  intros (r1 & O1 & D1 & C1) (r2 & O2 & D2 & C2).
  exists (r1 ++ r2). split; [ apply in_order_app; assumption | ].
  rewrite primitives_app, counter_after_app, <- C1.
  split; [ | exact C2 ].
  apply drawn_in_turn_app; [ exact D1 | rewrite <- C1; exact D2 ].
Qed.

Lemma scan_block_trace key bi :
  forall boxes k st st' boxes' out,
    scan_block body key bi k st boxes = Ok (st', boxes', out) ->
    traced st st' out (block_entries key bi k boxes).
Proof.
  induction boxes as [|b rest IH]; cbn [scan_block block_entries];
    intros k st st' boxes' out H.
  - injection H as <- _ <-. apply traced_nil.
  - split_bind H. split_bind H. injection H as <- _ <-.
    apply IH in E0.
    change (((key, bi, k), b) :: block_entries key bi (S k) rest)
      with ([((key, bi, k), b)] ++ block_entries key bi (S k) rest).
    refine (traced_app _ _ _ _ _ [((key, bi, k), b)] _ _ E0).
    destruct (body_trace _ _ _ _ _ _ E) as [[Hp Hd] | (c & Hp & Hd & Hq)].
    + exists []. rewrite Hp. split; [ apply in_order_nil_l | ].
      split; [ exact I | exact Hd ].
    + exists [((key, bi, k), b)]. rewrite Hp.
      split; [ apply in_order_take, in_order_nil | ].
      cbv beta iota zeta delta [drawn_in_turn counter_after fold_left snd].
      rewrite <- Hd.
      split; [ split; [ exact Hq | exact I ] | reflexivity ].
Qed.

Lemma scan_chain_trace key :
  forall blocks bi st st' blocks' out,
    scan_chain min_tick max_tick body key bi st blocks
    = Ok (st', blocks', out) ->
    traced st st' out (chain_entries key bi blocks).
Proof.
  induction blocks as [|b rest IH]; cbn [scan_chain chain_entries];
    intros bi st st' blocks' out H.
  - injection H as <- _ <-. apply traced_nil.
  - destruct (negb (Intersects b min_tick max_tick)).
    + split_bind H. injection H as <- _ <-.
      apply IH in E.
      exact (traced_app _ _ _ [] _ _ _ (traced_nil st _) E).
    + split_bind H. split_bind H. injection H as <- _ <-.
      apply scan_block_trace in E. apply IH in E0.
      refine (traced_app (reset_ignore st) _ _ _ _ _ _ _ E0).
      destruct E as (recs & A & B & C). exists recs.
      split; [ exact A | ]. split; [ exact B | exact C ].
Qed.

Lemma scan_chains_trace :
  forall m st st' m' out,
    scan_chains min_tick max_tick body st m = Ok (st', m', out) ->
    traced st st' out (map_entries m).
Proof.
  induction m as [|[key [chain|]] rest IH]; cbn [scan_chains map_entries];
    intros st st' m' out H.
  - injection H as <- _ <-. apply traced_nil.
  - split_bind H. split_bind H. injection H as <- _ <-.
    apply scan_chain_trace in E. apply IH in E0.
    exact (traced_app _ _ _ _ _ _ _ E E0).
  - split_bind H. injection H as <- _ <-.
    exact (IH _ _ _ _ E).
Qed.

End LoopTrace.

(** One iteration of the thread track's loop body: a record that is culled
    or ignored draws nothing and leaves the counter alone; any other record
    raises the counter and draws one box or line at the height computed from
    the raised counter. *)
Lemma ThreadTrack_process_box_trace env tr fr min_tick max_tick st ref box
      st' box' out :
  ThreadTrack.process_box env tr fr min_tick max_tick st ref box
  = Ok (st', box', out) ->
  (primitives out = [] /\ loop_depth_ st' = loop_depth_ st)
  \/ (exists c,
         primitives out = [c]
         /\ loop_depth_ st'
            = UpdateDepth (u32 (depth (GetTimerInfo box) + 1))
                          (loop_depth_ st)
         /\ call_user_data c = Some ref
         /\ call_y c
            = Some (thread_row_y env (snd (ThreadTrack.m_Pos tr))
                      (ThreadTrack.collapse_toggle_IsCollapsed tr)
                      (loop_depth_ st') (depth (GetTimerInfo box)))).
Proof.
  intros H. unfold ThreadTrack.process_box in H. cbv zeta in H.
  destruct (_ || _) in H;
    [ injection H as <- <- <-; left; split; reflexivity | ].
  destruct (_ && _) in H;
    [ injection H as <- <- <-; left; split; reflexivity | ].
  right. unfold ThreadTrack.SetTimesliceText in H.
  destruct (F64.gtb _ _) in H.
  - destruct (negb (ThreadTrack.is_collapsed fr));
      cbv beta iota in H; injection H as <- <- <-;
      eexists; (split; [ reflexivity | ]); cbn [loop_depth_];
      (split; [ reflexivity | ]); split; reflexivity.
  - destruct (negb (ThreadTrack.pixel_delta_in_ticks fr =? 0));
      injection H as <- <- <-;
      eexists; (split; [ reflexivity | ]); cbn [loop_depth_];
      (split; [ reflexivity | ]); split; reflexivity.
Qed.

(** C3 (as the code has it).  Every box or line that [UpdatePrimitives]
    draws for a timer belongs to a stored record, and its vertical position
    is:
    - on a GPU track, [track_y - textBoxHeight * (e + 1)] with [e = 0]
      when the track is collapsed and [e] the record's depth otherwise
      (depths below 256);
    - on a thread track, [(track_y - eventTrackHeight - space) -
      rowHeight * (depth + 1)] with the record's own depth in both display
      modes ([depth + 1] being a [uint32_t]), where [rowHeight] is
      [textBoxHeight], divided by the depth counter when the track is
      collapsed and the counter is positive.  The counter is taken as it
      stands when the record is drawn: [depth_] on entry, raised by
      [UpdateDepth(depth + 1)] for this record and for every record drawn
      before it in the frame. *)
Theorem projected_record_vertical_position env min_tick max_tick :
  (forall tr tr' out c,
      GpuTrack.UpdatePrimitives env tr min_tick max_tick = Ok (tr', out) ->
      In c out -> is_primitive c = true ->
      exists ref box,
        call_user_data c = Some ref
        /\ stored_at (GpuTrack.timers_ tr) ref box
        /\ let d := depth (GetTimerInfo box) in
           let collapsed := GpuTrack.collapse_toggle_IsCollapsed tr in
           (collapsed = false -> 0 <= d < 256) ->
           call_y c
           = Some (row_y env (snd (GpuTrack.m_Pos tr))
                         (if collapsed then 0 else d)))
  /\
  (forall tr tr' out,
      ThreadTrack.UpdatePrimitives env tr min_tick max_tick = Ok (tr', out) ->
      exists event_calls own_calls recs,
        event_track_UpdatePrimitives env (ThreadTrack.m_Pos tr)
                                     min_tick max_tick
        = Ok event_calls
        /\ out = map FromEventTrack event_calls ++ own_calls
        /\ (forall ref box,
               In (ref, box) recs ->
               stored_at (ThreadTrack.timers_ tr) ref box)
        /\ drawn_in_turn
             (fun depth_now ref box c =>
                call_user_data c = Some ref
                /\ call_y c
                   = Some (thread_row_y env (snd (ThreadTrack.m_Pos tr))
                             (ThreadTrack.collapse_toggle_IsCollapsed tr)
                             depth_now (depth (GetTimerInfo box))))
             (ThreadTrack.depth_ tr) (primitives own_calls) recs).
Proof.
  split.
  - intros tr tr' out c H Hin Hprim.
    apply GpuTrack_UpdatePrimitives_inv in H.
    destruct H as (st' & timers' & Hscan & _ & _).
    destruct (scan_chains_origin _ _ _ (GpuTrack_body_depth_mono _ _ _ _ _)
                _ _ _ _ _ c Hscan Hin)
      as (st0 & ref & box & st1 & box' & outs & Hst & Hb & Hc' & _ & _).
    apply GpuTrack_process_box_inv in Hb. cbv zeta in Hb.
    destruct Hb as (_ & _ & Hb).
    assert (Hne : outs <> []) by (intros ->; contradiction).
    destruct (Hb Hne) as (_ & _ & _ & x & w & h & z & color & Hp & _).
    cbn [GpuTrack.head_frame GpuTrack.is_collapsed] in Hp.
    apply primitives_in in Hc'; [ | exact Hprim ].
    rewrite Hp in Hc'. destruct Hc' as [<- | []].
    exists ref, box. split; [ destruct (is_visible_width _ _ _); reflexivity | ].
    split; [ exact Hst | ]. intros d collapsed Hd.
    assert (Hy : GpuTrack.GetYFromDepth env (snd (GpuTrack.m_Pos tr))
                   (if collapsed then 0 else u8 d)
                 = row_y env (snd (GpuTrack.m_Pos tr))
                         (if collapsed then 0 else d)).
    { destruct collapsed.
      - change 0 with (u8 0) at 1. apply GpuTrack_GetYFromDepth_row_y. lia.
      - apply GpuTrack_GetYFromDepth_row_y. apply Hd. reflexivity. }
    fold d collapsed. destruct (is_visible_width _ _ _); cbn; rewrite Hy;
      reflexivity.
  - intros tr tr' out H.
    apply ThreadTrack_UpdatePrimitives_split in H.
    destruct H as (ev & outs & Hev & H & ->).
    apply ThreadTrack_draw_timers_inv in H.
    destruct H as (st' & timers' & Hscan & _ & _).
    destruct (scan_chains_trace min_tick max_tick _
                (fun depth_now ref box c =>
                   call_user_data c = Some ref
                   /\ call_y c
                      = Some (thread_row_y env (snd (ThreadTrack.m_Pos tr))
                                (ThreadTrack.collapse_toggle_IsCollapsed tr)
                                depth_now (depth (GetTimerInfo box))))
                (fun st ref box st1 box' o Hb =>
                   ThreadTrack_process_box_trace env tr _ min_tick max_tick
                     st ref box st1 box' o Hb)
                _ _ _ _ _ Hscan) as (recs & Hord & Hdrawn & _).
    exists ev, outs, recs. split; [ exact Hev | ].
    split; [ reflexivity | ]. split; [ | exact Hdrawn ].
    intros ref box Hin. apply map_entries_stored.
    exact (in_order_In _ _ _ Hord Hin).
Qed.

Lemma projected_record_vertical_position_witness :
  (exists tr' out c ref box,
      GpuTrack.UpdatePrimitives sample_env gpu_two_expanded 0 100000
      = Ok (tr', out)
      /\ In c out /\ is_primitive c = true
      /\ call_user_data c = Some ref
      /\ stored_at (GpuTrack.timers_ gpu_two_expanded) ref box
      /\ ((false = false -> 0 <= depth (GetTimerInfo box) < 256) ->
          call_y c
          = Some (row_y sample_env (F32.of_Z 500)
                        (depth (GetTimerInfo box)))))
  /\
  (let env := with_event_track busy_event_track sample_env in
   exists tr' out own_calls recs,
      ThreadTrack.UpdatePrimitives env core_track 0 100000 = Ok (tr', out)
      /\ out = [FromEventTrack (mkEventTrackCall 1);
                FromEventTrack (mkEventTrackCall 2)] ++ own_calls
      /\ ThreadTrack.collapse_toggle_IsCollapsed core_track = true
      /\ ThreadTrack.depth_ core_track = 2
      /\ map call_y (primitives own_calls)
         = [Some (F32.of_Z 475); Some (F32.of_Z 465); Some (F32.of_Z 465)]
      /\ drawn_in_turn
           (fun depth_now ref box c =>
              call_user_data c = Some ref
              /\ call_y c
                 = Some (thread_row_y env (F32.of_Z 500) true
                           depth_now (depth (GetTimerInfo box))))
           2 (primitives own_calls) recs).
Proof.
  split.
  - assert (E : exists tr' out c,
               GpuTrack.UpdatePrimitives sample_env gpu_two_expanded 0 100000
               = Ok (tr', out) /\ In c out /\ is_primitive c = true).
    { vm_compute. eexists _, _, _. split; [ reflexivity | ].
      split; [ right; left; reflexivity | reflexivity ]. }
    destruct E as (tr' & out & c & H & Hin & Hp).
    destruct (proj1 (projected_record_vertical_position sample_env 0 100000)
                    gpu_two_expanded tr' out c H Hin Hp)
      as (ref & box & A & B & C).
    exists tr', out, c, ref, box.
    split; [ exact H | ]. split; [ exact Hin | ]. split; [ exact Hp | ].
    split; [ exact A | ]. split; [ exact B | exact C ].
  - intros env.
    assert (E : exists tr' out,
               ThreadTrack.UpdatePrimitives env core_track 0 100000
               = Ok (tr', out)
               /\ map call_y (primitives (skipn 2 out))
                  = [Some (F32.of_Z 475); Some (F32.of_Z 465);
                     Some (F32.of_Z 465)]).
    { vm_compute. eexists _, _. split; reflexivity. }
    destruct E as (tr' & out & H & Hy).
    destruct (proj2 (projected_record_vertical_position env 0 100000)
                    core_track tr' out H)
      as (ev & own & recs & Hev & Hout & _ & D).
    vm_compute in Hev. injection Hev as <-. cbn [map] in Hout.
    rewrite Hout in Hy.
    exists tr', out, own, recs.
    split; [ exact H | ]. split; [ exact Hout | ].
    split; [ reflexivity | ]. split; [ reflexivity | ].
    split; [ exact Hy | exact D ].
Defined.

(** C3 fails as stated on a collapsed thread track: the record at depth 0
    of a track whose depth counter is 2 is placed at
    [485 - (20 / 2) * 1 = 475], not at [485 - 20 * (0 + 1) = 465]. *)
Lemma collapsed_thread_row_is_not_flattened :
  exists tr' c rest,
    ThreadTrack.UpdatePrimitives sample_env thread_two_collapsed 0 100000
    = Ok (tr', c :: rest)
    /\ ThreadTrack.collapse_toggle_IsCollapsed thread_two_collapsed = true
    /\ is_primitive c = true
    /\ call_user_data c = Some (0, 0%nat, 0%nat)
    /\ call_y c = Some (F32.of_Z 475)
    /\ call_y c
       <> Some (row_y sample_env
                      (thread_base_y sample_env
                         (snd (ThreadTrack.m_Pos thread_two_collapsed)))
                      0).
Proof.
  vm_compute. eexists _, _, _. split; [ reflexivity | ].
  repeat split. discriminate.
Qed.

(* ----------------------------------------------------------------- *)
(** ** Box or line, and the ignore window *)

Lemma u64_range (x : Z) : 0 <= u64 x < 2 ^ 64.
Proof. unfold u64. apply Z.mod_pos_bound. lia. Qed.

Lemma snap_no_wrap (m p s : Z) :
  0 <= m -> 0 < p -> m <= s < 2 ^ 64 -> s + p < 2 ^ 64 ->
  u64 (m + u64 (u64 (s - m) / p * p)) = snap_to_pixel m p s
  /\ u64 (snap_to_pixel m p s + p) = snap_to_pixel m p s + p.
Proof.
  intros Hm Hp Hs Hsp. unfold snap_to_pixel, u64.
  assert (Hq : 0 <= (s - m) / p * p <= s - m).
  { pose proof (Z.mul_div_le (s - m) p Hp).
    pose proof (Z.div_pos (s - m) p). nia. }
  rewrite (Z.mod_small (s - m)) by lia.
  rewrite (Z.mod_small ((s - m) / p * p)) by lia.
  split; apply Z.mod_small; lia.
Qed.

Lemma pixel_delta_nonneg (a b : Z) : 0 <= u64 a / u64 b.
Proof.
  pose proof (u64_range a). pose proof (u64_range b).
  destruct (Z.eq_dec (u64 b) 0) as [-> | Hb].
  - rewrite Z.div_0_r. lia.
  - apply Z.div_pos; lia.
Qed.

Lemma GpuTrack_process_box_draws env (tr : GpuTrack.t) min_tick max_tick
      st ref box :
  let ti := GetTimerInfo box in
  let fr := GpuTrack.head_frame env tr in
  skipped_by_visibility min_tick max_tick ti = false ->
  skipped_by_ignore st ti = false ->
  (GpuTrack.collapse_toggle_IsCollapsed tr = true ->
   resolves_to env ti kHwExecutionString) ->
  type ti = kGpuActivity ->
  exists st' box' out c,
    GpuTrack.process_box env tr fr min_tick max_tick st ref box
    = Ok (st', box', out)
    /\ primitives out = [c]
    /\ call_user_data c = Some ref
    /\ drawn_as env (GpuTrack.inv_time_window fr)
                (GpuTrack.pixel_delta_in_ticks fr)
                (GpuTrack.min_timegraph_tick fr) ti st st' c.
Proof.
  intros ti fr Ev Ei Hres Hty.
  unfold GpuTrack.process_box. cbv zeta. fold ti.
  fold (skipped_by_visibility min_tick max_tick ti).
  fold (skipped_by_ignore st ti). rewrite Ev, Ei.
  fold (normalized_length env (GpuTrack.inv_time_window fr) ti).
  fold (is_visible_width env (GpuTrack.inv_time_window fr) ti).
  unfold drawn_as.
  assert (Hfilter :
            GpuTrack.is_collapsed fr
            && negb (String.eqb
                       (value_or (string_manager_Get env (user_data_key ti)) "")
                       kHwExecutionString) = false).
  { cbn [fr GpuTrack.head_frame GpuTrack.is_collapsed].
    destruct (GpuTrack.collapse_toggle_IsCollapsed tr); [ | reflexivity ].
    unfold resolves_to in Hres. rewrite (Hres eq_refl). reflexivity. }
  rewrite Hfilter.
  destruct (is_visible_width env (GpuTrack.inv_time_window fr) ti).
  - unfold GpuTrack.SetTimesliceText. rewrite Hty. cbn [TimerType_eqb].
    destruct (negb (GpuTrack.is_collapsed fr));
      [ destruct (is_empty _) | ]; cbn [bind app];
      (eexists _, _, _, _; split; [ reflexivity | ];
       split; [ reflexivity | ]; split; [ reflexivity | ];
       split; [ reflexivity | split; reflexivity ]).
  - destruct (Z.eqb_spec (GpuTrack.pixel_delta_in_ticks fr) 0) as [Hz | Hz];
      cbn [negb].
    + eexists _, _, _, _. split; [ reflexivity | ].
      split; [ reflexivity | ]. split; [ reflexivity | ].
      split; [ reflexivity | split; reflexivity ].
    + eexists _, _, _, _. split; [ reflexivity | ].
      split; [ reflexivity | ]. split; [ reflexivity | ].
      split; [ reflexivity | ]. cbn [min_ignore max_ignore].
      intros Hs Hsp.
      assert (Hp : 0 < GpuTrack.pixel_delta_in_ticks fr).
      { pose proof (pixel_delta_nonneg
                      (MicrosecondsToTicks env (GetTimeWindowUs env))
                      (getWidth env)).
        cbn [fr GpuTrack.head_frame GpuTrack.pixel_delta_in_ticks] in *. lia. }
      assert (Hm : 0 <= GpuTrack.min_timegraph_tick fr).
      { cbn [fr GpuTrack.head_frame GpuTrack.min_timegraph_tick].
        apply u64_range. }
      destruct (snap_no_wrap _ _ _ Hm Hp Hs Hsp) as [A B].
      rewrite A, B. split; reflexivity.
Qed.

Lemma ThreadTrack_process_box_draws env (tr : ThreadTrack.t) min_tick max_tick
      st ref box :
  let ti := GetTimerInfo box in
  let fr := ThreadTrack.head_frame env tr in
  skipped_by_visibility min_tick max_tick ti = false ->
  skipped_by_ignore st ti = false ->
  exists st' box' out c,
    ThreadTrack.process_box env tr fr min_tick max_tick st ref box
    = Ok (st', box', out)
    /\ primitives out = [c]
    /\ call_user_data c = Some ref
    /\ drawn_as env (ThreadTrack.inv_time_window fr)
                (ThreadTrack.pixel_delta_in_ticks fr)
                (ThreadTrack.min_timegraph_tick fr) ti st st' c.
Proof.
  intros ti fr Ev Ei.
  unfold ThreadTrack.process_box. cbv zeta. fold ti.
  fold (skipped_by_visibility min_tick max_tick ti).
  fold (skipped_by_ignore st ti). rewrite Ev, Ei.
  fold (normalized_length env (ThreadTrack.inv_time_window fr) ti).
  fold (is_visible_width env (ThreadTrack.inv_time_window fr) ti).
  unfold drawn_as.
  destruct (is_visible_width env (ThreadTrack.inv_time_window fr) ti).
  - unfold ThreadTrack.SetTimesliceText.
    destruct (negb (ThreadTrack.is_collapsed fr));
      (eexists _, _, _, _; split; [ reflexivity | ];
       split; [ reflexivity | ]; split; [ reflexivity | ];
       split; [ reflexivity | split; reflexivity ]).
  - destruct (Z.eqb_spec (ThreadTrack.pixel_delta_in_ticks fr) 0) as [Hz | Hz];
      cbn [negb].
    + eexists _, _, _, _. split; [ reflexivity | ].
      split; [ reflexivity | ]. split; [ reflexivity | ].
      split; [ reflexivity | split; reflexivity ].
    + eexists _, _, _, _. split; [ reflexivity | ].
      split; [ reflexivity | ]. split; [ reflexivity | ].
      split; [ reflexivity | ]. cbn [min_ignore max_ignore].
      intros Hs Hsp.
      assert (Hp : 0 < ThreadTrack.pixel_delta_in_ticks fr).
      { pose proof (pixel_delta_nonneg
                      (MicrosecondsToTicks env (GetTimeWindowUs env))
                      (getWidth env)).
        cbn [fr ThreadTrack.head_frame ThreadTrack.pixel_delta_in_ticks] in *.
        lia. }
      assert (Hm : 0 <= ThreadTrack.min_timegraph_tick fr).
      { cbn [fr ThreadTrack.head_frame ThreadTrack.min_timegraph_tick].
        apply u64_range. }
      destruct (snap_no_wrap _ _ _ Hm Hp Hs Hsp) as [A B].
      rewrite A, B. split; reflexivity.
Qed.

(** C4 (as the code has it).  A record that passes the visibility and the
    ignore-window test -- and, on a collapsed GPU track, the
    hardware-execution filter -- is handed to the batcher exactly once: as
    a box when [normalized_length * width > 1], as a vertical line
    otherwise.  After a line the ignore window becomes
    [[m + (start - m) / p * p, that + p]], [p] being
    [pixel_delta_in_ticks] and [m] the time graph's minimum tick, when
    [p <> 0] and the record starts at or after [m]; it is left as it was
    when [p = 0], and after a box.  (GPU timers are GPU-activity timers, as
    the [CHECK] of the GPU track demands.) *)
Theorem drawn_record_is_box_or_line env min_tick max_tick st ref box :
  let ti := GetTimerInfo box in
  skipped_by_visibility min_tick max_tick ti = false ->
  skipped_by_ignore st ti = false ->
  (forall tr : GpuTrack.t,
      let fr := GpuTrack.head_frame env tr in
      (GpuTrack.collapse_toggle_IsCollapsed tr = true ->
       resolves_to env ti kHwExecutionString) ->
      type ti = kGpuActivity ->
      exists st' box' out c,
        GpuTrack.process_box env tr fr min_tick max_tick st ref box
        = Ok (st', box', out)
        /\ primitives out = [c]
        /\ call_user_data c = Some ref
        /\ drawn_as env (GpuTrack.inv_time_window fr)
                    (GpuTrack.pixel_delta_in_ticks fr)
                    (GpuTrack.min_timegraph_tick fr) ti st st' c)
  /\
  (forall tr : ThreadTrack.t,
      let fr := ThreadTrack.head_frame env tr in
      exists st' box' out c,
        ThreadTrack.process_box env tr fr min_tick max_tick st ref box
        = Ok (st', box', out)
        /\ primitives out = [c]
        /\ call_user_data c = Some ref
        /\ drawn_as env (ThreadTrack.inv_time_window fr)
                    (ThreadTrack.pixel_delta_in_ticks fr)
                    (ThreadTrack.min_timegraph_tick fr) ti st st' c).
Proof.
  intros ti Ev Ei. split.
  - intros tr fr Hres Hty.
    exact (GpuTrack_process_box_draws env tr min_tick max_tick st ref box
             Ev Ei Hres Hty).
  - intros tr fr.
    exact (ThreadTrack_process_box_draws env tr min_tick max_tick st ref box
             Ev Ei).
Qed.

Lemma drawn_record_is_box_or_line_witness :
  skipped_by_visibility 0 100000 (GetTimerInfo sub_pixel_box) = false
  /\ skipped_by_ignore (fresh_loop_state 0) (GetTimerInfo sub_pixel_box)
     = false
  /\ exists st' box' out c,
      ThreadTrack.process_box sample_env thread_two
        (ThreadTrack.head_frame sample_env thread_two) 0 100000
        (fresh_loop_state 0) (1, 0%nat, 0%nat) sub_pixel_box
      = Ok (st', box', out)
      /\ primitives out = [c]
      /\ is_line c = true
      /\ min_ignore st' = 10000 /\ max_ignore st' = 10100.
Proof.
  assert (Ev : skipped_by_visibility 0 100000 (GetTimerInfo sub_pixel_box)
               = false) by reflexivity.
  assert (Ei : skipped_by_ignore (fresh_loop_state 0)
                 (GetTimerInfo sub_pixel_box) = false) by reflexivity.
  split; [ exact Ev | ]. split; [ exact Ei | ].
  destruct (proj2 (drawn_record_is_box_or_line sample_env 0 100000
                     (fresh_loop_state 0) (1, 0%nat, 0%nat) sub_pixel_box
                     Ev Ei) thread_two)
    as (st' & box' & out & c & H & Hp & _ & Hd).
  exists st', box', out, c. split; [ exact H | ]. split; [ exact Hp | ].
  unfold drawn_as in Hd.
  assert (Hv : is_visible_width sample_env
                 (ThreadTrack.inv_time_window
                    (ThreadTrack.head_frame sample_env thread_two))
                 (GetTimerInfo sub_pixel_box)
               = false) by (vm_compute; reflexivity).
  rewrite Hv in Hd. destruct Hd as [Hl Hd]. split; [ exact Hl | ].
  assert (Hpd : ThreadTrack.pixel_delta_in_ticks
                  (ThreadTrack.head_frame sample_env thread_two) = 100)
    by (vm_compute; reflexivity).
  assert (Hmt : ThreadTrack.min_timegraph_tick
                  (ThreadTrack.head_frame sample_env thread_two) = 0)
    by (vm_compute; reflexivity).
  rewrite Hpd, Hmt in Hd. cbn [Z.eqb] in Hd.
  apply Hd; vm_compute; split; congruence || reflexivity.
Defined.

(** C4 fails as stated in two places.  On the collapsed GPU track
    [gpu_two] the software-queue record passes the visibility and the
    ignore-window test and is emitted neither as a box nor as a line.  On a
    thread track the two-tick record [249, 251], which starts before the
    minimum tick 250 of the time graph (3 ticks per pixel), is drawn as a
    line and leaves the ignore window at [[249, 252]], not at
    [[250 + floor(-1 / 3) * 3, ...] = [247, 250]]: the subtraction wraps. *)
Lemma drawn_record_counterexample :
  (let box := sub_pixel_box in
   let st := fresh_loop_state 1 in
   stored_at (GpuTrack.timers_ gpu_two) (1, 0%nat, 0%nat) box
   /\ skipped_by_visibility 0 100000 (GetTimerInfo box) = false
   /\ skipped_by_ignore st (GetTimerInfo box) = false
   /\ (exists st' box',
         GpuTrack.process_box sample_env gpu_two
           (GpuTrack.head_frame sample_env gpu_two) 0 100000 st
           (1, 0%nat, 0%nat) box
         = Ok (st', box', []))
   /\ exists tr' c,
       GpuTrack.UpdatePrimitives sample_env gpu_two 0 100000
       = Ok (tr', [c])
       /\ call_user_data c = Some (0, 0%nat, 0%nat))
  /\
  (let box := fresh_text_box edge_timer in
   let st := fresh_loop_state 1 in
   let fr := ThreadTrack.head_frame narrow_env thread_edge in
   ThreadTrack.pixel_delta_in_ticks fr = 3
   /\ ThreadTrack.min_timegraph_tick fr = 250
   /\ skipped_by_visibility 250 3250 (GetTimerInfo box) = false
   /\ skipped_by_ignore st (GetTimerInfo box) = false
   /\ exists st' box' c,
       ThreadTrack.process_box narrow_env thread_edge fr 250 3250 st
         (0, 0%nat, 0%nat) box
       = Ok (st', box', [c])
       /\ is_line c = true
       /\ min_ignore st' = 249 /\ max_ignore st' = 252
       /\ snap_to_pixel 250 3 (start (GetTimerInfo box)) = 247
       /\ min_ignore st' <> snap_to_pixel 250 3 (start (GetTimerInfo box))).
Proof.
  split.
  - cbv zeta. split.
    { exists [[sub_pixel_box]], [sub_pixel_box].
      split; [ right; left; reflexivity | split; reflexivity ]. }
    split; [ reflexivity | ]. split; [ reflexivity | ]. split.
    + vm_compute. eexists _, _. reflexivity.
    + vm_compute. eexists _, _. split; reflexivity.
  - cbv zeta. split; [ vm_compute; reflexivity | ].
    split; [ vm_compute; reflexivity | ].
    split; [ reflexivity | ]. split; [ reflexivity | ].
    vm_compute. eexists _, _, _. split; [ reflexivity | ].
    repeat split. discriminate.
Qed.

(* ----------------------------------------------------------------- *)
(** ** Degenerate viewports *)

Lemma GpuTrack_process_box_returns env tr fr min_tick max_tick st ref box :
  type (GetTimerInfo box) = kGpuActivity ->
  returns (GpuTrack.process_box env tr fr min_tick max_tick st ref box).
Proof.
  intros Hty. unfold GpuTrack.process_box, returns. cbv zeta.
  unfold GpuTrack.SetTimesliceText. rewrite Hty. cbn [TimerType_eqb].
  repeat case_if; cbn [bind]; eexists; reflexivity.
Qed.

Lemma ThreadTrack_process_box_returns env tr fr min_tick max_tick st ref box :
  returns (ThreadTrack.process_box env tr fr min_tick max_tick st ref box).
Proof.
  unfold ThreadTrack.process_box, returns. cbv zeta.
  destruct (_ || _); [ eexists; reflexivity | ].
  destruct (_ && _); [ eexists; reflexivity | ].
  destruct (F64.gtb _ _).
  - destruct (negb (ThreadTrack.is_collapsed fr)); eexists; reflexivity.
  - destruct (negb (_ =? 0)); eexists; reflexivity.
Qed.

Lemma no_output_when_nothing_visible body min_tick max_tick st m st' m' out :
  (forall st ref box st' box' out,
      body st ref box = Ok (st', box', out) ->
      loop_depth_ st <= loop_depth_ st'
      /\ (out <> [] ->
          skipped_by_visibility min_tick max_tick (GetTimerInfo box)
          = false)) ->
  scan_chains min_tick max_tick body st m = Ok (st', m', out) ->
  nothing_visible min_tick max_tick m ->
  out = [].
Proof.
  intros Hbody Hscan Hnone.
  destruct out as [|c rest]; [ reflexivity | exfalso ].
  destruct (scan_chains_origin min_tick max_tick body
              (fun st ref box st' box' out H => proj1 (Hbody _ _ _ _ _ _ H))
              _ _ _ _ _ c Hscan (or_introl eq_refl))
    as (st0 & ref & box & st1 & box' & outs & Hst & Hb & Hc & _ & _).
  apply Hbody in Hb. destruct Hb as [_ Hb].
  assert (Hne : outs <> []) by (intros ->; contradiction).
  specialize (Hb Hne). apply stored_at_In in Hst.
  rewrite (Hnone box Hst) in Hb. discriminate.
Qed.

(* ----------------------------------------------------------------- *)
(** ** With no pixel to share, every visible record is drawn *)

Lemma block_min_timestamp_le (b : TimerBlock) (x : TextBox) :
  In x b -> block_min_timestamp b <= start (GetTimerInfo x).
Proof.
  unfold block_min_timestamp. generalize UINT64_MAX.
  assert (mono : forall l acc,
             fold_left (fun m y => Z.min (start (GetTimerInfo y)) m) l acc
             <= acc).
  { induction l as [|y l IH]; intros acc; cbn [fold_left]; [ lia | ].
    specialize (IH (Z.min (start (GetTimerInfo y)) acc)). lia. }
  induction b as [|y b IH]; intros acc Hin; [ contradiction | ].
  cbn [fold_left]. destruct Hin as [-> | Hin].
  - specialize (mono b (Z.min (start (GetTimerInfo x)) acc)). lia.
  - apply IH. exact Hin.
Qed.

Lemma block_max_timestamp_ge (b : TimerBlock) (x : TextBox) :
  In x b -> end_ (GetTimerInfo x) <= block_max_timestamp b.
Proof.
  unfold block_max_timestamp. generalize UINT64_MIN.
  assert (mono : forall l acc,
             acc
             <= fold_left (fun m y => Z.max (end_ (GetTimerInfo y)) m) l acc).
  { induction l as [|y l IH]; intros acc; cbn [fold_left]; [ lia | ].
    specialize (IH (Z.max (end_ (GetTimerInfo y)) acc)). lia. }
  induction b as [|y b IH]; intros acc Hin; [ contradiction | ].
  cbn [fold_left]. destruct Hin as [-> | Hin].
  - specialize (mono b (Z.max (end_ (GetTimerInfo x)) acc)). lia.
  - apply IH. exact Hin.
Qed.

(** The block test never hides a record that overlaps the range. *)
Lemma visible_record_block_Intersects (b : TimerBlock) (x : TextBox)
      (min_tick max_tick : Z) :
  In x b ->
  skipped_by_visibility min_tick max_tick (GetTimerInfo x) = false ->
  Intersects b min_tick max_tick = true.
Proof.
  intros Hin Hv. unfold skipped_by_visibility in Hv.
  apply Bool.orb_false_iff in Hv. destruct Hv as [A B].
  pose proof (block_min_timestamp_le b x Hin).
  pose proof (block_max_timestamp_ge b x Hin).
  unfold Intersects. apply Bool.andb_true_iff. split.
  - apply Z.leb_le. destruct (Z.gtb_spec min_tick (end_ (GetTimerInfo x)));
      [ discriminate | lia ].
  - apply Z.geb_le. destruct (Z.ltb_spec max_tick (start (GetTimerInfo x)));
      [ discriminate | lia ].
Qed.

Lemma reset_window_ignores_nothing (st : LoopState) (ti : TimerInfo) :
  same_ignore st (fresh_loop_state 0) ->
  start ti < UINT64_MAX ->
  skipped_by_ignore st ti = false.
Proof.
  intros [A _] H. unfold skipped_by_ignore.
  change (min_ignore (fresh_loop_state 0)) with UINT64_MAX in A. rewrite A.
  apply Bool.andb_false_iff. left.
  rewrite Z.geb_leb. apply Z.leb_gt. exact H.
Qed.

Section LoopComplete.
Variables min_tick max_tick : Z.
Variable body :
  LoopState -> BoxRef -> TextBox ->
  result (LoopState * TextBox * list DrawCall).
Variable eligible : TextBox -> Prop.

Hypothesis body_keeps_window :
  forall st ref box st' box' out,
    body st ref box = Ok (st', box', out) -> same_ignore st' st.

Hypothesis body_draws :
  forall st ref box st' box' out,
    body st ref box = Ok (st', box', out) ->
    skipped_by_visibility min_tick max_tick (GetTimerInfo box) = false ->
    skipped_by_ignore st (GetTimerInfo box) = false ->
    eligible box ->
    exists c,
      In c out /\ is_primitive c = true /\ call_user_data c = Some ref.

Let wanted (box : TextBox) : Prop :=
  skipped_by_visibility min_tick max_tick (GetTimerInfo box) = false
  /\ start (GetTimerInfo box) < UINT64_MAX
  /\ eligible box.

Lemma scan_block_complete key bi :
  forall boxes k st st' boxes' out,
    scan_block body key bi k st boxes = Ok (st', boxes', out) ->
    same_ignore st (fresh_loop_state 0) ->
    forall i box,
      nth_error boxes i = Some box -> wanted box ->
      exists c,
        In c out /\ is_primitive c = true
        /\ call_user_data c = Some (key, bi, (k + i)%nat).
Proof.
  induction boxes as [|b rest IH]; cbn [scan_block];
    intros k st st' boxes' out H Hst i box Hi Hw.
  - destruct i; discriminate Hi.
  - split_bind H. split_bind H. injection H as _ _ <-.
    destruct i as [|i]; cbn [nth_error] in Hi.
    + injection Hi as ->. destruct Hw as (Hv & Hs & He).
      destruct (body_draws _ _ _ _ _ _ E Hv
                  (reset_window_ignores_nothing _ _ Hst Hs) He)
        as (c & Hc & Hp & Hu).
      exists c. split; [ apply in_or_app; left; exact Hc | ].
      split; [ exact Hp | ].
      replace (k + 0)%nat with k by lia. exact Hu.
    + assert (Hst' : same_ignore l (fresh_loop_state 0)).
      { destruct (body_keeps_window _ _ _ _ _ _ E) as [A B].
        destruct Hst as [A' B']. split; congruence. }
      destruct (IH _ _ _ _ _ E0 Hst' i box Hi Hw) as (c & Hc & Hp & Hu).
      exists c. split; [ apply in_or_app; right; exact Hc | ].
      split; [ exact Hp | ].
      replace (k + S i)%nat with (S k + i)%nat by lia. exact Hu.
Qed.

Lemma scan_chain_complete key :
  forall blocks bi st st' blocks' out,
    scan_chain min_tick max_tick body key bi st blocks
    = Ok (st', blocks', out) ->
    forall j k block box,
      nth_error blocks j = Some block ->
      nth_error block k = Some box -> wanted box ->
      exists c,
        In c out /\ is_primitive c = true
        /\ call_user_data c = Some (key, (bi + j)%nat, k).
Proof.
  induction blocks as [|b rest IH]; cbn [scan_chain];
    intros bi st st' blocks' out H j k block box Hj Hk Hw.
  - destruct j; discriminate Hj.
  - destruct j as [|j]; cbn [nth_error] in Hj.
    + injection Hj as ->.
      rewrite (visible_record_block_Intersects block box min_tick max_tick
                 (nth_error_In _ _ Hk) (proj1 Hw)) in H.
      cbn [negb] in H. split_bind H. split_bind H. injection H as _ _ <-.
      destruct (scan_block_complete _ _ _ _ _ _ _ _ E
                  (conj eq_refl eq_refl) k box Hk Hw)
        as (c & Hc & Hp & Hu).
      exists c. split; [ apply in_or_app; left; exact Hc | ].
      split; [ exact Hp | ].
      replace (bi + 0)%nat with bi by lia. exact Hu.
    + destruct (negb (Intersects b min_tick max_tick)).
      * split_bind H. injection H as _ _ <-.
        destruct (IH _ _ _ _ _ E j k block box Hj Hk Hw)
          as (c & Hc & Hp & Hu).
        exists c. split; [ exact Hc | ]. split; [ exact Hp | ].
        replace (bi + S j)%nat with (S bi + j)%nat by lia. exact Hu.
      * split_bind H. split_bind H. injection H as _ _ <-.
        destruct (IH _ _ _ _ _ E0 j k block box Hj Hk Hw)
          as (c & Hc & Hp & Hu).
        exists c. split; [ apply in_or_app; right; exact Hc | ].
        split; [ exact Hp | ].
        replace (bi + S j)%nat with (S bi + j)%nat by lia. exact Hu.
Qed.

Lemma scan_chains_complete :
  forall m st st' m' out,
    scan_chains min_tick max_tick body st m = Ok (st', m', out) ->
    every_visible_record_drawn min_tick max_tick eligible m out.
Proof.
  unfold every_visible_record_drawn.
  induction m as [|[key [chain|]] rest IH]; cbn [scan_chains];
    intros st st' m' out H [[key' j] k] box
           (chain' & block & Hm & Hj & Hk) Hv Hs He.
  - contradiction.
  - split_bind H. split_bind H. injection H as _ _ <-.
    destruct Hm as [[= <- <-] | Hm].
    + destruct (scan_chain_complete _ _ _ _ _ _ _ E j k block box Hj Hk
                  (conj Hv (conj Hs He)))
        as (c & Hc & Hp & Hu).
      exists c. split; [ apply in_or_app; left; exact Hc | ].
      split; assumption.
    + destruct (IH _ _ _ _ E0 (key', j, k) box) as (c & Hc & Hp & Hu);
        try assumption.
      { exists chain', block. split; [ exact Hm | ]. split; assumption. }
      exists c. split; [ apply in_or_app; right; exact Hc | ].
      split; assumption.
  - split_bind H. injection H as _ _ <-.
    destruct Hm as [[= ] | Hm].
    destruct (IH _ _ _ _ E (key', j, k) box) as (c & Hc & Hp & Hu);
      try assumption.
    { exists chain', block. split; [ exact Hm | ]. split; assumption. }
    exists c. split; [ exact Hc | ]. split; assumption.
Qed.

End LoopComplete.

Lemma GpuTrack_process_box_keeps_window env tr fr min_tick max_tick :
  GpuTrack.pixel_delta_in_ticks fr = 0 ->
  forall st ref box st' box' out,
    GpuTrack.process_box env tr fr min_tick max_tick st ref box
    = Ok (st', box', out) ->
    same_ignore st' st.
Proof.
  intros Hp st ref box st' box' out H.
  unfold GpuTrack.process_box, GpuTrack.SetTimesliceText in H.
  cbv zeta in H. rewrite Hp in H. cbn [Z.eqb negb] in H.
  repeat case_if_in H; cbn [bind] in H; try discriminate H;
    injection H as <- _ _; split; reflexivity.
Qed.

Lemma ThreadTrack_process_box_keeps_window env tr fr min_tick max_tick :
  ThreadTrack.pixel_delta_in_ticks fr = 0 ->
  forall st ref box st' box' out,
    ThreadTrack.process_box env tr fr min_tick max_tick st ref box
    = Ok (st', box', out) ->
    same_ignore st' st.
Proof.
  intros Hp st ref box st' box' out H.
  unfold ThreadTrack.process_box in H.
  cbv zeta in H. rewrite Hp in H. cbn [Z.eqb negb] in H.
  destruct (_ || _) in H; [ injection H as <- _ _; split; reflexivity | ].
  destruct (_ && _) in H; [ injection H as <- _ _; split; reflexivity | ].
  destruct (F64.gtb _ _) in H.
  - destruct (negb (ThreadTrack.is_collapsed fr));
      [ destruct (ThreadTrack.SetTimesliceText _ _ _ _ _) | ];
      injection H as <- _ _; split; reflexivity.
  - injection H as <- _ _; split; reflexivity.
Qed.

Lemma GpuTrack_process_box_draws_one env tr min_tick max_tick :
  forall st ref box st' box' out,
    GpuTrack.process_box env tr (GpuTrack.head_frame env tr)
                         min_tick max_tick st ref box
    = Ok (st', box', out) ->
    skipped_by_visibility min_tick max_tick (GetTimerInfo box) = false ->
    skipped_by_ignore st (GetTimerInfo box) = false ->
    type (GetTimerInfo box) = kGpuActivity
    /\ passes_collapse_filter env tr box ->
    exists c,
      In c out /\ is_primitive c = true /\ call_user_data c = Some ref.
Proof.
  intros st ref box st' box' out H Hv Hi [Hty He].
  destruct (GpuTrack_process_box_draws env tr min_tick max_tick st ref box
              Hv Hi He Hty)
    as (st2 & box2 & out2 & c & H2 & Hp & Hu & _).
  cbv zeta in H2. rewrite H in H2. injection H2 as <- <- <-.
  assert (Hc : In c (primitives out)) by (rewrite Hp; left; reflexivity).
  apply filter_In in Hc. exists c. split; [ exact (proj1 Hc) | ].
  split; [ exact (proj2 Hc) | exact Hu ].
Qed.

Lemma ThreadTrack_process_box_draws_one env tr min_tick max_tick :
  forall st ref box st' box' out,
    ThreadTrack.process_box env tr (ThreadTrack.head_frame env tr)
                            min_tick max_tick st ref box
    = Ok (st', box', out) ->
    skipped_by_visibility min_tick max_tick (GetTimerInfo box) = false ->
    skipped_by_ignore st (GetTimerInfo box) = false ->
    True ->
    exists c,
      In c out /\ is_primitive c = true /\ call_user_data c = Some ref.
Proof.
  intros st ref box st' box' out H Hv Hi _.
  destruct (ThreadTrack_process_box_draws env tr min_tick max_tick st ref box
              Hv Hi)
    as (st2 & box2 & out2 & c & H2 & Hp & Hu & _).
  cbv zeta in H2. rewrite H in H2. injection H2 as <- <- <-.
  assert (Hc : In c (primitives out)) by (rewrite Hp; left; reflexivity).
  apply filter_In in Hc. exists c. split; [ exact (proj1 Hc) | ].
  split; [ exact (proj2 Hc) | exact Hu ].
Qed.

(** C2 (as the code has it).  With a canvas width that is not zero,
    [UpdatePrimitives] returns for every track state and every window, a
    zero-width window included: on a GPU track provided the stored timers
    are GPU-activity timers (its [CHECK]), on a thread track provided the
    call into its event track returns, whose calls then come first; a
    thread-track frame returns only if that call does.  The track draws
    nothing for its timers when no stored record intersects
    [[min_tick, max_tick]].  A degenerate window does not empty the output:
    when [pixel_delta_in_ticks] is zero, as it is for a window of zero
    ticks, every stored record that overlaps [[min_tick, max_tick]] and
    starts before [UINT64_MAX] gets a box or a line of its own (on a
    collapsed GPU track: every such hardware-execution record).  Nothing is
    said for a canvas width of zero. *)
Theorem UpdatePrimitives_returns_when_width_nonzero env min_tick max_tick :
  u64 (getWidth env) <> 0 ->
  (forall tr : GpuTrack.t,
      gpu_timers_only (GpuTrack.timers_ tr) ->
      exists tr' out,
        GpuTrack.UpdatePrimitives env tr min_tick max_tick = Ok (tr', out)
        /\ (nothing_visible min_tick max_tick (GpuTrack.timers_ tr) ->
            out = [])
        /\ (frame_pixel_delta env = 0 ->
            every_visible_record_drawn min_tick max_tick
              (passes_collapse_filter env tr) (GpuTrack.timers_ tr) out))
  /\
  (forall (tr : ThreadTrack.t) (event_calls : list EventTrackCall),
      event_track_UpdatePrimitives env (ThreadTrack.m_Pos tr)
                                   min_tick max_tick
      = Ok event_calls ->
      exists tr' out,
        ThreadTrack.UpdatePrimitives env tr min_tick max_tick
        = Ok (tr', map FromEventTrack event_calls ++ out)
        /\ (nothing_visible min_tick max_tick (ThreadTrack.timers_ tr) ->
            out = [])
        /\ (frame_pixel_delta env = 0 ->
            every_visible_record_drawn min_tick max_tick
              (fun _ => True) (ThreadTrack.timers_ tr) out))
  /\
  (forall (tr : ThreadTrack.t) r,
      ThreadTrack.UpdatePrimitives env tr min_tick max_tick = Ok r ->
      exists event_calls,
        event_track_UpdatePrimitives env (ThreadTrack.m_Pos tr)
                                     min_tick max_tick
        = Ok event_calls).
Proof.
  intros Hw. apply Z.eqb_neq in Hw. split; [ | split ].
  - intros tr Hgpu. unfold GpuTrack.UpdatePrimitives. rewrite Hw. cbv zeta.
    destruct (scan_chains_returns min_tick max_tick
                (GpuTrack.process_box env tr (GpuTrack.head_frame env tr)
                                      min_tick max_tick)
                (fun box => type (GetTimerInfo box) = kGpuActivity)
                (fun st ref box H =>
                   GpuTrack_process_box_returns env tr _ min_tick max_tick
                                                st ref box H)
                (GpuTrack.timers_ tr)
                (mkLoopState UINT64_MAX UINT64_MIN (GpuTrack.depth_ tr))
                Hgpu)
      as [[[st' timers'] out] E].
    rewrite E. cbn [bind]. eexists _, out. split; [ reflexivity | ]. split.
    + intros Hnone.
      eapply no_output_when_nothing_visible; [ | exact E | exact Hnone ].
      intros st ref box st1 box' outs H.
      apply GpuTrack_process_box_inv in H. cbv zeta in H.
      destruct H as (A & _ & B). split; [ exact A | ].
      intros Hne. exact (proj1 (B Hne)).
    + intros Hpd ref box Hst Hv Hs He.
      refine (scan_chains_complete min_tick max_tick _
                (fun box => type (GetTimerInfo box) = kGpuActivity
                            /\ passes_collapse_filter env tr box)
                (GpuTrack_process_box_keeps_window env tr
                   (GpuTrack.head_frame env tr) min_tick max_tick Hpd)
                (GpuTrack_process_box_draws_one env tr min_tick max_tick)
                _ _ _ _ _ E ref box Hst Hv Hs _).
      split; [ exact (Hgpu box (stored_at_In _ _ _ Hst)) | exact He ].
  - intros tr ev Hev. unfold ThreadTrack.UpdatePrimitives. rewrite Hev.
    cbn [bind]. unfold ThreadTrack.draw_timers. rewrite Hw. cbv zeta.
    destruct (scan_chains_returns min_tick max_tick
                (ThreadTrack.process_box env tr
                   (ThreadTrack.head_frame env tr) min_tick max_tick)
                (fun _ => True)
                (fun st ref box _ =>
                   ThreadTrack_process_box_returns env tr _ min_tick max_tick
                                                   st ref box)
                (ThreadTrack.timers_ tr)
                (mkLoopState UINT64_MAX UINT64_MIN (ThreadTrack.depth_ tr))
                (fun _ _ => I))
      as [[[st' timers'] out] E].
    rewrite E. cbn [bind]. eexists _, out. split; [ reflexivity | ]. split.
    + intros Hnone.
      eapply no_output_when_nothing_visible; [ | exact E | exact Hnone ].
      intros st ref box st1 box' outs H.
      apply ThreadTrack_process_box_inv in H. cbv zeta in H.
      destruct H as (A & _ & B). split; [ exact A | ].
      intros Hne. exact (proj1 (B Hne)).
    + intros Hpd.
      exact (scan_chains_complete min_tick max_tick _ (fun _ => True)
               (ThreadTrack_process_box_keeps_window env tr
                  (ThreadTrack.head_frame env tr) min_tick max_tick Hpd)
               (ThreadTrack_process_box_draws_one env tr min_tick max_tick)
               _ _ _ _ _ E).
  - intros tr [tr' out] H.
    apply ThreadTrack_UpdatePrimitives_split in H.
    destruct H as (ev & outs & Hev & _). exists ev. exact Hev.
Qed.

Lemma UpdatePrimitives_returns_when_width_nonzero_witness :
  let env := zero_window_busy_env in
  u64 (getWidth env) <> 0
  /\ gpu_timers_only (GpuTrack.timers_ gpu_two)
  /\ frame_pixel_delta env = 0
  /\ (exists tr' out c,
        GpuTrack.UpdatePrimitives env gpu_two 20000 20000 = Ok (tr', out)
        /\ In c out /\ is_primitive c = true
        /\ call_user_data c = Some (0, 0%nat, 0%nat))
  /\ (exists tr' out c,
        ThreadTrack.UpdatePrimitives env thread_two 20000 20000
        = Ok (tr', FromEventTrack (mkEventTrackCall 1)
                   :: FromEventTrack (mkEventTrackCall 2) :: out)
        /\ In c out /\ is_primitive c = true
        /\ call_user_data c = Some (1, 0%nat, 0%nat)).
Proof.
  intros env.
  assert (Hw : u64 (getWidth env) <> 0) by (vm_compute; discriminate).
  assert (Hg : gpu_timers_only (GpuTrack.timers_ gpu_two)).
  { intros box [<- | [<- | []]]; reflexivity. }
  assert (Hpd : frame_pixel_delta env = 0) by (vm_compute; reflexivity).
  split; [ exact Hw | ]. split; [ exact Hg | ]. split; [ exact Hpd | ].
  destruct (UpdatePrimitives_returns_when_width_nonzero env 20000 20000 Hw)
    as (G & T & _).
  split.
  - destruct (G gpu_two Hg) as (tr' & out & H & _ & D).
    destruct (D Hpd (0, 0%nat, 0%nat)
                (fresh_text_box (sample_timer 0 50000 0 3 kGpuActivity)))
      as (c & Hc & Hp & Hu).
    + exists [[fresh_text_box (sample_timer 0 50000 0 3 kGpuActivity)]],
             [fresh_text_box (sample_timer 0 50000 0 3 kGpuActivity)].
      split; [ left; reflexivity | ]. split; reflexivity.
    + reflexivity.
    + vm_compute. reflexivity.
    + intros _. reflexivity.
    + exists tr', out, c. split; [ exact H | ]. split; [ exact Hc | ].
      split; [ exact Hp | exact Hu ].
  - destruct (T thread_two [mkEventTrackCall 1; mkEventTrackCall 2] eq_refl)
      as (tr' & out & H & _ & D).
    destruct (D Hpd (1, 0%nat, 0%nat)
                (fresh_text_box (sample_timer 10000 40000 1 0 kNone)))
      as (c & Hc & Hp & Hu).
    + exists [[fresh_text_box (sample_timer 10000 40000 1 0 kNone)]],
             [fresh_text_box (sample_timer 10000 40000 1 0 kNone)].
      split; [ right; left; reflexivity | ]. split; reflexivity.
    + reflexivity.
    + vm_compute. reflexivity.
    + exact I.
    + exists tr', out, c. split; [ exact H | ]. split; [ exact Hc | ].
      split; [ exact Hp | exact Hu ].
Defined.

(** C2 fails as stated on both degenerate viewports.  With a canvas width
    of zero the quotient [pixel_delta_in_ticks] is an integer division by
    zero, on both tracks.  With a window of zero microseconds (and
    [min_tick = max_tick = 20000]) the records that contain tick 20000 are
    still emitted. *)
Lemma degenerate_viewport_counterexample :
  GpuTrack.UpdatePrimitives zero_width_env gpu_two 0 100000 = DivisionByZero
  /\ ThreadTrack.UpdatePrimitives zero_width_env thread_two 0 100000
     = DivisionByZero
  /\ (exists tr' out,
        ThreadTrack.UpdatePrimitives zero_window_env thread_two 20000 20000
        = Ok (tr', out)
        /\ List.length (primitives out) = 2%nat)
  /\ (exists tr' out,
        GpuTrack.UpdatePrimitives zero_window_env gpu_two 20000 20000
        = Ok (tr', out)
        /\ List.length (primitives out) = 1%nat).
Proof.
  split; [ reflexivity | ]. split; [ reflexivity | ]. split.
  - vm_compute. eexists _, _. split; reflexivity.
  - vm_compute. eexists _, _. split; reflexivity.
Qed.

(* ----------------------------------------------------------------- *)
(** ** Calling [UpdatePrimitives] twice *)

(** On a GPU track a second call replays the first: the body run again on
    the box it left behind, from a state with the same ignore window, emits
    the same calls. *)

Lemma skipped_by_ignore_same st2 st ti :
  same_ignore st2 st -> skipped_by_ignore st2 ti = skipped_by_ignore st ti.
Proof. intros [A B]. unfold skipped_by_ignore. rewrite A, B. reflexivity. Qed.

Lemma is_empty_append_sep (a b : string) :
  is_empty (a ++ "  " ++ b)%string = false.
Proof. destruct a; reflexivity. Qed.

Ltac box_simpl :=
  cbv [GetTimerInfo GetPos GetSize GetPosY GetText GetElapsedTimeTextLength
       SetTimerInfo SetPos SetSize SetText SetElapsedTimeTextLength
       draw_timeslice_text fst snd bind app];
  cbn [tb_pos tb_size tb_text tb_color tb_timer_info
       tb_elapsed_time_text_length].

Lemma GpuTrack_process_box_replay env tr fr min_tick max_tick st st2 ref box :
  same_ignore st2 st ->
  match GpuTrack.process_box env tr fr min_tick max_tick st ref box with
  | Ok (st', box', out) =>
      GetTimerInfo box' = GetTimerInfo box
      /\ exists st2' box'',
          GpuTrack.process_box env tr fr min_tick max_tick st2 ref box'
          = Ok (st2', box'', out)
          /\ same_ignore st2' st'
  | _ => True
  end.
Proof.
  intros Hs. pose proof (skipped_by_ignore_same _ _ (GetTimerInfo box) Hs) as Hi.
  unfold skipped_by_ignore in Hi. unfold GetTimerInfo in Hi.
  unfold GpuTrack.process_box, GpuTrack.SetTimesliceText. cbv zeta.
  box_simpl.
  change (box.(tb_timer_info)) with (tb_timer_info box).
  set (ti := tb_timer_info box) in *.
  destruct ((min_tick >? end_ ti) || (max_tick <? start ti)) eqn:Ev.
  { cbv beta iota. box_simpl. fold ti. rewrite Ev.
    split; [ reflexivity | ]. eexists _, _. split; [ reflexivity | exact Hs ]. }
  destruct ((start ti >=? min_ignore st) && (end_ ti <=? max_ignore st)) eqn:Ei.
  { cbv beta iota. box_simpl. fold ti. rewrite Ev, Hi.
    split; [ reflexivity | ]. eexists _, _. split; [ reflexivity | exact Hs ]. }
  destruct Hs as [Hs1 Hs2].
  destruct (GpuTrack.is_collapsed fr); cbn [andb negb].
  - destruct (negb (_ =? kHwExecutionString)%string) eqn:Ef.
    + cbv beta iota. box_simpl. fold ti. rewrite Ev, Hi, Ef.
      split; [ reflexivity | ]. eexists _, _.
      split; [ reflexivity | split; cbn; assumption ].
    + destruct (F64.gtb _ _) eqn:Ew; cbn [bind app].
      * cbv beta iota. box_simpl. fold ti. rewrite Ev, Hi, Ef, Ew. cbn [bind app].
        split; [ reflexivity | ]. eexists _, _.
        split; [ reflexivity | split; cbn; assumption ].
      * destruct (negb (_ =? 0)) eqn:Ep.
        -- cbv beta iota. box_simpl. fold ti. rewrite Ev, Hi, Ef, Ew.
           split; [ reflexivity | ]. eexists _, _.
           split; [ reflexivity | split; reflexivity ].
        -- cbv beta iota. box_simpl. fold ti. rewrite Ev, Hi, Ef, Ew.
           split; [ reflexivity | ]. eexists _, _.
           split; [ reflexivity | split; cbn; assumption ].
  - destruct (F64.gtb _ _) eqn:Ew.
    + destruct (is_empty (tb_text box)) eqn:Et.
      * destruct (TimerType_eqb (type ti) kGpuActivity) eqn:Ety;
          cbn [bind app]; [ | exact I ].
        cbv beta iota. box_simpl. fold ti. rewrite Ev, Hi, Ew, is_empty_append_sep.
        cbn [bind app]. box_simpl.
        split; [ reflexivity | ]. eexists _, _.
        split; [ reflexivity | split; cbn; assumption ].
      * cbn [bind app]. cbv beta iota. box_simpl. fold ti. rewrite Ev, Hi, Ew, Et.
        cbn [bind app]. box_simpl.
        split; [ reflexivity | ]. eexists _, _.
        split; [ reflexivity | split; cbn; assumption ].
    + destruct (negb (_ =? 0)) eqn:Ep.
      * cbv beta iota. box_simpl. fold ti. rewrite Ev, Hi, Ew.
        split; [ reflexivity | ]. eexists _, _.
        split; [ reflexivity | split; reflexivity ].
      * cbv beta iota. box_simpl. fold ti. rewrite Ev, Hi, Ew.
        split; [ reflexivity | ]. eexists _, _.
        split; [ reflexivity | split; cbn; assumption ].
Qed.

Lemma is_empty_append_space (a b : string) :
  is_empty (a ++ " " ++ b)%string = false.
Proof. destruct a; reflexivity. Qed.

Ltac replay_finish ti Hy :=
  cbv beta iota; box_simpl; fold ti;
  repeat match goal with
         | H : ?b = _ |- context [?b] => rewrite H
         end;
  rewrite ?Hy, ?is_empty_append_space;
  cbv beta iota; box_simpl;
  repeat match goal with
         | H : ?b = _ |- context [?b] => rewrite H
         end;
  (split; [ reflexivity | ]);
  (split; [ first [ left; reflexivity | right; reflexivity ] | ]);
  eexists _, _; (split; [ reflexivity | ]);
  (split; [ split; first [ reflexivity | assumption ] | ]);
  let E := fresh in intros E; cbn [loop_depth_]; rewrite ?E; reflexivity.

Lemma ThreadTrack_GetYFromDepth_expanded env d1 d2 base d :
  ThreadTrack.GetYFromDepth env d1 base d false
  = ThreadTrack.GetYFromDepth env d2 base d false.
Proof. reflexivity. Qed.

Lemma ThreadTrack_process_box_replay env tr fr min_tick max_tick st st2 ref
      box :
  same_ignore st2 st ->
  ThreadTrack.collapse_toggle_IsCollapsed tr = false
  \/ loop_depth_ st2 = loop_depth_ st ->
  match ThreadTrack.process_box env tr fr min_tick max_tick st ref box with
  | Ok (st', box', out) =>
      GetTimerInfo box' = GetTimerInfo box
      /\ (loop_depth_ st' = loop_depth_ st
          \/ loop_depth_ st'
             = UpdateDepth (u32 (depth (GetTimerInfo box) + 1))
                           (loop_depth_ st))
      /\ exists st2' box'',
          ThreadTrack.process_box env tr fr min_tick max_tick st2 ref box'
          = Ok (st2', box'', out)
          /\ same_ignore st2' st'
          /\ (loop_depth_ st2 = loop_depth_ st ->
              loop_depth_ st2' = loop_depth_ st')
  | _ => True
  end.
Proof.
  intros Hs Hd.
  pose proof (skipped_by_ignore_same _ _ (GetTimerInfo box) Hs) as Hi.
  unfold skipped_by_ignore in Hi. unfold GetTimerInfo in Hi.
  assert (Hy : forall base d,
             ThreadTrack.GetYFromDepth env
               (UpdateDepth (u32 (depth (tb_timer_info box) + 1))
                            (loop_depth_ st2)) base d
               (ThreadTrack.collapse_toggle_IsCollapsed tr)
             = ThreadTrack.GetYFromDepth env
                 (UpdateDepth (u32 (depth (tb_timer_info box) + 1))
                              (loop_depth_ st)) base d
                 (ThreadTrack.collapse_toggle_IsCollapsed tr)).
  { intros base d. destruct Hd as [-> | ->]; reflexivity. }
  unfold ThreadTrack.process_box, ThreadTrack.SetTimesliceText. cbv zeta.
  box_simpl.
  set (ti := tb_timer_info box) in *.
  destruct ((min_tick >? end_ ti) || (max_tick <? start ti)) eqn:Ev.
  { cbv beta iota. box_simpl. fold ti. rewrite Ev.
    split; [ reflexivity | ]. split; [ left; reflexivity | ].
    eexists _, _. split; [ reflexivity | ]. split; [ exact Hs | ].
    intros E; exact E. }
  destruct ((start ti >=? min_ignore st) && (end_ ti <=? max_ignore st)) eqn:Ei.
  { cbv beta iota. box_simpl. fold ti. rewrite Ev, Hi.
    split; [ reflexivity | ]. split; [ left; reflexivity | ].
    eexists _, _. split; [ reflexivity | ]. split; [ exact Hs | ].
    intros E; exact E. }
  destruct Hs as [Hs1 Hs2].
  destruct (F64.gtb _ _) eqn:Ew.
  - destruct (negb (ThreadTrack.is_collapsed fr)) eqn:Ec.
    + destruct (is_empty (tb_text box)) eqn:Et.
      * destruct (GSelectedFunctionsMap env (function_address ti)) eqn:Ef.
        -- replay_finish ti Hy.
        -- destruct (TimerType_eqb (type ti) kIntrospection) eqn:Ety;
             replay_finish ti Hy.
      * replay_finish ti Hy.
    + replay_finish ti Hy.
  - destruct (negb (_ =? 0)) eqn:Ep; replay_finish ti Hy.
Qed.

Lemma block_timestamps_by_timer_info (b b' : TimerBlock) :
  map GetTimerInfo b' = map GetTimerInfo b ->
  forall lo hi,
    fold_left (fun m x => Z.min (start (GetTimerInfo x)) m) b' lo
    = fold_left (fun m x => Z.min (start (GetTimerInfo x)) m) b lo
    /\ fold_left (fun m x => Z.max (end_ (GetTimerInfo x)) m) b' hi
       = fold_left (fun m x => Z.max (end_ (GetTimerInfo x)) m) b hi.
Proof.
  revert b'. induction b as [|x xs IH]; intros [|x' xs'] H lo hi;
    try discriminate H.
  - split; reflexivity.
  - cbn [map] in H. injection H as Hx Hxs. cbn [fold_left]. rewrite Hx.
    apply IH. exact Hxs.
Qed.

Lemma Intersects_by_timer_info (b b' : TimerBlock) (lo hi : Z) :
  map GetTimerInfo b' = map GetTimerInfo b ->
  Intersects b' lo hi = Intersects b lo hi.
Proof.
  intros H. unfold Intersects, block_min_timestamp, block_max_timestamp.
  destruct (block_timestamps_by_timer_info b b' H UINT64_MAX UINT64_MIN)
    as [-> ->].
  reflexivity.
Qed.

Section Replay.
Variables min_tick max_tick : Z.
Variables body body2 :
  LoopState -> BoxRef -> TextBox ->
  result (LoopState * TextBox * list DrawCall).
Variable related : LoopState -> LoopState -> Prop.
Variable good : TextBox -> Prop.

Hypothesis related_reset :
  forall st2 st, related st2 st -> related (reset_ignore st2) (reset_ignore st).

Hypothesis body_replay :
  forall st st2 ref box,
    good box ->
    related st2 st ->
    match body st ref box with
    | Ok (st', box', out) =>
        GetTimerInfo box' = GetTimerInfo box
        /\ exists st2' box'',
            body2 st2 ref box' = Ok (st2', box'', out)
            /\ related st2' st'
    | _ => True
    end.

Lemma scan_block_replay key bi :
  forall boxes k st st2 st' boxes' out,
    (forall box, In box boxes -> good box) ->
    related st2 st ->
    scan_block body key bi k st boxes = Ok (st', boxes', out) ->
    map GetTimerInfo boxes' = map GetTimerInfo boxes
    /\ exists st2' boxes'',
        scan_block body2 key bi k st2 boxes' = Ok (st2', boxes'', out)
        /\ related st2' st'.
Proof.
  induction boxes as [|b rest IH]; cbn [scan_block];
    intros k st st2 st' boxes' out Hg Hs H.
  - injection H as <- <- <-. split; [ reflexivity | ].
    exists st2, []. split; [ reflexivity | exact Hs ].
  - pose proof (body_replay st st2 (key, bi, k) b
                  (Hg b (or_introl eq_refl)) Hs) as R.
    split_bind H. split_bind H. injection H as <- <- <-.
    destruct R as (Hti & st2a & b2 & Hb & Hsa).
    destruct (IH _ _ _ _ _ _ (fun x Hx => Hg x (or_intror Hx)) Hsa E0)
      as (Hm & st2b & rest2 & Hr & Hsb).
    split; [ cbn [map]; rewrite Hti, Hm; reflexivity | ].
    exists st2b, (b2 :: rest2). cbn [scan_block]. rewrite Hb. cbn [bind].
    rewrite Hr. cbn [bind]. split; [ reflexivity | exact Hsb ].
Qed.

Lemma scan_chain_replay key :
  forall blocks bi st st2 st' blocks' out,
    (forall box, In box (chain_boxes blocks) -> good box) ->
    related st2 st ->
    scan_chain min_tick max_tick body key bi st blocks
    = Ok (st', blocks', out) ->
    exists st2' blocks'',
      scan_chain min_tick max_tick body2 key bi st2 blocks'
      = Ok (st2', blocks'', out)
      /\ related st2' st'.
Proof.
  unfold chain_boxes.
  induction blocks as [|b rest IH]; cbn [scan_chain List.concat];
    intros bi st st2 st' blocks' out Hg Hs H.
  - injection H as <- <- <-. exists st2, [].
    split; [ reflexivity | exact Hs ].
  - assert (Hrest : forall box, In box (List.concat rest) -> good box).
    { intros x Hx. apply Hg. apply in_or_app. right. exact Hx. }
    destruct (negb (Intersects b min_tick max_tick)) eqn:Ex.
    + split_bind H. injection H as <- <- <-.
      destruct (IH _ _ _ _ _ _ Hrest Hs E) as (st2b & rest2 & Hr & Hsb).
      exists st2b, (b :: rest2). cbn [scan_chain]. rewrite Ex, Hr.
      cbn [bind]. split; [ reflexivity | exact Hsb ].
    + split_bind H. split_bind H. injection H as <- <- <-.
      destruct (scan_block_replay key bi b 0%nat _ _ _ _ _
                  (fun x Hx => Hg x (in_or_app _ _ _ (or_introl Hx)))
                  (related_reset _ _ Hs) E)
        as (Hm & st2a & b2 & Hb & Hsa).
      destruct (IH _ _ _ _ _ _ Hrest Hsa E0) as (st2b & rest2 & Hr & Hsb).
      exists st2b, (b2 :: rest2). cbn [scan_chain].
      rewrite (Intersects_by_timer_info b l0 min_tick max_tick Hm), Ex, Hb.
      cbn [bind]. rewrite Hr. cbn [bind].
      split; [ reflexivity | exact Hsb ].
Qed.

Lemma scan_chains_replay :
  forall m st st2 st' m' out,
    (forall box, In box (map_boxes m) -> good box) ->
    related st2 st ->
    scan_chains min_tick max_tick body st m = Ok (st', m', out) ->
    exists st2' m'',
      scan_chains min_tick max_tick body2 st2 m' = Ok (st2', m'', out)
      /\ related st2' st'.
Proof.
  unfold map_boxes.
  induction m as [|[key [chain|]] rest IH]; cbn [scan_chains flat_map snd];
    intros st st2 st' m' out Hg Hs H.
  - injection H as <- <- <-. exists st2, [].
    split; [ reflexivity | exact Hs ].
  - split_bind H. split_bind H. injection H as <- <- <-.
    destruct (scan_chain_replay key chain 0%nat _ _ _ _ _
                (fun x Hx => Hg x (in_or_app _ _ _ (or_introl Hx))) Hs E)
      as (st2a & c2 & Hc & Hsa).
    destruct (IH _ _ _ _ _
                (fun x Hx => Hg x (in_or_app _ _ _ (or_intror Hx))) Hsa E0)
      as (st2b & rest2 & Hr & Hsb).
    exists st2b, ((key, Some c2) :: rest2). cbn [scan_chains].
    rewrite Hc. cbn [bind]. rewrite Hr. cbn [bind].
    split; [ reflexivity | exact Hsb ].
  - split_bind H. injection H as <- <- <-.
    destruct (IH _ _ _ _ _ Hg Hs E) as (st2b & rest2 & Hr & Hsb).
    exists st2b, ((key, None) :: rest2). cbn [scan_chains].
    rewrite Hr. cbn [bind]. split; [ reflexivity | exact Hsb ].
Qed.

End Replay.

Lemma same_ignore_reset (st2 st : LoopState) :
  same_ignore st2 st -> same_ignore (reset_ignore st2) (reset_ignore st).
Proof. intros _. split; reflexivity. Qed.

(** Two successive calls on a GPU track, with the same window and the same
    collaborators, emit the same calls: its geometry never reads
    [depth_]. *)
Lemma GpuTrack_UpdatePrimitives_twice_same env tr min_tick max_tick tr1 out1 :
  GpuTrack.UpdatePrimitives env tr min_tick max_tick = Ok (tr1, out1) ->
  exists tr2,
    GpuTrack.UpdatePrimitives env tr1 min_tick max_tick = Ok (tr2, out1).
Proof.
  unfold GpuTrack.UpdatePrimitives.
  destruct (u64 (getWidth env) =? 0); [ discriminate | ].
  cbv zeta. intros H. split_bind H. injection H as <- <-.
  cbn [GpuTrack.depth_ GpuTrack.timers_].
  destruct (scan_chains_replay min_tick max_tick
              (GpuTrack.process_box env tr (GpuTrack.head_frame env tr)
                                    min_tick max_tick)
              (GpuTrack.process_box env tr (GpuTrack.head_frame env tr)
                                    min_tick max_tick)
              same_ignore (fun _ => True) same_ignore_reset
              (fun st st2 ref box _ Hs =>
                 GpuTrack_process_box_replay env tr _ min_tick max_tick
                                             st st2 ref box Hs)
              (GpuTrack.timers_ tr)
              (mkLoopState UINT64_MAX UINT64_MIN (GpuTrack.depth_ tr))
              (mkLoopState UINT64_MAX UINT64_MIN (loop_depth_ l))
              _ _ _ (fun _ _ => I) (conj eq_refl eq_refl) E)
    as (st2 & m2 & Hr & _).
  change (GpuTrack.process_box env
            (GpuTrack.mk (GpuTrack.m_Pos tr)
               (GpuTrack.collapse_toggle_IsCollapsed tr) (loop_depth_ l)
               (GpuTrack.timeline_hash_ tr) t (GpuTrack.num_timers_ tr)
               (GpuTrack.min_time_ tr) (GpuTrack.max_time_ tr))
            (GpuTrack.head_frame env
               (GpuTrack.mk (GpuTrack.m_Pos tr)
                  (GpuTrack.collapse_toggle_IsCollapsed tr) (loop_depth_ l)
                  (GpuTrack.timeline_hash_ tr) t (GpuTrack.num_timers_ tr)
                  (GpuTrack.min_time_ tr) (GpuTrack.max_time_ tr)))
            min_tick max_tick)
    with (GpuTrack.process_box env tr (GpuTrack.head_frame env tr)
                               min_tick max_tick).
  rewrite Hr. cbn [bind]. eexists. reflexivity.
Qed.

Lemma ThreadTrack_replay_expanded env tr fr min_tick max_tick :
  ThreadTrack.collapse_toggle_IsCollapsed tr = false ->
  forall st st2 ref box,
    True ->
    same_ignore st2 st ->
    match ThreadTrack.process_box env tr fr min_tick max_tick st ref box with
    | Ok (st', box', out) =>
        GetTimerInfo box' = GetTimerInfo box
        /\ exists st2' box'',
            ThreadTrack.process_box env tr fr min_tick max_tick st2 ref box'
            = Ok (st2', box'', out)
            /\ same_ignore st2' st'
    | _ => True
    end.
Proof.
  intros Hexp st st2 ref box _ Hs.
  pose proof (ThreadTrack_process_box_replay env tr fr min_tick max_tick
                st st2 ref box Hs (or_introl Hexp)) as R.
  destruct (ThreadTrack.process_box env tr fr min_tick max_tick st ref box)
    as [[[st' box'] out]| |]; try exact I.
  destruct R as (A & _ & st2' & box'' & B & C & _).
  split; [ exact A | ]. exists st2', box''. split; assumption.
Qed.

Lemma ThreadTrack_replay_covered env tr fr min_tick max_tick (d : Z) :
  forall st st2 ref box,
    u32 (depth (GetTimerInfo box) + 1) <= d ->
    same_state_at d st2 st ->
    match ThreadTrack.process_box env tr fr min_tick max_tick st ref box with
    | Ok (st', box', out) =>
        GetTimerInfo box' = GetTimerInfo box
        /\ exists st2' box'',
            ThreadTrack.process_box env tr fr min_tick max_tick st2 ref box'
            = Ok (st2', box'', out)
            /\ same_state_at d st2' st'
    | _ => True
    end.
Proof.
  intros st st2 ref box Hcov (Hs & H2 & Hd).
  pose proof (ThreadTrack_process_box_replay env tr fr min_tick max_tick
                st st2 ref box Hs (or_intror H2)) as R.
  destruct (ThreadTrack.process_box env tr fr min_tick max_tick st ref box)
    as [[[st' box'] out]| |]; try exact I.
  destruct R as (A & Hd' & st2' & box'' & B & C & D).
  split; [ exact A | ]. exists st2', box''. split; [ exact B | ].
  split; [ exact C | ]. split; [ exact (D H2) | ].
  destruct Hd' as [-> | ->]; [ exact Hd | ].
  rewrite Hd. unfold UpdateDepth.
  destruct (Z.gtb_spec (u32 (depth (GetTimerInfo box) + 1)) d); lia.
Qed.

Lemma same_state_at_reset (d : Z) (st2 st : LoopState) :
  same_state_at d st2 st ->
  same_state_at d (reset_ignore st2) (reset_ignore st).
Proof.
  intros (_ & A & B). split; [ split; reflexivity | ]. split; assumption.
Qed.

(** The same holds on a thread track that is expanded, and on a collapsed
    one whose [depth_] already covers every stored record (which is what
    [OnTimer] ensures for timers other than core activity): then the scan
    does not move [depth_]. *)
Lemma ThreadTrack_draw_timers_twice_same env tr min_tick max_tick tr1
      out1 :
  ThreadTrack.collapse_toggle_IsCollapsed tr = false
  \/ depth_covers (ThreadTrack.depth_ tr) (ThreadTrack.timers_ tr) ->
  ThreadTrack.draw_timers env tr min_tick max_tick = Ok (tr1, out1) ->
  exists tr2,
    ThreadTrack.draw_timers env tr1 min_tick max_tick = Ok (tr2, out1).
Proof.
  intros Hcase. unfold ThreadTrack.draw_timers.
  destruct (u64 (getWidth env) =? 0); [ discriminate | ].
  cbv zeta. intros H. split_bind H. injection H as <- <-.
  cbn [ThreadTrack.depth_ ThreadTrack.timers_].
  destruct Hcase as [Hexp | Hcov].
  - (* expanded: the row height is the text box height in both calls *)
    destruct (scan_chains_replay min_tick max_tick
                (ThreadTrack.process_box env tr
                   (ThreadTrack.head_frame env tr) min_tick max_tick)
                (ThreadTrack.process_box env tr
                   (ThreadTrack.head_frame env tr) min_tick max_tick)
                same_ignore (fun _ => True) same_ignore_reset
                (ThreadTrack_replay_expanded env tr _ min_tick max_tick Hexp)
                (ThreadTrack.timers_ tr)
                (mkLoopState UINT64_MAX UINT64_MIN (ThreadTrack.depth_ tr))
                (mkLoopState UINT64_MAX UINT64_MIN (loop_depth_ l))
                _ _ _ (fun _ _ => I) (conj eq_refl eq_refl) E)
      as (st2 & m2 & Hr & _).
    match goal with
    | |- context [ThreadTrack.head_frame env ?tr1] =>
        assert (Hfr : ThreadTrack.head_frame env tr1
                      = ThreadTrack.head_frame env tr)
          by (unfold ThreadTrack.head_frame;
              cbn [ThreadTrack.collapse_toggle_IsCollapsed ThreadTrack.depth_];
              rewrite Hexp; reflexivity);
        rewrite Hfr;
        change (ThreadTrack.process_box env tr1)
          with (ThreadTrack.process_box env tr)
    end.
    rewrite Hr. cbn [bind]. eexists. reflexivity.
  - (* covered: [depth_] is the same before and after the first call *)
    destruct (scan_chains_replay min_tick max_tick
                (ThreadTrack.process_box env tr
                   (ThreadTrack.head_frame env tr) min_tick max_tick)
                (ThreadTrack.process_box env tr
                   (ThreadTrack.head_frame env tr) min_tick max_tick)
                (same_state_at (ThreadTrack.depth_ tr))
                (fun box => u32 (depth (GetTimerInfo box) + 1)
                            <= ThreadTrack.depth_ tr)
                (same_state_at_reset _)
                (ThreadTrack_replay_covered env tr _ min_tick max_tick _)
                (ThreadTrack.timers_ tr)
                (mkLoopState UINT64_MAX UINT64_MIN (ThreadTrack.depth_ tr))
                (mkLoopState UINT64_MAX UINT64_MIN (ThreadTrack.depth_ tr))
                _ _ _ Hcov
                (conj (conj eq_refl eq_refl) (conj eq_refl eq_refl)) E)
      as (st2 & m2 & Hr & (_ & _ & Hd)).
    rewrite Hd.
    match goal with
    | |- context [ThreadTrack.head_frame env ?tr1] =>
        change (ThreadTrack.head_frame env tr1)
          with (ThreadTrack.head_frame env tr);
        change (ThreadTrack.process_box env tr1)
          with (ThreadTrack.process_box env tr)
    end.
    rewrite Hr. cbn [bind]. eexists. reflexivity.
Qed.

Lemma ThreadTrack_draw_timers_pos env tr min_tick max_tick tr' out :
  ThreadTrack.draw_timers env tr min_tick max_tick = Ok (tr', out) ->
  ThreadTrack.m_Pos tr' = ThreadTrack.m_Pos tr.
Proof.
  unfold ThreadTrack.draw_timers.
  destruct (u64 (getWidth env) =? 0); [ discriminate | ].
  cbv zeta. intros H. split_bind H. injection H as <- _.
  reflexivity.
Qed.

(** The same for the whole frame of a thread track: the second frame calls
    the event track at the same position with the same tick range. *)
Lemma ThreadTrack_UpdatePrimitives_twice_same env tr min_tick max_tick tr1
      out1 :
  ThreadTrack.collapse_toggle_IsCollapsed tr = false
  \/ depth_covers (ThreadTrack.depth_ tr) (ThreadTrack.timers_ tr) ->
  ThreadTrack.UpdatePrimitives env tr min_tick max_tick = Ok (tr1, out1) ->
  exists tr2,
    ThreadTrack.UpdatePrimitives env tr1 min_tick max_tick = Ok (tr2, out1).
Proof.
  intros Hcase H.
  apply ThreadTrack_UpdatePrimitives_split in H.
  destruct H as (ev & outs & Hev & H & ->).
  destruct (ThreadTrack_draw_timers_twice_same env tr min_tick max_tick
              tr1 outs Hcase H) as (tr2 & H2).
  exists tr2. apply ThreadTrack_UpdatePrimitives_split.
  exists ev, outs. split; [ | split; [ exact H2 | reflexivity ] ].
  rewrite (ThreadTrack_draw_timers_pos _ _ _ _ _ _ H). exact Hev.
Qed.

(** C8 (what the code does where the claim fails).  On the collapsed
    thread track [core_track] -- core-activity timers at depths 0, 1 and 3,
    [depth_ = 2] from the frame drawn before the last insertion -- two
    successive calls with the same window and viewport, and nothing in
    between, emit different primitives: the first call computes the row
    height [20 / 2] from the stale [depth_] and raises [depth_] to 4 while
    scanning, the second call computes [20 / 4]. *)
Theorem ThreadTrack_UpdatePrimitives_twice_differs :
  let tr1 := draw_frame sample_env core_track 0 100000 in
  let out1 := frame_output sample_env core_track 0 100000 in
  let tr2 := draw_frame sample_env tr1 0 100000 in
  let out2 := frame_output sample_env tr1 0 100000 in
  ThreadTrack.UpdatePrimitives sample_env core_track 0 100000
  = Ok (tr1, out1)
  /\ ThreadTrack.UpdatePrimitives sample_env tr1 0 100000 = Ok (tr2, out2)
  /\ ThreadTrack.collapse_toggle_IsCollapsed core_track = true
  /\ ThreadTrack.collapse_toggle_IsCollapsed tr1 = true
  /\ ThreadTrack.num_timers_ tr1 = ThreadTrack.num_timers_ core_track
  /\ ThreadTrack.depth_ core_track = 2
  /\ ThreadTrack.depth_ tr1 = 4
  /\ List.length (primitives out1) = 3%nat
  /\ List.length (primitives out2) = 3%nat
  /\ map call_user_data out1 = map call_user_data out2
  /\ map call_y out1
     = [Some (F32.of_Z 475); Some (F32.of_Z 465); Some (F32.of_Z 465)]
  /\ map call_y out2
     = [Some (F32.of_Z 480); Some (F32.of_Z 475); Some (F32.of_Z 465)]
  /\ out1 <> out2.
Proof.
  cbv zeta.
  repeat match goal with
         | |- _ /\ _ => split
         | |- _ = _ => vm_compute; reflexivity
         end.
  vm_compute. discriminate.
Qed.

(* ================================================================= *)
(** * Further properties of the two tracks *)

(* ----------------------------------------------------------------- *)
(** ** Track labels *)

Lemma string_length_append (a b : string) :
  String.length (a ++ b) = (String.length a + String.length b)%nat.
Proof. induction a as [|c a IH]; cbn; [ reflexivity | rewrite IH; reflexivity ]. Qed.

Lemma wrapped_differs (head timeline : string) :
  head <> EmptyString ->
  (head ++ timeline ++ ")")%string <> timeline.
Proof.
  intros Hh E. apply (f_equal String.length) in E.
  rewrite !string_length_append in E. destruct head; [ congruence | ].
  cbn in E. lia.
Qed.

(** X1. The label of a GPU timeline is the timeline name wrapped as
    ["Graphics queue (..)"], ["Transfer queue (..)"] or
    ["Compute queue (..)"] when the name starts with [gfx], [sdma] or
    [comp], so it always ends with the name followed by [")"]; for any
    other name the label is the name itself, and only then. *)
Theorem MapGpuTimelineToTrackLabel_wraps_known_prefixes (timeline : string) :
  let label := OrbitGl.MapGpuTimelineToTrackLabel timeline in
  (prefix "gfx" timeline = true ->
   label = ("Graphics queue (" ++ timeline ++ ")")%string)
  /\ (prefix "sdma" timeline = true ->
      label = ("Transfer queue (" ++ timeline ++ ")")%string)
  /\ (prefix "comp" timeline = true ->
      label = ("Compute queue (" ++ timeline ++ ")")%string)
  /\ (label = timeline
      <-> prefix "gfx" timeline = false
          /\ prefix "sdma" timeline = false
          /\ prefix "comp" timeline = false).
Proof.
  cbv zeta. unfold OrbitGl.MapGpuTimelineToTrackLabel.
  assert (excl1 : prefix "gfx" timeline = true ->
                  prefix "sdma" timeline = false
                  /\ prefix "comp" timeline = false).
  { destruct timeline as [|[[] [] [] [] [] [] [] []] s]; cbn;
      try discriminate; intros _; split; reflexivity. }
  assert (excl2 : prefix "sdma" timeline = true ->
                  prefix "comp" timeline = false).
  { destruct timeline as [|[[] [] [] [] [] [] [] []] s]; cbn;
      try discriminate; intros _; reflexivity. }
  destruct (prefix "gfx" timeline) eqn:G.
  - destruct (excl1 eq_refl) as [-> ->].
    split; [ reflexivity | ]. split; [ discriminate | ].
    split; [ discriminate | ]. split.
    + intros E. apply wrapped_differs in E; [ contradiction | discriminate ].
    + intros [? _]. discriminate.
  - destruct (prefix "sdma" timeline) eqn:S.
    + rewrite (excl2 eq_refl).
      split; [ discriminate | ]. split; [ reflexivity | ].
      split; [ discriminate | ]. split.
      * intros E. apply wrapped_differs in E; [ contradiction | discriminate ].
      * intros (_ & ? & _). discriminate.
    + destruct (prefix "comp" timeline) eqn:C.
      * split; [ discriminate | ]. split; [ discriminate | ].
        split; [ reflexivity | ]. split.
        -- intros E. apply wrapped_differs in E;
             [ contradiction | discriminate ].
        -- intros (_ & _ & ?). discriminate.
      * split; [ discriminate | ]. split; [ discriminate | ].
        split; [ discriminate | ]. split; [ intros _ | reflexivity ].
        repeat split.
Qed.

Lemma MapGpuTimelineToTrackLabel_wraps_known_prefixes_witness :
  prefix "gfx" "gfx_0.0.0" = true
  /\ OrbitGl.MapGpuTimelineToTrackLabel "gfx_0.0.0"
     = "Graphics queue (gfx_0.0.0)"%string
  /\ OrbitGl.MapGpuTimelineToTrackLabel "vce0" = "vce0"%string.
Proof.
  split; [ reflexivity | ]. split.
  - exact (proj1 (MapGpuTimelineToTrackLabel_wraps_known_prefixes "gfx_0.0.0")
                 eq_refl).
  - apply (proj2 (proj2 (proj2
             (MapGpuTimelineToTrackLabel_wraps_known_prefixes "vce0")))).
    repeat split.
Defined.

(* ----------------------------------------------------------------- *)
(** ** The timer store: insertion and lookup *)

Lemma map_index_set_same (k : Z) (v : option TimerChain) (m : TimerMap) :
  map_index k (map_set k v m) = v.
Proof.
  unfold map_index.
  induction m as [|[k' v'] rest IH]; cbn [map_set map_find].
  - rewrite Z.eqb_refl. reflexivity.
  - destruct (Z.ltb_spec k k').
    + cbn [map_find]. rewrite Z.eqb_refl. reflexivity.
    + destruct (Z.eqb_spec k k') as [-> | Hne]; cbn [map_find].
      * rewrite Z.eqb_refl. reflexivity.
      * destruct (Z.eqb_spec k k'); [ contradiction | exact IH ].
Qed.

Lemma map_index_set_other (k k0 : Z) (v : option TimerChain) (m : TimerMap) :
  k0 <> k -> map_index k0 (map_set k v m) = map_index k0 m.
Proof.
  intros Hne. unfold map_index.
  induction m as [|[k' v'] rest IH]; cbn [map_set map_find].
  - destruct (Z.eqb_spec k0 k); [ contradiction | reflexivity ].
  - destruct (Z.ltb_spec k k').
    + cbn [map_find]. destruct (Z.eqb_spec k0 k); [ contradiction | ].
      reflexivity.
    + destruct (Z.eqb_spec k k') as [-> | Hne']; cbn [map_find].
      * destruct (Z.eqb_spec k0 k'); [ contradiction | reflexivity ].
      * destruct (Z.eqb_spec k0 k'); [ reflexivity | exact IH ].
Qed.

Lemma chain_boxes_push_back (n : nat) (c : TimerChain) (x : TextBox) :
  chain_boxes (push_back n c x) = chain_boxes c ++ [x].
Proof.
  unfold chain_boxes.
  induction c as [|b rest IH]; [ reflexivity | ].
  destruct rest as [|b' rest'].
  - cbn [push_back]. destruct (Nat.ltb (List.length b) n); cbn [List.concat].
    + rewrite !app_nil_r. reflexivity.
    + rewrite !app_nil_r. reflexivity.
  - change (push_back n (b :: b' :: rest') x)
      with (b :: push_back n (b' :: rest') x).
    cbn [List.concat] in *. rewrite IH. rewrite app_assoc. reflexivity.
Qed.

Lemma map_find_below (k : Z) (m : TimerMap) :
  Forall (Z.lt k) (map fst m) -> map_find k m = None.
Proof.
  induction m as [|[k' v'] rest IH]; cbn [map_find map fst]; intros H.
  - reflexivity.
  - apply Forall_cons_iff in H. destruct H as [Hk Hrest].
    destruct (Z.eqb_spec k k'); [ lia | exact (IH Hrest) ].
Qed.

Lemma map_set_keys (k : Z) (v : option TimerChain) (m : TimerMap) :
  forall k0, In k0 (map fst (map_set k v m)) <-> k0 = k \/ In k0 (map fst m).
Proof.
  induction m as [|[k' v'] rest IH]; intros k0; cbn [map_set map fst In].
  - intuition.
  - destruct (Z.ltb_spec k k'); [ cbn [map fst In]; intuition | ].
    destruct (Z.eqb_spec k k') as [-> | Hne]; cbn [map fst In].
    + intuition.
    + rewrite IH. intuition.
Qed.

Lemma map_set_keys_increasing (k : Z) (v : option TimerChain) (m : TimerMap) :
  keys_increasing m -> keys_increasing (map_set k v m).
Proof.
  unfold keys_increasing.
  induction m as [|[k' v'] rest IH]; cbn [map_set map fst]; intros Hs.
  - repeat constructor.
  - apply StronglySorted_inv in Hs. destruct Hs as [Hs Hall].
    destruct (Z.ltb_spec k k') as [Hlt | Hge].
    + cbn [map fst]. constructor.
      * constructor; assumption.
      * constructor; [ exact Hlt | ].
        eapply Forall_impl; [ | exact Hall ]. intros a Ha. cbn in Ha. lia.
    + destruct (Z.eqb_spec k k') as [-> | Hne]; cbn [map fst].
      * constructor; assumption.
      * constructor; [ exact (IH Hs) | ].
        apply Forall_forall. intros a Ha. apply map_set_keys in Ha.
        destruct Ha as [-> | Ha]; [ lia | ].
        rewrite Forall_forall in Hall. exact (Hall a Ha).
Qed.

Lemma map_set_no_null (k : Z) (c : TimerChain) (m : TimerMap) :
  no_null_chain m -> no_null_chain (map_set k (Some c) m).
Proof.
  unfold no_null_chain.
  induction m as [|[k' v'] rest IH]; cbn [map_set]; intros Hn k0 v Hin.
  - destruct Hin as [[= <- <-] | []]. discriminate.
  - destruct (Z.ltb_spec k k').
    + destruct Hin as [[= <- <-] | Hin]; [ discriminate | ].
      exact (Hn k0 v Hin).
    + destruct (Z.eqb_spec k k') as [-> | Hne].
      * destruct Hin as [[= <- <-] | Hin]; [ discriminate | ].
        apply (Hn k0 v). right. exact Hin.
      * destruct Hin as [[= <- <-] | Hin].
        -- apply (Hn k' v'). left. reflexivity.
        -- apply (IH (fun a b H => Hn a b (or_intror H)) k0 v Hin).
Qed.

(** Replacing the bucket of key [k] by the old bucket followed by [x] adds
    exactly [x] to the stored records. *)
Lemma map_boxes_insert (n : nat) (k : Z) (x : TextBox) (m : TimerMap) :
  keys_increasing m ->
  Permutation
    (map_boxes
       (map_set k (Some (push_back n
                           (match map_index k m with
                            | Some chain => chain
                            | None => []
                            end) x)) m))
    (x :: map_boxes m).
Proof.
  unfold keys_increasing, map_boxes, map_index.
  induction m as [|[k' v'] rest IH]; cbn [map_set map_find map fst]; intros Hs.
  - cbn. apply Permutation_refl.
  - apply StronglySorted_inv in Hs. destruct Hs as [Hs Hall].
    destruct (Z.ltb_spec k k') as [Hlt | Hge].
    + destruct (Z.eqb_spec k k'); [ lia | ].
      rewrite map_find_below.
      2:{ eapply Forall_impl; [ | exact Hall ]. intros a Ha. cbn in Ha. lia. }
      cbn [flat_map snd]. rewrite chain_boxes_push_back. cbn.
      apply Permutation_refl.
    + destruct (Z.eqb_spec k k') as [-> | Hne].
      * cbn [flat_map snd]. rewrite chain_boxes_push_back.
        destruct v' as [c|]; cbn [chain_boxes List.concat app].
        -- rewrite <- app_assoc. apply Permutation_sym.
           apply Permutation_middle.
        -- unfold chain_boxes. cbn. apply Permutation_refl.
      * cbn [flat_map snd].
        eapply Permutation_trans;
          [ apply Permutation_app_head; exact (IH Hs) | ].
        apply Permutation_sym. apply Permutation_middle.
Qed.

(** X2. [OnTimer] appends: afterwards the bucket of the record's depth
    holds its former records followed by the new text box, and the bucket
    of every other depth is the same object as before.  Both tracks. *)
Theorem OnTimer_appends_to_own_bucket (kBlockSize : nat) (r : TimerInfo) :
  (forall (tr : GpuTrack.t) (d : Z),
      let tr' := GpuTrack.OnTimer kBlockSize tr r in
      bucket_boxes (GpuTrack.GetTimers_at tr' (depth r))
      = bucket_boxes (GpuTrack.GetTimers_at tr (depth r))
        ++ [fresh_text_box r]
      /\ (to_int d <> to_int (depth r) ->
          GpuTrack.GetTimers_at tr' d = GpuTrack.GetTimers_at tr d))
  /\
  (forall (tr : ThreadTrack.t) (d : Z),
      let tr' := ThreadTrack.OnTimer kBlockSize tr r in
      bucket_boxes (ThreadTrack.GetTimers_at tr' (depth r))
      = bucket_boxes (ThreadTrack.GetTimers_at tr (depth r))
        ++ [fresh_text_box r]
      /\ (to_int d <> to_int (depth r) ->
          ThreadTrack.GetTimers_at tr' d = ThreadTrack.GetTimers_at tr d)).
Proof.
  split; intros tr d; cbv zeta.
  - unfold GpuTrack.GetTimers_at, GpuTrack.OnTimer. cbn [GpuTrack.timers_].
    split.
    + rewrite map_index_set_same. cbn [bucket_boxes].
      rewrite chain_boxes_push_back.
      destruct (map_index (to_int (depth r)) (GpuTrack.timers_ tr));
        reflexivity.
    + intros Hne. apply map_index_set_other. exact Hne.
  - unfold ThreadTrack.GetTimers_at, ThreadTrack.OnTimer.
    cbn [ThreadTrack.timers_]. split.
    + rewrite map_index_set_same. cbn [bucket_boxes].
      rewrite chain_boxes_push_back.
      destruct (map_index (to_int (depth r)) (ThreadTrack.timers_ tr));
        reflexivity.
    + intros Hne. apply map_index_set_other. exact Hne.
Qed.

Lemma OnTimer_appends_to_own_bucket_witness :
  to_int 0 <> to_int 1
  /\ bucket_boxes (GpuTrack.GetTimers_at gpu_two 1) = [sub_pixel_box]
  /\ GpuTrack.GetTimers_at gpu_two 0
     = Some [[fresh_text_box (sample_timer 0 50000 0 3 kGpuActivity)]].
Proof.
  assert (Hne : to_int 0 <> to_int 1) by (vm_compute; discriminate).
  split; [ exact Hne | ].
  pose proof (proj1 (OnTimer_appends_to_own_bucket 1024
                       (sample_timer 10000 10001 1 1 kGpuActivity))
                (GpuTrack.OnTimer 1024
                   (GpuTrack.GpuTrack (F32.of_Z 0, F32.of_Z 500) 99)
                   (sample_timer 0 50000 0 3 kGpuActivity)) 0) as [A B].
  split; [ exact A | ]. exact (B Hne).
Defined.

Lemma GpuTrack_OnTimer_store_invariant (n : nat) (tr : GpuTrack.t)
      (r : TimerInfo) :
  keys_increasing (GpuTrack.timers_ tr) ->
  no_null_chain (GpuTrack.timers_ tr) ->
  keys_increasing (GpuTrack.timers_ (GpuTrack.OnTimer n tr r))
  /\ no_null_chain (GpuTrack.timers_ (GpuTrack.OnTimer n tr r))
  /\ Permutation (map_boxes (GpuTrack.timers_ (GpuTrack.OnTimer n tr r)))
                 (fresh_text_box r :: map_boxes (GpuTrack.timers_ tr)).
Proof.
  intros Hk Hn. unfold GpuTrack.OnTimer. cbn [GpuTrack.timers_].
  split; [ apply map_set_keys_increasing; exact Hk | ].
  split; [ apply map_set_no_null; exact Hn | ].
  apply map_boxes_insert. exact Hk.
Qed.

Lemma ThreadTrack_OnTimer_store_invariant (n : nat) (tr : ThreadTrack.t)
      (r : TimerInfo) :
  keys_increasing (ThreadTrack.timers_ tr) ->
  no_null_chain (ThreadTrack.timers_ tr) ->
  keys_increasing (ThreadTrack.timers_ (ThreadTrack.OnTimer n tr r))
  /\ no_null_chain (ThreadTrack.timers_ (ThreadTrack.OnTimer n tr r))
  /\ Permutation
       (map_boxes (ThreadTrack.timers_ (ThreadTrack.OnTimer n tr r)))
       (fresh_text_box r :: map_boxes (ThreadTrack.timers_ tr)).
Proof.
  intros Hk Hn. unfold ThreadTrack.OnTimer. cbn [ThreadTrack.timers_].
  split; [ apply map_set_keys_increasing; exact Hk | ].
  split; [ apply map_set_no_null; exact Hn | ].
  apply map_boxes_insert. exact Hk.
Qed.

(** An invariant kept by a step is kept by a sequence of steps. *)
Lemma fold_left_invariant {T A : Type} (step : T -> A -> T) (P : T -> Prop) :
  (forall t a, P t -> P (step t a)) ->
  forall l t, P t -> P (fold_left step l t).
Proof.
  intros Hstep. induction l as [|a l IH]; intros t Ht; cbn [fold_left].
  - exact Ht.
  - apply IH. apply Hstep. exact Ht.
Qed.

Lemma GpuTrack_fold_store (n : nat) (l : list TimerInfo) :
  forall tr,
    keys_increasing (GpuTrack.timers_ tr) ->
    no_null_chain (GpuTrack.timers_ tr) ->
    let tr' := fold_left (GpuTrack.OnTimer n) l tr in
    keys_increasing (GpuTrack.timers_ tr')
    /\ no_null_chain (GpuTrack.timers_ tr')
    /\ Permutation (map_boxes (GpuTrack.timers_ tr'))
                   (map fresh_text_box l ++ map_boxes (GpuTrack.timers_ tr)).
Proof.
  induction l as [|x xs IH]; intros tr Hk Hn; cbn [fold_left map app].
  - split; [ exact Hk | ]. split; [ exact Hn | apply Permutation_refl ].
  - destruct (GpuTrack_OnTimer_store_invariant n tr x Hk Hn) as (A & B & C).
    destruct (IH _ A B) as (A' & B' & C'). cbv zeta in *.
    split; [ exact A' | ]. split; [ exact B' | ].
    eapply Permutation_trans; [ exact C' | ].
    eapply Permutation_trans;
      [ apply Permutation_app_head; exact C | ].
    apply Permutation_sym. apply Permutation_middle.
Qed.

Lemma ThreadTrack_fold_store (n : nat) (l : list TimerInfo) :
  forall tr,
    keys_increasing (ThreadTrack.timers_ tr) ->
    no_null_chain (ThreadTrack.timers_ tr) ->
    let tr' := fold_left (ThreadTrack.OnTimer n) l tr in
    keys_increasing (ThreadTrack.timers_ tr')
    /\ no_null_chain (ThreadTrack.timers_ tr')
    /\ Permutation (map_boxes (ThreadTrack.timers_ tr'))
                   (map fresh_text_box l
                    ++ map_boxes (ThreadTrack.timers_ tr)).
Proof.
  induction l as [|x xs IH]; intros tr Hk Hn; cbn [fold_left map app].
  - split; [ exact Hk | ]. split; [ exact Hn | apply Permutation_refl ].
  - destruct (ThreadTrack_OnTimer_store_invariant n tr x Hk Hn)
      as (A & B & C).
    destruct (IH _ A B) as (A' & B' & C'). cbv zeta in *.
    split; [ exact A' | ]. split; [ exact B' | ].
    eapply Permutation_trans; [ exact C' | ].
    eapply Permutation_trans;
      [ apply Permutation_app_head; exact C | ].
    apply Permutation_sym. apply Permutation_middle.
Qed.

Lemma empty_store_invariant :
  keys_increasing [] /\ no_null_chain [].
Proof. split; [ constructor | intros k v [] ]. Qed.

(** X3. On a track filled by [OnTimer] from its constructor the store keeps
    the shape of a [std::map]: bucket keys are strictly ascending, so
    [GetTimers()] lists the buckets by ascending depth key, and no bucket is
    a null pointer.  Both tracks. *)
Theorem OnTimer_keeps_buckets_ordered (kBlockSize : nat) (pos : Vec2)
        (id : Z) (l : list TimerInfo) :
  (keys_increasing (GpuTrack.timers_ (gpu_after kBlockSize pos id l))
   /\ Forall (fun chain => chain <> None)
             (GpuTrack.GetTimers (gpu_after kBlockSize pos id l)))
  /\
  (keys_increasing (ThreadTrack.timers_ (thread_after kBlockSize pos id l))
   /\ Forall (fun chain => chain <> None)
             (ThreadTrack.GetTimers (thread_after kBlockSize pos id l))).
Proof.
  destruct empty_store_invariant as [E1 E2]. split.
  - destruct (GpuTrack_fold_store kBlockSize l
                (GpuTrack.GpuTrack pos id) E1 E2) as (A & B & _).
    split; [ exact A | ]. unfold GpuTrack.GetTimers.
    apply Forall_forall. intros v Hv. apply in_map_iff in Hv.
    destruct Hv as ([k v'] & <- & Hin). exact (B k v' Hin).
  - destruct (ThreadTrack_fold_store kBlockSize l
                (ThreadTrack.ThreadTrack pos id) E1 E2) as (A & B & _).
    split; [ exact A | ]. unfold ThreadTrack.GetTimers.
    apply Forall_forall. intros v Hv. apply in_map_iff in Hv.
    destruct Hv as ([k v'] & <- & Hin). exact (B k v' Hin).
Qed.

Lemma fold_count {T : Type} (step : T -> TimerInfo -> T) (count : T -> Z) :
  (forall t r, count (step t r) = u32 (count t + 1)) ->
  forall l t,
    0 <= count t ->
    count t + Z.of_nat (List.length l) < 2 ^ 32 ->
    count (fold_left step l t) = count t + Z.of_nat (List.length l).
Proof.
  intros Hstep. induction l as [|x xs IH]; intros t H0 Hb;
    cbn [fold_left List.length] in *.
  - lia.
  - rewrite IH; rewrite Hstep; unfold u32;
      rewrite Z.mod_small by lia; lia.
Qed.

(** X4. A track filled by [OnTimer] from its constructor stores exactly the
    inserted timers, one fresh text box each, and [GetNumTimers] is their
    number as long as fewer than 2^32 were inserted.  Both tracks. *)
Theorem OnTimer_store_holds_inserted_timers (kBlockSize : nat) (pos : Vec2)
        (id : Z) (l : list TimerInfo) :
  (let tr := gpu_after kBlockSize pos id l in
   Permutation (map_boxes (GpuTrack.timers_ tr)) (map fresh_text_box l)
   /\ (Z.of_nat (List.length l) < 2 ^ 32 ->
       GpuTrack.GetNumTimers tr = Z.of_nat (List.length l)
       /\ GpuTrack.GetNumTimers tr
          = Z.of_nat (List.length (map_boxes (GpuTrack.timers_ tr)))))
  /\
  (let tr := thread_after kBlockSize pos id l in
   Permutation (map_boxes (ThreadTrack.timers_ tr)) (map fresh_text_box l)
   /\ (Z.of_nat (List.length l) < 2 ^ 32 ->
       ThreadTrack.GetNumTimers tr = Z.of_nat (List.length l)
       /\ ThreadTrack.GetNumTimers tr
          = Z.of_nat (List.length (map_boxes (ThreadTrack.timers_ tr))))).
Proof.
  destruct empty_store_invariant as [E1 E2]. split; cbv zeta.
  - destruct (GpuTrack_fold_store kBlockSize l
                (GpuTrack.GpuTrack pos id) E1 E2) as (_ & _ & P).
    cbv zeta in P. cbn [GpuTrack.GpuTrack GpuTrack.timers_ map_boxes flat_map]
      in P.
    rewrite app_nil_r in P. split; [ exact P | ]. intros Hb.
    assert (C : GpuTrack.GetNumTimers (gpu_after kBlockSize pos id l)
                = Z.of_nat (List.length l)).
    { unfold GpuTrack.GetNumTimers, gpu_after.
      rewrite (fold_count (GpuTrack.OnTimer kBlockSize) GpuTrack.num_timers_);
        cbn; try lia; try (intros; reflexivity). }
    split; [ exact C | ]. rewrite C. unfold gpu_after, thread_after.
    rewrite (Permutation_length P), length_map. reflexivity.
  - destruct (ThreadTrack_fold_store kBlockSize l
                (ThreadTrack.ThreadTrack pos id) E1 E2) as (_ & _ & P).
    cbv zeta in P.
    cbn [ThreadTrack.ThreadTrack ThreadTrack.timers_ map_boxes flat_map] in P.
    rewrite app_nil_r in P. split; [ exact P | ]. intros Hb.
    assert (C : ThreadTrack.GetNumTimers (thread_after kBlockSize pos id l)
                = Z.of_nat (List.length l)).
    { unfold ThreadTrack.GetNumTimers, thread_after.
      rewrite (fold_count (ThreadTrack.OnTimer kBlockSize)
                          ThreadTrack.num_timers_);
        cbn; try lia; try (intros; reflexivity). }
    split; [ exact C | ]. rewrite C. unfold gpu_after, thread_after.
    rewrite (Permutation_length P), length_map. reflexivity.
Qed.

Lemma OnTimer_store_holds_inserted_timers_witness :
  Z.of_nat (List.length [sample_timer 0 50000 0 3 kGpuActivity;
                         sample_timer 10000 10001 1 1 kGpuActivity]) < 2 ^ 32
  /\ GpuTrack.GetNumTimers gpu_two = 2.
Proof.
  assert (Hb : Z.of_nat
                 (List.length [sample_timer 0 50000 0 3 kGpuActivity;
                               sample_timer 10000 10001 1 1 kGpuActivity])
               < 2 ^ 32) by (vm_compute; reflexivity).
  split; [ exact Hb | ].
  exact (proj1 (proj2 (proj1 (OnTimer_store_holds_inserted_timers 1024
                                (F32.of_Z 0, F32.of_Z 500) 99
                                [sample_timer 0 50000 0 3 kGpuActivity;
                                 sample_timer 10000 10001 1 1 kGpuActivity]))
                      Hb)).
Defined.

(* ----------------------------------------------------------------- *)
(** ** The time bounds are exact *)

Lemma fold_min_spec (l : list TimerInfo) :
  forall a,
    let m := fold_left (fun m r => if start r <? m then start r else m) l a in
    m <= a
    /\ (forall r, In r l -> m <= start r)
    /\ (m = a \/ exists r, In r l /\ m = start r).
Proof.
  induction l as [|x xs IH]; intros a; cbn [fold_left].
  - cbv zeta. split; [ lia | ]. split; [ intros r [] | left; reflexivity ].
  - specialize (IH (if start x <? a then start x else a)). cbv zeta in *.
    destruct IH as (A & B & C).
    destruct (Z.ltb_spec (start x) a) as [Hlt | Hge].
    + split; [ lia | ]. split.
      * intros r [<- | Hr]; [ exact A | exact (B r Hr) ].
      * right. destruct C as [C | (r & Hr & C)].
        -- exists x. split; [ left; reflexivity | exact C ].
        -- exists r. split; [ right; exact Hr | exact C ].
    + split; [ exact A | ]. split.
      * intros r [<- | Hr]; [ lia | exact (B r Hr) ].
      * destruct C as [C | (r & Hr & C)]; [ left; exact C | ].
        right. exists r. split; [ right; exact Hr | exact C ].
Qed.

Lemma fold_max_spec (l : list TimerInfo) :
  forall a,
    let m := fold_left (fun m r => if end_ r >? m then end_ r else m) l a in
    a <= m
    /\ (forall r, In r l -> end_ r <= m)
    /\ (m = a \/ exists r, In r l /\ m = end_ r).
Proof.
  induction l as [|x xs IH]; intros a; cbn [fold_left].
  - cbv zeta. split; [ lia | ]. split; [ intros r [] | left; reflexivity ].
  - specialize (IH (if end_ x >? a then end_ x else a)). cbv zeta in *.
    destruct IH as (A & B & C).
    destruct (Z.gtb_spec (end_ x) a) as [Hgt | Hle].
    + split; [ lia | ]. split.
      * intros r [<- | Hr]; [ exact A | exact (B r Hr) ].
      * right. destruct C as [C | (r & Hr & C)].
        -- exists x. split; [ left; reflexivity | exact C ].
        -- exists r. split; [ right; exact Hr | exact C ].
    + split; [ exact A | ]. split.
      * intros r [<- | Hr]; [ lia | exact (B r Hr) ].
      * destruct C as [C | (r & Hr & C)]; [ left; exact C | ].
        right. exists r. split; [ right; exact Hr | exact C ].
Qed.

Lemma fold_left_field {T A B : Type} (step : T -> A -> T) (f : T -> B)
      (g : B -> A -> B) :
  (forall t a, f (step t a) = g (f t) a) ->
  forall l t, f (fold_left step l t) = fold_left g l (f t).
Proof.
  intros H. induction l as [|a l IH]; intros t; cbn [fold_left].
  - reflexivity.
  - rewrite IH, H. reflexivity.
Qed.

Lemma bounds_exact (l : list TimerInfo) (lo hi : Z) :
  lo = fold_left (fun m r => if start r <? m then start r else m) l UINT64_MAX ->
  hi = fold_left (fun m r => if end_ r >? m then end_ r else m) l UINT64_MIN ->
  (l = [] -> lo = UINT64_MAX /\ hi = UINT64_MIN)
  /\ (forall r, In r l -> lo <= start r /\ end_ r <= hi)
  /\ (l <> [] -> (forall r, In r l -> wf_timer r) ->
      (exists r, In r l /\ lo = start r)
      /\ (exists r, In r l /\ hi = end_ r)).
Proof.
  intros -> ->.
  destruct (fold_min_spec l UINT64_MAX) as (A & B & C).
  destruct (fold_max_spec l UINT64_MIN) as (A' & B' & C'). cbv zeta in *.
  split; [ intros ->; split; reflexivity | ].
  split; [ intros r Hr; split; [ exact (B r Hr) | exact (B' r Hr) ] | ].
  intros Hne Hwf. destruct l as [|x xs]; [ congruence | ].
  assert (Hx : In x (x :: xs)) by (left; reflexivity).
  destruct (Hwf x Hx) as (Hs & He & _). split.
  - destruct C as [C | C]; [ | exact C ].
    exists x. split; [ exact Hx | ]. specialize (B x Hx).
    unfold UINT64_MAX in *. lia.
  - destruct C' as [C' | C']; [ | exact C' ].
    exists x. split; [ exact Hx | ]. specialize (B' x Hx).
    unfold UINT64_MIN in *. lia.
Qed.

(** X5. On a track filled by [OnTimer] from its constructor, [min_time_]
    and [max_time_] are exact: with no timer they are the initial
    [UINT64_MAX] and 0; otherwise [min_time_] is the least [start] and
    [max_time_] the greatest [end] among the inserted timers (each is
    attained by one of them and bounds all of them).  Both tracks. *)
Theorem OnTimer_bounds_are_least_start_and_greatest_end (kBlockSize : nat)
        (pos : Vec2) (id : Z) (l : list TimerInfo) :
  (let tr := gpu_after kBlockSize pos id l in
   (l = [] -> GpuTrack.GetMinTime tr = UINT64_MAX
              /\ GpuTrack.GetMaxTime tr = UINT64_MIN)
   /\ (forall r, In r l ->
                 GpuTrack.GetMinTime tr <= start r
                 /\ end_ r <= GpuTrack.GetMaxTime tr)
   /\ (l <> [] -> (forall r, In r l -> wf_timer r) ->
       (exists r, In r l /\ GpuTrack.GetMinTime tr = start r)
       /\ (exists r, In r l /\ GpuTrack.GetMaxTime tr = end_ r)))
  /\
  (let tr := thread_after kBlockSize pos id l in
   (l = [] -> ThreadTrack.min_time_ tr = UINT64_MAX
              /\ ThreadTrack.max_time_ tr = UINT64_MIN)
   /\ (forall r, In r l ->
                 ThreadTrack.min_time_ tr <= start r
                 /\ end_ r <= ThreadTrack.max_time_ tr)
   /\ (l <> [] -> (forall r, In r l -> wf_timer r) ->
       (exists r, In r l /\ ThreadTrack.min_time_ tr = start r)
       /\ (exists r, In r l /\ ThreadTrack.max_time_ tr = end_ r))).
Proof.
  split; cbv zeta.
  - apply bounds_exact.
    + unfold GpuTrack.GetMinTime, gpu_after.
      apply (fold_left_field (GpuTrack.OnTimer kBlockSize)
                             GpuTrack.min_time_).
      intros t a. reflexivity.
    + unfold GpuTrack.GetMaxTime, gpu_after.
      apply (fold_left_field (GpuTrack.OnTimer kBlockSize)
                             GpuTrack.max_time_).
      intros t a. reflexivity.
  - apply bounds_exact.
    + unfold thread_after.
      apply (fold_left_field (ThreadTrack.OnTimer kBlockSize)
                             ThreadTrack.min_time_).
      intros t a. reflexivity.
    + unfold thread_after.
      apply (fold_left_field (ThreadTrack.OnTimer kBlockSize)
                             ThreadTrack.max_time_).
      intros t a. reflexivity.
Qed.

Lemma OnTimer_bounds_are_least_start_and_greatest_end_witness :
  [one_timer] <> []
  /\ (forall r, In r [one_timer] -> wf_timer r)
  /\ (exists r, In r [one_timer] /\ GpuTrack.GetMinTime gpu_one = start r)
  /\ (exists r, In r [one_timer] /\ GpuTrack.GetMaxTime gpu_one = end_ r).
Proof.
  assert (Hne : [one_timer] <> []) by discriminate.
  assert (Hwf : forall r, In r [one_timer] -> wf_timer r).
  { intros r [<- | []]. vm_compute. repeat split; congruence. }
  split; [ exact Hne | ]. split; [ exact Hwf | ].
  exact (proj2 (proj2 (proj1
           (OnTimer_bounds_are_least_start_and_greatest_end 1024
              (F32.of_Z 0, F32.of_Z 500) 99 [one_timer]))) Hne Hwf).
Defined.

(* ----------------------------------------------------------------- *)
(** ** Neighbour navigation *)

Lemma map_find_not_key (k : Z) (m : TimerMap) :
  ~ In k (map fst m) -> map_find k m = None.
Proof.
  induction m as [|[k' v'] rest IH]; cbn [map_find map fst In]; intros H.
  - reflexivity.
  - destruct (Z.eqb_spec k k') as [-> | Hne].
    + exfalso. apply H. left. reflexivity.
    + apply IH. intros Hin. apply H. right. exact Hin.
Qed.

Lemma to_int_small (d : Z) : 0 <= d < 2 ^ 31 -> to_int d = d.
Proof.
  intros H. unfold to_int, u32. rewrite Z.mod_small by lia.
  destruct (Z.ltb_spec d (2 ^ 31)); lia.
Qed.

Lemma GpuTrack_fold_keys (n : nat) (l : list TimerInfo) :
  forall tr k,
    In k (map fst (GpuTrack.timers_ (fold_left (GpuTrack.OnTimer n) l tr))) ->
    In k (map fst (GpuTrack.timers_ tr))
    \/ exists r, In r l /\ k = to_int (depth r).
Proof.
  induction l as [|x xs IH]; intros tr k H; cbn [fold_left] in H.
  - left. exact H.
  - apply IH in H. destruct H as [H | (r & Hr & ->)].
    + unfold GpuTrack.OnTimer in H. cbn [GpuTrack.timers_] in H.
      apply map_set_keys in H. destruct H as [-> | H].
      * right. exists x. split; [ left; reflexivity | reflexivity ].
      * left. exact H.
    + right. exists r. split; [ right; exact Hr | reflexivity ].
Qed.

Lemma ThreadTrack_fold_keys (n : nat) (l : list TimerInfo) :
  forall tr k,
    In k (map fst
            (ThreadTrack.timers_ (fold_left (ThreadTrack.OnTimer n) l tr))) ->
    In k (map fst (ThreadTrack.timers_ tr))
    \/ exists r, In r l /\ k = to_int (depth r).
Proof.
  induction l as [|x xs IH]; intros tr k H; cbn [fold_left] in H.
  - left. exact H.
  - apply IH in H. destruct H as [H | (r & Hr & ->)].
    + unfold ThreadTrack.OnTimer in H. cbn [ThreadTrack.timers_] in H.
      apply map_set_keys in H. destruct H as [-> | H].
      * right. exists x. split; [ left; reflexivity | reflexivity ].
      * left. exact H.
    + right. exists r. split; [ right; exact Hr | reflexivity ].
Qed.

Lemma no_bucket_above_depth_zero (m : TimerMap) (l : list TimerInfo) :
  depths_small l ->
  (forall k, In k (map fst m) -> exists r, In r l /\ k = to_int (depth r)) ->
  map_index (to_int (u32 (0 - 1))) m = None.
Proof.
  intros Hs Hk. unfold map_index. rewrite map_find_not_key; [ reflexivity | ].
  intros Hin. destruct (Hk _ Hin) as (r & Hr & E).
  rewrite (to_int_small (depth r) (Hs r Hr)) in E.
  specialize (Hs r Hr).
  assert (Hm : to_int (u32 (0 - 1)) = -1) by (vm_compute; reflexivity).
  rewrite Hm in E. lia.
Qed.

(** X6. [GetUp] on a record of depth 0 asks for the bucket of depth
    [0 - 1], which as a [uint32_t] is 2^32 - 1 and as a map key is -1: on a
    track filled by [OnTimer] with depths below 2^31 there is no such
    bucket and the answer is none.  Both tracks. *)
Theorem GetUp_at_depth_zero_is_none (kBlockSize : nat) (pos : Vec2) (id : Z)
        (l : list TimerInfo) (text_box : TextBox) :
  depths_small l ->
  depth (GetTimerInfo text_box) = 0 ->
  GpuTrack.GetUp (gpu_after kBlockSize pos id l) text_box = None
  /\ ThreadTrack.GetUp (thread_after kBlockSize pos id l) text_box = None.
Proof.
  intros Hs Hd. split.
  - unfold GpuTrack.GetUp, GpuTrack.GetFirstBeforeTime, GpuTrack.GetTimers_at.
    cbv zeta. rewrite Hd.
    rewrite (no_bucket_above_depth_zero _ l Hs); [ reflexivity | ].
    intros k Hk. apply GpuTrack_fold_keys in Hk.
    destruct Hk as [[] | Hk]. exact Hk.
  - unfold ThreadTrack.GetUp, ThreadTrack.GetFirstBeforeTime,
      ThreadTrack.GetTimers_at.
    cbv zeta. rewrite Hd.
    rewrite (no_bucket_above_depth_zero _ l Hs); [ reflexivity | ].
    intros k Hk. apply ThreadTrack_fold_keys in Hk.
    destruct Hk as [[] | Hk]. exact Hk.
Qed.

Lemma GetUp_at_depth_zero_is_none_witness :
  depths_small [sample_timer 0 50000 0 3 kGpuActivity;
                sample_timer 10000 10001 1 1 kGpuActivity]
  /\ depth (GetTimerInfo (fresh_text_box one_timer)) = 0
  /\ GpuTrack.GetUp gpu_two (fresh_text_box one_timer) = None.
Proof.
  assert (Hs : depths_small [sample_timer 0 50000 0 3 kGpuActivity;
                             sample_timer 10000 10001 1 1 kGpuActivity]).
  { intros r [<- | [<- | []]]; vm_compute; split; congruence. }
  split; [ exact Hs | ]. split; [ reflexivity | ].
  exact (proj1 (GetUp_at_depth_zero_is_none 1024 (F32.of_Z 0, F32.of_Z 500) 99
                  _ (fresh_text_box one_timer) Hs eq_refl)).
Defined.

Lemma first_after_in_block_found (time : Z) (l : list TextBox) (x : TextBox) :
  first_after_in_block time l = Some x ->
  In x l /\ time < start (GetTimerInfo x).
Proof.
  induction l as [|y ys IH]; cbn [first_after_in_block]; intros H.
  - discriminate.
  - destruct (Z.gtb_spec (start (GetTimerInfo y)) time) as [Hgt | Hle].
    + injection H as <-. split; [ left; reflexivity | lia ].
    + destruct (IH H) as [A B]. split; [ right; exact A | exact B ].
Qed.

Lemma first_before_in_block_found (time : Z) (l : list TextBox) :
  forall acc x,
    first_before_in_block time acc l = Returned (Some x) ->
    (acc = Some x \/ In x l)
    /\ (acc = Some x \/ start (GetTimerInfo x) <= time).
Proof.
  induction l as [|y ys IH]; cbn [first_before_in_block]; intros acc x H.
  - discriminate.
  - destruct (Z.gtb_spec (start (GetTimerInfo y)) time) as [Hgt | Hle].
    + injection H as ->. split; left; reflexivity.
    + destruct (IH _ _ H) as [A B]. split.
      * right. destruct A as [A | A];
          [ injection A as <-; left; reflexivity | right; exact A ].
      * right. destruct B as [B | B]; [ injection B as <-; exact Hle | exact B ].
Qed.

Lemma first_before_in_chain_found (time : Z) (c : TimerChain) (x : TextBox) :
  first_before_in_chain time None c = Some x ->
  In x (chain_boxes c) /\ start (GetTimerInfo x) <= time.
Proof.
  rewrite first_before_in_chain_flat.
  destruct (first_before_in_block time None (chain_boxes c)) as [r|] eqn:E;
    [ | discriminate ].
  intros ->. apply first_before_in_block_found in E.
  destruct E as [[A | A] [B | B]]; try discriminate. split; assumption.
Qed.

(** X7. What [GetDown] returns is a record of the bucket one level deeper
    that starts strictly after the given record (a record starting at the
    same tick is never returned); what [GetUp] returns is a record of the
    bucket one level higher that starts at or before it.  No ordering of the
    buckets is needed.  Both tracks. *)
Theorem GetUp_GetDown_stay_on_adjacent_level (text_box x : TextBox) :
  let ti := GetTimerInfo text_box in
  (forall tr : GpuTrack.t,
      (GpuTrack.GetDown tr text_box = Some x ->
       In x (bucket_boxes (GpuTrack.GetTimers_at tr (u32 (depth ti + 1))))
       /\ start ti < start (GetTimerInfo x))
      /\ (GpuTrack.GetUp tr text_box = Some x ->
          In x (bucket_boxes (GpuTrack.GetTimers_at tr (u32 (depth ti - 1))))
          /\ start (GetTimerInfo x) <= start ti))
  /\
  (forall tr : ThreadTrack.t,
      (ThreadTrack.GetDown tr text_box = Some x ->
       In x (bucket_boxes (ThreadTrack.GetTimers_at tr (u32 (depth ti + 1))))
       /\ start ti < start (GetTimerInfo x))
      /\ (ThreadTrack.GetUp tr text_box = Some x ->
          In x (bucket_boxes
                  (ThreadTrack.GetTimers_at tr (u32 (depth ti - 1))))
          /\ start (GetTimerInfo x) <= start ti)).
Proof.
  cbv zeta. split; intros tr; split.
  - unfold GpuTrack.GetDown, GpuTrack.GetFirstAfterTime. cbv zeta.
    destruct (GpuTrack.GetTimers_at tr _) as [c|]; [ | discriminate ].
    rewrite first_after_in_chain_flat. apply first_after_in_block_found.
  - unfold GpuTrack.GetUp, GpuTrack.GetFirstBeforeTime. cbv zeta.
    destruct (GpuTrack.GetTimers_at tr _) as [c|]; [ | discriminate ].
    apply first_before_in_chain_found.
  - unfold ThreadTrack.GetDown, ThreadTrack.GetFirstAfterTime. cbv zeta.
    destruct (ThreadTrack.GetTimers_at tr _) as [c|]; [ | discriminate ].
    rewrite first_after_in_chain_flat. apply first_after_in_block_found.
  - unfold ThreadTrack.GetUp, ThreadTrack.GetFirstBeforeTime. cbv zeta.
    destruct (ThreadTrack.GetTimers_at tr _) as [c|]; [ | discriminate ].
    apply first_before_in_chain_found.
Qed.

Lemma GetUp_GetDown_stay_on_adjacent_level_witness :
  GpuTrack.GetDown gpu_two
    (fresh_text_box (sample_timer 0 50000 0 3 kGpuActivity))
  = Some sub_pixel_box
  /\ In sub_pixel_box (bucket_boxes (GpuTrack.GetTimers_at gpu_two 1))
  /\ 0 < start (GetTimerInfo sub_pixel_box).
Proof.
  assert (H : GpuTrack.GetDown gpu_two
                (fresh_text_box (sample_timer 0 50000 0 3 kGpuActivity))
              = Some sub_pixel_box) by reflexivity.
  split; [ exact H | ].
  exact (proj1 (proj1 (GetUp_GetDown_stay_on_adjacent_level
                         (fresh_text_box
                            (sample_timer 0 50000 0 3 kGpuActivity))
                         sub_pixel_box) gpu_two) H).
Defined.

Lemma GpuTrack_own_bucket (n : nat) (tr : GpuTrack.t) (r : TimerInfo) :
  exists chain,
    GpuTrack.GetTimers_at (GpuTrack.OnTimer n tr r) (depth r) = Some chain
    /\ In (fresh_text_box r) (chain_boxes chain).
Proof.
  unfold GpuTrack.GetTimers_at, GpuTrack.OnTimer. cbn [GpuTrack.timers_].
  rewrite map_index_set_same. eexists. split; [ reflexivity | ].
  rewrite chain_boxes_push_back. apply in_or_app. right. left. reflexivity.
Qed.

Lemma ThreadTrack_own_bucket (n : nat) (tr : ThreadTrack.t) (r : TimerInfo) :
  exists chain,
    ThreadTrack.GetTimers_at (ThreadTrack.OnTimer n tr r) (depth r)
    = Some chain
    /\ In (fresh_text_box r) (chain_boxes chain).
Proof.
  unfold ThreadTrack.GetTimers_at, ThreadTrack.OnTimer.
  cbn [ThreadTrack.timers_].
  rewrite map_index_set_same. eexists. split; [ reflexivity | ].
  rewrite chain_boxes_push_back. apply in_or_app. right. left. reflexivity.
Qed.

(** X8. For the text box that [OnTimer] has just stored, [GetLeft] and
    [GetRight] forward to [GetElementBefore] and [GetElementAfter] on the
    chain that holds this box, provided the timer belongs to the track: its
    [user_data_key] is the track's timeline hash (GPU track), its thread id
    is the track's thread id (thread track).  For a timer of another
    timeline or thread both return none, although the box is stored. *)
Theorem GetLeft_GetRight_search_own_chain (kBlockSize : nat) (nav : ChainNav)
        (r : TimerInfo) (ref : BoxRef) :
  (forall tr : GpuTrack.t,
      let tr' := GpuTrack.OnTimer kBlockSize tr r in
      (user_data_key r <> GpuTrack.timeline_hash_ tr ->
       GpuTrack.GetLeft nav tr' ref (fresh_text_box r) = None
       /\ GpuTrack.GetRight nav tr' ref (fresh_text_box r) = None)
      /\ (user_data_key r = GpuTrack.timeline_hash_ tr ->
          exists chain,
            GpuTrack.GetTimers_at tr' (depth r) = Some chain
            /\ In (fresh_text_box r) (chain_boxes chain)
            /\ GpuTrack.GetLeft nav tr' ref (fresh_text_box r)
               = GetElementBefore nav chain ref
            /\ GpuTrack.GetRight nav tr' ref (fresh_text_box r)
               = GetElementAfter nav chain ref))
  /\
  (forall tr : ThreadTrack.t,
      let tr' := ThreadTrack.OnTimer kBlockSize tr r in
      (thread_id r <> ThreadTrack.thread_id_ tr ->
       ThreadTrack.GetLeft nav tr' ref (fresh_text_box r) = None
       /\ ThreadTrack.GetRight nav tr' ref (fresh_text_box r) = None)
      /\ (thread_id r = ThreadTrack.thread_id_ tr ->
          exists chain,
            ThreadTrack.GetTimers_at tr' (depth r) = Some chain
            /\ In (fresh_text_box r) (chain_boxes chain)
            /\ ThreadTrack.GetLeft nav tr' ref (fresh_text_box r)
               = GetElementBefore nav chain ref
            /\ ThreadTrack.GetRight nav tr' ref (fresh_text_box r)
               = GetElementAfter nav chain ref)).
Proof.
  split; intros tr; cbv zeta; split.
  - intros Hne. apply Z.eqb_neq in Hne.
    unfold GpuTrack.GetLeft, GpuTrack.GetRight. cbv zeta.
    cbn [GetTimerInfo fresh_text_box SetTimerInfo tb_timer_info].
    change (GpuTrack.timeline_hash_ (GpuTrack.OnTimer kBlockSize tr r))
      with (GpuTrack.timeline_hash_ tr).
    rewrite Hne. split; reflexivity.
  - intros He. destruct (GpuTrack_own_bucket kBlockSize tr r)
      as (chain & Hc & Hin).
    exists chain. split; [ exact Hc | ]. split; [ exact Hin | ].
    unfold GpuTrack.GetLeft, GpuTrack.GetRight. cbv zeta.
    cbn [GetTimerInfo fresh_text_box SetTimerInfo tb_timer_info].
    change (GpuTrack.timeline_hash_ (GpuTrack.OnTimer kBlockSize tr r))
      with (GpuTrack.timeline_hash_ tr).
    rewrite He, Z.eqb_refl, Hc. split; reflexivity.
  - intros Hne. apply Z.eqb_neq in Hne.
    unfold ThreadTrack.GetLeft, ThreadTrack.GetRight. cbv zeta.
    cbn [GetTimerInfo fresh_text_box SetTimerInfo tb_timer_info].
    change (ThreadTrack.thread_id_ (ThreadTrack.OnTimer kBlockSize tr r))
      with (ThreadTrack.thread_id_ tr).
    rewrite Hne. split; reflexivity.
  - intros He. destruct (ThreadTrack_own_bucket kBlockSize tr r)
      as (chain & Hc & Hin).
    exists chain. split; [ exact Hc | ]. split; [ exact Hin | ].
    unfold ThreadTrack.GetLeft, ThreadTrack.GetRight. cbv zeta.
    cbn [GetTimerInfo fresh_text_box SetTimerInfo tb_timer_info].
    change (ThreadTrack.thread_id_ (ThreadTrack.OnTimer kBlockSize tr r))
      with (ThreadTrack.thread_id_ tr).
    rewrite He, Z.eqb_refl, Hc. split; reflexivity.
Qed.

Lemma GetLeft_GetRight_search_own_chain_witness :
  let nav := mkChainNav (fun _ _ => None) (fun _ _ => None) in
  thread_id one_timer = 7
  /\ user_data_key one_timer <> 99
  /\ GpuTrack.GetLeft nav gpu_one (0, 0%nat, 0%nat) (fresh_text_box one_timer)
     = None
  /\ exists chain,
      ThreadTrack.GetTimers_at thread_one 0 = Some chain
      /\ In (fresh_text_box one_timer) (chain_boxes chain).
Proof.
  intros nav.
  assert (H1 : thread_id one_timer = 7) by reflexivity.
  assert (H2 : user_data_key one_timer <> 99) by (vm_compute; discriminate).
  split; [ exact H1 | ]. split; [ exact H2 | ].
  destruct (GetLeft_GetRight_search_own_chain 1024 nav one_timer
              (0, 0%nat, 0%nat)) as [G T].
  split.
  - exact (proj1 (proj1 (G (GpuTrack.GpuTrack (F32.of_Z 0, F32.of_Z 500) 99))
                        H2)).
  - destruct (proj2 (T (ThreadTrack.ThreadTrack (F32.of_Z 0, F32.of_Z 500) 7))
                    H1) as (chain & Hc & Hin & _).
    exists chain. split; [ exact Hc | exact Hin ].
Defined.

(* ----------------------------------------------------------------- *)
(** ** Tooltips and labels *)

(** X9. The box tooltip of a GPU track is empty exactly for a null box, a
    core-activity timer, or a key that resolves to none of the three stage
    strings; otherwise it names the stage: two boxes with the same
    non-empty tooltip have keys resolving to the same stage string. *)
Theorem GpuTrack_GetBoxTooltip_names_the_stage (env : Env) (cap : Capture) :
  let stage b :=
    value_or (string_manager_Get env (user_data_key (GetTimerInfo b))) "" in
  let known s :=
    s = kSwQueueString \/ s = kHwQueueString \/ s = kHwExecutionString in
  GpuTrack.GetBoxTooltip env cap None = EmptyString
  /\ (forall b,
         GpuTrack.GetBoxTooltip env cap (Some b) = EmptyString
         <-> type (GetTimerInfo b) = kCoreActivity \/ ~ known (stage b))
  /\ (forall b1 b2,
         GpuTrack.GetBoxTooltip env cap (Some b1)
         = GpuTrack.GetBoxTooltip env cap (Some b2) ->
         GpuTrack.GetBoxTooltip env cap (Some b1) <> EmptyString ->
         stage b1 = stage b2).
Proof.
  cbv zeta.
  assert (cases : forall b,
             (type (GetTimerInfo b) = kCoreActivity
              /\ GpuTrack.GetBoxTooltip env cap (Some b) = EmptyString)
             \/ (type (GetTimerInfo b) <> kCoreActivity
                 /\ ((value_or (string_manager_Get env
                                  (user_data_key (GetTimerInfo b))) ""
                      = kSwQueueString
                      /\ GpuTrack.GetBoxTooltip env cap (Some b)
                         = GpuTrack.GetSwQueueTooltip cap (GetTimerInfo b))
                     \/ (value_or (string_manager_Get env
                                     (user_data_key (GetTimerInfo b))) ""
                         = kHwQueueString
                         /\ GpuTrack.GetBoxTooltip env cap (Some b)
                            = GpuTrack.GetHwQueueTooltip cap (GetTimerInfo b))
                     \/ (value_or (string_manager_Get env
                                     (user_data_key (GetTimerInfo b))) ""
                         = kHwExecutionString
                         /\ GpuTrack.GetBoxTooltip env cap (Some b)
                            = GpuTrack.GetHwExecutionTooltip cap
                                (GetTimerInfo b))
                     \/ (~ (value_or (string_manager_Get env
                                        (user_data_key (GetTimerInfo b))) ""
                            = kSwQueueString
                            \/ value_or (string_manager_Get env
                                           (user_data_key (GetTimerInfo b))) ""
                               = kHwQueueString
                            \/ value_or (string_manager_Get env
                                           (user_data_key (GetTimerInfo b))) ""
                               = kHwExecutionString)
                         /\ GpuTrack.GetBoxTooltip env cap (Some b)
                            = EmptyString)))).
  { intros b. unfold GpuTrack.GetBoxTooltip. cbv zeta.
    destruct (type (GetTimerInfo b)) eqn:Ety; cbn [TimerType_eqb];
      try (left; split; reflexivity); right; (split; [ discriminate | ]);
      (destruct (String.eqb_spec
                   (value_or (string_manager_Get env
                                (user_data_key (GetTimerInfo b))) "")
                   kSwQueueString) as [E1 | N1];
       [ left; split; [ exact E1 | reflexivity ] | ];
       destruct (String.eqb_spec
                   (value_or (string_manager_Get env
                                (user_data_key (GetTimerInfo b))) "")
                   kHwQueueString) as [E2 | N2];
       [ right; left; split; [ exact E2 | reflexivity ] | ];
       destruct (String.eqb_spec
                   (value_or (string_manager_Get env
                                (user_data_key (GetTimerInfo b))) "")
                   kHwExecutionString) as [E3 | N3];
       [ right; right; left; split; [ exact E3 | reflexivity ] | ];
       right; right; right; split; [ | reflexivity ];
       intros [? | [? | ?]]; contradiction). }
  split; [ reflexivity | ]. split.
  - intros b. split.
    + intros He.
      destruct (cases b) as [[Hc _] | (Hn & [[_ E] | [[_ E] | [[_ E] | [Hk _]]]])];
        try (rewrite E in He; discriminate He).
      * left. exact Hc.
      * right. exact Hk.
    + intros [Hc | Hk];
        destruct (cases b)
          as [[_ E] | (Hn & [[S _] | [[S _] | [[S _] | [_ E]]]])];
        try exact E; try contradiction.
      * exfalso. apply Hk. left. exact S.
      * exfalso. apply Hk. right. left. exact S.
      * exfalso. apply Hk. right. right. exact S.
  - intros b1 b2 Heq Hne.
    destruct (cases b1)
      as [[_ E1] | (_ & [[S1 E1] | [[S1 E1] | [[S1 E1] | [_ E1]]]])];
      try (rewrite E1 in Hne; contradiction);
      destruct (cases b2)
        as [[_ E2] | (_ & [[S2 E2] | [[S2 E2] | [[S2 E2] | [_ E2]]]])];
      rewrite E1, E2 in Heq; try discriminate Heq;
      rewrite S1, S2; reflexivity.
Qed.

Lemma GpuTrack_GetBoxTooltip_names_the_stage_witness :
  let cap := mkCapture (fun _ => "render"%string) (fun _ _ => "1 us"%string) in
  GpuTrack.GetBoxTooltip sample_env cap (Some sub_pixel_box) <> EmptyString
  /\ GpuTrack.GetBoxTooltip sample_env cap
       (Some (fresh_text_box (sample_timer 0 1 0 9 kGpuActivity)))
     = EmptyString.
Proof.
  intros cap. split.
  - vm_compute. discriminate.
  - apply (proj1 (proj2 (GpuTrack_GetBoxTooltip_names_the_stage
                           sample_env cap))).
    right. vm_compute. intros [H | [H | H]]; discriminate H.
Defined.

Lemma ends_with_append (p t : string) : ends_with (p ++ t) t.
Proof. exists p. reflexivity. Qed.

Lemma string_append_assoc (a b c : string) :
  ((a ++ b) ++ c = a ++ (b ++ c))%string.
Proof. induction a as [|x a IH]; cbn; [ reflexivity | rewrite IH; reflexivity ]. Qed.

(** X10. [SetTimesliceText] computes a label once.  On a box whose text is
    empty, the text it sets ends with the pretty-printed duration and the
    stored trailing length is the length of that duration, which is what
    the text renderer is told to keep; on a box that already has a text
    neither the text nor the length is touched.  In both cases the text
    call carries the box's text and trailing length.  Both tracks (the GPU
    track for GPU-activity timers, its [CHECK]). *)
Theorem SetTimesliceText_labels_end_with_duration (env : Env)
        (timer_info : TimerInfo) (elapsed_us : F64.t) (min_x : F32.t)
        (text_box : TextBox) :
  let time := GetPrettyTime env elapsed_us in
  let labelled (before after : TextBox) (out : list DrawCall) :=
    (GetText before = EmptyString ->
     GetElapsedTimeTextLength after = Z.of_nat (String.length time)
     /\ (GetText after <> EmptyString -> ends_with (GetText after) time))
    /\ (GetText before <> EmptyString ->
        GetText after = GetText before
        /\ GetElapsedTimeTextLength after = GetElapsedTimeTextLength before)
    /\ exists x y z color max_size,
        out = [AddTextTrailingCharsPrioritized
                 (GetText after) x y z color
                 (GetElapsedTimeTextLength after) max_size] in
  (type timer_info = kGpuActivity ->
   exists after out,
     GpuTrack.SetTimesliceText env timer_info elapsed_us min_x text_box
     = Ok (after, out)
     /\ labelled text_box after out
     /\ (GetText text_box = EmptyString -> GetText after <> EmptyString))
  /\
  (let '(after, out) :=
     ThreadTrack.SetTimesliceText env timer_info elapsed_us min_x text_box in
   labelled text_box after out).
Proof.
  cbv zeta. split.
  - intros Hty. unfold GpuTrack.SetTimesliceText. rewrite Hty.
    cbn [TimerType_eqb].
    destruct (is_empty (GetText text_box)) eqn:Et; cbn [bind].
    + eexists _, _. split; [ reflexivity | ].
      assert (He : GetText text_box = EmptyString)
        by (destruct (GetText text_box); [ reflexivity | discriminate ]).
      split; [ | intros _; cbn; destruct (value_or _ _); discriminate ].
      split; [ intros _; split; [ reflexivity | ] | ].
      * intros _. cbn [GetText SetText tb_text].
        rewrite <- string_append_assoc. apply ends_with_append.
      * split; [ intros Hn; contradiction | ].
        eexists _, _, _, _, _. reflexivity.
    + eexists _, _. split; [ reflexivity | ].
      assert (Hn : GetText text_box <> EmptyString)
        by (intros E; rewrite E in Et; discriminate).
      split; [ | intros E; contradiction ].
      split; [ intros E; contradiction | ].
      split; [ intros _; split; reflexivity | ].
      eexists _, _, _, _, _. reflexivity.
  - unfold ThreadTrack.SetTimesliceText. cbv zeta.
    destruct (is_empty (GetText text_box)) eqn:Et.
    + assert (He : GetText text_box = EmptyString)
        by (destruct (GetText text_box); [ reflexivity | discriminate ]).
      destruct (GSelectedFunctionsMap env (function_address timer_info))
        as [f|]; [ | destruct (TimerType_eqb (type timer_info) kIntrospection) ];
        (split; [ intros _; split; [ reflexivity | ] | ];
         [ | split; [ intros Hn; contradiction
                    | eexists _, _, _, _, _; reflexivity ] ]).
      * intros _. cbn [GetText SetText tb_text].
        rewrite <- !string_append_assoc. apply ends_with_append.
      * intros _. cbn [GetText SetText tb_text].
        rewrite <- !string_append_assoc. apply ends_with_append.
      * intros Hn. exfalso. apply Hn. cbn. exact He.
    + assert (Hn : GetText text_box <> EmptyString)
        by (intros E; rewrite E in Et; discriminate).
      split; [ intros E; contradiction | ].
      split; [ intros _; split; reflexivity | ].
      eexists _, _, _, _, _. reflexivity.
Qed.

Lemma SetTimesliceText_labels_end_with_duration_witness :
  type (GetTimerInfo sub_pixel_box) = kGpuActivity
  /\ exists after out,
      GpuTrack.SetTimesliceText sample_env (GetTimerInfo sub_pixel_box)
        (F64.of_Z 1) F32.zero sub_pixel_box
      = Ok (after, out)
      /\ GetText after = "sw queue  t"%string.
Proof.
  split; [ reflexivity | ].
  destruct (proj1 (SetTimesliceText_labels_end_with_duration sample_env
                     (GetTimerInfo sub_pixel_box) (F64.of_Z 1) F32.zero
                     sub_pixel_box) eq_refl)
    as (after & out & H & _).
  exists after, out. split; [ exact H | ].
  vm_compute in H. injection H as <- _. reflexivity.
Defined.

(* ----------------------------------------------------------------- *)
(** ** What a frame leaves alone, and how much it draws *)


Section LoopShape.
Variables min_tick max_tick : Z.
Variable body :
  LoopState -> BoxRef -> TextBox ->
  result (LoopState * TextBox * list DrawCall).

Hypothesis body_shape :
  forall st ref box st' box' out,
    body st ref box = Ok (st', box', out) ->
    GetTimerInfo box' = GetTimerInfo box
    /\ (List.length (primitives out) <= 1)%nat.

Lemma scan_block_shape key bi :
  forall boxes k st st' boxes' out,
    scan_block body key bi k st boxes = Ok (st', boxes', out) ->
    map GetTimerInfo boxes' = map GetTimerInfo boxes
    /\ (List.length (primitives out) <= List.length boxes)%nat.
Proof.
  induction boxes as [|b rest IH]; cbn [scan_block];
    intros k st st' boxes' out H.
  - injection H as _ <- <-. split; [ reflexivity | cbn; lia ].
  - split_bind H. split_bind H. injection H as _ <- <-.
    apply body_shape in E. destruct E as [A B].
    apply IH in E0. destruct E0 as [A' B'].
    split; [ cbn [map]; rewrite A, A'; reflexivity | ].
    rewrite primitives_app, length_app. cbn [List.length]. lia.
Qed.

Lemma scan_chain_shape key :
  forall blocks bi st st' blocks' out,
    scan_chain min_tick max_tick body key bi st blocks
    = Ok (st', blocks', out) ->
    map (map GetTimerInfo) blocks' = map (map GetTimerInfo) blocks
    /\ (List.length (primitives out) <= List.length (chain_boxes blocks))%nat.
Proof.
  unfold chain_boxes.
  induction blocks as [|b rest IH]; cbn [scan_chain List.concat];
    intros bi st st' blocks' out H.
  - injection H as _ <- <-. split; [ reflexivity | cbn; lia ].
  - destruct (negb (Intersects b min_tick max_tick)).
    + split_bind H. injection H as _ <- <-.
      apply IH in E. destruct E as [A B].
      split; [ cbn [map]; rewrite A; reflexivity | ].
      rewrite length_app. lia.
    + split_bind H. split_bind H. injection H as _ <- <-.
      apply scan_block_shape in E. destruct E as [A B].
      apply IH in E0. destruct E0 as [A' B'].
      split; [ cbn [map]; rewrite A, A'; reflexivity | ].
      rewrite primitives_app, !length_app. lia.
Qed.

Lemma scan_chains_shape :
  forall m st st' m' out,
    scan_chains min_tick max_tick body st m = Ok (st', m', out) ->
    store_shape m' = store_shape m
    /\ (List.length (primitives out) <= List.length (map_boxes m))%nat.
Proof.
  unfold store_shape, map_boxes.
  induction m as [|[key [chain|]] rest IH]; cbn [scan_chains];
    intros st st' m' out H.
  - injection H as _ <- <-. split; [ reflexivity | cbn; lia ].
  - split_bind H. split_bind H. injection H as _ <- <-.
    apply scan_chain_shape in E. destruct E as [A B].
    apply IH in E0. destruct E0 as [A' B'].
    split; [ cbn [map fst snd option_map]; rewrite A, A'; reflexivity | ].
    cbn [flat_map snd]. rewrite primitives_app, !length_app. lia.
  - split_bind H. injection H as _ <- <-.
    apply IH in E. destruct E as [A B].
    split; [ cbn [map fst snd option_map]; rewrite A; reflexivity | ].
    cbn [flat_map snd app]. exact B.
Qed.

End LoopShape.

Lemma GpuTrack_body_shape env tr fr min_tick max_tick :
  forall st ref box st' box' out,
    GpuTrack.process_box env tr fr min_tick max_tick st ref box
    = Ok (st', box', out) ->
    GetTimerInfo box' = GetTimerInfo box
    /\ (List.length (primitives out) <= 1)%nat.
Proof.
  intros st ref box st' box' out H.
  apply GpuTrack_process_box_inv in H. cbv zeta in H.
  destruct H as (_ & A & B). split; [ exact A | ].
  destruct out as [|c out']; [ cbn; lia | ].
  destruct B as (_ & _ & _ & x & w & h & z & color & Hp & _);
    [ discriminate | ].
  rewrite Hp. cbn. lia.
Qed.

Lemma ThreadTrack_body_shape env tr fr min_tick max_tick :
  forall st ref box st' box' out,
    ThreadTrack.process_box env tr fr min_tick max_tick st ref box
    = Ok (st', box', out) ->
    GetTimerInfo box' = GetTimerInfo box
    /\ (List.length (primitives out) <= 1)%nat.
Proof.
  intros st ref box st' box' out H.
  apply ThreadTrack_process_box_inv in H. cbv zeta in H.
  destruct H as (_ & A & B). split; [ exact A | ].
  destruct out as [|c out']; [ cbn; lia | ].
  destruct B as (_ & _ & x & w & h & z & color & Hp); [ discriminate | ].
  rewrite Hp. cbn. lia.
Qed.

(** X11. A frame never adds, removes, moves or retimes a record: after
    [UpdatePrimitives] the store has the same keys, the same blocks and the
    same [TimerInfo] in every position, and the timer count, both time
    bounds, the position, the toggle and the track's id are unchanged.
    Only the boxes' position, size and text, and [depth_], can differ.
    Both tracks. *)
Theorem UpdatePrimitives_keeps_the_records env min_tick max_tick :
  (forall tr tr' out,
      GpuTrack.UpdatePrimitives env tr min_tick max_tick = Ok (tr', out) ->
      store_shape (GpuTrack.timers_ tr') = store_shape (GpuTrack.timers_ tr)
      /\ GpuTrack.num_timers_ tr' = GpuTrack.num_timers_ tr
      /\ GpuTrack.min_time_ tr' = GpuTrack.min_time_ tr
      /\ GpuTrack.max_time_ tr' = GpuTrack.max_time_ tr
      /\ GpuTrack.m_Pos tr' = GpuTrack.m_Pos tr
      /\ GpuTrack.collapse_toggle_IsCollapsed tr'
         = GpuTrack.collapse_toggle_IsCollapsed tr
      /\ GpuTrack.timeline_hash_ tr' = GpuTrack.timeline_hash_ tr)
  /\
  (forall tr tr' out,
      ThreadTrack.UpdatePrimitives env tr min_tick max_tick = Ok (tr', out) ->
      store_shape (ThreadTrack.timers_ tr')
      = store_shape (ThreadTrack.timers_ tr)
      /\ ThreadTrack.num_timers_ tr' = ThreadTrack.num_timers_ tr
      /\ ThreadTrack.min_time_ tr' = ThreadTrack.min_time_ tr
      /\ ThreadTrack.max_time_ tr' = ThreadTrack.max_time_ tr
      /\ ThreadTrack.m_Pos tr' = ThreadTrack.m_Pos tr
      /\ ThreadTrack.collapse_toggle_IsCollapsed tr'
         = ThreadTrack.collapse_toggle_IsCollapsed tr
      /\ ThreadTrack.thread_id_ tr' = ThreadTrack.thread_id_ tr).
Proof.
  split; intros tr tr' out H.
  - unfold GpuTrack.UpdatePrimitives in H.
    destruct (u64 (getWidth env) =? 0); [ discriminate | ].
    cbv zeta in H. split_bind H. injection H as <- _.
    apply (scan_chains_shape _ _ _ (GpuTrack_body_shape _ _ _ _ _)) in E.
    cbn. split; [ exact (proj1 E) | repeat split ].
  - apply ThreadTrack_UpdatePrimitives_split in H.
    destruct H as (ev & outs & _ & H & _).
    unfold ThreadTrack.draw_timers in H.
    destruct (u64 (getWidth env) =? 0); [ discriminate | ].
    cbv zeta in H. split_bind H. injection H as <- _.
    apply (scan_chains_shape _ _ _ (ThreadTrack_body_shape _ _ _ _ _)) in E.
    cbn. split; [ exact (proj1 E) | repeat split ].
Qed.

Lemma UpdatePrimitives_keeps_the_records_witness :
  exists tr' out,
    GpuTrack.UpdatePrimitives sample_env gpu_two_expanded 0 100000
    = Ok (tr', out)
    /\ store_shape (GpuTrack.timers_ tr')
       = store_shape (GpuTrack.timers_ gpu_two_expanded)
    /\ GpuTrack.num_timers_ tr' = 2.
Proof.
  assert (E : exists tr' out,
             GpuTrack.UpdatePrimitives sample_env gpu_two_expanded 0 100000
             = Ok (tr', out)).
  { vm_compute. eexists _, _. reflexivity. }
  destruct E as (tr' & out & H). exists tr', out. split; [ exact H | ].
  destruct (proj1 (UpdatePrimitives_keeps_the_records sample_env 0 100000)
                  gpu_two_expanded tr' out H) as (A & B & _).
  split; [ exact A | exact B ].
Defined.

Section LoopOrder.
Variables min_tick max_tick : Z.
Variable body :
  LoopState -> BoxRef -> TextBox ->
  result (LoopState * TextBox * list DrawCall).

Hypothesis body_one :
  forall st ref box st' box' out,
    body st ref box = Ok (st', box', out) ->
    primitives out = []
    \/ exists c, primitives out = [c] /\ call_user_data c = Some ref.

Let ordered (out : list DrawCall) (entries : list (BoxRef * TextBox))
  : Prop :=
  exists recs,
    in_order recs entries
    /\ map call_user_data (primitives out)
       = map (fun entry => Some (fst entry)) recs.

Lemma ordered_nil entries : ordered [] entries.
Proof. exists []. split; [ apply in_order_nil_l | reflexivity ]. Qed.

Lemma ordered_app out1 out2 e1 e2 :
  ordered out1 e1 -> ordered out2 e2 -> ordered (out1 ++ out2) (e1 ++ e2).
Proof.
  intros (r1 & O1 & U1) (r2 & O2 & U2). exists (r1 ++ r2).
  split; [ apply in_order_app; assumption | ].
  rewrite primitives_app, !map_app, U1, U2. reflexivity.
Qed.

Lemma scan_block_order key bi :
  forall boxes k st st' boxes' out,
    scan_block body key bi k st boxes = Ok (st', boxes', out) ->
    ordered out (block_entries key bi k boxes).
Proof.
  induction boxes as [|b rest IH]; cbn [scan_block block_entries];
    intros k st st' boxes' out H.
  - injection H as _ _ <-. apply ordered_nil.
  - split_bind H. split_bind H. injection H as _ _ <-.
    apply IH in E0.
    refine (ordered_app _ _ [((key, bi, k), b)] _ _ E0).
    destruct (body_one _ _ _ _ _ _ E) as [Hp | (c & Hp & Hu)].
    + exists []. rewrite Hp. split; [ apply in_order_nil_l | reflexivity ].
    + exists [((key, bi, k), b)]. rewrite Hp.
      split; [ apply in_order_take, in_order_nil | ].
      cbn [map fst]. rewrite Hu. reflexivity.
Qed.

Lemma scan_chain_order key :
  forall blocks bi st st' blocks' out,
    scan_chain min_tick max_tick body key bi st blocks
    = Ok (st', blocks', out) ->
    ordered out (chain_entries key bi blocks).
Proof.
  induction blocks as [|b rest IH]; cbn [scan_chain chain_entries];
    intros bi st st' blocks' out H.
  - injection H as _ _ <-. apply ordered_nil.
  - destruct (negb (Intersects b min_tick max_tick)).
    + split_bind H. injection H as _ _ <-.
      apply IH in E. exact (ordered_app [] _ _ _ (ordered_nil _) E).
    + split_bind H. split_bind H. injection H as _ _ <-.
      apply scan_block_order in E. apply IH in E0.
      exact (ordered_app _ _ _ _ E E0).
Qed.

Lemma scan_chains_order :
  forall m st st' m' out,
    scan_chains min_tick max_tick body st m = Ok (st', m', out) ->
    ordered out (map_entries m).
Proof.
  induction m as [|[key [chain|]] rest IH]; cbn [scan_chains map_entries];
    intros st st' m' out H.
  - injection H as _ _ <-. apply ordered_nil.
  - split_bind H. split_bind H. injection H as _ _ <-.
    apply scan_chain_order in E. apply IH in E0.
    exact (ordered_app _ _ _ _ E E0).
  - split_bind H. injection H as _ _ <-.
    exact (IH _ _ _ _ E).
Qed.

End LoopOrder.

Lemma GpuTrack_body_one env tr fr min_tick max_tick :
  forall st ref box st' box' out,
    GpuTrack.process_box env tr fr min_tick max_tick st ref box
    = Ok (st', box', out) ->
    primitives out = []
    \/ exists c, primitives out = [c] /\ call_user_data c = Some ref.
Proof.
  intros st ref box st' box' out H.
  apply GpuTrack_process_box_inv in H. cbv zeta in H.
  destruct H as (_ & _ & B).
  destruct out as [|c0 out0]; [ left; reflexivity | right ].
  destruct B as (_ & _ & _ & x & w & h & z & color & Hp & _);
    [ discriminate | ].
  eexists. split; [ exact Hp | ].
  destruct (is_visible_width _ _ _); reflexivity.
Qed.

Lemma ThreadTrack_body_one env tr fr min_tick max_tick :
  forall st ref box st' box' out,
    ThreadTrack.process_box env tr fr min_tick max_tick st ref box
    = Ok (st', box', out) ->
    primitives out = []
    \/ exists c, primitives out = [c] /\ call_user_data c = Some ref.
Proof.
  intros st ref box st' box' out H.
  destruct (ThreadTrack_process_box_trace _ _ _ _ _ _ _ _ _ _ _ H)
    as [[Hp _] | (c & Hp & _ & Hu & _)].
  - left. exact Hp.
  - right. exists c. split; assumption.
Qed.

Lemma block_entries_refs key bi :
  forall boxes k ref,
    In ref (map fst (block_entries key bi k boxes)) ->
    exists i, ref = (key, bi, (k + i)%nat).
Proof.
  intros boxes k ref Hin. apply in_map_iff in Hin.
  destruct Hin as ([ref' box] & <- & Hin).
  destruct (block_entries_stored _ _ _ _ _ _ Hin) as (i & -> & _).
  exists i. reflexivity.
Qed.

Lemma chain_entries_refs key :
  forall blocks bi ref,
    In ref (map fst (chain_entries key bi blocks)) ->
    exists j k, ref = (key, (bi + j)%nat, k).
Proof.
  intros blocks bi ref Hin. apply in_map_iff in Hin.
  destruct Hin as ([ref' box] & <- & Hin).
  destruct (chain_entries_stored _ _ _ _ _ Hin) as (j & k & _ & -> & _).
  exists j, k. reflexivity.
Qed.

Lemma map_entries_refs (m : TimerMap) (ref : BoxRef) :
  In ref (map fst (map_entries m)) ->
  In (fst (fst ref)) (map fst m).
Proof.
  intros Hin. apply in_map_iff in Hin.
  destruct Hin as ([ref' box] & <- & Hin).
  apply map_entries_stored in Hin. destruct ref' as [[key j] k].
  destruct Hin as (chain & block & Hm & _). cbn [fst].
  apply in_map_iff. exists (key, Some chain). split; [ reflexivity | exact Hm ].
Qed.

Lemma block_entries_NoDup key bi :
  forall boxes k, NoDup (map fst (block_entries key bi k boxes)).
Proof.
  induction boxes as [|b rest IH]; intros k; cbn [block_entries map fst].
  - constructor.
  - constructor; [ | apply IH ].
    intros Hin. apply block_entries_refs in Hin.
    destruct Hin as (i & [= Hi]). lia.
Qed.

Lemma chain_entries_NoDup key :
  forall blocks bi, NoDup (map fst (chain_entries key bi blocks)).
Proof.
  induction blocks as [|b rest IH]; intros bi; cbn [chain_entries].
  - constructor.
  - rewrite map_app. apply NoDup_app.
    + apply block_entries_NoDup.
    + apply IH.
    + intros ref H1 H2. apply block_entries_refs in H1.
      apply chain_entries_refs in H2.
      destruct H1 as (i & ->). destruct H2 as (j & k & [= Hj _]). lia.
Qed.

Lemma map_entries_NoDup (m : TimerMap) :
  keys_increasing m -> NoDup (map fst (map_entries m)).
Proof.
  unfold keys_increasing.
  induction m as [|[key [chain|]] rest IH]; cbn [map_entries map fst];
    intros Hk.
  - constructor.
  - apply StronglySorted_inv in Hk. destruct Hk as [Hk Hall].
    rewrite map_app. apply NoDup_app.
    + apply chain_entries_NoDup.
    + apply IH. exact Hk.
    + intros ref H1 H2. apply chain_entries_refs in H1.
      apply map_entries_refs in H2. destruct H1 as (j & k & ->).
      cbn [fst] in H2. rewrite Forall_forall in Hall.
      specialize (Hall key H2). lia.
  - apply StronglySorted_inv in Hk. apply IH. exact (proj1 Hk).
Qed.

Lemma in_order_map {A B : Type} (f : A -> B) (l m : list A) :
  in_order l m -> in_order (map f l) (map f m).
Proof. induction 1; cbn [map]; constructor; assumption. Qed.

Lemma in_order_NoDup {A : Type} (l m : list A) :
  in_order l m -> NoDup m -> NoDup l.
Proof.
  induction 1 as [|x l m H IH|x l m H IH]; intros Hm.
  - constructor.
  - apply IH. apply NoDup_cons_iff in Hm. exact (proj2 Hm).
  - apply NoDup_cons_iff in Hm. destruct Hm as [Hx Hm].
    constructor; [ | exact (IH Hm) ].
    intros Hin. apply Hx. exact (in_order_In _ _ _ H Hin).
Qed.

Lemma NoDup_map_Some {A : Type} (l : list A) :
  NoDup l -> NoDup (map (@Some A) l).
Proof.
  induction 1 as [|x l Hx Hl IH]; cbn [map]; constructor; [ | exact IH ].
  intros Hin. apply in_map_iff in Hin. destruct Hin as (y & [= ->] & Hy).
  contradiction.
Qed.

Lemma map_entries_boxes (m : TimerMap) :
  map snd (map_entries m) = map_boxes m.
Proof.
  assert (B : forall key bi boxes k,
             map snd (block_entries key bi k boxes) = boxes).
  { intros key bi. induction boxes as [|b rest IH]; intros k;
      cbn [block_entries map snd]; [ reflexivity | rewrite IH; reflexivity ]. }
  assert (C : forall key blocks bi,
             map snd (chain_entries key bi blocks) = chain_boxes blocks).
  { intros key. unfold chain_boxes.
    induction blocks as [|b rest IH]; intros bi;
      cbn [chain_entries List.concat]; [ reflexivity | ].
    rewrite map_app, B, IH. reflexivity. }
  unfold map_boxes.
  induction m as [|[key [chain|]] rest IH];
    cbn [map_entries flat_map snd]; [ reflexivity | | exact IH ].
  rewrite map_app, C, IH. reflexivity.
Qed.

(** The trace of a frame: the references carried by its boxes and lines
    are those of a sub-list of the stored positions, in visiting order. *)
Lemma drawn_in_store_order (m : TimerMap) (out : list DrawCall)
      (recs : list (BoxRef * TextBox)) :
  in_order recs (map_entries m) ->
  map call_user_data (primitives out)
  = map (fun entry => Some (fst entry)) recs ->
  (keys_increasing m -> NoDup (map call_user_data (primitives out)))
  /\ (List.length (primitives out) <= List.length (map_boxes m))%nat.
Proof.
  intros Hord Hu. split.
  - intros Hk. rewrite Hu, <- (map_map fst (@Some BoxRef)).
    apply NoDup_map_Some.
    apply (in_order_NoDup _ _ (in_order_map fst _ _ Hord)).
    apply map_entries_NoDup. exact Hk.
  - rewrite <- (length_map call_user_data), Hu, length_map.
    rewrite <- map_entries_boxes, length_map.
    apply in_order_length. exact Hord.
Qed.

(** X12. A frame draws the stored records in store order and each at most
    once.  The boxes and lines that [UpdatePrimitives] emits for timers
    carry, in call order, the references of a sub-list of the stored
    positions as the three loops visit them (chains by key, blocks in
    order, records by index): no position is used twice and none out of
    turn.  On a store whose keys are strictly ascending, as in a
    [std::map], no reference occurs twice among them; and their number is
    at most the number of stored records.  Both tracks; on a thread track
    this is said of the calls that follow those of its event track, with
    which the frame begins. *)
Theorem UpdatePrimitives_draws_each_record_at_most_once env min_tick max_tick :
  (forall tr tr' out,
      GpuTrack.UpdatePrimitives env tr min_tick max_tick = Ok (tr', out) ->
      (exists recs,
          in_order recs (map_entries (GpuTrack.timers_ tr))
          /\ map call_user_data (primitives out)
             = map (fun entry => Some (fst entry)) recs)
      /\ (keys_increasing (GpuTrack.timers_ tr) ->
          NoDup (map call_user_data (primitives out)))
      /\ (List.length (primitives out)
          <= List.length (map_boxes (GpuTrack.timers_ tr)))%nat)
  /\
  (forall tr tr' out,
      ThreadTrack.UpdatePrimitives env tr min_tick max_tick = Ok (tr', out) ->
      exists event_calls own_calls,
        event_track_UpdatePrimitives env (ThreadTrack.m_Pos tr)
                                     min_tick max_tick
        = Ok event_calls
        /\ out = map FromEventTrack event_calls ++ own_calls
        /\ (exists recs,
               in_order recs (map_entries (ThreadTrack.timers_ tr))
               /\ map call_user_data (primitives own_calls)
                  = map (fun entry => Some (fst entry)) recs)
        /\ (keys_increasing (ThreadTrack.timers_ tr) ->
            NoDup (map call_user_data (primitives own_calls)))
        /\ (List.length (primitives own_calls)
            <= List.length (map_boxes (ThreadTrack.timers_ tr)))%nat).
Proof.
  split; intros tr tr' out H.
  - apply GpuTrack_UpdatePrimitives_inv in H.
    destruct H as (st' & timers' & Hscan & _ & _).
    destruct (scan_chains_order _ _ _ (GpuTrack_body_one _ _ _ _ _)
                _ _ _ _ _ Hscan) as (recs & Hord & Hu).
    split; [ exists recs; split; assumption | ].
    exact (drawn_in_store_order _ _ _ Hord Hu).
  - apply ThreadTrack_UpdatePrimitives_split in H.
    destruct H as (ev & outs & Hev & H & ->).
    exists ev, outs. split; [ exact Hev | ]. split; [ reflexivity | ].
    apply ThreadTrack_draw_timers_inv in H.
    destruct H as (st' & timers' & Hscan & _ & _).
    destruct (scan_chains_order _ _ _ (ThreadTrack_body_one _ _ _ _ _)
                _ _ _ _ _ Hscan) as (recs & Hord & Hu).
    split; [ exists recs; split; assumption | ].
    exact (drawn_in_store_order _ _ _ Hord Hu).
Qed.

Lemma UpdatePrimitives_draws_each_record_at_most_once_witness :
  let env := with_event_track busy_event_track sample_env in
  keys_increasing (ThreadTrack.timers_ thread_two)
  /\ exists tr' out own_calls,
      ThreadTrack.UpdatePrimitives env thread_two 0 100000 = Ok (tr', out)
      /\ out = [FromEventTrack (mkEventTrackCall 1);
                FromEventTrack (mkEventTrackCall 2)] ++ own_calls
      /\ map call_user_data (primitives own_calls)
         = [Some (0, 0%nat, 0%nat); Some (1, 0%nat, 0%nat)]
      /\ NoDup (map call_user_data (primitives own_calls)).
Proof.
  intros env.
  assert (Hk : keys_increasing (ThreadTrack.timers_ thread_two)).
  { unfold keys_increasing. cbn. repeat constructor. }
  split; [ exact Hk | ].
  assert (E : exists tr' out,
             ThreadTrack.UpdatePrimitives env thread_two 0 100000
             = Ok (tr', out)
             /\ map call_user_data (primitives (skipn 2 out))
                = [Some (0, 0%nat, 0%nat); Some (1, 0%nat, 0%nat)]).
  { vm_compute. eexists _, _. split; reflexivity. }
  destruct E as (tr' & out & H & Hu).
  destruct (proj2 (UpdatePrimitives_draws_each_record_at_most_once
                     env 0 100000) thread_two tr' out H)
    as (ev & own & Hev & Hout & _ & Hnd & _).
  vm_compute in Hev. injection Hev as <-. cbn [map] in Hout.
  rewrite Hout in Hu.
  exists tr', out, own.
  split; [ exact H | ]. split; [ exact Hout | ]. split; [ exact Hu | ].
  exact (Hnd Hk).
Defined.

(* ----------------------------------------------------------------- *)
(** ** The depth counter and the colours of a frame *)

Ltac body_cases H :=
  repeat case_if_in H; cbn [bind] in H; try discriminate H;
  injection H as <- <- <-.

Lemma GpuTrack_process_box_effect env tr fr min_tick max_tick st ref box
      st' box' out :
  GpuTrack.process_box env tr fr min_tick max_tick st ref box
  = Ok (st', box', out) ->
  let ti := GetTimerInfo box in
  loop_depth_ st'
  = (if skipped_by_visibility min_tick max_tick ti || skipped_by_ignore st ti
     then loop_depth_ st
     else UpdateDepth (u32 (depth ti + 1)) (loop_depth_ st))
  /\ forall c, In c (primitives out) ->
       call_user_data c = Some ref
       /\ call_color c
          = Some (GpuTrack.GetTimerColor env ti (is_selected_box env ref)
                                         false).
Proof.
  intros H ti. unfold GpuTrack.process_box in H. cbv zeta in H.
  fold ti in H.
  fold (skipped_by_visibility min_tick max_tick ti) in H.
  fold (skipped_by_ignore st ti) in H.
  destruct (skipped_by_visibility min_tick max_tick ti);
    [ injection H as <- <- <-; split; [ reflexivity | intros c [] ] | ].
  destruct (skipped_by_ignore st ti);
    [ injection H as <- <- <-; split; [ reflexivity | intros c [] ] | ].
  cbn [orb].
  unfold GpuTrack.SetTimesliceText in H.
  body_cases H; cbn [loop_depth_];
    (split; [ reflexivity | ]);
    cbn [primitives filter is_primitive app draw_timeslice_text];
    intros c Hc; repeat (destruct Hc as [<- | Hc]; [ split; reflexivity | ]);
    destruct Hc.
Qed.

Lemma ThreadTrack_process_box_effect env tr fr min_tick max_tick st ref box
      st' box' out :
  ThreadTrack.process_box env tr fr min_tick max_tick st ref box
  = Ok (st', box', out) ->
  let ti := GetTimerInfo box in
  loop_depth_ st'
  = (if skipped_by_visibility min_tick max_tick ti || skipped_by_ignore st ti
     then loop_depth_ st
     else UpdateDepth (u32 (depth ti + 1)) (loop_depth_ st))
  /\ forall c, In c (primitives out) ->
       call_user_data c = Some ref
       /\ call_color c
          = Some (ThreadTrack.GetTimerColor env ti (is_selected_box env ref)
                    (negb (GVisibleFunctionsMap_empty env)
                     && match GVisibleFunctionsMap env (function_address ti)
                        with
                        | None => true
                        | Some _ => false
                        end)).
Proof.
  intros H ti. unfold ThreadTrack.process_box in H. cbv zeta in H.
  fold ti in H.
  fold (skipped_by_visibility min_tick max_tick ti) in H.
  fold (skipped_by_ignore st ti) in H.
  destruct (skipped_by_visibility min_tick max_tick ti);
    [ injection H as <- <- <-; split; [ reflexivity | intros c [] ] | ].
  destruct (skipped_by_ignore st ti);
    [ injection H as <- <- <-; split; [ reflexivity | intros c [] ] | ].
  cbn [orb].
  unfold ThreadTrack.SetTimesliceText in H.
  destruct (F64.gtb _ _) in H.
  - destruct (negb (ThreadTrack.is_collapsed fr));
      injection H as <- <- <-; cbn [loop_depth_];
      (split; [ reflexivity | ]);
      cbn [primitives filter is_primitive app draw_timeslice_text];
      intros c Hc; repeat (destruct Hc as [<- | Hc]; [ split; reflexivity | ]);
      destruct Hc.
  - destruct (negb (ThreadTrack.pixel_delta_in_ticks fr =? 0));
      injection H as <- <- <-; cbn [loop_depth_];
      (split; [ reflexivity | ]);
      cbn [primitives filter is_primitive app];
      intros c Hc; repeat (destruct Hc as [<- | Hc]; [ split; reflexivity | ]);
      destruct Hc.
Qed.

Lemma depth_raised_refl min_tick max_tick boxes d :
  depth_raised_by min_tick max_tick boxes d d.
Proof. left. reflexivity. Qed.

Lemma depth_raised_trans min_tick max_tick l1 l2 d0 d1 d2 :
  depth_raised_by min_tick max_tick l1 d0 d1 ->
  depth_raised_by min_tick max_tick l2 d1 d2 ->
  depth_raised_by min_tick max_tick (l1 ++ l2) d0 d2.
Proof.
  intros [-> | (b1 & I1 & V1 & -> & L1)] [-> | (b2 & I2 & V2 & -> & L2)].
  - left. reflexivity.
  - right. exists b2. rewrite in_app_iff. auto.
  - right. exists b1. rewrite in_app_iff. auto.
  - right. exists b2. rewrite in_app_iff. repeat split; auto. lia.
Qed.

Lemma depth_raised_weaken min_tick max_tick l1 l2 d0 d1 :
  depth_raised_by min_tick max_tick l2 d0 d1 ->
  depth_raised_by min_tick max_tick (l1 ++ l2) d0 d1.
Proof.
  intros H. apply (depth_raised_trans _ _ l1 l2 d0 d0 d1);
    [ apply depth_raised_refl | exact H ].
Qed.

Section LoopDepth.
Variables min_tick max_tick : Z.
Variable body :
  LoopState -> BoxRef -> TextBox ->
  result (LoopState * TextBox * list DrawCall).

Hypothesis body_depth :
  forall st ref box st' box' out,
    body st ref box = Ok (st', box', out) ->
    loop_depth_ st'
    = (if skipped_by_visibility min_tick max_tick (GetTimerInfo box)
          || skipped_by_ignore st (GetTimerInfo box)
       then loop_depth_ st
       else UpdateDepth (u32 (depth (GetTimerInfo box) + 1))
                        (loop_depth_ st)).

Lemma body_depth_raised st ref box st' box' out :
  body st ref box = Ok (st', box', out) ->
  depth_raised_by min_tick max_tick [box] (loop_depth_ st) (loop_depth_ st').
Proof.
  intros H. apply body_depth in H. rewrite H.
  destruct (skipped_by_visibility _ _ _) eqn:V; cbn [orb];
    [ left; reflexivity | ].
  destruct (skipped_by_ignore _ _); [ left; reflexivity | ].
  unfold UpdateDepth.
  destruct (Z.gtb_spec (u32 (depth (GetTimerInfo box) + 1)) (loop_depth_ st));
    [ | left; reflexivity ].
  right. exists box. repeat split; auto. left. reflexivity.
Qed.

Lemma scan_block_depth_raised key bi :
  forall boxes k st st' boxes' out,
    scan_block body key bi k st boxes = Ok (st', boxes', out) ->
    depth_raised_by min_tick max_tick boxes
                    (loop_depth_ st) (loop_depth_ st').
Proof.
  induction boxes as [|b rest IH]; cbn [scan_block];
    intros k st st' boxes' out H.
  - injection H as <- _ _. apply depth_raised_refl.
  - split_bind H. split_bind H. injection H as <- _ _.
    apply body_depth_raised in E. apply IH in E0.
    exact (depth_raised_trans _ _ [b] rest _ _ _ E E0).
Qed.

Lemma scan_chain_depth_raised key :
  forall blocks bi st st' blocks' out,
    scan_chain min_tick max_tick body key bi st blocks
    = Ok (st', blocks', out) ->
    depth_raised_by min_tick max_tick (chain_boxes blocks)
                    (loop_depth_ st) (loop_depth_ st').
Proof.
  unfold chain_boxes.
  induction blocks as [|b rest IH]; cbn [scan_chain List.concat];
    intros bi st st' blocks' out H.
  - injection H as <- _ _. apply depth_raised_refl.
  - destruct (negb (Intersects b min_tick max_tick)).
    + split_bind H. injection H as <- _ _.
      apply IH in E. apply depth_raised_weaken. exact E.
    + split_bind H. split_bind H. injection H as <- _ _.
      apply scan_block_depth_raised in E. apply IH in E0.
      cbn [reset_ignore loop_depth_] in E.
      exact (depth_raised_trans _ _ _ _ _ _ _ E E0).
Qed.

Lemma scan_chains_depth_raised :
  forall m st st' m' out,
    scan_chains min_tick max_tick body st m = Ok (st', m', out) ->
    depth_raised_by min_tick max_tick (map_boxes m)
                    (loop_depth_ st) (loop_depth_ st').
Proof.
  unfold map_boxes.
  induction m as [|[key [chain|]] rest IH]; cbn [scan_chains flat_map snd];
    intros st st' m' out H.
  - injection H as <- _ _. apply depth_raised_refl.
  - split_bind H. split_bind H. injection H as <- _ _.
    apply scan_chain_depth_raised in E. apply IH in E0.
    exact (depth_raised_trans _ _ _ _ _ _ _ E E0).
  - split_bind H. injection H as <- _ _.
    apply IH in E. exact E.
Qed.

End LoopDepth.

Lemma GpuTrack_body_depth env tr fr min_tick max_tick :
  forall st ref box st' box' out,
    GpuTrack.process_box env tr fr min_tick max_tick st ref box
    = Ok (st', box', out) ->
    loop_depth_ st'
    = (if skipped_by_visibility min_tick max_tick (GetTimerInfo box)
          || skipped_by_ignore st (GetTimerInfo box)
       then loop_depth_ st
       else UpdateDepth (u32 (depth (GetTimerInfo box) + 1))
                        (loop_depth_ st)).
Proof.
  intros st ref box st' box' out H.
  exact (proj1 (GpuTrack_process_box_effect _ _ _ _ _ _ _ _ _ _ _ H)).
Qed.

Lemma ThreadTrack_body_depth env tr fr min_tick max_tick :
  forall st ref box st' box' out,
    ThreadTrack.process_box env tr fr min_tick max_tick st ref box
    = Ok (st', box', out) ->
    loop_depth_ st'
    = (if skipped_by_visibility min_tick max_tick (GetTimerInfo box)
          || skipped_by_ignore st (GetTimerInfo box)
       then loop_depth_ st
       else UpdateDepth (u32 (depth (GetTimerInfo box) + 1))
                        (loop_depth_ st)).
Proof.
  intros st ref box st' box' out H.
  exact (proj1 (ThreadTrack_process_box_effect _ _ _ _ _ _ _ _ _ _ _ H)).
Qed.

Lemma drawn_depth_covered
      (body : LoopState -> BoxRef -> TextBox ->
              result (LoopState * TextBox * list DrawCall))
      min_tick max_tick st0 ref box st1 box' outs (c : DrawCall) :
  (forall st ref box st' box' out,
      body st ref box = Ok (st', box', out) ->
      loop_depth_ st'
      = (if skipped_by_visibility min_tick max_tick (GetTimerInfo box)
            || skipped_by_ignore st (GetTimerInfo box)
         then loop_depth_ st
         else UpdateDepth (u32 (depth (GetTimerInfo box) + 1))
                          (loop_depth_ st))) ->
  (outs <> [] ->
   skipped_by_visibility min_tick max_tick (GetTimerInfo box) = false
   /\ skipped_by_ignore st0 (GetTimerInfo box) = false) ->
  body st0 ref box = Ok (st1, box', outs) ->
  In c outs ->
  u32 (depth (GetTimerInfo box) + 1) <= loop_depth_ st1.
Proof.
  intros Hbody Hne Hb Hc.
  assert (N : outs <> []) by (intros ->; contradiction).
  destruct (Hne N) as [V I]. rewrite (Hbody _ _ _ _ _ _ Hb), V, I.
  cbn [orb]. unfold UpdateDepth.
  destruct (Z.gtb_spec (u32 (depth (GetTimerInfo box) + 1)) (loop_depth_ st0));
    lia.
Qed.

(** X13. What a frame does to [depth_]: after [UpdatePrimitives] it is
    either what it was, or it has been raised to [depth + 1] (as a
    [uint32_t]) of a stored record that overlaps the tick range; it is never
    lowered.  And it covers what was drawn: every box or line drawn for a
    timer belongs to a stored record whose [depth + 1] is at most the new
    [depth_].  Both tracks; on a thread track the boxes and lines are those
    among the calls that follow the calls of its event track, with which
    the frame begins. *)
Theorem UpdatePrimitives_raises_depth_to_drawn_records env min_tick max_tick :
  (forall tr tr' out,
      GpuTrack.UpdatePrimitives env tr min_tick max_tick = Ok (tr', out) ->
      depth_raised_by min_tick max_tick (map_boxes (GpuTrack.timers_ tr))
                      (GpuTrack.depth_ tr) (GpuTrack.depth_ tr')
      /\ forall c, In c out -> is_primitive c = true ->
           exists ref box,
             call_user_data c = Some ref
             /\ stored_at (GpuTrack.timers_ tr) ref box
             /\ u32 (depth (GetTimerInfo box) + 1) <= GpuTrack.depth_ tr')
  /\
  (forall tr tr' out,
      ThreadTrack.UpdatePrimitives env tr min_tick max_tick = Ok (tr', out) ->
      depth_raised_by min_tick max_tick (map_boxes (ThreadTrack.timers_ tr))
                      (ThreadTrack.depth_ tr) (ThreadTrack.depth_ tr')
      /\ exists event_calls own_calls,
          event_track_UpdatePrimitives env (ThreadTrack.m_Pos tr)
                                       min_tick max_tick
          = Ok event_calls
          /\ out = map FromEventTrack event_calls ++ own_calls
          /\ forall c, In c own_calls -> is_primitive c = true ->
               exists ref box,
                 call_user_data c = Some ref
                 /\ stored_at (ThreadTrack.timers_ tr) ref box
                 /\ u32 (depth (GetTimerInfo box) + 1)
                    <= ThreadTrack.depth_ tr').
Proof.
  split; intros tr tr' out H.
  - apply GpuTrack_UpdatePrimitives_inv in H.
    destruct H as (st' & timers' & Hscan & -> & _). split.
    + exact (scan_chains_depth_raised _ _ _ (GpuTrack_body_depth _ _ _ _ _)
               _ _ _ _ _ Hscan).
    + intros c Hin Hprim.
      destruct (scan_chains_origin _ _ _ (GpuTrack_body_depth_mono _ _ _ _ _)
                  _ _ _ _ _ c Hscan Hin)
        as (st0 & ref & box & st1 & box' & outs & Hst & Hb & Hc' & _ & Hhi).
      exists ref, box.
      pose proof (GpuTrack_process_box_effect _ _ _ _ _ _ _ _ _ _ _ Hb) as Eff.
      cbv zeta in Eff. destruct Eff as [_ Eff].
      split; [ exact (proj1 (Eff c (primitives_in _ _ Hc' Hprim))) | ].
      split; [ exact Hst | ].
      assert (u32 (depth (GetTimerInfo box) + 1) <= loop_depth_ st1); [ | lia ].
      refine (drawn_depth_covered _ min_tick max_tick _ _ _ _ _ _ c
                (GpuTrack_body_depth _ _ _ _ _) _ Hb Hc').
      intros N. apply GpuTrack_process_box_inv in Hb. cbv zeta in Hb.
      destruct Hb as (_ & _ & Hb). destruct (Hb N) as (V & I & _).
      split; assumption.
  - apply ThreadTrack_UpdatePrimitives_split in H.
    destruct H as (ev & own & Hev & H & ->).
    apply ThreadTrack_draw_timers_inv in H.
    destruct H as (st' & timers' & Hscan & -> & _). split.
    + exact (scan_chains_depth_raised _ _ _ (ThreadTrack_body_depth _ _ _ _ _)
               _ _ _ _ _ Hscan).
    + exists ev, own. split; [ exact Hev | ]. split; [ reflexivity | ].
      intros c Hin Hprim.
      destruct (scan_chains_origin _ _ _
                  (ThreadTrack_body_depth_mono _ _ _ _ _)
                  _ _ _ _ _ c Hscan Hin)
        as (st0 & ref & box & st1 & box' & outs & Hst & Hb & Hc' & _ & Hhi).
      exists ref, box.
      pose proof (ThreadTrack_process_box_effect _ _ _ _ _ _ _ _ _ _ _ Hb)
        as Eff.
      cbv zeta in Eff. destruct Eff as [_ Eff].
      split; [ exact (proj1 (Eff c (primitives_in _ _ Hc' Hprim))) | ].
      split; [ exact Hst | ].
      assert (u32 (depth (GetTimerInfo box) + 1) <= loop_depth_ st1); [ | lia ].
      refine (drawn_depth_covered _ min_tick max_tick _ _ _ _ _ _ c
                (ThreadTrack_body_depth _ _ _ _ _) _ Hb Hc').
      intros N. apply ThreadTrack_process_box_inv in Hb. cbv zeta in Hb.
      destruct Hb as (_ & _ & Hb). destruct (Hb N) as (V & I & _).
      split; assumption.
Qed.

Lemma UpdatePrimitives_raises_depth_to_drawn_records_witness :
  let env := with_event_track busy_event_track sample_env in
  exists tr' out own_calls c ref box,
    ThreadTrack.UpdatePrimitives env core_track 0 100000 = Ok (tr', out)
    /\ out = [FromEventTrack (mkEventTrackCall 1);
              FromEventTrack (mkEventTrackCall 2)] ++ own_calls
    /\ ThreadTrack.depth_ core_track = 2
    /\ ThreadTrack.depth_ tr' = 4
    /\ depth_raised_by 0 100000
         (map_boxes (ThreadTrack.timers_ core_track))
         (ThreadTrack.depth_ core_track) (ThreadTrack.depth_ tr')
    /\ In c own_calls /\ is_primitive c = true
    /\ call_user_data c = Some ref
    /\ stored_at (ThreadTrack.timers_ core_track) ref box
    /\ u32 (depth (GetTimerInfo box) + 1) <= ThreadTrack.depth_ tr'.
Proof.
  intros env.
  assert (E : exists tr' out c,
             ThreadTrack.UpdatePrimitives env core_track 0 100000
             = Ok (tr', out)
             /\ ThreadTrack.depth_ tr' = 4
             /\ nth_error out 2 = Some c /\ is_primitive c = true).
  { vm_compute. eexists _, _, _. split; [ reflexivity | ].
    split; [ reflexivity | ]. split; reflexivity. }
  destruct E as (tr' & out & c & H & Hd & Hn & Hp).
  destruct (proj2 (UpdatePrimitives_raises_depth_to_drawn_records
                     env 0 100000) core_track tr' out H)
    as (R & ev & own & Hev & Hout & D).
  vm_compute in Hev. injection Hev as <-. cbn [map] in Hout.
  assert (Hin : In c own).
  { rewrite Hout in Hn. exact (nth_error_In own 0 Hn). }
  destruct (D c Hin Hp) as (ref & box & A & B & C).
  exists tr', out, own, c, ref, box.
  split; [ exact H | ]. split; [ exact Hout | ].
  split; [ reflexivity | ]. split; [ exact Hd | ].
  split; [ exact R | ]. split; [ exact Hin | ]. split; [ exact Hp | ].
  split; [ exact A | ]. split; [ exact B | exact C ].
Defined.

Lemma is_selected_box_iff (r : BoxRef) (env : Env) :
  is_selected_box env r = true <-> GSelectedTextBox env = Some r.
Proof.
  unfold is_selected_box.
  destruct (GSelectedTextBox env) as [[[k b] i]|]; [ | split; discriminate ].
  destruct r as [[k' b'] i']. cbn [BoxRef_eqb].
  rewrite !Bool.andb_true_iff, Z.eqb_eq, !Nat.eqb_eq. split.
  - intros [[-> ->] ->]. reflexivity.
  - intros [= -> -> ->]. auto.
Qed.

(** X14. The colour that reaches the batcher.  Every box or line that a
    frame draws for a timer carries the reference of a stored record as its
    picking user data, and
    - when that record is the selected text box, its colour is the
      selection colour, whatever its stage, depth or visibility;
    - otherwise, on a GPU track it is the stage colour of the record (the
      inactive colour is never used there), and on a thread track it is the
      inactive colour as soon as the visible-functions map is not empty and
      does not hold the record's function.
    Both tracks; on a thread track the boxes and lines are those among the
    calls that follow the calls of its event track, with which the frame
    begins. *)
Theorem drawn_record_colour env min_tick max_tick :
  (forall tr tr' out c,
      GpuTrack.UpdatePrimitives env tr min_tick max_tick = Ok (tr', out) ->
      In c out -> is_primitive c = true ->
      exists ref box,
        call_user_data c = Some ref
        /\ stored_at (GpuTrack.timers_ tr) ref box
        /\ (GSelectedTextBox env = Some ref ->
            call_color c = Some kSelectionColor)
        /\ (GSelectedTextBox env <> Some ref ->
            call_color c
            = Some (GpuTrack.GetTimerColor env (GetTimerInfo box)
                                           false false)))
  /\
  (forall tr tr' out,
      ThreadTrack.UpdatePrimitives env tr min_tick max_tick = Ok (tr', out) ->
      exists event_calls own_calls,
        event_track_UpdatePrimitives env (ThreadTrack.m_Pos tr)
                                     min_tick max_tick
        = Ok event_calls
        /\ out = map FromEventTrack event_calls ++ own_calls
        /\ forall c, In c own_calls -> is_primitive c = true ->
             exists ref box,
               call_user_data c = Some ref
               /\ stored_at (ThreadTrack.timers_ tr) ref box
               /\ (GSelectedTextBox env = Some ref ->
                   call_color c = Some kSelectionColor)
               /\ (GSelectedTextBox env <> Some ref ->
                   GVisibleFunctionsMap_empty env = false ->
                   GVisibleFunctionsMap env
                     (function_address (GetTimerInfo box))
                   = None ->
                   call_color c = Some kInactiveColor)).
Proof.
  split; [ intros tr tr' out c H Hin Hprim | intros tr tr' out H ].
  - apply GpuTrack_UpdatePrimitives_inv in H.
    destruct H as (st' & timers' & Hscan & _ & _).
    destruct (scan_chains_origin _ _ _ (GpuTrack_body_depth_mono _ _ _ _ _)
                _ _ _ _ _ c Hscan Hin)
      as (st0 & ref & box & st1 & box' & outs & Hst & Hb & Hc' & _ & _).
    exists ref, box.
    pose proof (GpuTrack_process_box_effect _ _ _ _ _ _ _ _ _ _ _ Hb) as Eff.
    cbv zeta in Eff. destruct Eff as [_ Eff].
    destruct (Eff c (primitives_in _ _ Hc' Hprim)) as [U C].
    split; [ exact U | ]. split; [ exact Hst | ]. rewrite C. split.
    + intros S. apply is_selected_box_iff in S. rewrite S. reflexivity.
    + intros S. destruct (is_selected_box env ref) eqn:Es;
        [ apply is_selected_box_iff in Es; contradiction | reflexivity ].
  - apply ThreadTrack_UpdatePrimitives_split in H.
    destruct H as (ev & own & Hev & H & ->).
    exists ev, own. split; [ exact Hev | ]. split; [ reflexivity | ].
    intros c Hin Hprim.
    apply ThreadTrack_draw_timers_inv in H.
    destruct H as (st' & timers' & Hscan & _ & _).
    destruct (scan_chains_origin _ _ _ (ThreadTrack_body_depth_mono _ _ _ _ _)
                _ _ _ _ _ c Hscan Hin)
      as (st0 & ref & box & st1 & box' & outs & Hst & Hb & Hc' & _ & _).
    exists ref, box.
    pose proof (ThreadTrack_process_box_effect _ _ _ _ _ _ _ _ _ _ _ Hb)
      as Eff.
    cbv zeta in Eff. destruct Eff as [_ Eff].
    destruct (Eff c (primitives_in _ _ Hc' Hprim)) as [U C].
    split; [ exact U | ]. split; [ exact Hst | ]. rewrite C. split.
    + intros S. apply is_selected_box_iff in S. rewrite S. reflexivity.
    + intros S Hv Hf. rewrite Hv, Hf.
      destruct (is_selected_box env ref) eqn:Es;
        [ apply is_selected_box_iff in Es; contradiction | reflexivity ].
Qed.

Lemma drawn_record_colour_witness :
  let env :=
    with_event_track busy_event_track (select (1, 0%nat, 0%nat) sample_env) in
  exists tr' out own_calls c,
    ThreadTrack.UpdatePrimitives env thread_two 0 100000 = Ok (tr', out)
    /\ out = [FromEventTrack (mkEventTrackCall 1);
              FromEventTrack (mkEventTrackCall 2)] ++ own_calls
    /\ In c own_calls /\ is_primitive c = true
    /\ call_user_data c = Some (1, 0%nat, 0%nat)
    /\ call_color c = Some kSelectionColor.
Proof.
  intros env.
  assert (E : exists tr' out c,
             ThreadTrack.UpdatePrimitives env thread_two 0 100000
             = Ok (tr', out)
             /\ nth_error out 5 = Some c /\ is_primitive c = true
             /\ call_user_data c = Some (1, 0%nat, 0%nat)).
  { vm_compute. eexists _, _, _. split; [ reflexivity | ].
    split; [ reflexivity | ]. split; reflexivity. }
  destruct E as (tr' & out & c & H & Hn & Hp & Hu).
  destruct (proj2 (drawn_record_colour env 0 100000) thread_two tr' out H)
    as (ev & own & Hev & Hout & D).
  vm_compute in Hev. injection Hev as <-. cbn [map] in Hout.
  assert (Hin : In c own).
  { rewrite Hout in Hn. exact (nth_error_In own 3 Hn). }
  exists tr', out, own, c.
  split; [ exact H | ]. split; [ exact Hout | ].
  split; [ exact Hin | ]. split; [ exact Hp | ]. split; [ exact Hu | ].
  destruct (D c Hin Hp) as (ref & box & U & _ & S & _).
  apply S. rewrite <- U, Hu. reflexivity.
Defined.

(* ----------------------------------------------------------------- *)
(** ** Records that share a pixel *)

Section LoopSkip.
Variable body :
  LoopState -> BoxRef -> TextBox ->
  result (LoopState * TextBox * list DrawCall).

Hypothesis body_skips :
  forall st ref box,
    skipped_by_ignore st (GetTimerInfo box) = true ->
    body st ref box = Ok (st, box, []).

Lemma scan_block_all_ignored key bi st :
  forall boxes k,
    (forall x, In x boxes -> skipped_by_ignore st (GetTimerInfo x) = true) ->
    scan_block body key bi k st boxes = Ok (st, boxes, []).
Proof.
  induction boxes as [|b rest IH]; intros k Hall; cbn [scan_block];
    [ reflexivity | ].
  rewrite (body_skips st (key, bi, k) b (Hall b (or_introl eq_refl))).
  cbn [bind]. rewrite IH; [ reflexivity | ].
  intros x Hx. apply Hall. right. exact Hx.
Qed.

End LoopSkip.

Lemma within_ignored (st : LoopState) (ti : TimerInfo) :
  within (min_ignore st) (max_ignore st) ti ->
  skipped_by_ignore st ti = true.
Proof.
  intros [A B]. unfold skipped_by_ignore.
  apply Bool.andb_true_iff. split; [ apply Z.geb_le | apply Z.leb_le ];
    assumption.
Qed.

Lemma GpuTrack_process_box_skips env tr fr min_tick max_tick st ref box :
  skipped_by_ignore st (GetTimerInfo box) = true ->
  GpuTrack.process_box env tr fr min_tick max_tick st ref box
  = Ok (st, box, []).
Proof.
  intros H. unfold GpuTrack.process_box. cbv zeta.
  fold (skipped_by_ignore st (GetTimerInfo box)). rewrite H.
  destruct (_ || _); reflexivity.
Qed.

Lemma ThreadTrack_process_box_skips env tr fr min_tick max_tick st ref box :
  skipped_by_ignore st (GetTimerInfo box) = true ->
  ThreadTrack.process_box env tr fr min_tick max_tick st ref box
  = Ok (st, box, []).
Proof.
  intros H. unfold ThreadTrack.process_box. cbv zeta.
  fold (skipped_by_ignore st (GetTimerInfo box)). rewrite H.
  destruct (_ || _); reflexivity.
Qed.

Lemma GpuTrack_process_box_line env (tr : GpuTrack.t) min_tick max_tick
      st ref box :
  let ti := GetTimerInfo box in
  let fr := GpuTrack.head_frame env tr in
  skipped_by_visibility min_tick max_tick ti = false ->
  skipped_by_ignore st ti = false ->
  (GpuTrack.collapse_toggle_IsCollapsed tr = true ->
   resolves_to env ti kHwExecutionString) ->
  is_visible_width env (GpuTrack.inv_time_window fr) ti = false ->
  GpuTrack.pixel_delta_in_ticks fr <> 0 ->
  exists st' box' c,
    GpuTrack.process_box env tr fr min_tick max_tick st ref box
    = Ok (st', box', [c])
    /\ is_line c = true
    /\ call_user_data c = Some ref
    /\ (min_ignore st', max_ignore st')
       = pixel_window (GpuTrack.min_timegraph_tick fr)
                      (GpuTrack.pixel_delta_in_ticks fr) (start ti)
    /\ loop_depth_ st' = UpdateDepth (u32 (depth ti + 1)) (loop_depth_ st).
Proof.
  intros ti fr Ev Ei Hres Hw Hp.
  unfold GpuTrack.process_box. cbv zeta. fold ti.
  fold (skipped_by_visibility min_tick max_tick ti).
  fold (skipped_by_ignore st ti). rewrite Ev, Ei.
  fold (normalized_length env (GpuTrack.inv_time_window fr) ti).
  fold (is_visible_width env (GpuTrack.inv_time_window fr) ti).
  assert (Hfilter :
            GpuTrack.is_collapsed fr
            && negb (String.eqb
                       (value_or (string_manager_Get env (user_data_key ti)) "")
                       kHwExecutionString) = false).
  { cbn [fr GpuTrack.head_frame GpuTrack.is_collapsed].
    destruct (GpuTrack.collapse_toggle_IsCollapsed tr); [ | reflexivity ].
    unfold resolves_to in Hres. rewrite (Hres eq_refl). reflexivity. }
  rewrite Hfilter, Hw.
  destruct (Z.eqb_spec (GpuTrack.pixel_delta_in_ticks fr) 0) as [Hz | Hz];
    [ contradiction | ].
  cbn [negb]. eexists _, _, _. split; [ reflexivity | ].
  repeat split.
Qed.

Lemma ThreadTrack_process_box_line env (tr : ThreadTrack.t) min_tick max_tick
      st ref box :
  let ti := GetTimerInfo box in
  let fr := ThreadTrack.head_frame env tr in
  skipped_by_visibility min_tick max_tick ti = false ->
  skipped_by_ignore st ti = false ->
  is_visible_width env (ThreadTrack.inv_time_window fr) ti = false ->
  ThreadTrack.pixel_delta_in_ticks fr <> 0 ->
  exists st' box' c,
    ThreadTrack.process_box env tr fr min_tick max_tick st ref box
    = Ok (st', box', [c])
    /\ is_line c = true
    /\ call_user_data c = Some ref
    /\ (min_ignore st', max_ignore st')
       = pixel_window (ThreadTrack.min_timegraph_tick fr)
                      (ThreadTrack.pixel_delta_in_ticks fr) (start ti)
    /\ loop_depth_ st' = UpdateDepth (u32 (depth ti + 1)) (loop_depth_ st).
Proof.
  intros ti fr Ev Ei Hw Hp.
  unfold ThreadTrack.process_box. cbv zeta. fold ti.
  fold (skipped_by_visibility min_tick max_tick ti).
  fold (skipped_by_ignore st ti). rewrite Ev, Ei.
  fold (normalized_length env (ThreadTrack.inv_time_window fr) ti).
  fold (is_visible_width env (ThreadTrack.inv_time_window fr) ti).
  rewrite Hw.
  destruct (Z.eqb_spec (ThreadTrack.pixel_delta_in_ticks fr) 0) as [Hz | Hz];
    [ contradiction | ].
  cbn [negb]. eexists _, _, _. split; [ reflexivity | ].
  repeat split.
Qed.

Lemma all_within_ignored (st : LoopState) (w : Z * Z) (rest : list TextBox) :
  (min_ignore st, max_ignore st) = w ->
  all_within w rest ->
  forall x, In x rest -> skipped_by_ignore st (GetTimerInfo x) = true.
Proof.
  intros <- H x Hx. apply within_ignored. exact (H x Hx).
Qed.

(** X15. Records that fall on one pixel cost one line.  In the loop over a
    block, when a record that passes the visibility and the ignore-window
    test is narrower than a pixel and [pixel_delta_in_ticks] is not zero,
    it is drawn as a line; the records that follow it in the block and lie
    inside the pixel-wide tick range around its start emit nothing at all,
    and their text boxes are left exactly as they were (neither position
    nor size is updated).  The whole run yields that single line, and
    [depth_] only accounts for the first record.  Both tracks (on a
    collapsed GPU track the first record has to be a hardware-execution
    one). *)
Theorem sub_pixel_run_draws_one_line env min_tick max_tick key bi k st
        (b : TextBox) (rest : list TextBox) :
  let ti := GetTimerInfo b in
  skipped_by_visibility min_tick max_tick ti = false ->
  skipped_by_ignore st ti = false ->
  (forall tr : GpuTrack.t,
      let fr := GpuTrack.head_frame env tr in
      (GpuTrack.collapse_toggle_IsCollapsed tr = true ->
       resolves_to env ti kHwExecutionString) ->
      is_visible_width env (GpuTrack.inv_time_window fr) ti = false ->
      GpuTrack.pixel_delta_in_ticks fr <> 0 ->
      all_within (pixel_window (GpuTrack.min_timegraph_tick fr)
                               (GpuTrack.pixel_delta_in_ticks fr) (start ti))
                 rest ->
      exists st' b' c,
        scan_block (GpuTrack.process_box env tr fr min_tick max_tick)
                   key bi k st (b :: rest)
        = Ok (st', b' :: rest, [c])
        /\ is_line c = true
        /\ call_user_data c = Some (key, bi, k)
        /\ loop_depth_ st' = UpdateDepth (u32 (depth ti + 1)) (loop_depth_ st))
  /\
  (forall tr : ThreadTrack.t,
      let fr := ThreadTrack.head_frame env tr in
      is_visible_width env (ThreadTrack.inv_time_window fr) ti = false ->
      ThreadTrack.pixel_delta_in_ticks fr <> 0 ->
      all_within (pixel_window (ThreadTrack.min_timegraph_tick fr)
                               (ThreadTrack.pixel_delta_in_ticks fr)
                               (start ti))
                 rest ->
      exists st' b' c,
        scan_block (ThreadTrack.process_box env tr fr min_tick max_tick)
                   key bi k st (b :: rest)
        = Ok (st', b' :: rest, [c])
        /\ is_line c = true
        /\ call_user_data c = Some (key, bi, k)
        /\ loop_depth_ st' = UpdateDepth (u32 (depth ti + 1)) (loop_depth_ st)).
Proof.
  intros ti Ev Ei. split.
  - intros tr fr Hres Hw Hp Hall.
    destruct (GpuTrack_process_box_line env tr min_tick max_tick st
                (key, bi, k) b Ev Ei Hres Hw Hp)
      as (st' & b' & c & Hb & Hl & Hu & Hwin & Hd).
    exists st', b', c. subst fr. cbn [scan_block]. rewrite Hb. cbn [bind].
    rewrite (scan_block_all_ignored _
               (GpuTrack_process_box_skips env tr _ min_tick max_tick)
               key bi st' rest (S k)
               (all_within_ignored st' _ rest Hwin Hall)).
    cbn [bind app]. repeat split; assumption.
  - intros tr fr Hw Hp Hall.
    destruct (ThreadTrack_process_box_line env tr min_tick max_tick st
                (key, bi, k) b Ev Ei Hw Hp)
      as (st' & b' & c & Hb & Hl & Hu & Hwin & Hd).
    exists st', b', c. subst fr. cbn [scan_block]. rewrite Hb. cbn [bind].
    rewrite (scan_block_all_ignored _
               (ThreadTrack_process_box_skips env tr _ min_tick max_tick)
               key bi st' rest (S k)
               (all_within_ignored st' _ rest Hwin Hall)).
    cbn [bind app]. repeat split; assumption.
Qed.

Lemma sub_pixel_run_draws_one_line_witness :
  let rest := [fresh_text_box (sample_timer 10010 10020 0 0 kNone);
               fresh_text_box (sample_timer 10050 10100 2 0 kNone)] in
  exists st' b' c,
    scan_block (ThreadTrack.process_box sample_env thread_two
                  (ThreadTrack.head_frame sample_env thread_two) 0 100000)
               1 0%nat 0%nat (fresh_loop_state 0) (sub_pixel_box :: rest)
    = Ok (st', b' :: rest, [c])
    /\ is_line c = true.
Proof.
  intros rest.
  assert (Ev : skipped_by_visibility 0 100000 (GetTimerInfo sub_pixel_box)
               = false) by reflexivity.
  assert (Ei : skipped_by_ignore (fresh_loop_state 0)
                 (GetTimerInfo sub_pixel_box) = false) by reflexivity.
  destruct (proj2 (sub_pixel_run_draws_one_line sample_env 0 100000
                     1 0%nat 0%nat (fresh_loop_state 0) sub_pixel_box rest
                     Ev Ei) thread_two)
    as (st' & b' & c & H & Hl & _).
  - vm_compute. reflexivity.
  - vm_compute. discriminate.
  - intros x [<- | [<- | []]]; vm_compute; split; discriminate.
  - exists st', b', c. split; assumption.
Defined.

(* ----------------------------------------------------------------- *)
(** ** Frames that change nothing *)

Section LoopInvisible.
Variables min_tick max_tick : Z.
Variable body :
  LoopState -> BoxRef -> TextBox ->
  result (LoopState * TextBox * list DrawCall).

Hypothesis body_invisible :
  forall st ref box,
    skipped_by_visibility min_tick max_tick (GetTimerInfo box) = true ->
    body st ref box = Ok (st, box, []).

Let invisible (l : list TextBox) : Prop :=
  forall x, In x l ->
            skipped_by_visibility min_tick max_tick (GetTimerInfo x) = true.

Lemma scan_block_invisible key bi st :
  forall boxes k,
    invisible boxes ->
    scan_block body key bi k st boxes = Ok (st, boxes, []).
Proof.
  induction boxes as [|b rest IH]; intros k Hall; cbn [scan_block];
    [ reflexivity | ].
  rewrite (body_invisible st (key, bi, k) b (Hall b (or_introl eq_refl))).
  cbn [bind]. rewrite IH; [ reflexivity | ].
  intros x Hx. apply Hall. right. exact Hx.
Qed.

Lemma scan_chain_invisible key :
  forall blocks bi st,
    invisible (chain_boxes blocks) ->
    exists st',
      scan_chain min_tick max_tick body key bi st blocks
      = Ok (st', blocks, [])
      /\ loop_depth_ st' = loop_depth_ st.
Proof.
  unfold chain_boxes.
  induction blocks as [|b rest IH]; intros bi st Hall;
    cbn [scan_chain List.concat] in *.
  - exists st. split; reflexivity.
  - assert (Hb : invisible b)
      by (intros x Hx; apply Hall; apply in_or_app; left; exact Hx).
    assert (Hr : invisible (List.concat rest))
      by (intros x Hx; apply Hall; apply in_or_app; right; exact Hx).
    destruct (negb (Intersects b min_tick max_tick)).
    + destruct (IH (S bi) st Hr) as (st' & E & D).
      exists st'. rewrite E. cbn [bind]. split; [ reflexivity | exact D ].
    + rewrite (scan_block_invisible key bi _ b 0%nat Hb). cbn [bind].
      destruct (IH (S bi) (reset_ignore st) Hr) as (st' & E & D).
      exists st'. rewrite E. cbn [bind app].
      split; [ reflexivity | exact D ].
Qed.

Lemma scan_chains_invisible :
  forall m st,
    invisible (map_boxes m) ->
    exists st',
      scan_chains min_tick max_tick body st m = Ok (st', m, [])
      /\ loop_depth_ st' = loop_depth_ st.
Proof.
  unfold map_boxes.
  induction m as [|[key [chain|]] rest IH]; intros st Hall;
    cbn [scan_chains flat_map snd] in *.
  - exists st. split; reflexivity.
  - assert (Hc : invisible (chain_boxes chain))
      by (intros x Hx; apply Hall; apply in_or_app; left; exact Hx).
    assert (Hr : invisible (flat_map
                              (fun kv => match snd kv with
                                         | Some chain => chain_boxes chain
                                         | None => []
                                         end) rest))
      by (intros x Hx; apply Hall; apply in_or_app; right; exact Hx).
    destruct (scan_chain_invisible key chain 0%nat st Hc) as (st1 & E1 & D1).
    rewrite E1. cbn [bind].
    destruct (IH st1 Hr) as (st' & E & D).
    exists st'. rewrite E. cbn [bind app].
    split; [ reflexivity | congruence ].
  - destruct (IH st Hall) as (st' & E & D).
    exists st'. rewrite E. cbn [bind]. split; [ reflexivity | exact D ].
Qed.

End LoopInvisible.

Lemma GpuTrack_process_box_invisible env tr fr min_tick max_tick st ref box :
  skipped_by_visibility min_tick max_tick (GetTimerInfo box) = true ->
  GpuTrack.process_box env tr fr min_tick max_tick st ref box
  = Ok (st, box, []).
Proof.
  intros H. unfold GpuTrack.process_box. cbv zeta.
  fold (skipped_by_visibility min_tick max_tick (GetTimerInfo box)).
  rewrite H. reflexivity.
Qed.

Lemma ThreadTrack_process_box_invisible env tr fr min_tick max_tick st ref
      box :
  skipped_by_visibility min_tick max_tick (GetTimerInfo box) = true ->
  ThreadTrack.process_box env tr fr min_tick max_tick st ref box
  = Ok (st, box, []).
Proof.
  intros H. unfold ThreadTrack.process_box. cbv zeta.
  fold (skipped_by_visibility min_tick max_tick (GetTimerInfo box)).
  rewrite H. reflexivity.
Qed.

(** X16. A frame over a track that is off screen is a no-op for its
    timers.  When the canvas width is not zero and no stored record
    overlaps [[min_tick, max_tick]], [UpdatePrimitives] leaves the track
    exactly as it was: no text box is repositioned, no label is computed
    and [depth_] is not touched.  A GPU track returns and emits nothing,
    with no assumption on the timer types, the [CHECK] not being reached.
    A thread track returns if the call into its event track does, and then
    the frame consists of the calls of the event track and nothing else. *)
Theorem UpdatePrimitives_off_screen_is_a_noop env min_tick max_tick :
  u64 (getWidth env) <> 0 ->
  (forall tr : GpuTrack.t,
      nothing_visible min_tick max_tick (GpuTrack.timers_ tr) ->
      GpuTrack.UpdatePrimitives env tr min_tick max_tick = Ok (tr, []))
  /\
  (forall (tr : ThreadTrack.t) (event_calls : list EventTrackCall),
      nothing_visible min_tick max_tick (ThreadTrack.timers_ tr) ->
      event_track_UpdatePrimitives env (ThreadTrack.m_Pos tr)
                                   min_tick max_tick
      = Ok event_calls ->
      ThreadTrack.UpdatePrimitives env tr min_tick max_tick
      = Ok (tr, map FromEventTrack event_calls)).
Proof.
  intros Hw. apply Z.eqb_neq in Hw. split.
  - intros tr Hnone.
    unfold GpuTrack.UpdatePrimitives. rewrite Hw. cbv zeta.
    destruct (scan_chains_invisible min_tick max_tick _
                (GpuTrack_process_box_invisible env tr
                   (GpuTrack.head_frame env tr) min_tick max_tick)
                (GpuTrack.timers_ tr)
                (mkLoopState UINT64_MAX UINT64_MIN (GpuTrack.depth_ tr))
                Hnone) as (st' & E & D).
    rewrite E. cbn [bind]. rewrite D. cbn [loop_depth_].
    destruct tr. reflexivity.
  - intros tr ev Hnone Hev.
    unfold ThreadTrack.UpdatePrimitives. rewrite Hev. cbn [bind].
    unfold ThreadTrack.draw_timers. rewrite Hw. cbv zeta.
    destruct (scan_chains_invisible min_tick max_tick _
                (ThreadTrack_process_box_invisible env tr
                   (ThreadTrack.head_frame env tr) min_tick max_tick)
                (ThreadTrack.timers_ tr)
                (mkLoopState UINT64_MAX UINT64_MIN (ThreadTrack.depth_ tr))
                Hnone) as (st' & E & D).
    rewrite E. cbn [bind]. rewrite D. cbn [loop_depth_].
    rewrite app_nil_r. destruct tr. reflexivity.
Qed.

Lemma UpdatePrimitives_off_screen_is_a_noop_witness :
  let env := with_event_track busy_event_track sample_env in
  u64 (getWidth env) <> 0
  /\ nothing_visible 200000 300000 (GpuTrack.timers_ gpu_two_expanded)
  /\ GpuTrack.UpdatePrimitives env gpu_two_expanded 200000 300000
     = Ok (gpu_two_expanded, [])
  /\ nothing_visible 200000 300000 (ThreadTrack.timers_ thread_two)
  /\ ThreadTrack.UpdatePrimitives env thread_two 200000 300000
     = Ok (thread_two,
           [FromEventTrack (mkEventTrackCall 1);
            FromEventTrack (mkEventTrackCall 2)]).
Proof.
  intros env.
  assert (Hw : u64 (getWidth env) <> 0) by (vm_compute; discriminate).
  assert (Hg : nothing_visible 200000 300000
                 (GpuTrack.timers_ gpu_two_expanded)).
  { intros box H. vm_compute in H.
    destruct H as [<- | [<- | []]]; reflexivity. }
  assert (Hn : nothing_visible 200000 300000
                 (ThreadTrack.timers_ thread_two)).
  { intros box H. vm_compute in H.
    destruct H as [<- | [<- | []]]; reflexivity. }
  split; [ exact Hw | ]. split; [ exact Hg | ].
  split;
    [ exact (proj1 (UpdatePrimitives_off_screen_is_a_noop
                      env 200000 300000 Hw) gpu_two_expanded Hg) | ].
  split; [ exact Hn | ].
  exact (proj2 (UpdatePrimitives_off_screen_is_a_noop env 200000 300000 Hw)
               thread_two [mkEventTrackCall 1; mkEventTrackCall 2]
               Hn eq_refl).
Defined.

(* ----------------------------------------------------------------- *)
(** ** Repeating a frame *)

Lemma ThreadTrack_OnTimer_depth_covers (n : nat) (tr : ThreadTrack.t)
      (r : TimerInfo) :
  type r <> kCoreActivity ->
  keys_increasing (ThreadTrack.timers_ tr) ->
  depth_covers (ThreadTrack.depth_ tr) (ThreadTrack.timers_ tr) ->
  depth_covers (ThreadTrack.depth_ (ThreadTrack.OnTimer n tr r))
               (ThreadTrack.timers_ (ThreadTrack.OnTimer n tr r)).
Proof.
  intros Hty Hk Hcov box Hin.
  assert (P : Permutation
                (map_boxes (ThreadTrack.timers_ (ThreadTrack.OnTimer n tr r)))
                (fresh_text_box r :: map_boxes (ThreadTrack.timers_ tr)))
    by (unfold ThreadTrack.OnTimer; cbn [ThreadTrack.timers_];
        apply map_boxes_insert; exact Hk).
  apply (Permutation_in _ P) in Hin.
  unfold ThreadTrack.OnTimer. cbn [ThreadTrack.depth_].
  assert (Hne : TimerType_eqb (type r) kCoreActivity = false)
    by (destruct (type r); try reflexivity; contradiction).
  rewrite Hne. cbn [negb]. unfold UpdateDepth.
  change (GetTimerInfo (fresh_text_box r)) with r in *.
  destruct (Z.gtb_spec (u32 (depth r + 1)) (ThreadTrack.depth_ tr));
    destruct Hin as [<- | Hin];
    [ change (GetTimerInfo (fresh_text_box r)) with r
    | specialize (Hcov box Hin)
    | change (GetTimerInfo (fresh_text_box r)) with r
    | specialize (Hcov box Hin) ]; lia.
Qed.

Lemma ThreadTrack_fold_depth_covers (n : nat) (l : list TimerInfo) :
  forall tr,
    (forall r, In r l -> type r <> kCoreActivity) ->
    keys_increasing (ThreadTrack.timers_ tr) ->
    no_null_chain (ThreadTrack.timers_ tr) ->
    depth_covers (ThreadTrack.depth_ tr) (ThreadTrack.timers_ tr) ->
    let tr' := fold_left (ThreadTrack.OnTimer n) l tr in
    depth_covers (ThreadTrack.depth_ tr') (ThreadTrack.timers_ tr').
Proof.
  induction l as [|x xs IH]; intros tr Hty Hk Hn Hcov; cbn [fold_left].
  - exact Hcov.
  - destruct (ThreadTrack_OnTimer_store_invariant n tr x Hk Hn)
      as (A & B & _).
    apply IH; auto.
    + intros r Hr. apply Hty. right. exact Hr.
    + apply ThreadTrack_OnTimer_depth_covers; auto.
      apply Hty. left. reflexivity.
Qed.

Lemma depth_raised_covered min_tick max_tick (m : TimerMap) (d0 d1 : Z) :
  depth_covers d0 m ->
  depth_raised_by min_tick max_tick (map_boxes m) d0 d1 ->
  d1 = d0.
Proof.
  intros Hcov [-> | (box & Hin & _ & -> & Hlt)]; [ reflexivity | ].
  specialize (Hcov box Hin). lia.
Qed.

(** X17. Repeating a frame on a GPU track repeats its output: a second
    [UpdatePrimitives] with the same tick range and the same collaborators,
    run on the track the first one returned, returns as well and emits the
    same calls in the same order, although the first frame may have moved
    [depth_] and has stored positions, sizes and labels in the text
    boxes. *)
Theorem GpuTrack_repeated_frame_emits_same_calls env min_tick max_tick
        (tr tr1 : GpuTrack.t) (out1 : list DrawCall) :
  GpuTrack.UpdatePrimitives env tr min_tick max_tick = Ok (tr1, out1) ->
  exists tr2,
    GpuTrack.UpdatePrimitives env tr1 min_tick max_tick = Ok (tr2, out1).
Proof.
  exact (GpuTrack_UpdatePrimitives_twice_same env tr min_tick max_tick
                                              tr1 out1).
Qed.

Lemma GpuTrack_repeated_frame_emits_same_calls_witness :
  exists tr1 out1 tr2,
    GpuTrack.UpdatePrimitives sample_env gpu_two_expanded 0 100000
    = Ok (tr1, out1)
    /\ GpuTrack.UpdatePrimitives sample_env tr1 0 100000 = Ok (tr2, out1)
    /\ out1 <> [].
Proof.
  assert (E : exists tr1 out1,
             GpuTrack.UpdatePrimitives sample_env gpu_two_expanded 0 100000
             = Ok (tr1, out1) /\ out1 <> []).
  { vm_compute. eexists _, _. split; [ reflexivity | discriminate ]. }
  destruct E as (tr1 & out1 & H & Hne).
  destruct (GpuTrack_repeated_frame_emits_same_calls sample_env 0 100000
              gpu_two_expanded tr1 out1 H) as (tr2 & H2).
  exists tr1, out1, tr2. split; [ exact H | ]. split; [ exact H2 | exact Hne ].
Defined.

(** X18. A thread track that [OnTimer] has filled, from the constructor,
    with timers none of which is a core-activity timer has a settled
    [depth_]: it is at least [depth + 1] of every stored record.  On such a
    track, collapsed or expanded, a frame leaves [depth_] as it is, and a
    second frame with the same tick range and collaborators emits the same
    calls as the first.  (With core-activity timers this fails on a
    collapsed track.) *)
Theorem ThreadTrack_repeated_frame_same_without_core_activity
        (kBlockSize : nat) (pos : Vec2) (id : Z) (l : list TimerInfo)
        (collapsed : bool) env min_tick max_tick
        (tr1 : ThreadTrack.t) (out1 : list DrawCall) :
  (forall r, In r l -> type r <> kCoreActivity) ->
  let tr := ThreadTrack.set_collapsed collapsed
              (thread_after kBlockSize pos id l) in
  ThreadTrack.UpdatePrimitives env tr min_tick max_tick = Ok (tr1, out1) ->
  depth_covers (ThreadTrack.depth_ tr) (ThreadTrack.timers_ tr)
  /\ ThreadTrack.depth_ tr1 = ThreadTrack.depth_ tr
  /\ exists tr2,
      ThreadTrack.UpdatePrimitives env tr1 min_tick max_tick = Ok (tr2, out1).
Proof.
  intros Hty tr H.
  destruct empty_store_invariant as [E1 E2].
  assert (Hcov : depth_covers (ThreadTrack.depth_ tr)
                              (ThreadTrack.timers_ tr)).
  { subst tr. unfold ThreadTrack.set_collapsed, thread_after.
    cbn [ThreadTrack.depth_ ThreadTrack.timers_].
    apply ThreadTrack_fold_depth_covers; auto.
    intros box []. }
  split; [ exact Hcov | ]. split.
  - apply ThreadTrack_UpdatePrimitives_split in H.
    destruct H as (ev & outs & _ & H & _).
    apply ThreadTrack_draw_timers_inv in H.
    destruct H as (st' & timers' & Hscan & -> & _).
    apply (scan_chains_depth_raised _ _ _
             (ThreadTrack_body_depth _ _ _ _ _)) in Hscan.
    cbn [loop_depth_] in Hscan.
    exact (depth_raised_covered _ _ _ _ _ Hcov Hscan).
  - exact (ThreadTrack_UpdatePrimitives_twice_same env tr min_tick max_tick
             tr1 out1 (or_intror Hcov) H).
Qed.

Lemma ThreadTrack_repeated_frame_same_without_core_activity_witness :
  let l := [sample_timer 0 50000 0 0 kNone;
            sample_timer 10000 40000 1 0 kNone] in
  let tr := ThreadTrack.set_collapsed true
              (thread_after 1024 (F32.of_Z 0, F32.of_Z 500) 7 l) in
  (forall r, In r l -> type r <> kCoreActivity)
  /\ exists tr1 out1 tr2,
      ThreadTrack.UpdatePrimitives sample_env tr 0 100000 = Ok (tr1, out1)
      /\ ThreadTrack.depth_ tr1 = ThreadTrack.depth_ tr
      /\ ThreadTrack.UpdatePrimitives sample_env tr1 0 100000
         = Ok (tr2, out1).
Proof.
  intros l tr.
  assert (Hty : forall r, In r l -> type r <> kCoreActivity)
    by (intros r [<- | [<- | []]]; discriminate).
  split; [ exact Hty | ].
  assert (E : exists tr1 out1,
             ThreadTrack.UpdatePrimitives sample_env tr 0 100000
             = Ok (tr1, out1)).
  { vm_compute. eexists _, _. reflexivity. }
  destruct E as (tr1 & out1 & H).
  destruct (ThreadTrack_repeated_frame_same_without_core_activity
              1024 (F32.of_Z 0, F32.of_Z 500) 7 l true sample_env 0 100000
              tr1 out1 Hty H) as (_ & D & tr2 & H2).
  exists tr1, out1, tr2. split; [ exact H | ]. split; [ exact D | exact H2 ].
Defined.

(* ----------------------------------------------------------------- *)
(** ** Track height and emptiness *)

Lemma GpuTrack_UpdatePrimitives_fields env tr min_tick max_tick tr' out :
  GpuTrack.UpdatePrimitives env tr min_tick max_tick = Ok (tr', out) ->
  GpuTrack.collapse_toggle_IsCollapsed tr'
  = GpuTrack.collapse_toggle_IsCollapsed tr
  /\ GpuTrack.num_timers_ tr' = GpuTrack.num_timers_ tr.
Proof.
  unfold GpuTrack.UpdatePrimitives.
  destruct (u64 (getWidth env) =? 0); [ discriminate | ].
  cbv zeta. intros H. split_bind H. injection H as <- _.
  split; reflexivity.
Qed.

Lemma ThreadTrack_draw_timers_fields env tr min_tick max_tick tr' out :
  ThreadTrack.draw_timers env tr min_tick max_tick = Ok (tr', out) ->
  ThreadTrack.collapse_toggle_IsCollapsed tr'
  = ThreadTrack.collapse_toggle_IsCollapsed tr
  /\ ThreadTrack.num_timers_ tr' = ThreadTrack.num_timers_ tr.
Proof.
  unfold ThreadTrack.draw_timers.
  destruct (u64 (getWidth env) =? 0); [ discriminate | ].
  cbv zeta. intros H. split_bind H. injection H as <- _.
  split; reflexivity.
Qed.

(** X19. What [GetHeight] does not depend on.  The height of a GPU track is
    not changed by [OnTimer], collapsed or not (its [depth_] only moves
    while drawing).  The height of a collapsed track, GPU or thread, is not
    changed by a frame, whatever [UpdatePrimitives] does to [depth_]: a
    collapsed GPU track is one row high, a collapsed thread track one row or
    none according to its timer count. *)
Theorem GetHeight_of_collapsed_track_is_stable env :
  (forall n tr r,
      GpuTrack.GetHeight env (GpuTrack.OnTimer n tr r)
      = GpuTrack.GetHeight env tr)
  /\
  (forall tr tr' out min_tick max_tick,
      GpuTrack.UpdatePrimitives env tr min_tick max_tick = Ok (tr', out) ->
      GpuTrack.collapse_toggle_IsCollapsed tr = true ->
      GpuTrack.GetHeight env tr' = GpuTrack.GetHeight env tr)
  /\
  (forall tr tr' out min_tick max_tick,
      ThreadTrack.UpdatePrimitives env tr min_tick max_tick = Ok (tr', out) ->
      ThreadTrack.collapse_toggle_IsCollapsed tr = true ->
      ThreadTrack.GetHeight env tr' = ThreadTrack.GetHeight env tr).
Proof.
  split; [ | split ].
  - intros n tr r. reflexivity.
  - intros tr tr' out min_tick max_tick H Hc.
    apply GpuTrack_UpdatePrimitives_fields in H. destruct H as [Ec _].
    unfold GpuTrack.GetHeight. cbv zeta. rewrite Ec, Hc. reflexivity.
  - intros tr tr' out min_tick max_tick H Hc.
    apply ThreadTrack_UpdatePrimitives_split in H.
    destruct H as (ev & outs & _ & H & _).
    apply ThreadTrack_draw_timers_fields in H. destruct H as [Ec En].
    unfold ThreadTrack.GetHeight, ThreadTrack.GetNumTimers. cbv zeta.
    rewrite Ec, En, Hc. reflexivity.
Qed.

Lemma GetHeight_of_collapsed_track_is_stable_witness :
  exists tr' out,
    ThreadTrack.UpdatePrimitives sample_env core_track 0 100000
    = Ok (tr', out)
    /\ ThreadTrack.depth_ tr' <> ThreadTrack.depth_ core_track
    /\ ThreadTrack.GetHeight sample_env tr'
       = ThreadTrack.GetHeight sample_env core_track.
Proof.
  assert (E : exists tr' out,
             ThreadTrack.UpdatePrimitives sample_env core_track 0 100000
             = Ok (tr', out)
             /\ ThreadTrack.depth_ tr' <> ThreadTrack.depth_ core_track).
  { vm_compute. eexists _, _. split; [ reflexivity | discriminate ]. }
  destruct E as (tr' & out & H & Hd). exists tr', out.
  split; [ exact H | ]. split; [ exact Hd | ].
  exact (proj2 (proj2 (GetHeight_of_collapsed_track_is_stable sample_env))
               core_track tr' out 0 100000 H eq_refl).
Defined.

Lemma ThreadTrack_fold_num_timers (n : nat) (pos : Vec2) (id : Z)
      (l : list TimerInfo) :
  Z.of_nat (List.length l) < 2 ^ 32 ->
  ThreadTrack.num_timers_ (thread_after n pos id l)
  = Z.of_nat (List.length l).
Proof.
  intros Hb. unfold thread_after.
  rewrite (fold_count (ThreadTrack.OnTimer n) ThreadTrack.num_timers_);
    cbn; try lia; try (intros; reflexivity).
Qed.

(** X20. A thread track that [OnTimer] has filled, from the constructor,
    with at least one and fewer than 2^32 timers is not empty, whatever its
    event track says; and once collapsed its height no longer depends on
    which timers it holds, nor on how many: two such tracks have the same
    collapsed height.  A track that received no timer is empty exactly when
    its event track is. *)
Theorem ThreadTrack_filled_is_not_empty env (event_track_IsEmpty : bool)
        (n n' : nat) (pos pos' : Vec2) (id id' : Z)
        (l l' : list TimerInfo) :
  (0 < Z.of_nat (List.length l) < 2 ^ 32 ->
   0 < Z.of_nat (List.length l') < 2 ^ 32 ->
   ThreadTrack.IsEmpty event_track_IsEmpty (thread_after n pos id l) = false
   /\ ThreadTrack.GetHeight env
        (ThreadTrack.set_collapsed true (thread_after n pos id l))
      = ThreadTrack.GetHeight env
          (ThreadTrack.set_collapsed true (thread_after n' pos' id' l')))
  /\ ThreadTrack.IsEmpty event_track_IsEmpty (thread_after n pos id [])
     = event_track_IsEmpty.
Proof.
  split; [ | reflexivity ].
  intros Hl Hl'.
  pose proof (ThreadTrack_fold_num_timers n pos id l (proj2 Hl)) as C.
  pose proof (ThreadTrack_fold_num_timers n' pos' id' l' (proj2 Hl')) as C'.
  split.
  - unfold ThreadTrack.IsEmpty, ThreadTrack.GetNumTimers. rewrite C.
    destruct (Z.eqb_spec (Z.of_nat (List.length l)) 0); [ lia | reflexivity ].
  - unfold ThreadTrack.GetHeight, ThreadTrack.GetNumTimers,
      ThreadTrack.set_collapsed.
    cbv zeta. cbn [ThreadTrack.collapse_toggle_IsCollapsed
                     ThreadTrack.num_timers_].
    rewrite C, C'.
    destruct (Z.eqb_spec (Z.of_nat (List.length l)) 0); [ lia | ].
    destruct (Z.eqb_spec (Z.of_nat (List.length l')) 0); [ lia | ].
    reflexivity.
Qed.

Lemma ThreadTrack_filled_is_not_empty_witness :
  let l := [sample_timer 0 50000 0 0 kNone] in
  let l' := [sample_timer 0 50000 0 0 kNone;
             sample_timer 10000 40000 5 0 kCoreActivity] in
  ThreadTrack.IsEmpty true (thread_after 1024 (F32.zero, F32.zero) 7 l)
  = false
  /\ ThreadTrack.GetHeight sample_env
       (ThreadTrack.set_collapsed true
          (thread_after 1024 (F32.zero, F32.zero) 7 l))
     = ThreadTrack.GetHeight sample_env
         (ThreadTrack.set_collapsed true
            (thread_after 16 (F32.zero, F32.zero) 8 l')).
Proof.
  intros l l'.
  apply (proj1 (ThreadTrack_filled_is_not_empty sample_env true 1024 16
                  (F32.zero, F32.zero) (F32.zero, F32.zero) 7 8 l l'));
    cbn; lia.
Defined.

(* ----------------------------------------------------------------- *)
(** ** Buckets keep the arrival order *)

Lemma bucket_after_insert (n : nat) (key : Z) (r : TimerInfo) (m : TimerMap) :
  bucket_boxes
    (map_index key
       (map_set (to_int (depth r))
          (Some (push_back n
                   (match map_index (to_int (depth r)) m with
                    | Some chain => chain
                    | None => []
                    end)
                   (fresh_text_box r)))
          m))
  = bucket_boxes (map_index key m)
    ++ (if to_int (depth r) =? key then [fresh_text_box r] else []).
Proof.
  destruct (Z.eqb_spec (to_int (depth r)) key) as [<- | Hne].
  - rewrite map_index_set_same. cbn [bucket_boxes].
    rewrite chain_boxes_push_back.
    destruct (map_index (to_int (depth r)) m); reflexivity.
  - rewrite map_index_set_other by congruence.
    rewrite app_nil_r. reflexivity.
Qed.

Lemma GpuTrack_fold_bucket (n : nat) (d : Z) (l : list TimerInfo) :
  forall tr,
    bucket_boxes (GpuTrack.GetTimers_at (fold_left (GpuTrack.OnTimer n) l tr) d)
    = bucket_boxes (GpuTrack.GetTimers_at tr d)
      ++ map fresh_text_box (filed_under d l).
Proof.
  unfold GpuTrack.GetTimers_at, filed_under.
  induction l as [|x xs IH]; intros tr; cbn [fold_left filter map].
  - rewrite app_nil_r. reflexivity.
  - rewrite IH. unfold GpuTrack.OnTimer. cbn [GpuTrack.timers_].
    rewrite bucket_after_insert.
    destruct (to_int (depth x) =? to_int d); cbn [map];
      rewrite <- app_assoc; reflexivity.
Qed.

Lemma ThreadTrack_fold_bucket (n : nat) (d : Z) (l : list TimerInfo) :
  forall tr,
    bucket_boxes
      (ThreadTrack.GetTimers_at (fold_left (ThreadTrack.OnTimer n) l tr) d)
    = bucket_boxes (ThreadTrack.GetTimers_at tr d)
      ++ map fresh_text_box (filed_under d l).
Proof.
  unfold ThreadTrack.GetTimers_at, filed_under.
  induction l as [|x xs IH]; intros tr; cbn [fold_left filter map].
  - rewrite app_nil_r. reflexivity.
  - rewrite IH. unfold ThreadTrack.OnTimer. cbn [ThreadTrack.timers_].
    rewrite bucket_after_insert.
    destruct (to_int (depth x) =? to_int d); cbn [map];
      rewrite <- app_assoc; reflexivity.
Qed.

Lemma fresh_boxes_sorted (l : list TimerInfo) :
  in_start_order l -> Sorted start_le (map fresh_text_box l).
Proof.
  unfold in_start_order. induction 1 as [|a l Hs IH Hd]; cbn [map].
  - constructor.
  - constructor; [ exact IH | ].
    destruct Hd as [|b l' Hab]; cbn [map]; constructor. exact Hab.
Qed.

Lemma bucket_sorted_of_boxes (bucket : option TimerChain) (l : list TimerInfo) :
  bucket_boxes bucket = map fresh_text_box l ->
  in_start_order l ->
  bucket_sorted bucket.
Proof.
  intros E Hs. destruct bucket as [chain|]; cbn [bucket_sorted]; [ | trivial ].
  cbn [bucket_boxes] in E. rewrite E. apply fresh_boxes_sorted. exact Hs.
Qed.

(** X21. Buckets keep the arrival order.  On a track filled by [OnTimer]
    from its constructor, the bucket that [GetTimers(d)] returns holds one
    fresh text box for each inserted timer whose depth converts to the same
    [int] key as [d], in the order of insertion, whatever the block size.
    So when these timers arrived in non-decreasing order of [start],
    [GetFirstAfterTime(t, d)] gives the right answer: a record of that
    bucket with the least [start] above [t], or nothing when there is
    none.  Both tracks. *)
Theorem OnTimer_buckets_keep_arrival_order (kBlockSize : nat) (pos : Vec2)
        (id : Z) (l : list TimerInfo) (d : Z) :
  (let tr := gpu_after kBlockSize pos id l in
   bucket_boxes (GpuTrack.GetTimers_at tr d)
   = map fresh_text_box (filed_under d l)
   /\ (in_start_order (filed_under d l) ->
       forall time,
         after_answer time (GpuTrack.GetTimers_at tr d)
                      (GpuTrack.GetFirstAfterTime tr time d)))
  /\
  (let tr := thread_after kBlockSize pos id l in
   bucket_boxes (ThreadTrack.GetTimers_at tr d)
   = map fresh_text_box (filed_under d l)
   /\ (in_start_order (filed_under d l) ->
       forall time,
         after_answer time (ThreadTrack.GetTimers_at tr d)
                      (ThreadTrack.GetFirstAfterTime tr time d))).
Proof.
  split; cbv zeta.
  - assert (E : bucket_boxes
                  (GpuTrack.GetTimers_at (gpu_after kBlockSize pos id l) d)
                = map fresh_text_box (filed_under d l))
      by (unfold gpu_after; rewrite GpuTrack_fold_bucket; reflexivity).
    split; [ exact E | ]. intros Hs time.
    unfold GpuTrack.GetFirstAfterTime. apply first_after_answer.
    exact (bucket_sorted_of_boxes _ _ E Hs).
  - assert (E : bucket_boxes
                  (ThreadTrack.GetTimers_at
                     (thread_after kBlockSize pos id l) d)
                = map fresh_text_box (filed_under d l))
      by (unfold thread_after; rewrite ThreadTrack_fold_bucket; reflexivity).
    split; [ exact E | ]. intros Hs time.
    unfold ThreadTrack.GetFirstAfterTime. apply first_after_answer.
    exact (bucket_sorted_of_boxes _ _ E Hs).
Qed.

Lemma OnTimer_buckets_keep_arrival_order_witness :
  let l := [sample_timer 0 100 0 3 kGpuActivity;
            sample_timer 50 60 1 1 kGpuActivity;
            sample_timer 200 300 0 3 kGpuActivity] in
  let tr := gpu_after 1 (F32.zero, F32.zero) 99 l in
  in_start_order (filed_under 0 l)
  /\ GpuTrack.GetFirstAfterTime tr 100 0
     = Some (fresh_text_box (sample_timer 200 300 0 3 kGpuActivity))
  /\ after_answer 100 (GpuTrack.GetTimers_at tr 0)
                  (GpuTrack.GetFirstAfterTime tr 100 0).
Proof.
  intros l tr.
  assert (Hs : in_start_order (filed_under 0 l)).
  { unfold in_start_order. cbn. repeat constructor. cbn. lia. }
  split; [ exact Hs | ]. split; [ reflexivity | ].
  exact (proj2 (proj1 (OnTimer_buckets_keep_arrival_order
                         1 (F32.zero, F32.zero) 99 l 0)) Hs 100).
Defined.

Lemma before_answer_of_bucket (time : Z) (bucket : option TimerChain)
      (l : list TimerInfo) :
  bucket_boxes bucket = map fresh_text_box l ->
  in_start_order l ->
  (exists r, In r l /\ time < start r) ->
  before_answer time (bucket_boxes bucket)
    (match bucket with
     | None => None
     | Some chain => first_before_in_chain time None chain
     end).
Proof.
  intros E Hs (r & Hr & Hlt).
  destruct bucket as [chain|]; cbn [bucket_boxes] in *.
  - apply first_before_in_chain_when_later.
    + rewrite E. apply fresh_boxes_sorted. exact Hs.
    + exists (fresh_text_box r). split; [ | exact Hlt ].
      rewrite E. apply in_map. exact Hr.
  - destruct l as [|x xs]; [ contradiction | discriminate ].
Qed.

(** X22. Where the before-query is right.  On a track filled by [OnTimer]
    from its constructor with timers that arrived, for the depth asked, in
    non-decreasing order of [start]: whenever one of them starts after [t],
    [GetFirstBeforeTime(t, d)] returns a record of the bucket with the
    greatest [start] at or below [t], and nothing only when no record
    starts at or before [t].  (The scan only loses its answer when it runs
    off the end of the bucket.)  Both tracks. *)
Theorem GetFirstBeforeTime_right_before_a_later_record (kBlockSize : nat)
        (pos : Vec2) (id : Z) (l : list TimerInfo) (d time : Z) :
  in_start_order (filed_under d l) ->
  (exists r, In r (filed_under d l) /\ time < start r) ->
  (let tr := gpu_after kBlockSize pos id l in
   before_answer time (bucket_boxes (GpuTrack.GetTimers_at tr d))
                 (GpuTrack.GetFirstBeforeTime tr time d))
  /\
  (let tr := thread_after kBlockSize pos id l in
   before_answer time (bucket_boxes (ThreadTrack.GetTimers_at tr d))
                 (ThreadTrack.GetFirstBeforeTime tr time d)).
Proof.
  intros Hs Hlater. split; cbv zeta.
  - unfold GpuTrack.GetFirstBeforeTime.
    apply (before_answer_of_bucket time _ (filed_under d l)); auto.
    unfold gpu_after. rewrite GpuTrack_fold_bucket. reflexivity.
  - unfold ThreadTrack.GetFirstBeforeTime.
    apply (before_answer_of_bucket time _ (filed_under d l)); auto.
    unfold thread_after. rewrite ThreadTrack_fold_bucket. reflexivity.
Qed.

Lemma GetFirstBeforeTime_right_before_a_later_record_witness :
  let l := [sample_timer 0 100 0 3 kGpuActivity;
            sample_timer 50 60 1 1 kGpuActivity;
            sample_timer 200 300 0 3 kGpuActivity] in
  let tr := gpu_after 1 (F32.zero, F32.zero) 99 l in
  GpuTrack.GetFirstBeforeTime tr 150 0
  = Some (fresh_text_box (sample_timer 0 100 0 3 kGpuActivity))
  /\ before_answer 150 (bucket_boxes (GpuTrack.GetTimers_at tr 0))
                   (GpuTrack.GetFirstBeforeTime tr 150 0).
Proof.
  intros l tr. split; [ reflexivity | ].
  refine (proj1 (GetFirstBeforeTime_right_before_a_later_record
                   1 (F32.zero, F32.zero) 99 l 0 150 _ _)).
  - unfold in_start_order. cbn. repeat constructor. cbn. lia.
  - exists (sample_timer 200 300 0 3 kGpuActivity).
    split; [ cbn; auto | cbn; lia ].
Defined.

(* ----------------------------------------------------------------- *)
(** ** The box tooltip of a thread track *)

(** X23. The box tooltip of a thread track is empty for a null box and for
    a core-activity timer.  For any other record whose function is not in
    the selected-functions map it is the label stored in the text box, so it
    is empty for a record that no frame has labelled yet (as [OnTimer]
    leaves it); for a record whose function is selected it is never empty
    and does not depend on the label.  Hence the tooltip is empty exactly
    for a null box, a core-activity timer, or an unselected function with
    an empty label. *)
Theorem ThreadTrack_GetBoxTooltip_cases (env : Env) (cap : Capture) :
  ThreadTrack.GetBoxTooltip env cap None = EmptyString
  /\ (forall b,
         type (GetTimerInfo b) <> kCoreActivity ->
         GSelectedFunctionsMap env (function_address (GetTimerInfo b)) = None ->
         ThreadTrack.GetBoxTooltip env cap (Some b) = GetText b)
  /\ (forall r,
         GSelectedFunctionsMap env (function_address r) = None ->
         ThreadTrack.GetBoxTooltip env cap (Some (fresh_text_box r))
         = EmptyString)
  /\ (forall b text,
         GSelectedFunctionsMap env (function_address (GetTimerInfo b))
         <> None ->
         ThreadTrack.GetBoxTooltip env cap (Some (SetText text b))
         = ThreadTrack.GetBoxTooltip env cap (Some b))
  /\ (forall b,
         ThreadTrack.GetBoxTooltip env cap (Some b) = EmptyString
         <-> type (GetTimerInfo b) = kCoreActivity
             \/ (GSelectedFunctionsMap env
                   (function_address (GetTimerInfo b)) = None
                 /\ GetText b = EmptyString)).
Proof.
  split; [ reflexivity | ]. split; [ | split; [ | split ] ].
  - intros b Hty Hf. unfold ThreadTrack.GetBoxTooltip.
    destruct (type (GetTimerInfo b)); cbn [TimerType_eqb];
      try contradiction; rewrite Hf; reflexivity.
  - intros r Hf. unfold ThreadTrack.GetBoxTooltip.
    change (GetTimerInfo (fresh_text_box r)) with r. rewrite Hf.
    destruct (TimerType_eqb (type r) kCoreActivity); reflexivity.
  - intros b text Hf. unfold ThreadTrack.GetBoxTooltip.
    change (GetTimerInfo (SetText text b)) with (GetTimerInfo b).
    destruct (TimerType_eqb _ _); [ reflexivity | ].
    destruct (GSelectedFunctionsMap env _); [ reflexivity | contradiction ].
  - intros b. unfold ThreadTrack.GetBoxTooltip.
    destruct (type (GetTimerInfo b)) eqn:Ety; cbn [TimerType_eqb];
      try (split; [ intros _; left; reflexivity | reflexivity ]);
      (destruct (GSelectedFunctionsMap env _) as [f|];
       [ split; [ intros H; discriminate H
                | intros [H | [H _]]; discriminate H ]
       | split; [ intros H; right; split; [ reflexivity | exact H ]
                | intros [H | [_ H]]; [ discriminate H | exact H ] ] ]).
Qed.

Lemma ThreadTrack_GetBoxTooltip_cases_witness :
  let cap := mkCapture (fun _ => "main"%string) (fun _ _ => "1 us"%string) in
  let b := SetText "f 1 us" (fresh_text_box (sample_timer 0 1000 0 0 kNone)) in
  ThreadTrack.GetBoxTooltip sample_env cap (Some b) = "f 1 us"%string.
Proof.
  intros cap b.
  apply (proj1 (proj2 (ThreadTrack_GetBoxTooltip_cases sample_env cap)) b).
  - discriminate.
  - reflexivity.
Defined.

(* ----------------------------------------------------------------- *)
(** ** What is drawn is what is stored *)

Section LoopStored.
Variables min_tick max_tick : Z.
Variable body :
  LoopState -> BoxRef -> TextBox ->
  result (LoopState * TextBox * list DrawCall).

Lemma scan_block_stored key bi :
  forall boxes k st st' boxes' out c,
    scan_block body key bi k st boxes = Ok (st', boxes', out) ->
    In c out ->
    exists i box box' st0 st1 outs,
      nth_error boxes i = Some box
      /\ nth_error boxes' i = Some box'
      /\ body st0 (key, bi, (k + i)%nat) box = Ok (st1, box', outs)
      /\ In c outs.
Proof.
  induction boxes as [|b rest IH]; cbn [scan_block];
    intros k st st' boxes' out c H Hin.
  - injection H as _ _ <-. contradiction.
  - split_bind H. split_bind H. injection H as _ <- <-.
    apply in_app_or in Hin. destruct Hin as [Hin | Hin].
    + exists 0%nat, b, t, st, l, l0.
      split; [ reflexivity | ]. split; [ reflexivity | ].
      split; [ replace (k + 0)%nat with k by lia; exact E | exact Hin ].
    + destruct (IH _ _ _ _ _ _ E0 Hin)
        as (i & box & box' & st0 & st1 & outs & A & B & C & D).
      exists (S i), box, box', st0, st1, outs.
      split; [ exact A | ]. split; [ exact B | ].
      split; [ replace (k + S i)%nat with (S k + i)%nat by lia; exact C
             | exact D ].
Qed.

Lemma scan_chain_stored key :
  forall blocks bi st st' blocks' out c,
    scan_chain min_tick max_tick body key bi st blocks
    = Ok (st', blocks', out) ->
    In c out ->
    exists j i block block' box box' st0 st1 outs,
      nth_error blocks j = Some block
      /\ nth_error blocks' j = Some block'
      /\ nth_error block i = Some box
      /\ nth_error block' i = Some box'
      /\ body st0 (key, (bi + j)%nat, i) box = Ok (st1, box', outs)
      /\ In c outs.
Proof.
  induction blocks as [|b rest IH]; cbn [scan_chain];
    intros bi st st' blocks' out c H Hin.
  - injection H as _ _ <-. contradiction.
  - assert (shift : forall st1 st2 blocks2 out2 b',
               scan_chain min_tick max_tick body key (S bi) st1 rest
               = Ok (st2, blocks2, out2) ->
               In c out2 ->
               exists j i block block' box box' st0 st1 outs,
                 nth_error (b :: rest) j = Some block
                 /\ nth_error (b' :: blocks2) j = Some block'
                 /\ nth_error block i = Some box
                 /\ nth_error block' i = Some box'
                 /\ body st0 (key, (bi + j)%nat, i) box
                    = Ok (st1, box', outs)
                 /\ In c outs).
    { intros st1 st2 blocks2 out2 b' Hs Hc.
      destruct (IH _ _ _ _ _ _ Hs Hc)
        as (j & i & block & block' & box & box' & st0 & st3 & outs
            & A & B & C & D & F & G).
      exists (S j), i, block, block', box, box', st0, st3, outs.
      repeat (split; [ assumption | ]).
      split; [ replace (bi + S j)%nat with (S bi + j)%nat by lia; exact F
             | exact G ]. }
    destruct (negb (Intersects b min_tick max_tick)).
    + split_bind H. injection H as _ <- <-.
      eapply shift; [ exact E | exact Hin ].
    + split_bind H. split_bind H. injection H as _ <- <-.
      apply in_app_or in Hin. destruct Hin as [Hin | Hin].
      * destruct (scan_block_stored _ _ _ _ _ _ _ _ _ E Hin)
          as (i & box & box' & st0 & st1 & outs & A & B & C & D).
        exists 0%nat, i, b, l0, box, box', st0, st1, outs.
        split; [ reflexivity | ]. split; [ reflexivity | ].
        split; [ exact A | ]. split; [ exact B | ].
        split; [ replace (bi + 0)%nat with bi by lia; exact C | exact D ].
      * eapply shift; [ exact E0 | exact Hin ].
Qed.

Lemma scan_chains_stored :
  forall m st st' m' out c,
    scan_chains min_tick max_tick body st m = Ok (st', m', out) ->
    In c out ->
    exists ref box box', produced_at body m m' ref box box' c.
Proof.
  induction m as [|[key [chain|]] rest IH]; cbn [scan_chains];
    intros st st' m' out c H Hin.
  - injection H as _ _ <-. contradiction.
  - split_bind H. split_bind H. injection H as _ <- <-.
    apply in_app_or in Hin. destruct Hin as [Hin | Hin].
    + destruct (scan_chain_stored _ _ _ _ _ _ _ _ E Hin)
        as (j & i & block & block' & box & box' & st0 & st1 & outs
            & A & B & C & D & F & G).
      exists (key, j, i), box, box'. split; [ | split ].
      * exists chain, block. split; [ left; reflexivity | ]. split; assumption.
      * exists t, block'. split; [ left; reflexivity | ]. split; assumption.
      * exists st0, st1, outs. split; assumption.
    + destruct (IH _ _ _ _ _ E0 Hin)
        as ([[key' j] i] & box & box'
            & (ch & bl & A1 & A2 & A3) & (ch' & bl' & B1 & B2 & B3) & P).
      exists (key', j, i), box, box'. split; [ | split ].
      * exists ch, bl. split; [ right; exact A1 | ]. split; assumption.
      * exists ch', bl'. split; [ right; exact B1 | ]. split; assumption.
      * exact P.
  - split_bind H. injection H as _ <- <-.
    destruct (IH _ _ _ _ _ E Hin)
      as ([[key' j] i] & box & box'
          & (ch & bl & A1 & A2 & A3) & (ch' & bl' & B1 & B2 & B3) & P).
    exists (key', j, i), box, box'. split; [ | split ].
    * exists ch, bl. split; [ right; exact A1 | ]. split; assumption.
    * exists ch', bl'. split; [ right; exact B1 | ]. split; assumption.
    * exact P.
Qed.

End LoopStored.

Ltac drawn_cases :=
  cbn [app draw_timeslice_text];
  intros c Hc; cbn [In] in Hc;
  repeat match type of Hc with
         | _ \/ _ =>
             destruct Hc as [<- | Hc];
             [ split; [ cbn; repeat split
                      | intros N; solve [ discriminate N | reflexivity ] ] | ]
         end;
  contradiction.

Lemma GpuTrack_process_box_drawn env tr fr min_tick max_tick st ref box
      st' box' out :
  GpuTrack.process_box env tr fr min_tick max_tick st ref box
  = Ok (st', box', out) ->
  forall c, In c out ->
    drawn_from ref box' c
    /\ (is_primitive c = false -> GpuTrack.is_collapsed fr = false).
Proof.
  intros H. unfold GpuTrack.process_box in H. cbv zeta in H.
  destruct (_ || _) in H; [ injection H as <- <- <-; intros c [] | ].
  destruct (_ && _) in H; [ injection H as <- <- <-; intros c [] | ].
  unfold GpuTrack.SetTimesliceText in H.
  destruct (GpuTrack.is_collapsed fr) eqn:Ec; cbn [andb negb] in H;
    body_cases H.
  all: drawn_cases.
Qed.

Lemma ThreadTrack_process_box_drawn env tr fr min_tick max_tick st ref box
      st' box' out :
  ThreadTrack.process_box env tr fr min_tick max_tick st ref box
  = Ok (st', box', out) ->
  forall c, In c out ->
    drawn_from ref box' c
    /\ (is_primitive c = false -> ThreadTrack.is_collapsed fr = false).
Proof.
  intros H. unfold ThreadTrack.process_box in H. cbv zeta in H.
  destruct (_ || _) in H; [ injection H as <- <- <-; intros c [] | ].
  destruct (_ && _) in H; [ injection H as <- <- <-; intros c [] | ].
  unfold ThreadTrack.SetTimesliceText in H.
  destruct (ThreadTrack.is_collapsed fr) eqn:Ec; cbn [negb] in H;
    (destruct (F64.gtb _ _) in H;
     [ | destruct (negb (ThreadTrack.pixel_delta_in_ticks fr =? 0)) ]);
    repeat first
      [ case_if_in H
      | match type of H with
        | context [match ?o with Some _ => _ | None => _ end] => destruct o
        end ];
    cbv beta iota in H; injection H as <- <- <-.
  all: drawn_cases.
Qed.

(** X24. What a frame draws for its timers is what it stores.  Every call
    emitted by [UpdatePrimitives] of a GPU track comes from one stored
    record, found at the same place of the store before and after the
    frame with the same [TimerInfo], and shows the text box as the frame
    leaves it: a shaded box has the position and the size now stored in
    the text box, a line its position and its height, and both carry the
    reference of that text box as picking user data; a text call has the
    label and the trailing length now stored in it.  Text calls only occur
    on a track that is not collapsed.  The output of a thread track is the
    calls its event track made, first, followed by calls of which all of
    this holds as well. *)
Theorem drawn_calls_show_the_stored_boxes env min_tick max_tick :
  (forall tr tr' out c,
      GpuTrack.UpdatePrimitives env tr min_tick max_tick = Ok (tr', out) ->
      In c out ->
      exists ref box box',
        stored_at (GpuTrack.timers_ tr) ref box
        /\ stored_at (GpuTrack.timers_ tr') ref box'
        /\ GetTimerInfo box' = GetTimerInfo box
        /\ drawn_from ref box' c
        /\ (is_primitive c = false ->
            GpuTrack.collapse_toggle_IsCollapsed tr = false))
  /\
  (forall tr tr' out,
      ThreadTrack.UpdatePrimitives env tr min_tick max_tick = Ok (tr', out) ->
      exists event_calls own_calls,
        event_track_UpdatePrimitives env (ThreadTrack.m_Pos tr)
                                     min_tick max_tick
        = Ok event_calls
        /\ out = map FromEventTrack event_calls ++ own_calls
        /\ forall c, In c own_calls ->
             exists ref box box',
               stored_at (ThreadTrack.timers_ tr) ref box
               /\ stored_at (ThreadTrack.timers_ tr') ref box'
               /\ GetTimerInfo box' = GetTimerInfo box
               /\ drawn_from ref box' c
               /\ (is_primitive c = false ->
                   ThreadTrack.collapse_toggle_IsCollapsed tr = false)).
Proof.
  split.
  - intros tr tr' out c H Hin.
    unfold GpuTrack.UpdatePrimitives in H.
    destruct (u64 (getWidth env) =? 0); [ discriminate | ].
    cbv zeta in H. split_bind H. injection H as <- <-.
    destruct (scan_chains_stored _ _ _ _ _ _ _ _ c E Hin)
      as (ref & box & box' & A & B & st0 & st1 & outs & Hb & Hc).
    exists ref, box, box'. cbn [GpuTrack.timers_].
    split; [ exact A | ]. split; [ exact B | ].
    split; [ exact (proj1 (GpuTrack_body_shape _ _ _ _ _ _ _ _ _ _ _ Hb)) | ].
    exact (GpuTrack_process_box_drawn _ _ _ _ _ _ _ _ _ _ _ Hb c Hc).
  - intros tr tr' out H.
    apply ThreadTrack_UpdatePrimitives_split in H.
    destruct H as (ev & own & Hev & H & ->).
    exists ev, own. split; [ exact Hev | ]. split; [ reflexivity | ].
    intros c Hin.
    unfold ThreadTrack.draw_timers in H.
    destruct (u64 (getWidth env) =? 0); [ discriminate | ].
    cbv zeta in H. split_bind H. injection H as <- <-.
    destruct (scan_chains_stored _ _ _ _ _ _ _ _ c E Hin)
      as (ref & box & box' & A & B & st0 & st1 & outs & Hb & Hc).
    exists ref, box, box'. cbn [ThreadTrack.timers_].
    split; [ exact A | ]. split; [ exact B | ].
    split;
      [ exact (proj1 (ThreadTrack_body_shape _ _ _ _ _ _ _ _ _ _ _ Hb)) | ].
    exact (ThreadTrack_process_box_drawn _ _ _ _ _ _ _ _ _ _ _ Hb c Hc).
Qed.

Lemma drawn_calls_show_the_stored_boxes_witness :
  let env := with_event_track busy_event_track sample_env in
  (exists tr' out c ref box',
      GpuTrack.UpdatePrimitives env gpu_two_expanded 0 100000
      = Ok (tr', out)
      /\ In c out
      /\ is_primitive c = false
      /\ stored_at (GpuTrack.timers_ tr') ref box'
      /\ drawn_from ref box' c)
  /\
  (exists tr' out own_calls c ref box',
      ThreadTrack.UpdatePrimitives env thread_two 0 100000 = Ok (tr', out)
      /\ out = [FromEventTrack (mkEventTrackCall 1);
                FromEventTrack (mkEventTrackCall 2)] ++ own_calls
      /\ In c own_calls
      /\ is_primitive c = true
      /\ stored_at (ThreadTrack.timers_ tr') ref box'
      /\ drawn_from ref box' c).
Proof.
  intros env. split.
  - assert (E : exists tr' out c,
               GpuTrack.UpdatePrimitives env gpu_two_expanded 0 100000
               = Ok (tr', out)
               /\ In c out /\ is_primitive c = false).
    { vm_compute. eexists _, _, _. split; [ reflexivity | ].
      split; [ left; reflexivity | reflexivity ]. }
    destruct E as (tr' & out & c & H & Hin & Hp).
    destruct (proj1 (drawn_calls_show_the_stored_boxes env 0 100000)
                    gpu_two_expanded tr' out c H Hin)
      as (ref & box & box' & _ & B & _ & D & _).
    exists tr', out, c, ref, box'.
    repeat (split; [ assumption | ]). exact D.
  - assert (E : exists tr' out c,
               ThreadTrack.UpdatePrimitives env thread_two 0 100000
               = Ok (tr', out)
               /\ nth_error out 3 = Some c /\ is_primitive c = true).
    { vm_compute. eexists _, _, _. split; [ reflexivity | ].
      split; reflexivity. }
    destruct E as (tr' & out & c & H & Hn & Hp).
    destruct (proj2 (drawn_calls_show_the_stored_boxes env 0 100000)
                    thread_two tr' out H)
      as (ev & own & Hev & Hout & Hown).
    vm_compute in Hev. injection Hev as <-.
    cbn [map] in Hout.
    assert (Hin : In c own).
    { rewrite Hout in Hn.
      exact (nth_error_In own 1 Hn). }
    destruct (Hown c Hin) as (ref & box & box' & _ & B & _ & D & _).
    exists tr', out, own, c, ref, box'.
    repeat (split; [ assumption | ]). exact D.
Defined.

(* ----------------------------------------------------------------- *)
(** ** When a frame of the GPU track aborts *)

Lemma is_empty_iff (s : string) : is_empty s = true <-> s = EmptyString.
Proof. destruct s; cbn; split; intros H; congruence. Qed.

Lemma TimerType_eqb_iff (a b : TimerType) :
  TimerType_eqb a b = true <-> a = b.
Proof. destruct a, b; cbn; split; intros H; congruence. Qed.

(** X25. The loop body of the GPU track stops on its [CHECK] exactly when
    the record is neither culled nor ignored, the track is expanded, the
    record is at least a pixel wide, its text box has no label yet and the
    timer is not a GPU-activity timer; it never divides by zero.  When the
    loop over a block meets such a record first, the whole loop stops with
    the failed [CHECK], whatever follows in the block. *)
Theorem GpuTrack_process_box_aborts_exactly_on_check env tr fr
        min_tick max_tick st ref (box : TextBox) :
  (GpuTrack.process_box env tr fr min_tick max_tick st ref box = CheckFailed
   <-> check_fails env fr min_tick max_tick st box)
  /\ GpuTrack.process_box env tr fr min_tick max_tick st ref box
     <> DivisionByZero
  /\ (check_fails env fr min_tick max_tick st box ->
      forall key bi k rest,
        ref = (key, bi, k) ->
        scan_block (GpuTrack.process_box env tr fr min_tick max_tick)
                   key bi k st (box :: rest)
        = CheckFailed).
Proof.
  assert (Hiff :
            GpuTrack.process_box env tr fr min_tick max_tick st ref box
            = CheckFailed
            <-> check_fails env fr min_tick max_tick st box).
  { unfold check_fails, GpuTrack.process_box. cbv zeta.
    set (ti := GetTimerInfo box).
    fold (skipped_by_visibility min_tick max_tick ti).
    fold (skipped_by_ignore st ti).
    fold (normalized_length env (GpuTrack.inv_time_window fr) ti).
    fold (is_visible_width env (GpuTrack.inv_time_window fr) ti).
    destruct (skipped_by_visibility min_tick max_tick ti);
      [ split; [ discriminate | intros (H & _); discriminate H ] | ].
    destruct (skipped_by_ignore st ti);
      [ split; [ discriminate | intros (_ & H & _); discriminate H ] | ].
    destruct (GpuTrack.is_collapsed fr); cbn [andb negb].
    { destruct (negb _);
        [ split; [ discriminate | intros (_ & _ & H & _); discriminate H ] | ].
      destruct (is_visible_width _ _ _); cbn [bind];
        [ split; [ discriminate | intros (_ & _ & H & _); discriminate H ] | ].
      destruct (negb _);
        (split; [ discriminate | intros (_ & _ & H & _); discriminate H ]). }
    destruct (is_visible_width env (GpuTrack.inv_time_window fr) ti).
    2:{ destruct (negb _);
          (split; [ discriminate
                  | intros (_ & _ & _ & H & _); discriminate H ]). }
    unfold GpuTrack.SetTimesliceText.
    change (GetText (SetSize _ (SetPos _ box))) with (GetText box).
    destruct (is_empty (GetText box)) eqn:Ee; cbn [bind].
    2:{ split; [ discriminate | ].
        intros (_ & _ & _ & _ & H & _). apply is_empty_iff in H.
        congruence. }
    apply is_empty_iff in Ee.
    destruct (TimerType_eqb (type ti) kGpuActivity) eqn:Et; cbn [bind].
    - apply TimerType_eqb_iff in Et.
      split; [ discriminate | intros (_ & _ & _ & _ & _ & H); contradiction ].
    - split; [ intros _ | reflexivity ].
      repeat (split; [ reflexivity | ]). split; [ exact Ee | ].
      intros H. apply TimerType_eqb_iff in H. congruence. }
  split; [ exact Hiff | ]. split.
  - unfold GpuTrack.process_box, GpuTrack.SetTimesliceText. cbv zeta.
    repeat case_if; cbn [bind]; discriminate.
  - intros Hc key bi k rest ->. cbn [scan_block].
    rewrite (proj2 Hiff Hc). reflexivity.
Qed.

Lemma GpuTrack_process_box_aborts_exactly_on_check_witness :
  let box := fresh_text_box (sample_timer 0 50000 0 3 kNone) in
  let fr := GpuTrack.head_frame sample_env gpu_two_expanded in
  check_fails sample_env fr 0 100000 (fresh_loop_state 0) box
  /\ scan_block (GpuTrack.process_box sample_env gpu_two_expanded fr
                                      0 100000)
                0 0%nat 0%nat (fresh_loop_state 0) [box; sub_pixel_box]
     = CheckFailed.
Proof.
  intros box fr.
  assert (Hc : check_fails sample_env fr 0 100000 (fresh_loop_state 0) box).
  { unfold check_fails. cbv zeta.
    repeat (split; [ vm_compute; reflexivity | ]). discriminate. }
  split; [ exact Hc | ].
  exact (proj2 (proj2 (GpuTrack_process_box_aborts_exactly_on_check
                         sample_env gpu_two_expanded fr 0 100000
                         (fresh_loop_state 0) (0, 0%nat, 0%nat) box))
               Hc 0 0%nat 0%nat [sub_pixel_box] eq_refl).
Defined.
